(* ===== verification/_CoqProject ===== *)
-Q . S2P
Prelude.v
GoStrings.v
Utf8.v
Json.v
Sha256.v
Encoding.v
Paths.v
Os.v
KubeTypes.v
ApiTypes.v
GoHeap.v
GoCopy.v
DeepCopy.v
Client.v
Files.v
Fake.v
Libs.v
PodSpec.v
PodPolicy.v
SSHCA.v
FakeSSH.v
StatusMonad.v
SandboxRBAC.v
Bootstrap.v
SandboxHome.v
SandboxNet.v
SandboxRun.v
SandboxReconcile.v
PodStart.v
Settled.v
Defects.v
StatusShape.v
SandboxFinalize.v
SandboxController.v
Lifecycle.v
Steady.v
SessionController.v
AccessProfileController.v
Watches.v
Routing.v
Store.v
SSHJump.v
Bridge.v
Agent.v
System.v
Authority.v
Shell.v
Http.v
Redirect.v
Oidc.v
HTTPProxy.v
CookieAuth.v
SignHTTP.v
Cli.v
Commands.v
Operator.v
TestUtils.v
FakeMachine.v
Examples.v
GatewayExamples.v
