(* ===== verification/Prelude.v ===== *)
(** * A verification of kubepark

    kubepark runs personal workspaces ("sandboxes") on Kubernetes. A controller
    turns each [Sandbox] object into a pod, a home volume, a host key, a network
    policy and access rights; a gateway lets the owner in by SSH, wakes a
    suspended sandbox and proxies HTTP; sessions record who was connected and
    drive the idle clock that suspends a sandbox. This library models that code
    and proves what makes it correct.

    ** The program and the files

    - Data. KubeTypes.v: the parts of the Kubernetes types the code reads or
      writes. ApiTypes.v: the four kinds of api/v1alpha1, a record per struct,
      an inductive type per enumerated string. The generated copies of the API
      types (zz_generated.deepcopy.go) alias memory, so they run on a heap of
      their own: GoHeap.v (addresses, structs, slices, maps), GoCopy.v (what a
      copy function promises), DeepCopy.v (all of them, and the registration of
      the types).
    - The world outside. Client.v: every call the code makes to the API server,
      the clock, the environment, the random source and the network is an
      [event]; a handler is a program [prog] that issues events. [call_spec]
      says what each call may answer: reads return what is stored, a write
      that succeeds has the documented effect on the one object it names, and
      any call may fail. Fake.v is an executable server that conforms.
      [wp p Q w] is symbolic execution: [Q] holds whatever a conforming
      environment answers. [trace] speaks about the calls
      themselves; [calls] holds whatever the calls answer. Os.v has the calls
      to the machine (files, processes, the network as an HTTP client sees
      it), Files.v what the documentation of package [os] promises about them,
      and [wpf] is symbolic execution that also sees every intermediate state
      of the files. FakeMachine.v has a machine that conforms.
    - Libraries. Libs.v: apimachinery and controller-runtime functions as the
      class [ApiMachinery] with [ApiMachineryLaws]; SSHCA.v: x/crypto/ssh as
      [SSHLib] with [SSHLaws]; Oidc.v: go-oidc and x/oauth2 as [OIDCLib] with
      [OIDCLaws]; Libs.v, FakeSSH.v and FakeMachine.v have instances that keep
      the laws. Of the standard library what the code uses is written out:
      GoStrings.v (strings, fmt's %q), Utf8.v, Json.v (encoding/json both ways,
      with the round trip and the parser's fuel shown sufficient), Sha256.v,
      Encoding.v (base64, HMAC), Paths.v (path/filepath), Http.v (requests,
      cookies on the wire, a browser's jar with the lifetime of each cookie),
      Redirect.v (the location that net/http's [Redirect] writes).
    - internal/controller/podspec: PodSpec.v renders pod, volume claim and
      network policy; PodPolicy.v gives the policy its meaning and proves the
      security baseline (ingress from the gateway only, egress to DNS unless
      allowed, no privilege, no foreign secret).
    - internal/sshca and gateway/signer.go: SSHCA.v.
    - internal/controller, the sandbox controller: StatusMonad.v threads the
      in-memory status through the handlers as the code does;
      SandboxRBAC.v (sandbox_rbac.go), Bootstrap.v (ca.go and the gateway's own
      key), SandboxHome.v ([reconcileHome], [claimConflict]), SandboxNet.v (host
      key, network policy), SandboxRun.v ([suspend], [run]),
      SandboxReconcile.v ([reconcileSandbox]), PodStart.v (what holds at the
      moment a pod is asked for), StatusShape.v (the shape of the
      status it computes), SandboxFinalize.v ([finalize]),
      SandboxController.v ([Reconcile], the mapping functions of its watches).
      On top of these: Settled.v and Steady.v (a second pass writes nothing),
      Lifecycle.v (stored phase and pod as a small state machine that a pass
      refines together with its status write, failures included), Defects.v
      (promises it does not keep).
    - The other controllers: SessionController.v, AccessProfileController.v;
      Watches.v says what a change of an object requeues.
    - internal/gateway: Routing.v (names), Store.v (the [Store] interface, its
      laws and its implementation by API calls), SSHJump.v (the jump host,
      verified against the laws of [Store]), Bridge.v (its goroutines that copy
      between the two connections), HTTPProxy.v, CookieAuth.v (browser
      sessions), SignHTTP.v (certificates for the command line).
    - internal/agent: Agent.v (configuration, authentication, the commands of a
      session), Shell.v (the persistent shell as a transition system).
    - cmd: Cli.v (cmd/kubepark: keys, login, ssh), Commands.v (main.go,
      agent.go, gateway.go), Operator.v (operator.go). test/utils: TestUtils.v.
    - System.v runs connections, heartbeats and the controllers side by side
      against one server, call by call, with stale reads and crashes; Authority.v
      adds replicas that bootstrap the authority.
    - Examples.v and GatewayExamples.v run the handlers on a small cluster and
      a machine and apply the theorems with hypotheses there.

    A Go function keeps its name; the pieces a long function was cut into are
    the definitions before it. Where two functions share a name the later one
    is prefixed ([session_Reconcile], [profile_Reconcile], [gatewayIdleTimeout],
    [run_sandbox] for the method [run]).

    ** What is proved

    - Access: default deny, bindings exactly as the profile grants, nothing
      written outside ([rbac_default_deny], [rbac_grants_exactly]); a profile's
      roles are exact and its finalizer guards them ([syncRoles_exact],
      [profile_finalizer_guards_roles]).
    - Life of a sandbox: at the moment a pod is asked for, its home, host key,
      policy and credentials are in place, whatever becomes of the pass
      ([pod_starts_prepared]); it is suspended exactly
      when due and never under an active session; Running means a ready pod; an
      idle deadline is scheduled; the finalizer guards a complete cleanup; of
      two sandboxes that name one existing claim at most one is admitted to it
      as things stand ([existing_claim_exclusive]; a pod that runs already is not
      evicted); SSH identity and authority keys are stable; a
      reconciliation writes only what belongs to the sandbox. Each pass with its
      status write, failed or lost ones included, is a step of a machine of stored
      phases and pods whose phase changes are known exactly
      ([reconcile_refines_life], [phase_changes_exact]); when nothing fails they
      are fewer ([undisturbed_changes_exact]). The controller comes to rest:
      after a pass that got through, and while templates, profiles, policies,
      claims, accounts, bindings and the single endpoint slice stay as they are,
      a later one writes the pod at most ([reconcile_settles]), and nothing at
      all for a running sandbox whose pod and sessions did not change either
      ([running_is_quiescent]).
    - Copies: every generated copy succeeds, equals its original and shares no
      memory with it ([deepcopy_independent]), so the status a pass works on is
      private to it ([working_status_private]).
    - Sessions: reaped exactly when stale, the idle clock only moves forward,
      gateway and reaper agree on the deadline, a started session is ended, and
      its bridge returns with both connections closed once the client is gone,
      unless it is in a write that the sandbox does not take ([bridge_ends]).
      Under every interleaving of the components a session's record goes
      forward only and is final once closed ([session_records_forward]), and
      there is one authority, whose keys are never rewritten
      ([authority_is_one]).
    - Gateway: only valid certificates log in, only owners get through, waiting
      ends; HTTP requests are forwarded exactly when they may be and never
      write; host names that fit in a label parse to the target they were built
      from. A session cookie is accepted exactly with the HMAC of its text under
      the gateway's key, spelled out, a payload that says the claims, and before
      its expiry, and is set only for a verified login, which on one host leads
      back to where it started ([login_completes]); which status a sign request
      gets is known for every request.
    - End to end: the client obtains a certificate exactly when the gateway
      grants one, for the principal of its token; the agent admits it in that
      principal's sandboxes only; gateway and agent decide alike; the agent
      starts from the secret the operator writes; the template's command
      reaches it; its binary is installed atomically.
    - The shell: one at a time, shared by all sessions, surviving them.
    - What does not hold: the [source-address] of a certificate is not enforced
      ([source_address_ignored]); a bridge whose client is gone can be held up by
      the sandbox ([bridge_held_by_sandbox]); valid names can be too long to route
      ([long_names_unroutable]) and a base domain in upper case matches nothing
      ([uppercase_base_domain_unreachable]); a browser login cannot complete across hosts
      ([browser_login_never_completes]); a sandbox does not notice that the claim
      it waits for appeared ([missing_claim_unnoticed]); a terminal can leak
      ([terminal_leak]); a half-written key pair stays
      ([half_key_pair_blocks]); without a cookie key cookies can be forged
      ([missing_cookie_key_forgeable]); a claim is handed over while the pod of
      its loser still runs ([loser_keeps_pod]); a terminating pod can be reported
      as running ([terminating_pod_published]); of two sandboxes of one name that
      share a profile the later one takes the binding
      ([same_name_binding_taken]); the policy depends on the order in which the
      API server's endpoint slices are listed ([slice_order_matters]).

    ** Conventions and limits

    - Integers keep Go's width where it matters: durations are [int64] with
      wrap-around and [time.Time.Sub] saturates; certificate times are [uint64].
      An instant is a [Z] of nanoseconds. The API server rounds stored times to
      seconds; this rounding is not modelled.
    - Handlers are proved for one run against a server that changes only by the
      run's own calls (time passes, any call may fail, the sandbox's status and
      pod may have any value to begin with); optimistic locking makes writes
      fail when somebody else was there first. While the gateway waits or
      bridges, anything may happen. System.v and Authority.v drop this assumption
      for the records of sessions and for secrets.
    - [prog] has no unbounded loop. The only loop of the code that is not over a
      list is the jump host's wait; its fuel [wakeFuel] is one round per poll
      interval of the timeout and two more, and [wake_terminates] shows that it
      never runs out. The parsers of Utf8.v and Json.v take the length of their
      input for fuel; [first_value_enough] shows that more changes nothing.
    - HMAC is computed, not assumed unforgeable: the theorems on cookies say
      which values are accepted, not how hard they are to find. Tokens,
      certificates' signatures and TLS are the libraries'.
    - Not modelled: logging, metrics, the manager and its queues, flag parsing,
      the bytes copied between connections, terminals and SFTP, the layout of
      cobra's command trees. Neither is the interleaving
      of reconciliations of sandboxes and profiles with each other (System.v and
      Authority.v have their sessions and secrets only), nor the rounding of stored
      times.

    This file holds the shared parts: notations, hint databases and tactics, machine
    integers, instants, errors and results, generic list lemmas. *)

From Stdlib Require Import String Ascii.
From stdpp Require Import base gmap strings list pretty sorting.
From Stdlib Require Import ZArith Lia.

#[global] Open Scope Z_scope.

(** ** Notations, hint databases and tactics of the development *)

Declare Scope kubepark_scope.
Delimit Scope kubepark_scope with kp.

(** Rules that run one call of a program symbolically, and facts that close
    the routine side conditions. *)
Create HintDb kubepark.

(** The copy functions of structs (DeepCopy.v). *)
Create HintDb deepcopy.

(** Splits the innermost scrutinee of a match in the goal. *)
Ltac split_match :=
  match goal with
  | |- context [match ?x with _ => _ end] =>
    lazymatch x with
    | context [match _ with _ => _ end] => fail
    | _ => let E := fresh "E" in destruct x eqn:E
    end
  end.

(** Splits the innermost scrutinee of a match in a hypothesis. *)
Ltac split_match_in H :=
  match type of H with
  | context [match ?x with _ => _ end] =>
    lazymatch x with
    | context [match _ with _ => _ end] => fail
    | _ => let E := fresh "E" in destruct x eqn:E
    end
  end.

(** ** Machine integers

    Go's [int64] arithmetic wraps around; [time.Duration] is an [int64] of
    nanoseconds. Conversions to [uint64] reduce modulo [2^64]. *)
Definition int64_min : Z := - 2 ^ 63.
Definition int64_max : Z := 2 ^ 63 - 1.

Definition int64_wrap (z : Z) : Z := (z + 2 ^ 63) mod 2 ^ 64 - 2 ^ 63.
Definition uint64_wrap (z : Z) : Z := z mod 2 ^ 64.

(** Conversion to [int32]. *)
Definition int32_wrap (z : Z) : Z := (z + 2 ^ 31) mod 2 ^ 32 - 2 ^ 31.

Definition int64_range (z : Z) : Prop := int64_min <= z <= int64_max.

Lemma int64_wrap_range z : int64_range (int64_wrap z).
Proof.
  unfold int64_range, int64_wrap, int64_min, int64_max.
  pose proof (Z.mod_pos_bound (z + 2 ^ 63) (2 ^ 64)). lia.
Qed.

Lemma int64_wrap_id z : int64_range z → int64_wrap z = z.
Proof.
  unfold int64_range, int64_wrap, int64_min, int64_max. intros.
  rewrite Z.mod_small; lia.
Qed.

Lemma uint64_wrap_id z : 0 <= z < 2 ^ 64 → uint64_wrap z = z.
Proof. unfold uint64_wrap. intros. by rewrite Z.mod_small. Qed.

(** ** Instants and durations

    An instant is its number of nanoseconds since the Unix epoch. Go's zero
    [time.Time] is 1 January of year 1, UTC. *)
Definition Time : Type := Z.
Definition Duration : Type := Z.

Definition Nanosecond : Duration := 1.
Definition Second : Duration := 1000000000.
Definition Minute : Duration := 60 * Second.
Definition Hour : Duration := 60 * Minute.

Definition zeroTime : Time := - 62135596800 * Second.
Definition time_IsZero (t : Time) : bool := t =? zeroTime.

(** [t.Add(d)], [t.Sub(u)] (which saturates), [t.Unix()], [t.Before(u)] and
    [t.After(u)]. *)
Definition time_Add (t : Time) (d : Duration) : Time := t + d.
Definition time_Sub (t u : Time) : Duration :=
  Z.max int64_min (Z.min int64_max (t - u)).
Definition time_Unix (t : Time) : Z := t / Second.
Definition time_Before (t u : Time) : bool := t <? u.
Definition time_After (t u : Time) : bool := u <? t.

(** Arithmetic on durations is [int64] arithmetic. *)
Definition dur_mul (a b : Duration) : Duration := int64_wrap (a * b).
Definition dur_sub (a b : Duration) : Duration := int64_wrap (a - b).
Definition dur_div (a b : Duration) : Duration := Z.quot a b.

Lemma time_Unix_mono t u : t <= u → time_Unix t <= time_Unix u.
Proof. intros. apply Z.div_le_mono; [done|lia]. Qed.

Lemma time_Sub_range t u : int64_range (time_Sub t u).
Proof. unfold time_Sub, int64_range, int64_min, int64_max. lia. Qed.

Lemma time_Sub_exact t u : int64_range (t - u) → time_Sub t u = t - u.
Proof. unfold time_Sub, int64_range. lia. Qed.

(** Saturation never changes the outcome of comparing an elapsed time with a
    representable bound from above. *)
Lemma time_Sub_gt t u d :
  int64_min <= d < int64_max → (d < time_Sub t u ↔ d < t - u).
Proof. unfold time_Sub, int64_min, int64_max. lia. Qed.

Lemma time_Sub_le t u d :
  int64_min <= d < int64_max → (time_Sub t u <= d ↔ t - u <= d).
Proof. unfold time_Sub, int64_min, int64_max. lia. Qed.

(** ** Errors and results

    A Go [error] is seen by this program through its text and, for errors of
    the Kubernetes API, through the status reason that
    [apierrors.IsNotFound] and its siblings recover; wrapping with [%w] keeps
    the reason. *)
Inductive StatusReason :=
  | StatusReasonNotFound
  | StatusReasonAlreadyExists
  | StatusReasonConflict
  | StatusReasonOther.

#[export] Instance StatusReason_eq_dec : EqDecision StatusReason.
Proof. solve_decision. Defined.

Inductive error :=
  | StatusError (reason : StatusReason) (text : string)
  | TextError (text : string)
  | WrapError (prefix : string) (inner : error).

#[export] Instance error_eq_dec : EqDecision error.
Proof. solve_decision. Defined.

Fixpoint error_reason (e : error) : option StatusReason :=
  match e with
  | StatusError r _ => Some r
  | TextError _ => None
  | WrapError _ i => error_reason i
  end.

Fixpoint error_text (e : error) : string :=
  match e with
  | StatusError _ s => s
  | TextError s => s
  | WrapError p i => p +:+ ": " +:+ error_text i
  end.

Definition IsNotFound (e : error) : bool :=
  bool_decide (error_reason e = Some StatusReasonNotFound).
Definition IsAlreadyExists (e : error) : bool :=
  bool_decide (error_reason e = Some StatusReasonAlreadyExists).

Inductive res (A : Type) :=
  | Ok (a : A)
  | Err (e : error).
Arguments Ok {A} a.
Arguments Err {A} e.

Definition is_ok {A} (r : res A) : bool := match r with Ok _ => true | Err _ => false end.

(** [client.IgnoreNotFound] and [client.IgnoreAlreadyExists] on a call that
    returns only an error. *)
Definition IgnoreNotFound (r : res unit) : res unit :=
  match r with
  | Ok u => Ok u
  | Err e => if IsNotFound e then Ok tt else Err e
  end.

Definition IgnoreAlreadyExists (r : res unit) : res unit :=
  match r with
  | Ok u => Ok u
  | Err e => if IsAlreadyExists e then Ok tt else Err e
  end.

(** Dropping the value of a call that is only checked for an error. *)
Definition to_unit {A} (r : res A) : res unit :=
  match r with Ok _ => Ok tt | Err e => Err e end.

(** ** Lists *)

(** [slices.Contains] on strings. *)
Definition contains (l : list string) (s : string) : bool := bool_decide (s ∈ l).

Lemma contains_true l s : contains l s = true ↔ s ∈ l.
Proof. apply bool_decide_eq_true. Qed.

Lemma contains_false l s : contains l s = false ↔ s ∉ l.
Proof. apply bool_decide_eq_false. Qed.

(** First element of a list that satisfies a test, as the code's loops that
    return from their body compute it. *)
Fixpoint find_first {A} (f : A → bool) (l : list A) : option A :=
  match l with
  | [] => None
  | x :: l => if f x then Some x else find_first f l
  end.

Lemma find_first_Some {A} (f : A → bool) l x :
  find_first f l = Some x → x ∈ l ∧ f x = true.
Proof.
  induction l as [|y l IH]; simpl; [done|].
  destruct (f y) eqn:Hy; intros H.
  - simplify_eq. split; [left|done].
  - destruct (IH H). split; [by right|done].
Qed.

Lemma find_first_None {A} (f : A → bool) l :
  find_first f l = None ↔ (∀ x, x ∈ l → f x = false).
Proof.
  induction l as [|y l IH]; simpl.
  - split; [intros _ x Hx; by apply not_elem_of_nil in Hx | done].
  - destruct (f y) eqn:Hy.
    + split; [done|]. intros H. specialize (H y (list_elem_of_here _ _)). congruence.
    + rewrite IH. split; intros H x.
      * intros [->|Hx]%elem_of_cons; auto.
      * intros Hx. apply H. by right.
Qed.
