(* ===== verification/GoStrings.v ===== *)
(** * Go strings

    A Go string is a sequence of bytes, here a [string] of [ascii] codes. This
    file models the functions of package [strings] (and the [%q] verb of
    [fmt]) that kubepark uses, with the facts about [strings.Cut] that the
    routing components rely on. [ToLower] is given on ASCII, which is all an
    HTTP host header may contain. *)

From S2P Require Import Prelude.
From Stdlib Require Import String Ascii OrderedTypeEx.
From stdpp Require Import base strings list.
From Stdlib Require Import ZArith Lia.

Local Open Scope string_scope.

(** ** Prefixes, suffixes and the first occurrence of a separator *)

(** The rest of [s] after the prefix [p], when [s] starts with [p]. *)
Fixpoint strip_prefix (p s : string) : option string :=
  match p, s with
  | EmptyString, _ => Some s
  | String c p', String d s' => if Ascii.eqb c d then strip_prefix p' s' else None
  | _, _ => None
  end.

(** [strings.TrimPrefix]. *)
Definition TrimPrefix (s p : string) : string :=
  match strip_prefix p s with Some r => r | None => s end.

(** The part of [s] before the suffix [p], when [s] ends with [p]. *)
Fixpoint strip_suffix (p s : string) : option string :=
  if String.eqb s p then Some ""
  else match s with
       | EmptyString => None
       | String c s' => match strip_suffix p s' with
                        | Some r => Some (String c r)
                        | None => None
                        end
       end.

(** [strings.HasSuffix] and [strings.TrimSuffix]. *)
Definition HasSuffix (s p : string) : bool :=
  match strip_suffix p s with Some _ => true | None => false end.
Definition TrimSuffix (s p : string) : string :=
  match strip_suffix p s with Some r => r | None => s end.

(** [strings.Cut]: the text before and after the first occurrence of [sep],
    or [None] for Go's [found = false] (where Go returns [s] and the empty
    string). *)
Fixpoint Cut (s sep : string) : option (string * string) :=
  match strip_prefix sep s with
  | Some r => Some ("", r)
  | None => match s with
            | EmptyString => None
            | String c s' => match Cut s' sep with
                             | Some (b, a) => Some (String c b, a)
                             | None => None
                             end
            end
  end.

(** [strings.Contains]. *)
Definition Contains (s sep : string) : bool :=
  match Cut s sep with Some _ => true | None => false end.

(** [strings.Join]. *)
Fixpoint Join (l : list string) (sep : string) : string :=
  match l with
  | [] => ""
  | [x] => x
  | x :: l' => x +:+ sep +:+ Join l' sep
  end.

(** ** Trimming white space

    The white space of [strings.TrimSpace]: six ASCII characters and the
    UTF-8 encodings of the other code points with Unicode's White_Space
    property. *)
Fixpoint bytes (l : list nat) : string :=
  match l with
  | [] => ""
  | n :: l' => String (ascii_of_nat n) (bytes l')
  end.

Definition spaces : list string :=
  bytes <$> ([[9]; [10]; [11]; [12]; [13]; [32]; [194; 133]; [194; 160];
   [225; 154; 128]; [226; 128; 128]; [226; 128; 129]; [226; 128; 130];
   [226; 128; 131]; [226; 128; 132]; [226; 128; 133]; [226; 128; 134];
   [226; 128; 135]; [226; 128; 136]; [226; 128; 137]; [226; 128; 138];
   [226; 128; 168]; [226; 128; 169]; [226; 128; 175]; [226; 129; 159];
   [227; 128; 128]]%nat).

Definition strip_space (s : string) : option string :=
  find_first (λ _, true) (omap (λ p, strip_prefix p s) spaces).

Fixpoint trim_left (fuel : nat) (s : string) : string :=
  match fuel with
  | O => s
  | S n => match strip_space s with Some r => trim_left n r | None => s end
  end.

Definition strip_space_right (s : string) : option string :=
  find_first (λ _, true) (omap (λ p, strip_suffix p s) spaces).

Fixpoint trim_right (fuel : nat) (s : string) : string :=
  match fuel with
  | O => s
  | S n => match strip_space_right s with Some r => trim_right n r | None => s end
  end.

(** Each round removes at least one byte, so the length of the string is
    enough fuel. *)
Definition TrimSpace (s : string) : string :=
  let l := trim_left (String.length s) s in trim_right (String.length l) l.

(** ** Case *)
Definition ascii_lower (c : ascii) : ascii :=
  let n := nat_of_ascii c in
  if ((65 <=? n) && (n <=? 90))%nat then ascii_of_nat (n + 32) else c.

Fixpoint ToLower (s : string) : string :=
  match s with
  | EmptyString => EmptyString
  | String c s' => String (ascii_lower c) (ToLower s')
  end.

(** ** Quoting

    The [%q] verb on printable text: the quote and the backslash are escaped,
    control characters take Go's short or [\xNN] escapes. *)
Definition dquote : string := bytes [34%nat].

Definition hex_digit (n : nat) : ascii :=
  ascii_of_nat (if (n <? 10)%nat then 48 + n else 87 + n)%nat.

Definition quote_char (c : ascii) : string :=
  match nat_of_ascii c with
  | 34 => bytes [92; 34]
  | 92 => bytes [92; 92]
  | 7 => bytes [92; 97] | 8 => bytes [92; 98] | 9 => bytes [92; 116]
  | 10 => bytes [92; 110] | 11 => bytes [92; 118] | 12 => bytes [92; 102]
  | 13 => bytes [92; 114]
  | n => if ((n <? 32) || (n =? 127))%nat
         then "\x" +:+ String (hex_digit (n / 16)) (String (hex_digit (n mod 16)) "")
         else String c ""
  end%nat.

Fixpoint quote_body (s : string) : string :=
  match s with
  | EmptyString => EmptyString
  | String c s' => quote_char c +:+ quote_body s'
  end.

Definition quote (s : string) : string := dquote +:+ quote_body s +:+ dquote.

(** ** Facts *)

#[local] Arguments String.append !_ _ / : simpl nomatch.
#[local] Arguments String.eqb : simpl never.

Lemma append_nil_r s : s +:+ "" = s.
Proof. induction s as [|c s IH]; [done|]. simpl. by rewrite IH. Qed.

Lemma append_assoc a b c : (a +:+ b) +:+ c = a +:+ b +:+ c.
Proof. induction a as [|x a IH]; [done|]. simpl. by rewrite IH. Qed.

Lemma append_length a b : String.length (a +:+ b) = (String.length a + String.length b)%nat.
Proof. induction a as [|x a IH]; [done|]. simpl. by rewrite IH. Qed.

Lemma append_inj_l p a b : p +:+ a = p +:+ b → a = b.
Proof. induction p as [|c p IH]; simpl; [done|]. intros. simplify_eq. auto. Qed.

Lemma append_inj_r a b p : a +:+ p = b +:+ p → a = b.
Proof.
  revert b. induction a as [|c a IH]; intros [|d b]; simpl; intros H; [done| | |].
  - apply (f_equal String.length) in H. simpl in H. rewrite append_length in H. lia.
  - apply (f_equal String.length) in H. simpl in H. rewrite append_length in H. lia.
  - simplify_eq. f_equal. auto.
Qed.

Lemma strip_prefix_Some p s r : strip_prefix p s = Some r ↔ s = p +:+ r.
Proof.
  revert s. induction p as [|c p IH]; intros s; simpl.
  - split; [intros [= ->] | intros ->]; done.
  - destruct s as [|d s]; [done|]. destruct (Ascii.eqb_spec c d) as [->|Hne].
    + rewrite IH. split; [by intros -> | intros; by simplify_eq].
    + split; [done|]. intros; by simplify_eq.
Qed.

Lemma strip_suffix_Some p s r : strip_suffix p s = Some r ↔ s = r +:+ p.
Proof.
  revert r. induction s as [|c s IH]; intros r; simpl.
  - destruct (String.eqb_spec "" p) as [<-|Hne].
    + split; [by intros [= <-]|]. rewrite append_nil_r. by intros <-.
    + split; [done|]. intros H. destruct r, p; done.
  - destruct (String.eqb_spec (String c s) p) as [<-|Hne].
    + split; [by intros [= <-]|]. intros H.
      change (String c s) with ("" +:+ String c s) in H at 1.
      apply append_inj_r in H. by subst.
    + destruct (strip_suffix p s) as [q|].
      * pose proof (proj1 (IH q) eq_refl) as ->. clear IH. split; [by intros [= <-]|].
        destruct r as [|d r]; simpl; intros H; [done|]. injection H as -> H.
        by apply append_inj_r in H as ->.
      * split; [done|]. destruct r as [|d r]; simpl; intros H; [done|].
        simplify_eq. by pose proof (proj2 (IH r) eq_refl).
Qed.

(** What [Cut] returns really splits the string at the separator. *)
Lemma Cut_Some s sep b a : Cut s sep = Some (b, a) → s = b +:+ sep +:+ a.
Proof.
  revert b. induction s as [|c s IH]; intros b; simpl.
  - destruct (strip_prefix sep "") eqn:E; [|done].
    intros; simplify_eq. by apply strip_prefix_Some in E.
  - destruct (strip_prefix sep (String c s)) eqn:E.
    + intros; simplify_eq. by apply strip_prefix_Some in E.
    + destruct (Cut s sep) as [[b' a']|]; [|done].
      intros; simplify_eq. simpl. f_equal. auto.
Qed.

(** ... and it does so at the first place where the separator occurs. *)
Lemma Cut_first s sep b a b' a' :
  Cut s sep = Some (b, a) → s = b' +:+ sep +:+ a' →
  (String.length b <= String.length b')%nat.
Proof.
  revert b b'. induction s as [|c s IH]; intros b b'; simpl.
  - destruct (strip_prefix sep ""); [|done]. intros; simplify_eq. simpl. lia.
  - destruct (strip_prefix sep (String c s)) eqn:E.
    + intros; simplify_eq. simpl. lia.
    + destruct (Cut s sep) as [[b0 a0]|]; [|done]. intros H1 H2. simplify_eq.
      destruct b' as [|d b']; simpl in *.
      * assert (strip_prefix sep (String c s) = Some a') by by apply strip_prefix_Some.
        congruence.
      * simplify_eq. specialize (IH _ b' eq_refl eq_refl). lia.
Qed.

Lemma Cut_None s sep : Cut s sep = None ↔ ∀ b a, s ≠ b +:+ sep +:+ a.
Proof.
  split.
  - intros H b a ->. revert H. induction b as [|c b IH]; simpl.
    + assert (strip_prefix sep (sep +:+ a) = Some a) as E by by apply strip_prefix_Some.
      destruct (sep +:+ a); simpl; by rewrite E.
    + destruct (strip_prefix sep _); [done|].
      destruct (Cut (b +:+ sep +:+ a) sep) as [[]|]; [done|]. auto.
  - intros H. destruct (Cut s sep) as [[b a]|] eqn:E; [|done].
    apply Cut_Some in E. by apply H in E.
Qed.

(** A separator that cannot start inside [b] is found right after it. *)
Lemma Cut_unique s sep b a :
  s = b +:+ sep +:+ a →
  (∀ b' a', s = b' +:+ sep +:+ a' → (String.length b <= String.length b')%nat) →
  Cut s sep = Some (b, a).
Proof.
  intros Hs Hmin. destruct (Cut s sep) as [[b' a']|] eqn:E.
  - pose proof (Cut_Some _ _ _ _ E) as E'.
    pose proof (Cut_first _ _ _ _ _ _ E Hs) as H1.
    specialize (Hmin _ _ E'). rewrite Hs in E'. clear E Hs.
    revert b' E' H1 Hmin. induction b as [|c b IH]; intros [|d b']; simpl; intros E' ??;
      try lia.
    + by apply append_inj_l in E' as ->.
    + simplify_eq. assert (Some (b', a') = Some (b, a)) as ?.
      { apply IH; [done|lia|lia]. } by simplify_eq.
  - apply Cut_None with (b := b) (a := a) in E. done.
Qed.

(** ** The order of strings

    Go's [<] on strings compares bytes lexicographically, as [String.ltb]
    does. *)

Lemma ltb_lt a b : String.ltb a b = true ↔ String_as_OT.lt a b.
Proof.
  rewrite <- String_as_OT.cmp_lt. unfold String.ltb, String_as_OT.cmp.
  destruct (String.compare a b); done.
Qed.

Lemma ltb_trans a b c : String.ltb a b = true → String.ltb b c = true → String.ltb a c = true.
Proof. rewrite !ltb_lt. apply String_as_OT.lt_trans. Qed.

Lemma ltb_asym a b : String.ltb a b = true → String.ltb b a = false.
Proof.
  unfold String.ltb. rewrite (String.compare_antisym b a).
  destruct (String.compare a b); done.
Qed.

Lemma ltb_total a b : a ≠ b → String.ltb a b = true ∨ String.ltb b a = true.
Proof.
  intros Hne. unfold String.ltb. rewrite (String.compare_antisym b a).
  destruct (String.compare a b) eqn:E; [|by left|by right].
  by apply String.compare_eq_iff in E.
Qed.

(** ** Characters of a string *)

Fixpoint all_chars (f : ascii → bool) (s : string) : bool :=
  match s with EmptyString => true | String c s => f c && all_chars f s end.

Lemma all_chars_append f a b : all_chars f (a +:+ b) = all_chars f a && all_chars f b.
Proof. induction a as [|c a IH]; simpl; [done|]. by rewrite IH, andb_assoc. Qed.

Lemma all_chars_mono (f g : ascii → bool) s :
  (∀ c, f c = true → g c = true) → all_chars f s = true → all_chars g s = true.
Proof.
  intros Hfg. induction s as [|c s IH]; simpl; [done|]. rewrite !andb_true_iff. intros [? ?]; auto.
Qed.
