(* ===== verification/Utf8.v ===== *)
(** * Runes and UTF-8

    What [encoding/json] uses of [unicode/utf8] and [unicode/utf16]: decoding
    the rune at the front of a byte string, encoding a rune, and joining
    surrogates. A byte that starts no valid sequence is read as U+FFFD, one
    byte at a time; [to_valid] is the text such a reading produces. *)

From S2P Require Import Prelude GoStrings.
From Stdlib Require Import String Ascii.
From stdpp Require Import base strings list.
From Stdlib Require Import ZArith Lia.
Local Open Scope Z_scope.

#[local] Ltac Zify.zify_post_hook ::= Z.div_mod_to_equations.

#[local] Arguments String.append !_ _ / : simpl nomatch.

Definition code (c : ascii) : Z := Z.of_nat (nat_of_ascii c).
Definition chr (z : Z) : ascii := ascii_of_nat (Z.to_nat z).

Definition RuneError : Z := 65533.

Definition continues (c : ascii) (lo hi : Z) : bool := (lo <=? code c) && (code c <=? hi).

(** [utf8.DecodeRune] of a valid multi-byte sequence: the rune and the rest
    of the input. The ranges are those of [utf8]'s [first] and [acceptRanges]
    tables. *)
Definition next_rune (s : string) : option (Z * string) :=
  match s with
  | String c0 (String c1 s1) =>
    let b0 := code c0 in
    if (194 <=? b0) && (b0 <=? 223) then
      if continues c1 128 191 then Some ((b0 - 192) * 64 + (code c1 - 128), s1) else None
    else match s1 with
    | String c2 s2 =>
      if (224 <=? b0) && (b0 <=? 239) then
        let lo := if b0 =? 224 then 160 else 128 in
        let hi := if b0 =? 237 then 159 else 191 in
        if continues c1 lo hi && continues c2 128 191
        then Some ((b0 - 224) * 4096 + (code c1 - 128) * 64 + (code c2 - 128), s2) else None
      else match s2 with
      | String c3 s3 =>
        if (240 <=? b0) && (b0 <=? 244) then
          let lo := if b0 =? 240 then 144 else 128 in
          let hi := if b0 =? 244 then 143 else 191 in
          if continues c1 lo hi && continues c2 128 191 && continues c3 128 191
          then Some ((b0 - 240) * 262144 + (code c1 - 128) * 4096 + (code c2 - 128) * 64 + (code c3 - 128), s3)
          else None
        else None
      | _ => None
      end
    | _ => None
    end
  | _ => None
  end.

(** [utf8.AppendRune]. *)
Definition valid_rune (r : Z) : bool :=
  ((0 <=? r) && (r <? 55296)) || ((57344 <=? r) && (r <=? 1114111)).

Definition encode_valid (r : Z) : string :=
  if r <? 128 then String (chr r) ""
  else if r <? 2048 then String (chr (192 + r / 64)) (String (chr (128 + r mod 64)) "")
  else if r <? 65536 then
    String (chr (224 + r / 4096)) (String (chr (128 + r / 64 mod 64)) (String (chr (128 + r mod 64)) ""))
  else String (chr (240 + r / 262144)) (String (chr (128 + r / 4096 mod 64))
         (String (chr (128 + r / 64 mod 64)) (String (chr (128 + r mod 64)) ""))).

Definition encode_rune (r : Z) : string := encode_valid (if valid_rune r then r else RuneError).

(** [utf16.IsSurrogate] and [utf16.DecodeRune]. *)
Definition IsSurrogate (r : Z) : bool := (55296 <=? r) && (r <? 57344).

Definition join_surrogates (r1 r2 : Z) : option Z :=
  if (55296 <=? r1) && (r1 <? 56320) && (56320 <=? r2) && (r2 <? 57344)
  then Some ((r1 - 55296) * 1024 + (r2 - 56320) + 65536) else None.

(** The text read rune by rune, [n] bytes of fuel. *)
Fixpoint to_valid_fuel (n : nat) (s : string) : string :=
  match n, s with
  | S n, String c s' =>
    if code c <? 128 then String c (to_valid_fuel n s')
    else match next_rune s with
         | Some (r, rest) => encode_rune r +:+ to_valid_fuel n rest
         | None => encode_rune RuneError +:+ to_valid_fuel n s'
         end
  | _, _ => ""
  end.

Definition to_valid (s : string) : string := to_valid_fuel (String.length s) s.

Definition valid_utf8 (s : string) : bool := String.eqb (to_valid s) s.

(** ** Proofs *)

Lemma code_range c : 0 <= code c < 256.
Proof. unfold code. pose proof (nat_ascii_bounded c). lia. Qed.

Lemma chr_code c : chr (code c) = c.
Proof. unfold chr, code. rewrite Nat2Z.id. apply ascii_nat_embedding. Qed.

Lemma code_chr z : 0 <= z < 256 → code (chr z) = z.
Proof. intros. unfold chr, code. rewrite nat_ascii_embedding; lia. Qed.

Lemma cons_chr c z s t : code c = z → s = t → String c s = String (chr z) t.
Proof. intros <- ->. by rewrite chr_code. Qed.

Ltac split_ranges :=
  repeat match goal with
  | H : (_ && _)%bool = true |- _ => apply andb_prop in H as [? ?]
  | H : (_ <=? _) = true |- _ => apply Z.leb_le in H
  | H : (_ <? _) = true |- _ => apply Z.ltb_lt in H
  | H : (_ <=? _) = false |- _ => apply Z.leb_gt in H
  | H : (_ <? _) = false |- _ => apply Z.ltb_ge in H
  end.

Ltac split_ifs :=
  repeat match goal with
  | H : context [if ?b then _ else _] |- _ => destruct b eqn:?
  end; split_ranges.

(** The sequence a rune was decoded from. *)
Lemma next_rune_Some s r rest :
  next_rune s = Some (r, rest) →
  128 <= r ∧ valid_rune r = true ∧ s = encode_valid r +:+ rest.
Proof.
  unfold next_rune, continues. intros H.
  destruct s as [|c0 [|c1 s1]]; [done..|]. pose proof (code_range c0). pose proof (code_range c1).
  destruct ((194 <=? code c0) && (code c0 <=? 223)) eqn:E0.
  - destruct (_ && _) eqn:E1 in H; [|done]. injection H as <- <-. split_ranges.
    split; [lia|]. unfold valid_rune, encode_valid.
    rewrite (proj2 (Z.ltb_ge _ 128)), (proj2 (Z.ltb_lt _ 2048)) by lia. split; [lia|].
    cbn [String.append]. by repeat (apply cons_chr; [lia|]).
  - destruct s1 as [|c2 s2]; [done|]. pose proof (code_range c2).
    destruct ((224 <=? code c0) && (code c0 <=? 239)) eqn:E1.
    + destruct (_ && _) eqn:E2 in H; [|done]. injection H as <- <-. split_ranges.
      assert (2048 <= (code c0 - 224) * 4096 + (code c1 - 128) * 64 + (code c2 - 128) < 65536)
        by (split_ifs; lia).
      split; [lia|]. unfold valid_rune, encode_valid.
      rewrite (proj2 (Z.ltb_ge _ 128)), (proj2 (Z.ltb_ge _ 2048)), (proj2 (Z.ltb_lt _ 65536)) by lia.
      split; [split_ifs; lia|]. assert (128 <= code c1 <= 191) by (split_ifs; lia).
      cbn [String.append]. by repeat (apply cons_chr; [lia|]).
    + destruct s2 as [|c3 s3]; [done|]. pose proof (code_range c3).
      destruct ((240 <=? code c0) && (code c0 <=? 244)) eqn:E2; [|done].
      destruct (_ && _) eqn:E3 in H; [|done]. injection H as <- <-. split_ranges.
      assert (128 <= code c1 <= 191) by (split_ifs; lia).
      set (r := (code c0 - 240) * 262144 + (code c1 - 128) * 4096 + (code c2 - 128) * 64 + (code c3 - 128)).
      assert (65536 <= r < 1114112)
        by (unfold r; split_ifs; lia).
      split; [lia|]. unfold valid_rune, encode_valid.
      rewrite (proj2 (Z.ltb_ge _ 128)), (proj2 (Z.ltb_ge _ 2048)), (proj2 (Z.ltb_ge _ 65536)) by lia.
      split; [lia|]. unfold r.
      cbn [String.append]. by repeat (apply cons_chr; [lia|]).
Qed.

Lemma valid_rune_spec r :
  valid_rune r = true ↔ 0 <= r < 55296 ∨ 57344 <= r <= 1114111.
Proof. unfold valid_rune. lia. Qed.

(** An encoded rune is decoded from the front of any text. *)
Lemma next_rune_encode r rest :
  valid_rune r = true → 128 <= r → next_rune (encode_valid r +:+ rest) = Some (r, rest).
Proof.
  intros Hv%valid_rune_spec Hr. unfold encode_valid.
  rewrite (proj2 (Z.ltb_ge _ 128)) by lia. destruct (Z.ltb_spec r 2048).
  { cbn. unfold continues. rewrite !code_chr by lia.
    rewrite (proj2 (Z.leb_le _ _)) by lia. rewrite (proj2 (Z.leb_le _ _)) by lia.
    rewrite (proj2 (Z.leb_le _ _)) by lia. rewrite (proj2 (Z.leb_le _ _)) by lia. cbn. repeat f_equal. lia. }
  destruct (Z.ltb_spec r 65536); cbn; unfold continues; rewrite !code_chr by lia.
  - destruct (224 + r / 4096 <=? 223) eqn:E; [lia|]. rewrite andb_false_r. cbn.
    rewrite (proj2 (Z.leb_le 224 _)), (proj2 (Z.leb_le _ 239)) by lia. cbn.
    destruct (Z.eqb_spec (224 + r / 4096) 224), (Z.eqb_spec (224 + r / 4096) 237);
      repeat rewrite (proj2 (Z.leb_le _ _)) by lia; cbn; repeat f_equal; lia.
  - destruct (240 + r / 262144 <=? 223) eqn:E; [lia|]. rewrite andb_false_r. cbn.
    destruct (240 + r / 262144 <=? 239) eqn:E'; [lia|]. rewrite andb_false_r. cbn.
    rewrite (proj2 (Z.leb_le 240 _)), (proj2 (Z.leb_le _ 244)) by lia. cbn.
    destruct (Z.eqb_spec (240 + r / 262144) 240), (Z.eqb_spec (240 + r / 262144) 244);
      repeat rewrite (proj2 (Z.leb_le _ _)) by lia; cbn; repeat f_equal; lia.
Qed.

(** Every byte of an encoded multi-byte rune is outside ASCII. *)
Lemma encode_valid_head r :
  valid_rune r = true → 128 <= r → ∃ c t, encode_valid r = String c t ∧ 194 <= code c.
Proof.
  intros Hv%valid_rune_spec Hr. unfold encode_valid. rewrite (proj2 (Z.ltb_ge _ 128)) by lia.
  destruct (Z.ltb_spec r 2048); [|destruct (Z.ltb_spec r 65536)];
    eexists _, _; (split; [reflexivity|]); rewrite code_chr by lia; lia.
Qed.

Lemma next_rune_shorter s r rest : next_rune s = Some (r, rest) → (String.length rest < String.length s)%nat.
Proof.
  intros (Hr & Hv & ->)%next_rune_Some. destruct (encode_valid_head r Hv Hr) as (c & t & -> & _).
  rewrite append_length. simpl. lia.
Qed.

Lemma encode_rune_valid r : valid_rune r = true → encode_rune r = encode_valid r.
Proof. unfold encode_rune. by intros ->. Qed.

(** Reading text rune by rune is independent of the fuel once it covers the
    text. *)
Lemma to_valid_fuel_enough n m s :
  (String.length s <= n)%nat → (String.length s <= m)%nat → to_valid_fuel n s = to_valid_fuel m s.
Proof.
  revert m s. induction n as [|n IH]; intros [|m] [|c s] Hn Hm; try done; [simpl in *; lia..|].
  cbn [to_valid_fuel]. simpl in Hn, Hm. destruct (code c <? 128); [f_equal; apply IH; lia|].
  destruct (next_rune (String c s)) as [[r rest]|] eqn:Hr; [|f_equal; apply IH; lia].
  apply next_rune_shorter in Hr. simpl in Hr. f_equal. apply IH; lia.
Qed.

Lemma to_valid_ascii c s : code c < 128 → to_valid (String c s) = String c (to_valid s).
Proof. intros H%Z.ltb_lt. unfold to_valid. cbn [String.length to_valid_fuel]. by rewrite H. Qed.

Lemma to_valid_rune s r rest :
  next_rune s = Some (r, rest) → to_valid s = encode_valid r +:+ to_valid rest.
Proof.
  intros Hr. pose proof (next_rune_shorter _ _ _ Hr) as Hl. pose proof (next_rune_Some _ _ _ Hr) as (H1 & H2 & Hs).
  destruct (encode_valid_head r H2 H1) as (c & t & He & Hc).
  destruct s as [|c' s']; [done|]. rewrite He in Hs. injection Hs as -> _. unfold to_valid. cbn [String.length to_valid_fuel].
  rewrite (proj2 (Z.ltb_ge _ 128)) by lia. rewrite Hr, encode_rune_valid by done. f_equal.
  simpl in Hl. apply to_valid_fuel_enough; lia.
Qed.

Lemma to_valid_invalid c s :
  128 <= code c → next_rune (String c s) = None → to_valid (String c s) = encode_rune RuneError +:+ to_valid s.
Proof.
  intros H%Z.ltb_ge Hr. unfold to_valid. cbn [String.length to_valid_fuel]. by rewrite H, Hr.
Qed.

(** Induction along the reading of a text. *)
Lemma rune_ind (P : string → Prop) :
  P "" →
  (∀ c s, code c < 128 → P s → P (String c s)) →
  (∀ s r rest, next_rune s = Some (r, rest) → P rest → P s) →
  (∀ c s, 128 <= code c → next_rune (String c s) = None → P s → P (String c s)) →
  ∀ s, P s.
Proof.
  intros H0 H1 H2 H3. assert (∀ n s, (String.length s <= n)%nat → P s) as Hn; [|intros s; by apply (Hn (String.length s))].
  induction n as [|n IH]; intros [|c s] Hl; try done; simpl in Hl; [lia|].
  destruct (Z.ltb_spec (code c) 128); [apply H1; [done|apply IH; lia]|].
  destruct (next_rune (String c s)) as [[r rest]|] eqn:Hr; [|apply H3; [done..|apply IH; lia]].
  eapply H2; [done|]. apply next_rune_shorter in Hr. simpl in Hr. apply IH. lia.
Qed.

(** A text that has been read is valid. *)
Lemma to_valid_idem s : to_valid (to_valid s) = to_valid s.
Proof.
  induction s as [|c s Hc IH|s r rest Hr IH|c s Hc Hr IH] using rune_ind; [done|..].
  - by rewrite !to_valid_ascii, IH by done.
  - rewrite (to_valid_rune _ _ _ Hr). apply next_rune_Some in Hr as (H1 & H2 & _).
    by rewrite (to_valid_rune _ _ _ (next_rune_encode _ _ H2 H1)), IH.
  - rewrite to_valid_invalid by done.
    by rewrite (to_valid_rune _ _ _ (next_rune_encode RuneError _ eq_refl ltac:(unfold RuneError; lia))), IH.
Qed.
