(* ===== verification/Json.v ===== *)
(** * JSON text

    What the gateway and the client use of [encoding/json]: the syntax the
    decoder accepts ([checkValid] and the literal scanners), the strings it
    reads, the text the encoder writes, and the rules for storing a value in
    a field of a struct. Numbers keep their literal, as the decoder does
    until it knows the type of the target. *)

From S2P Require Import Prelude GoStrings Utf8.
From Stdlib Require Import String Ascii.
From stdpp Require Import base strings list pretty.
From Stdlib Require Import ZArith Lia.
Local Open Scope Z_scope.

#[local] Arguments String.append !_ _ / : simpl nomatch.

#[local] Set Warnings "-register-all".
Inductive json :=
  | JNull
  | JBool (b : bool)
  | JNumber (lit : string)
  | JString (s : string)
  | JArray (l : list json)
  | JObject (m : list (string * json)).

(** ** Encoding ([appendString], [Marshal]) *)

Definition backslash : ascii := chr 92.

Definition hex4 (z : Z) : string :=
  let d (k : Z) := hex_digit (Z.to_nat (z / k mod 16)) in
  String (d 4096) (String (d 256) (String (d 16) (String (d 1) ""))).

Definition escape_u (z : Z) : string := String backslash (String "u" (hex4 z)).

(** One ASCII character; [<], [>] and [&] are escaped for HTML. *)
Definition escape_char (c : ascii) : string :=
  let n := code c in
  if (n =? 34) || (n =? 92) then String backslash (String c "")
  else if n =? 8 then String backslash "b"
  else if n =? 12 then String backslash "f"
  else if n =? 10 then String backslash "n"
  else if n =? 13 then String backslash "r"
  else if n =? 9 then String backslash "t"
  else if (n <? 32) || (n =? 60) || (n =? 62) || (n =? 38) then escape_u n
  else String c "".

Fixpoint quote_fuel (n : nat) (s : string) : string :=
  match n, s with
  | S n, String c s' =>
    if code c <? 128 then escape_char c +:+ quote_fuel n s'
    else match next_rune s with
         | Some (r, rest) =>
           (if (r =? 8232) || (r =? 8233) then escape_u r else encode_rune r) +:+ quote_fuel n rest
         | None => escape_u RuneError +:+ quote_fuel n s'
         end
  | _, _ => ""
  end.

Definition quote_text (s : string) : string := quote_fuel (String.length s) s.
Definition json_string (s : string) : string := dquote +:+ quote_text s +:+ dquote.

Fixpoint print (v : json) : string :=
  match v with
  | JNull => "null"
  | JBool true => "true"
  | JBool false => "false"
  | JNumber lit => lit
  | JString s => json_string s
  | JArray l => "[" +:+ GoStrings.Join (map print l) "," +:+ "]"
  | JObject m => "{" +:+ GoStrings.Join (map (λ p, json_string p.1 +:+ ":" +:+ print p.2) m) "," +:+ "}"
  end.

(** ** Reading a string literal ([unquoteBytes]) *)

Definition hex_value (c : ascii) : option Z :=
  let n := code c in
  if (48 <=? n) && (n <=? 57) then Some (n - 48)
  else if (97 <=? n) && (n <=? 102) then Some (n - 87)
  else if (65 <=? n) && (n <=? 70) then Some (n - 55)
  else None.

Definition getu4 (s : string) : option (Z * string) :=
  match s with
  | String a (String b (String c (String d rest))) =>
    match hex_value a, hex_value b, hex_value c, hex_value d with
    | Some a, Some b, Some c, Some d => Some (((a * 16 + b) * 16 + c) * 16 + d, rest)
    | _, _, _, _ => None
    end
  | _ => None
  end.

Definition unescape (e : ascii) : option ascii :=
  let n := code e in
  if (n =? 34) || (n =? 92) || (n =? 47) then Some e
  else if n =? 98 then Some (chr 8)
  else if n =? 102 then Some (chr 12)
  else if n =? 110 then Some (chr 10)
  else if n =? 114 then Some (chr 13)
  else if n =? 116 then Some (chr 9)
  else None.

(** The rune of a [\u] escape whose four digits gave [r], joined with a
    following low surrogate; a surrogate alone is replaced. *)
Definition escaped_rune (r : Z) (rest : string) : Z * string :=
  if IsSurrogate r then
    match GoStrings.strip_prefix (String backslash "u") rest with
    | Some t =>
      match getu4 t with
      | Some (r2, rest2) =>
        match join_surrogates r r2 with
        | Some d => (d, rest2)
        | None => (RuneError, rest)
        end
      | None => (RuneError, rest)
      end
    | None => (RuneError, rest)
    end
  else (r, rest).

Definition prepend (t : string) (o : option (string * string)) : option (string * string) :=
  match o with
  | Some (u, rest) => Some (t +:+ u, rest)
  | None => None
  end.

(** After the opening quote: the text and what follows the closing one. *)
Fixpoint unquote (n : nat) (s : string) : option (string * string) :=
  match n, s with
  | S n, String c s' =>
    if code c =? 34 then Some ("", s')
    else if code c =? 92 then
      match s' with
      | String e s2 =>
        if code e =? 117 then
          match getu4 s2 with
          | Some (r, s3) => let '(r', s4) := escaped_rune r s3 in prepend (encode_rune r') (unquote n s4)
          | None => None
          end
        else match unescape e with
             | Some d => prepend (String d "") (unquote n s2)
             | None => None
             end
      | _ => None
      end
    else if code c <? 32 then None
    else if code c <? 128 then prepend (String c "") (unquote n s')
    else match next_rune s with
         | Some (r, rest) => prepend (encode_rune r) (unquote n rest)
         | None => prepend (encode_rune RuneError) (unquote n s')
         end
  | _, _ => None
  end.

Definition read_string (s : string) : option (string * string) := unquote (String.length s) s.

(** ** Numbers *)

Definition is_digit (c : ascii) : bool := (48 <=? code c) && (code c <=? 57).

Fixpoint take_digits (s : string) : string * string :=
  match s with
  | String c s' => if is_digit c then let '(d, r) := take_digits s' in (String c d, r) else ("", s)
  | _ => ("", "")
  end.

(** At least one digit. *)
Definition digits1 (s : string) : option (string * string) :=
  match take_digits s with
  | ("", _) => None
  | p => Some p
  end.

Definition int_part (s : string) : option (string * string) :=
  match s with
  | String c s' => if code c =? 48 then Some (String c "", s') else digits1 s
  | _ => None
  end.

Definition frac_part (s : string) : option (string * string) :=
  match s with
  | String c s' => if code c =? 46 then prepend (String c "") (digits1 s') else Some ("", s)
  | _ => Some ("", s)
  end.

Definition exp_part (s : string) : option (string * string) :=
  match s with
  | String c s' =>
    if (code c =? 101) || (code c =? 69) then
      match s' with
      | String d s2 => if (code d =? 43) || (code d =? 45) then prepend (String c (String d "")) (digits1 s2)
                       else prepend (String c "") (digits1 s')
      | _ => None
      end
    else Some ("", s)
  | _ => Some ("", s)
  end.

Definition unsigned_number (s : string) : option (string * string) :=
  match int_part s with
  | Some (i, s1) => match frac_part s1 with
                    | Some (f, s2) => prepend (i +:+ f) (exp_part s2)
                    | None => None
                    end
  | None => None
  end.

Definition scan_number (s : string) : option (string * string) :=
  match s with
  | String c s' => if code c =? 45 then prepend (String c "") (unsigned_number s') else unsigned_number s
  | _ => None
  end.

(** [strconv.ParseInt(s, 10, 64)] of a number literal. *)
Fixpoint digits_value (acc : Z) (s : string) : option Z :=
  match s with
  | String c s' => if is_digit c then digits_value (acc * 10 + (code c - 48)) s' else None
  | _ => Some acc
  end.

Definition ParseInt (s : string) : option Z :=
  let v := match s with
           | String c s' =>
             if code c =? 45 then match s' with
                                  | "" => None
                                  | _ => match digits_value 0 s' with Some v => Some (- v) | None => None end
                                  end
             else digits_value 0 s
           | _ => None
           end in
  match v with
  | Some z => if (int64_min <=? z) && (z <=? int64_max) then Some z else None
  | None => None
  end.

(** ** Values *)

Definition maxNestingDepth : Z := 10000.

Definition is_space (c : ascii) : bool :=
  (code c =? 32) || (code c =? 9) || (code c =? 10) || (code c =? 13).

Fixpoint skip_space (s : string) : string :=
  match s with
  | String c s' => if is_space c then skip_space s' else s
  | _ => s
  end.

Definition literal (word : string) (v : json) (s : string) : option (json * string) :=
  match GoStrings.strip_prefix word s with Some rest => Some (v, rest) | None => None end.

(** A member of an object, its value read by [val]. *)
Definition member (val : string → option (json * string)) (s : string) : option (string * json * string) :=
  match skip_space s with
  | String q s0 =>
    if code q =? 34 then
      match read_string s0 with
      | Some (k, s1) =>
        match skip_space s1 with
        | String c s2 =>
          if code c =? 58 then match val s2 with Some (v, s3) => Some (k, v, s3) | None => None end
          else None
        | _ => None
        end
      | None => None
      end
    else None
  | _ => None
  end.

(** [value n d s]: the value at the front of [s], inside [d] open brackets,
    and what follows it. [elements] and [members] read what follows the
    bracket of an array or object that is not empty. *)
Fixpoint value (n : nat) (d : Z) (s : string) : option (json * string) :=
  match n with
  | O => None
  | S n =>
    match skip_space s with
    | String c s' as s0 =>
      if code c =? 34 then match read_string s' with Some (t, rest) => Some (JString t, rest) | None => None end
      else if code c =? 91 then
        if maxNestingDepth <? d + 1 then None
        else match skip_space s' with
             | String e rest =>
               if code e =? 93 then Some (JArray [], rest)
               else match elements n (d + 1) s' with Some (l, rest) => Some (JArray l, rest) | None => None end
             | _ => None
             end
      else if code c =? 123 then
        if maxNestingDepth <? d + 1 then None
        else match skip_space s' with
             | String e rest =>
               if code e =? 125 then Some (JObject [], rest)
               else match members n (d + 1) s' with Some (m, rest) => Some (JObject m, rest) | None => None end
             | _ => None
             end
      else if code c =? 110 then literal "null" JNull s0
      else if code c =? 116 then literal "true" (JBool true) s0
      else if code c =? 102 then literal "false" (JBool false) s0
      else match scan_number s0 with Some (lit, rest) => Some (JNumber lit, rest) | None => None end
    | _ => None
    end
  end
with elements (n : nat) (d : Z) (s : string) : option (list json * string) :=
  match n with
  | O => None
  | S n =>
    match value n d s with
    | Some (v, s1) =>
      match skip_space s1 with
      | String c rest =>
        if code c =? 44 then match elements n d rest with Some (l, r) => Some (v :: l, r) | None => None end
        else if code c =? 93 then Some ([v], rest)
        else None
      | _ => None
      end
    | None => None
    end
  end
with members (n : nat) (d : Z) (s : string) : option (list (string * json) * string) :=
  match n with
  | O => None
  | S n =>
    match member (value n d) s with
    | Some (k, v, s3) =>
      match skip_space s3 with
      | String c rest =>
        if code c =? 44 then match members n d rest with Some (m, r) => Some ((k, v) :: m, r) | None => None end
        else if code c =? 125 then Some ([(k, v)], rest)
        else None
      | _ => None
      end
    | None => None
    end
  end.

Definition fuel_for (s : string) : nat := 2 * String.length s + 2.

(** The first value of a stream, as [Decoder.Decode] reads it, and the whole
    text as one value, as [Unmarshal] does. *)
Definition first_value (s : string) : option (json * string) := value (fuel_for s) 0 s.

Definition parse (s : string) : option json :=
  match first_value s with
  | Some (v, rest) => if String.eqb (skip_space rest) "" then Some v else None
  | None => None
  end.

(** ** Storing a value in a field *)

(** [foldName], on the characters that fold to an ASCII letter: the letters
    themselves, U+017F and U+212A. *)
Definition ascii_upper (c : ascii) : ascii :=
  if (97 <=? code c) && (code c <=? 122) then chr (code c - 32) else c.

Fixpoint fold_fuel (n : nat) (s : string) : string :=
  match n, s with
  | S n, String c s' =>
    match GoStrings.strip_prefix (encode_rune 383) s, GoStrings.strip_prefix (encode_rune 8490) s with
    | Some rest, _ => String "S" (fold_fuel n rest)
    | None, Some rest => String "K" (fold_fuel n rest)
    | None, None => String (ascii_upper c) (fold_fuel n s')
    end
  | _, _ => ""
  end.

Definition foldName (s : string) : string := fold_fuel (String.length s) s.

Definition names (field key : string) : bool :=
  String.eqb key field || String.eqb (foldName key) (foldName field).

(** [None] is an [UnmarshalTypeError]. *)
Definition store_string (v : json) (old : string) : option string :=
  match v with
  | JString s => Some s
  | JNull => Some old
  | _ => None
  end.

Definition store_int64 (v : json) (old : Z) : option Z :=
  match v with
  | JNumber lit => ParseInt lit
  | JNull => Some old
  | _ => None
  end.

(** A string slice: the cells of its backing array that were ever set, and
    its length. Elements are decoded into the cells that are there. *)
Record slice := { sl_cells : list string; sl_len : nat }.
Definition nil_slice : slice := {| sl_cells := []; sl_len := 0 |}.
Definition slice_list (s : slice) : list string := take (sl_len s) (sl_cells s).

Fixpoint store_cells (l : list json) (cells : list string) : option (list string) :=
  match l with
  | [] => Some cells
  | v :: l =>
    let '(old, rest) := match cells with c :: cs => (c, cs) | [] => ("", []) end in
    match store_string v old, store_cells l rest with
    | Some x, Some xs => Some (x :: xs)
    | _, _ => None
    end
  end.

Definition store_slice (v : json) (old : slice) : option slice :=
  match v with
  | JNull => Some nil_slice
  | JArray [] => Some nil_slice
  | JArray l => match store_cells l (sl_cells old) with
                | Some cells => Some {| sl_cells := cells; sl_len := length l |}
                | None => None
                end
  | _ => None
  end.

(** The members of an object in their order; a key that names no field is
    skipped. *)
Fixpoint store_members {A} (step : string → json → A → option A) (m : list (string * json)) (a : A) : option A :=
  match m with
  | [] => Some a
  | (k, v) :: m => match step k v a with Some a' => store_members step m a' | None => None end
  end.

Definition store_struct {A} (step : string → json → A → option A) (v : json) (a : A) : option A :=
  match v with
  | JObject m => store_members step m a
  | JNull => Some a
  | _ => None
  end.

(** ** Strings: what is written is read back *)

Lemma quote_fuel_enough n m s :
  (String.length s <= n)%nat → (String.length s <= m)%nat → quote_fuel n s = quote_fuel m s.
Proof.
  revert m s. induction n as [|n IH]; intros [|m] [|c s] Hn Hm; try done; [simpl in *; lia..|].
  cbn [quote_fuel]. simpl in Hn, Hm. destruct (code c <? 128); [f_equal; apply IH; lia|].
  destruct (next_rune (String c s)) as [[r rest]|] eqn:Hr; [|f_equal; apply IH; lia].
  apply next_rune_shorter in Hr. simpl in Hr. f_equal. apply IH; lia.
Qed.

Lemma quote_text_ascii c s : code c < 128 → quote_text (String c s) = escape_char c +:+ quote_text s.
Proof. intros H%Z.ltb_lt. unfold quote_text. cbn [String.length quote_fuel]. by rewrite H. Qed.

Lemma quote_text_rune s r rest :
  next_rune s = Some (r, rest) →
  quote_text s = (if (r =? 8232) || (r =? 8233) then escape_u r else encode_valid r) +:+ quote_text rest.
Proof.
  intros Hr. pose proof (next_rune_shorter _ _ _ Hr) as Hl. pose proof (next_rune_Some _ _ _ Hr) as (H1 & H2 & Hs).
  destruct (encode_valid_head r H2 H1) as (c & t & He & Hc).
  destruct s as [|c' s']; [done|]. rewrite He in Hs. injection Hs as -> _. unfold quote_text.
  cbn [String.length quote_fuel]. rewrite (proj2 (Z.ltb_ge _ 128)) by lia. rewrite Hr, encode_rune_valid by done.
  f_equal. simpl in Hl. apply quote_fuel_enough; lia.
Qed.

Lemma quote_text_invalid c s :
  128 <= code c → next_rune (String c s) = None → quote_text (String c s) = escape_u RuneError +:+ quote_text s.
Proof. intros H%Z.ltb_ge Hr. unfold quote_text. cbn [String.length quote_fuel]. by rewrite H, Hr. Qed.

Lemma hex_value_digit k : 0 <= k < 16 → hex_value (hex_digit (Z.to_nat k)) = Some k.
Proof.
  intros Hk. assert (∃ i, (i < 16)%nat ∧ k = Z.of_nat i) as (i & Hi & ->) by (exists (Z.to_nat k); lia).
  rewrite Nat2Z.id. do 16 (destruct i as [|i]; [reflexivity|]). lia.
Qed.

Lemma getu4_hex4 z t : 0 <= z < 65536 → getu4 (hex4 z +:+ t) = Some (z, t).
Proof.
  intros Hz. cbn. rewrite !hex_value_digit by (apply Z.mod_pos_bound; lia). repeat f_equal.
  Z.div_mod_to_equations. lia.
Qed.

Lemma escaped_rune_plain r t : valid_rune r = true → escaped_rune r t = (r, t).
Proof.
  intros Hv%valid_rune_spec. unfold escaped_rune, IsSurrogate.
  destruct (55296 <=? r) eqn:?, (r <? 57344) eqn:?; try done. lia.
Qed.

Lemma unquote_escape_u n r t :
  0 <= r < 65536 → valid_rune r = true →
  unquote (S n) (escape_u r +:+ t) = prepend (encode_rune r) (unquote n t).
Proof.
  intros Hr Hv. cbn [unquote]. unfold escape_u. cbn [String.append].
  change (code backslash =? 34) with false. change (code backslash =? 92) with true.
  change (code "u" =? 117) with true. cbn match. by rewrite getu4_hex4, escaped_rune_plain.
Qed.

Lemma unquote_escape_char n c t :
  code c < 128 → unquote (S n) (escape_char c +:+ t) = prepend (String c "") (unquote n t).
Proof.
  intros Hc. destruct c as [b0 b1 b2 b3 b4 b5 b6 b7].
  destruct b7; [by destruct b0, b1, b2, b3, b4, b5, b6|].
  destruct b0, b1, b2, b3, b4, b5, b6; reflexivity.
Qed.

Lemma unquote_rune n r t :
  valid_rune r = true → 128 <= r → unquote (S n) (encode_valid r +:+ t) = prepend (encode_rune r) (unquote n t).
Proof.
  intros Hv Hr. pose proof (next_rune_encode r t Hv Hr) as Hn.
  destruct (encode_valid_head r Hv Hr) as (c & u & He & Hc). rewrite He in Hn |- *. cbn [String.append] in Hn |- *.
  cbn [unquote]. rewrite Hn.
  rewrite (proj2 (Z.eqb_neq _ 34)), (proj2 (Z.eqb_neq _ 92)), (proj2 (Z.ltb_ge _ 32)), (proj2 (Z.ltb_ge _ 128)) by lia.
  done.
Qed.

Lemma unquote_quote s n rest :
  (String.length (quote_text s) < n)%nat →
  unquote n (quote_text s +:+ dquote +:+ rest) = Some (to_valid s, rest).
Proof.
  revert n. induction s as [|c s Hc IH|s r rs Hr IH|c s Hc Hr IH] using rune_ind; intros n Hn.
  - destruct n; [lia|]. done.
  - rewrite quote_text_ascii, to_valid_ascii in * by done. rewrite append_assoc. rewrite append_length in Hn.
    assert (0 < String.length (escape_char c))%nat by (unfold escape_char; repeat case_match; simpl; lia).
    destruct n as [|n]; [lia|]. rewrite unquote_escape_char, IH by (done || lia). done.
  - rewrite (quote_text_rune _ _ _ Hr) in *. rewrite (to_valid_rune _ _ _ Hr).
    apply next_rune_Some in Hr as (H1 & H2 & _). rewrite append_assoc. rewrite append_length in Hn.
    destruct ((r =? 8232) || (r =? 8233)) eqn:He.
    + simpl in Hn. destruct n as [|n]; [lia|].
      rewrite unquote_escape_u, IH, encode_rune_valid by (done || lia). done.
    + destruct (encode_valid_head r H2 H1) as (c & t & Ht & _). rewrite Ht in Hn at 1. simpl in Hn.
      destruct n as [|n]; [lia|]. rewrite unquote_rune, IH, encode_rune_valid by (done || lia). done.
  - rewrite quote_text_invalid, to_valid_invalid in * by done. rewrite append_assoc. rewrite append_length in Hn.
    simpl in Hn. destruct n as [|n]; [lia|].
    rewrite unquote_escape_u, IH by (done || unfold RuneError; lia). done.
Qed.

Lemma read_string_quote s rest : read_string (quote_text s +:+ dquote +:+ rest) = Some (to_valid s, rest).
Proof. apply unquote_quote. rewrite append_length. simpl. lia. Qed.

(** ** Integers *)

Lemma digits_value_snoc a d v c :
  digits_value a d = Some v → is_digit c = true →
  digits_value a (d +:+ String c "") = Some (v * 10 + (code c - 48)).
Proof.
  revert a. induction d as [|e d IH]; intros a; simpl.
  - by intros [= ->] ->.
  - destruct (is_digit e); [|done]. intros Hv Hc. by apply IH.
Qed.

Lemma pretty_N_char_digit x :
  (x < 10)%N → is_digit (pretty_N_char x) = true ∧ code (pretty_N_char x) = 48 + Z.of_N x.
Proof.
  intros Hx. assert (∃ i, (i < 10)%nat ∧ x = N.of_nat i) as (i & Hi & ->) by (exists (N.to_nat x); lia).
  do 10 (destruct i as [|i]; [done|]). lia.
Qed.

(** A positive number in decimal: its digits, the first not zero. *)
Lemma pretty_N_go_digits x s :
  (0 < x)%N → ∃ c d, pretty_N_go x s = String c (d +:+ s) ∧ is_digit c = true ∧ code c ≠ 48 ∧
    digits_value 0 (String c d) = Some (Z.of_N x).
Proof.
  revert s. induction (N.lt_wf_0 x) as [x _ IH]; intros s Hx. rewrite pretty_N_go_step by done.
  pose proof (N.mod_lt x 10 ltac:(done)) as Hm. destruct (pretty_N_char_digit _ Hm) as [Hd Hc].
  pose proof (N.div_mod x 10 ltac:(done)) as Hdm.
  destruct (decide (x / 10 = 0)%N) as [Hz|Hz].
  - rewrite Hz in *. exists (pretty_N_char (x `mod` 10)), "". rewrite pretty_N_go_0. split; [done|]. split; [done|].
    split; [lia|]. cbn [digits_value]. rewrite Hd, Hc. f_equal. lia.
  - destruct (IH (x / 10)%N ltac:(by apply N.div_lt) (String (pretty_N_char (x `mod` 10)) s) ltac:(lia))
      as (c & d & He & Hcd & Hc0 & Hv).
    exists c, (d +:+ String (pretty_N_char (x `mod` 10)) ""). rewrite He, append_assoc. split; [done|].
    split; [done|]. split; [done|].
    change (digits_value 0 (String c d +:+ String (pretty_N_char (x `mod` 10)) "") = Some (Z.of_N x)).
    rewrite (digits_value_snoc _ _ _ _ Hv Hd), Hc. f_equal. lia.
Qed.

Lemma pretty_pos_digits (p : positive) :
  ∃ c d, pretty p = String c d ∧ is_digit c = true ∧ code c ≠ 48 ∧ digits_value 0 (String c d) = Some (Z.pos p).
Proof.
  destruct (pretty_N_go_digits (N.pos p) "" ltac:(lia)) as (c & d & He & Hrest). exists c, d.
  rewrite append_nil_r in He. split; [exact He|exact Hrest].
Qed.

Lemma is_digit_range c : is_digit c = true ↔ 48 <= code c <= 57.
Proof. unfold is_digit. lia. Qed.

(** What may follow a number: nothing that would continue it. *)
Definition ends_number (s : string) : bool :=
  match s with
  | String c _ => negb (is_digit c) && negb (code c =? 46) && negb (code c =? 101) && negb (code c =? 69)
  | _ => true
  end.

Lemma take_digits_app a d v t :
  digits_value a d = Some v → ends_number t = true → take_digits (d +:+ t) = (d, t).
Proof.
  revert a. induction d as [|c d IH]; intros a; simpl.
  - intros _ Ht. destruct t as [|c t]; [done|]. simpl in *. by destruct (is_digit c).
  - destruct (is_digit c); [|done]. intros Hv Ht. by rewrite (IH _ Hv Ht).
Qed.

Lemma ends_number_parts t : ends_number t = true → frac_part t = Some ("", t) ∧ exp_part t = Some ("", t).
Proof.
  destruct t as [|c t]; [done|]. simpl. unfold is_digit. intros H.
  destruct (code c =? 46) eqn:E1, (code c =? 101) eqn:E2, (code c =? 69) eqn:E3; try done; lia.
Qed.

Lemma unsigned_number_pos (p : positive) t :
  ends_number t = true → unsigned_number (pretty p +:+ t) = Some (pretty p, t).
Proof.
  intros Ht. destruct (pretty_pos_digits p) as (c & d & -> & Hc & Hc0 & Hv). unfold unsigned_number, int_part.
  cbn [String.append]. rewrite (proj2 (Z.eqb_neq _ _) Hc0). unfold digits1.
  change (String c (d +:+ t)) with (String c d +:+ t). rewrite (take_digits_app _ _ _ _ Hv Ht).
  destruct (ends_number_parts t Ht) as [-> ->]. cbn. by rewrite !append_nil_r.
Qed.

Lemma scan_number_pretty (z : Z) t : ends_number t = true → scan_number (pretty z +:+ t) = Some (pretty z, t).
Proof.
  intros Ht. destruct z as [|p|p].
  - change (scan_number (pretty 0 +:+ t)) with
      (match frac_part t with Some (f, s2) => prepend ("0" +:+ f) (exp_part s2) | None => None end).
    by destruct (ends_number_parts t Ht) as [-> ->].
  - change (pretty (Z.pos p)) with (pretty p). pose proof (unsigned_number_pos p t Ht) as Hu.
    destruct (pretty_pos_digits p) as (c & d & Hp & Hc%is_digit_range & _). rewrite Hp in *.
    cbn [String.append scan_number] in *. by rewrite (proj2 (Z.eqb_neq (code c) 45)) by lia.
  - change (pretty (Z.neg p)) with (String "-" (pretty p)). cbn [String.append scan_number].
    change (code "-" =? 45) with true. by rewrite unsigned_number_pos.
Qed.

Lemma ParseInt_pretty z : int64_range z → ParseInt (pretty z) = Some z.
Proof.
  intros [H1%Z.leb_le H2%Z.leb_le]. unfold ParseInt. destruct z as [|p|p].
  - done.
  - change (pretty (Z.pos p)) with (pretty p).
    destruct (pretty_pos_digits p) as (c & d & -> & Hc%is_digit_range & _ & ->).
    rewrite (proj2 (Z.eqb_neq (code c) 45)) by lia. by rewrite H1, H2.
  - change (pretty (Z.neg p)) with (String "-" (pretty p)). change (code "-" =? 45) with true.
    destruct (pretty_pos_digits p) as (c & d & -> & Hc & _ & Hv). cbn match. rewrite Hv.
    change (code "-" =? 45) with true. change (- Z.pos p) with (Z.neg p). cbv beta iota zeta. by rewrite H1, H2.
Qed.

(** ** Values *)

Lemma json_ind' (P : json → Prop) :
  P JNull → (∀ b, P (JBool b)) → (∀ lit, P (JNumber lit)) → (∀ s, P (JString s)) →
  (∀ l, Forall P l → P (JArray l)) → (∀ m, Forall (λ p, P p.2) m → P (JObject m)) →
  ∀ v, P v.
Proof.
  intros H0 H1 H2 H3 H4 H5. fix IH 1. intros [|b|lit|s|l|m]; [done|apply H1|apply H2|apply H3|apply H4|apply H5].
  - induction l as [|v l IHl]; constructor; [apply IH|exact IHl].
  - induction m as [|[k v] m IHm]; constructor; [apply IH|exact IHm].
Qed.

(** Its numbers are integers in decimal. *)
Fixpoint integral (v : json) : Prop :=
  match v with
  | JNumber lit => ∃ z : Z, lit = pretty z
  | JArray l => foldr (λ v P, integral v ∧ P) True l
  | JObject m => foldr (λ p P, integral p.2 ∧ P) True m
  | _ => True
  end.

(** The value with its strings as a reader of runes sees them. *)
Fixpoint sanitize (v : json) : json :=
  match v with
  | JString s => JString (to_valid s)
  | JArray l => JArray (map sanitize l)
  | JObject m => JObject (map (λ p, (to_valid p.1, sanitize p.2)) m)
  | v => v
  end.

Fixpoint depth (v : json) : Z :=
  match v with
  | JArray l => 1 + foldr (λ v n, Z.max (depth v) n) 0 l
  | JObject m => 1 + foldr (λ p n, Z.max (depth p.2) n) 0 m
  | _ => 0
  end.

Lemma depth_nonneg v : 0 <= depth v.
Proof.
  induction v as [| | | |l IH|m IH] using json_ind'; simpl; [lia..| |].
  - induction IH; simpl; lia.
  - induction IH; simpl; lia.
Qed.

Definition starts_value (c : ascii) : bool :=
  negb (is_space c) && negb (code c =? 93) && negb (code c =? 125).

Lemma pretty_head (z : Z) :
  ∃ c t, pretty z = String c t ∧ (is_digit c = true ∨ code c = 45).
Proof.
  destruct z as [|p|p]; [by eexists _, _; eauto| |].
  - destruct (pretty_pos_digits p) as (c & d & Hp & Hc & _). exists c, d. split; [exact Hp|by left].
  - eexists _, _. split; [reflexivity|by right].
Qed.

Lemma print_head v : integral v → ∃ c t, print v = String c t ∧ starts_value c = true.
Proof.
  destruct v as [|[]|lit|s|l|m]; simpl; intros Hi; try by eexists _, _.
  destruct Hi as [z ->]. destruct (pretty_head z) as (c & t & -> & Hc). exists c, t. split; [done|].
  unfold starts_value, is_space. rewrite is_digit_range in Hc. lia.
Qed.

Lemma starts_value_skip c t : starts_value c = true → skip_space (String c t) = String c t.
Proof. simpl. unfold starts_value. by destruct (is_space c). Qed.

Lemma value_number n d (z : Z) rest :
  ends_number rest = true → value (S n) d (pretty z +:+ rest) = Some (JNumber (pretty z), rest).
Proof.
  intros Hr. pose proof (scan_number_pretty z rest Hr) as Hs. destruct (pretty_head z) as (c & t & Hp & Hc).
  rewrite Hp in *. cbn [String.append value] in *. rewrite is_digit_range in Hc.
  rewrite starts_value_skip by (unfold starts_value, is_space; lia).
  do 6 (rewrite (proj2 (Z.eqb_neq (code c) _)) by lia). by rewrite Hs.
Qed.

(** What is to be shown of a value: printed before any text that does not
    continue it, it is read back. *)
Definition reads_back (v : json) : Prop :=
  ∀ n d rest, integral v → d + depth v <= maxNestingDepth → ends_number rest = true →
    (2 * String.length (print v) <= n)%nat → value n d (print v +:+ rest) = Some (sanitize v, rest).

Lemma print_length v : integral v → (0 < String.length (print v))%nat.
Proof. intros (c & t & -> & _)%print_head. simpl. lia. Qed.

Lemma elements_print l n d rest :
  Forall reads_back l → l ≠ [] → integral (JArray l) → d - 1 + depth (JArray l) <= maxNestingDepth →
  (2 * String.length (GoStrings.Join (map print l) "," +:+ "]") < n)%nat →
  elements n d (GoStrings.Join (map print l) "," +:+ "]" +:+ rest) = Some (map sanitize l, rest).
Proof.
  intros Hl. revert n. induction Hl as [|v l Hv Hl IH]; intros n Hne Hi Hd Hn; [done|].
  destruct n as [|n]; [lia|]. cbn [elements]. destruct Hi as [Hi1 Hi2]. cbn [depth foldr] in Hd.
  pose proof (print_length v Hi1) as Hpos. destruct l as [|v' l].
  - cbn [map GoStrings.Join] in *. rewrite append_length in Hn. simpl in Hn.
    rewrite Hv; [done|done|lia|done|lia].
  - cbn [map] in *. change (GoStrings.Join (print v :: print v' :: map print l) ",")
      with (print v +:+ "," +:+ GoStrings.Join (print v' :: map print l) ",") in *.
    rewrite !append_assoc in *. rewrite append_length in Hn. cbn [String.append String.length] in Hn.
    rewrite Hv; [|done|lia|done|lia]. cbn [String.append skip_space].
    change (is_space ",") with false. change (code "," =? 44) with true. cbv iota.
    rewrite IH; [done|done|done| |lia]. cbn [depth]. lia.
Qed.

Definition print_member (p : string * json) : string := json_string p.1 +:+ ":" +:+ print p.2.
Definition sanitize_member (p : string * json) : string * json := (to_valid p.1, sanitize p.2).

Lemma json_string_app s t : json_string s +:+ t = String (chr 34) (quote_text s +:+ dquote +:+ t).
Proof. unfold json_string. by rewrite !append_assoc. Qed.

Lemma member_print val k v t :
  val (print v +:+ t) = Some (sanitize v, t) →
  member val (print_member (k, v) +:+ t) = Some (to_valid k, sanitize v, t).
Proof.
  intros Hv. unfold member, print_member. cbn [fst snd].
  rewrite append_assoc, json_string_app. cbn [skip_space]. change (is_space (chr 34)) with false.
  change (code (chr 34) =? 34) with true. cbv iota. rewrite read_string_quote. cbn [String.append skip_space].
  change (is_space ":") with false. change (code ":" =? 58) with true. cbv iota. by rewrite Hv.
Qed.

Lemma print_member_length k v : (String.length (print v) < String.length (print_member (k, v)))%nat.
Proof. unfold print_member, json_string. rewrite !append_length. simpl. lia. Qed.

Lemma members_print m n d rest :
  Forall (λ p, reads_back p.2) m → m ≠ [] → integral (JObject m) → d - 1 + depth (JObject m) <= maxNestingDepth →
  (2 * String.length (GoStrings.Join (map print_member m) "," +:+ "}") < n)%nat →
  members n d (GoStrings.Join (map print_member m) "," +:+ "}" +:+ rest) = Some (map sanitize_member m, rest).
Proof.
  intros Hm. revert n. induction Hm as [|[k v] m Hv Hm IH]; intros n Hne Hi Hd Hn; [done|].
  destruct n as [|n]; [lia|]. cbn [members]. destruct Hi as [Hi1 Hi2]. cbn [depth foldr snd] in *.
  assert (∀ t, (2 * String.length (print v) <= n)%nat → ends_number t = true →
    member (value n d) (print_member (k, v) +:+ t) = Some (to_valid k, sanitize v, t)) as Hfirst
    by (intros t Ht He; apply member_print, Hv; done || lia).
  pose proof (print_member_length k v) as Hlen. destruct m as [|p m].
  - cbn [map GoStrings.Join] in *. rewrite append_length in Hn. rewrite Hfirst by (done || lia). done.
  - cbn [map] in *. change (GoStrings.Join (print_member (k, v) :: print_member p :: map print_member m) ",")
      with (print_member (k, v) +:+ "," +:+ GoStrings.Join (print_member p :: map print_member m) ",") in *.
    rewrite !append_assoc in *. rewrite append_length in Hn. cbn [String.append String.length] in Hn.
    rewrite Hfirst by (done || lia). cbn [String.append skip_space].
    change (is_space ",") with false. change (code "," =? 44) with true. cbv iota.
    rewrite IH; [done|done|done| |lia]. cbn [depth]. lia.
Qed.

Lemma join_head l t :
  integral (JArray l) → l ≠ [] → ∃ c u, GoStrings.Join (map print l) "," +:+ t = String c u ∧ starts_value c = true.
Proof.
  destruct l as [|v l]; [done|]. intros [Hi _] _. destruct (print_head v Hi) as (c & u & Hp & Hc).
  destruct l; cbn [map GoStrings.Join]; rewrite Hp; cbn [String.append]; by eexists _, _.
Qed.

Lemma join_member_head m t :
  m ≠ [] → ∃ u, GoStrings.Join (map print_member m) "," +:+ t = String (chr 34) u.
Proof.
  destruct m as [|[k v] m]; [done|]. intros _.
  destruct m; cbn [map GoStrings.Join]; unfold print_member; cbn [fst]; rewrite !append_assoc, json_string_app; by eexists.
Qed.

Lemma value_array n d l rest :
  Forall reads_back l → integral (JArray l) → d + depth (JArray l) <= maxNestingDepth →
  (2 * String.length (print (JArray l)) <= n)%nat →
  value n d (print (JArray l) +:+ rest) = Some (sanitize (JArray l), rest).
Proof.
  intros Hl Hi Hd Hn. cbn [print String.append String.length] in *. destruct n as [|n]; [lia|].
  assert (0 <= foldr (λ v n, Z.max (depth v) n) 0 l) by (clear; induction l; simpl; lia).
  cbn [value skip_space]. change (is_space "[") with false. cbv iota.
  change (code "[" =? 34) with false. change (code "[" =? 91) with true. cbv iota.
  cbn [depth] in Hd. rewrite (proj2 (Z.ltb_ge maxNestingDepth (d + 1))) by lia. rewrite append_assoc.
  destruct l as [|v l]; [done|].
  destruct (join_head (v :: l) ("]" +:+ rest) Hi ltac:(done)) as (c & u & Hj & Hc).
  pose proof (elements_print (v :: l) n (d + 1) rest Hl ltac:(done) Hi) as He. rewrite Hj in *.
  rewrite starts_value_skip by done. unfold starts_value in Hc.
  destruct (code c =? 93); [by rewrite andb_false_r in Hc|]. rewrite He; [done| |lia]. cbn [depth]. lia.
Qed.

Lemma value_object n d m rest :
  Forall (λ p, reads_back p.2) m → integral (JObject m) → d + depth (JObject m) <= maxNestingDepth →
  (2 * String.length (print (JObject m)) <= n)%nat →
  value n d (print (JObject m) +:+ rest) = Some (sanitize (JObject m), rest).
Proof.
  intros Hl Hi Hd Hn. cbn [print] in *. change (map _ m) with (map print_member m) in *.
  cbn [String.append String.length] in *. destruct n as [|n]; [lia|].
  assert (0 <= foldr (λ p n, Z.max (depth p.2) n) 0 m) by (clear; induction m; simpl; lia).
  cbn [value skip_space]. change (is_space "{") with false. cbv iota.
  change (code "{" =? 34) with false. change (code "{" =? 91) with false. change (code "{" =? 123) with true. cbv iota.
  cbn [depth] in Hd. rewrite (proj2 (Z.ltb_ge maxNestingDepth (d + 1))) by lia. rewrite append_assoc.
  destruct m as [|p m]; [done|].
  destruct (join_member_head (p :: m) ("}" +:+ rest) ltac:(done)) as (u & Hj).
  pose proof (members_print (p :: m) n (d + 1) rest Hl ltac:(done) Hi) as He. rewrite Hj in *.
  cbn [skip_space]. change (is_space (chr 34)) with false. change (code (chr 34) =? 125) with false. cbv iota.
  rewrite He; [done| |lia]. cbn [depth]. lia.
Qed.

Lemma value_print v : reads_back v.
Proof.
  induction v as [|b|lit|s|l IH|m IH] using json_ind'; intros n d rest Hi Hd Hr Hn.
  - destruct n; [simpl in Hn; lia|]. reflexivity.
  - destruct n; [destruct b; simpl in Hn; lia|]. by destruct b.
  - destruct Hi as [z ->]. pose proof (print_length (JNumber (pretty z)) ltac:(by exists z)) as Hp.
    cbn [print] in *. destruct n; [lia|]. by apply value_number.
  - cbn [print] in *. rewrite json_string_app. destruct n; [simpl in Hn; lia|]. cbn [value skip_space].
    change (is_space (chr 34)) with false. change (code (chr 34) =? 34) with true. cbv iota.
    by rewrite read_string_quote.
  - by apply value_array.
  - by apply value_object.
Qed.

(** A printed value at the front of a stream. *)
Lemma first_value_print v rest :
  integral v → depth v <= maxNestingDepth → ends_number rest = true →
  first_value (print v +:+ rest) = Some (sanitize v, rest).
Proof.
  intros Hi Hd Hr. unfold first_value, fuel_for. apply value_print; [done|lia|done|]. rewrite append_length. lia.
Qed.

(** A printed value is read back, its strings as a reader of runes sees
    them. *)
Theorem parse_print v :
  integral v → depth v <= maxNestingDepth → parse (print v) = Some (sanitize v).
Proof.
  intros Hi Hd. unfold parse. pose proof (first_value_print v "" Hi Hd eq_refl) as Hv.
  rewrite append_nil_r in Hv. by rewrite Hv.
Qed.

(** ** The fuel is enough

    Every reader returns a strictly shorter rest, so more fuel than
    [fuel_for] changes nothing: [None] is a syntax error. *)

Lemma getu4_rest s r rest : getu4 s = Some (r, rest) → (String.length rest < String.length s)%nat.
Proof. unfold getu4. intros. repeat case_match; simplify_eq. simpl. lia. Qed.

Lemma escaped_rune_rest r s r' rest : escaped_rune r s = (r', rest) → (String.length rest <= String.length s)%nat.
Proof.
  unfold escaped_rune. destruct (IsSurrogate r); [|naive_solver].
  destruct (GoStrings.strip_prefix _ s) as [t|] eqn:Ht; [|naive_solver].
  destruct (getu4 t) as [[r2 rest2]|] eqn:Hg; [|naive_solver].
  apply getu4_rest in Hg. apply strip_prefix_Some in Ht as ->. rewrite append_length.
  destruct (join_surrogates r r2); intros [= _ <-]; rewrite ?append_length; cbn [String.length]; lia.
Qed.

Lemma unquote_enough n m s :
  (String.length s <= n)%nat → (String.length s <= m)%nat → unquote n s = unquote m s.
Proof.
  revert m s. induction n as [|n IH]; intros [|m] [|c s] Hn Hm; try done; [simpl in *; lia..|].
  simpl in Hn, Hm. cbn [unquote]. destruct (code c =? 34); [done|]. destruct (code c =? 92).
  - destruct s as [|e s]; [done|]. simpl in Hn, Hm. destruct (code e =? 117).
    + destruct (getu4 s) as [[r s3]|] eqn:Hg; [|done]. apply getu4_rest in Hg.
      destruct (escaped_rune r s3) as [r' s4] eqn:He. apply escaped_rune_rest in He. f_equal. apply IH; lia.
    + destruct (unescape e); [|done]. f_equal. apply IH; lia.
  - destruct (code c <? 32); [done|]. destruct (code c <? 128); [f_equal; apply IH; lia|].
    destruct (next_rune (String c s)) as [[r rest]|] eqn:Hr; [|f_equal; apply IH; lia].
    apply next_rune_shorter in Hr. simpl in Hr. f_equal. apply IH; lia.
Qed.

Lemma prepend_Some t o u rest : prepend t o = Some (u, rest) → ∃ u', o = Some (u', rest) ∧ u = t +:+ u'.
Proof. destruct o as [[u' r]|]; [|done]. simpl. intros [= <- <-]. by exists u'. Qed.

Lemma unquote_rest n s t rest : unquote n s = Some (t, rest) → (String.length rest < String.length s)%nat.
Proof.
  revert s t. induction n as [|n IH]; intros [|c s] t; [done..|]. cbn [unquote String.length].
  destruct (code c =? 34); [intros [= _ <-]; lia|]. destruct (code c =? 92).
  - destruct s as [|e s]; [done|]. cbn [String.length]. destruct (code e =? 117).
    + destruct (getu4 s) as [[r s3]|] eqn:Hg; [|done]. apply getu4_rest in Hg.
      destruct (escaped_rune r s3) as [r' s4] eqn:He. apply escaped_rune_rest in He.
      intros (u & Hu%IH & _)%prepend_Some. lia.
    + destruct (unescape e); [|done]. intros (u & Hu%IH & _)%prepend_Some. lia.
  - destruct (code c <? 32); [done|]. destruct (code c <? 128); [intros (u & Hu%IH & _)%prepend_Some; lia|].
    destruct (next_rune (String c s)) as [[r rs]|] eqn:Hr; intros (u & Hu%IH & _)%prepend_Some; [|lia].
    apply next_rune_shorter in Hr. simpl in Hr. lia.
Qed.

Lemma take_digits_split s d r : take_digits s = (d, r) → s = d +:+ r.
Proof.
  revert d r. induction s as [|c s IH]; intros d r; simpl; [by intros [= <- <-]|].
  destruct (is_digit c); [|by intros [= <- <-]]. destruct (take_digits s) as [d' r'].
  intros [= <- <-]. cbn. f_equal. by apply IH.
Qed.

(** A scanner splits its input. *)
Definition splits (scan : string → option (string * string)) : Prop :=
  ∀ s a b, scan s = Some (a, b) → s = a +:+ b.

Lemma digits1_splits s d r : digits1 s = Some (d, r) → s = d +:+ r ∧ d ≠ "".
Proof.
  unfold digits1. destruct (take_digits s) as [[|c d'] r'] eqn:Ht; [done|]. intros [= <- <-].
  by apply take_digits_split in Ht.
Qed.

Lemma frac_part_splits : splits frac_part.
Proof.
  intros [|c s] a b; simpl; [by intros [= <- <-]|]. destruct (code c =? 46); [|by intros [= <- <-]].
  intros (u & [Hd _]%digits1_splits & ->)%prepend_Some. by rewrite Hd.
Qed.

Lemma exp_part_splits : splits exp_part.
Proof.
  intros [|c s] a b; simpl; [by intros [= <- <-]|]. destruct (_ || _); [|by intros [= <- <-]].
  destruct s as [|e s]; [done|]. destruct (_ || _); intros (u & [Hd _]%digits1_splits & ->)%prepend_Some; by rewrite Hd.
Qed.

Lemma int_part_splits s a b : int_part s = Some (a, b) → s = a +:+ b ∧ a ≠ "".
Proof.
  destruct s as [|c s]; [done|]. simpl. destruct (code c =? 48); [by intros [= <- <-]|]. apply digits1_splits.
Qed.

Lemma unsigned_number_rest s a b : unsigned_number s = Some (a, b) → (String.length b < String.length s)%nat.
Proof.
  unfold unsigned_number. destruct (int_part s) as [[i s1]|] eqn:Hi; [|done].
  destruct (frac_part s1) as [[f s2]|] eqn:Hf; [|done]. intros (u & Hu%exp_part_splits & _)%prepend_Some.
  apply frac_part_splits in Hf. apply int_part_splits in Hi as [-> Hne]. subst. rewrite !append_length.
  destruct i; [done|]. simpl. lia.
Qed.

Lemma scan_number_rest s a b : scan_number s = Some (a, b) → (String.length b < String.length s)%nat.
Proof.
  destruct s as [|c s]; [done|]. simpl. destruct (code c =? 45); [|apply unsigned_number_rest].
  intros (u & Hu%unsigned_number_rest & _)%prepend_Some. lia.
Qed.

Lemma skip_space_length s : (String.length (skip_space s) <= String.length s)%nat.
Proof. induction s as [|c s IH]; simpl; [lia|]. destruct (is_space c); simpl; lia. Qed.

Lemma literal_rest w v s v' rest :
  w ≠ "" → literal w v s = Some (v', rest) → (String.length rest < String.length s)%nat.
Proof.
  intros Hw. unfold literal. destruct (GoStrings.strip_prefix w s) as [r|] eqn:Hs; [|done]. intros [= _ <-].
  apply strip_prefix_Some in Hs as ->. rewrite append_length. destruct w; [done|]. simpl. lia.
Qed.

(** [val] consumes input. *)
Definition consumes {A} (val : string → option (A * string)) : Prop :=
  ∀ s v rest, val s = Some (v, rest) → (String.length rest < String.length s)%nat.

Lemma member_rest val s k v rest :
  consumes val → member val s = Some (k, v, rest) → (String.length rest < String.length s)%nat.
Proof.
  intros Hval. unfold member. pose proof (skip_space_length s). destruct (skip_space s) as [|q s0]; [done|].
  destruct (code q =? 34); [|done]. destruct (read_string s0) as [[k' s1]|] eqn:Hr; [|done]. apply unquote_rest in Hr.
  pose proof (skip_space_length s1). destruct (skip_space s1) as [|c s2]; [done|]. destruct (code c =? 58); [|done].
  destruct (val s2) as [[v' s3]|] eqn:Hv; [|done]. apply Hval in Hv. intros [= _ _ <-]. simpl in *. lia.
Qed.

Lemma value_rest n :
  (∀ d, consumes (value n d)) ∧ (∀ d, consumes (elements n d)) ∧ (∀ d, consumes (members n d)).
Proof.
  induction n as [|n (IHv & IHe & IHm)]; [done|]. split; [|split]; intros d s v rest.
  - cbn [value]. pose proof (skip_space_length s) as Hs. destruct (skip_space s) as [|c s']; [done|].
    cbn [String.length] in Hs. pose proof (skip_space_length s') as Hs'.
    destruct (code c =? 34).
    { destruct (read_string s') as [[t r]|] eqn:Hr; [|done]. apply unquote_rest in Hr. intros [= _ <-]. lia. }
    destruct (code c =? 91).
    { destruct (maxNestingDepth <? d + 1); [done|]. destruct (skip_space s') as [|e r]; [done|]. simpl in Hs'.
      destruct (code e =? 93); [intros [= _ <-]; lia|].
      destruct (elements n (d + 1) s') as [[l r']|] eqn:He; [|done]. apply IHe in He. intros [= _ <-]. lia. }
    destruct (code c =? 123).
    { destruct (maxNestingDepth <? d + 1); [done|]. destruct (skip_space s') as [|e r]; [done|]. simpl in Hs'.
      destruct (code e =? 125); [intros [= _ <-]; lia|].
      destruct (members n (d + 1) s') as [[l r']|] eqn:He; [|done]. apply IHm in He. intros [= _ <-]. lia. }
    do 3 (destruct (code c =? _); [intros Hl%literal_rest; [simpl in *; lia|done]|]).
    destruct (scan_number (String c s')) as [[lit r]|] eqn:Hn; [|done]. apply scan_number_rest in Hn.
    intros [= _ <-]. simpl in Hn. lia.
  - cbn [elements]. destruct (value n d s) as [[x s1]|] eqn:Hv; [|done]. apply IHv in Hv.
    pose proof (skip_space_length s1) as Hs. destruct (skip_space s1) as [|c r]; [done|]. simpl in Hs.
    destruct (code c =? 44).
    + destruct (elements n d r) as [[l r']|] eqn:He; [|done]. apply IHe in He. intros [= _ <-]. lia.
    + destruct (code c =? 93); [|done]. intros [= _ <-]. lia.
  - cbn [members]. destruct (member (value n d) s) as [[[k x] s1]|] eqn:Hv; [|done]. apply member_rest in Hv; [|apply IHv].
    pose proof (skip_space_length s1) as Hs. destruct (skip_space s1) as [|c r]; [done|]. simpl in Hs.
    destruct (code c =? 44).
    + destruct (members n d r) as [[l r']|] eqn:He; [|done]. apply IHm in He. intros [= _ <-]. lia.
    + destruct (code c =? 125); [|done]. intros [= _ <-]. lia.
Qed.

Lemma member_ext val val' s :
  (∀ t, (String.length t < String.length s)%nat → val t = val' t) → member val s = member val' s.
Proof.
  intros Hv. unfold member. pose proof (skip_space_length s). destruct (skip_space s) as [|q s0]; [done|].
  destruct (code q =? 34); [|done]. destruct (read_string s0) as [[k' s1]|] eqn:Hr; [|done]. apply unquote_rest in Hr.
  pose proof (skip_space_length s1). destruct (skip_space s1) as [|c s2]; [done|]. simpl in *. by rewrite Hv by lia.
Qed.

Lemma value_enough n :
  (∀ m d s, (2 * String.length s < n)%nat → (2 * String.length s < m)%nat → value n d s = value m d s) ∧
  (∀ m d s, (2 * String.length s + 1 < n)%nat → (2 * String.length s + 1 < m)%nat → elements n d s = elements m d s) ∧
  (∀ m d s, (2 * String.length s + 1 < n)%nat → (2 * String.length s + 1 < m)%nat → members n d s = members m d s).
Proof.
  induction n as [|n (IHv & IHe & IHm)]; [split; [|split]; intros; lia|].
  split; [|split]; intros [|m] d s Hn Hm; try lia.
  - cbn [value]. pose proof (skip_space_length s) as Hs. destruct (skip_space s) as [|c s']; [done|]. simpl in Hs.
    destruct (code c =? 34); [done|].
    rewrite (IHe m (d + 1) s'), (IHm m (d + 1) s') by lia. done.
  - cbn [elements]. rewrite (IHv m d s) by lia. destruct (value m d s) as [[x s1]|] eqn:Hv; [|done].
    apply (value_rest m) in Hv. pose proof (skip_space_length s1) as Hs. destruct (skip_space s1) as [|c r]; [done|].
    simpl in Hs. by rewrite (IHe m d r) by lia.
  - cbn [members]. rewrite (member_ext (value n d) (value m d) s) by (intros; apply IHv; lia).
    destruct (member (value m d) s) as [[[k x] s1]|] eqn:Hv; [|done].
    apply member_rest in Hv; [|apply value_rest]. pose proof (skip_space_length s1) as Hs.
    destruct (skip_space s1) as [|c r]; [done|]. simpl in Hs. by rewrite (IHm m d r) by lia.
Qed.

Lemma first_value_enough n s : (fuel_for s <= n)%nat → value n 0 s = first_value s.
Proof. unfold first_value, fuel_for. intros Hn. apply value_enough; lia. Qed.
