(* ===== verification/Sha256.v ===== *)
(** * SHA-256 and hexadecimal text

    [crypto/sha256.Sum256] and [encoding/hex.EncodeToString] of Go's standard
    library, on byte strings. Words are 32-bit integers kept in [0, 2^32). *)

From S2P Require Import Prelude GoStrings.
From Stdlib Require Import String Ascii.
From stdpp Require Import base strings list.
From Stdlib Require Import ZArith Lia.
Local Open Scope Z_scope.

Definition word32 (z : Z) : Z := Z.land z (Z.ones 32).
Definition add32 (a b : Z) : Z := word32 (a + b).
Definition rotr32 (x : Z) (n : Z) : Z :=
  word32 (Z.lor (Z.shiftr x n) (Z.shiftl x (32 - n))).
Definition shr32 (x n : Z) : Z := Z.shiftr x n.

(** The constants of FIPS 180-4: the first 32 bits of the fractional parts of
    the square roots of the first eight primes and of the cube roots of the
    first sixty-four. The roots are found by bisection on integers. *)
Fixpoint bisect (power : Z → Z) (target lo hi : Z) (n : nat) : Z :=
  match n with
  | O => lo
  | S m =>
    let mid := (lo + hi) / 2 in
    if power mid <=? target then bisect power target mid hi m else bisect power target lo mid m
  end.

Definition root_fraction (k : Z) (p : Z) : Z :=
  word32 (bisect (λ x, x ^ k) (p * 2 ^ (32 * k)) 0 (2 ^ 40) 41).

Definition is_prime (n : Z) : bool :=
  forallb (λ d, negb (n mod (Z.of_nat d + 2) =? 0)) (seq 0 (Z.to_nat (n - 2))).

Definition primes : list Z := List.filter is_prime ((λ i, Z.of_nat i + 2) <$> seq 0 310).

Definition round_constants : list Z := Eval vm_compute in root_fraction 3 <$> primes.
Definition initial_hash : list Z := Eval vm_compute in root_fraction 2 <$> take 8 primes.

Definition byte_values (s : string) : list Z := (λ c, Z.of_nat (nat_of_ascii c)) <$> list_ascii_of_string s.
Definition of_byte_values (l : list Z) : string :=
  string_of_list_ascii ((λ z, ascii_of_nat (Z.to_nat (Z.land z 255))) <$> l).

Lemma byte_values_length s : length (byte_values s) = String.length s.
Proof. unfold byte_values. rewrite length_fmap. induction s; simpl; congruence. Qed.

Lemma byte_values_bound s : Forall (λ v, 0 <= v < 256) (byte_values s).
Proof.
  unfold byte_values. apply Forall_fmap, Forall_true. intros c. simpl.
  pose proof (nat_ascii_bounded c). lia.
Qed.

(** The [n] low bytes of [z], the most significant first. *)
Fixpoint big_endian (n : nat) (z : Z) : list Z :=
  match n with
  | O => []
  | S m => Z.land (Z.shiftr z (8 * Z.of_nat m)) 255 :: big_endian m z
  end.

(** A one bit, zeros up to 56 bytes modulo 64, and the length in bits. *)
Definition pad (msg : list Z) : list Z :=
  let len := Z.of_nat (length msg) in
  msg ++ [128] ++ replicate (Z.to_nat ((55 - len) mod 64)) 0 ++ big_endian 8 (8 * len).

Fixpoint words_of (l : list Z) (n : nat) : list Z :=
  match n, l with
  | S m, a :: b :: c :: d :: l' =>
    Z.lor (Z.shiftl a 24) (Z.lor (Z.shiftl b 16) (Z.lor (Z.shiftl c 8) d)) :: words_of l' m
  | _, _ => []
  end.

(** The message schedule, most recent word first. *)
Definition next_word (rev : list Z) : Z :=
  let w2 := nth 1 rev 0 in let w7 := nth 6 rev 0 in
  let w15 := nth 14 rev 0 in let w16 := nth 15 rev 0 in
  let s0 := Z.lxor (rotr32 w15 7) (Z.lxor (rotr32 w15 18) (shr32 w15 3)) in
  let s1 := Z.lxor (rotr32 w2 17) (Z.lxor (rotr32 w2 19) (shr32 w2 10)) in
  add32 (add32 w16 s0) (add32 w7 s1).

Fixpoint extend_schedule (n : nat) (rev : list Z) : list Z :=
  match n with
  | O => rev
  | S m => extend_schedule m (next_word rev :: rev)
  end.

Definition schedule (block : list Z) : list Z :=
  reverse (extend_schedule 48 (reverse (words_of block 16))).

Definition round (h : list Z) (kw : Z * Z) : list Z :=
  match h with
  | [a; b; c; d; e; f; g; x] =>
    let s1 := Z.lxor (rotr32 e 6) (Z.lxor (rotr32 e 11) (rotr32 e 25)) in
    let ch := Z.lxor (Z.land e f) (Z.land (Z.lxor e (Z.ones 32)) g) in
    let t1 := add32 (add32 x s1) (add32 ch (add32 kw.1 kw.2)) in
    let s0 := Z.lxor (rotr32 a 2) (Z.lxor (rotr32 a 13) (rotr32 a 22)) in
    let maj := Z.lxor (Z.land a b) (Z.lxor (Z.land a c) (Z.land b c)) in
    let t2 := add32 s0 maj in
    [add32 t1 t2; a; b; c; add32 d t1; e; f; g]
  | _ => h
  end.

Definition compress (h : list Z) (block : list Z) : list Z :=
  zip_with add32 h (foldl round h (zip round_constants (schedule block))).

(** [n] blocks of 64 bytes. *)
Fixpoint message_blocks (n : nat) (l : list Z) : list (list Z) :=
  match n with
  | O => []
  | S m => take 64 l :: message_blocks m (drop 64 l)
  end.

(** [sha256.Sum256]: the digest as 32 bytes. *)
Definition Sum256 (msg : string) : string :=
  let p := pad (byte_values msg) in
  of_byte_values
    (mjoin (big_endian 4 <$> foldl compress initial_hash (message_blocks (Nat.div (length p) 64) p))).

(** [hex.EncodeToString]. *)
Fixpoint hex_encode (s : string) : string :=
  match s with
  | EmptyString => EmptyString
  | String c s' => String (hex_digit (nat_of_ascii c / 16))
                     (String (hex_digit (nat_of_ascii c mod 16)) (hex_encode s'))
  end.

(** Test vectors of FIPS 180-4. *)
Example Sum256_abc :
  hex_encode (Sum256 "abc") = "ba7816bf8f01cfea414140de5dae2223b00361a396177a9cb410ff61f20015ad".
Proof. vm_compute. reflexivity. Qed.

Example Sum256_empty :
  hex_encode (Sum256 "") = "e3b0c44298fc1c149afbf4c8996fb92427ae41e4649b934ca495991b7852b855".
Proof. vm_compute. reflexivity. Qed.

Example Sum256_two_blocks :
  hex_encode (Sum256 "abcdbcdecdefdefgefghfghighijhijkijkljklmklmnlmnomnopnopq") =
  "248d6a61d20638b8e5c026930c3e6039a33ce45964ff2167f6ecedd419db06c1".
Proof. vm_compute. reflexivity. Qed.

Lemma hex_encode_length s : String.length (hex_encode s) = (2 * String.length s)%nat.
Proof. induction s as [|c s IH]; [done|]. cbn [hex_encode String.length]. rewrite IH. lia. Qed.
