(* ===== verification/Encoding.v ===== *)
(** * Base64 and HMAC

    [base64.RawURLEncoding] and [crypto/hmac] over SHA-256, which the gateway
    uses for cookies and random tokens and the client for its own. *)

From S2P Require Import Prelude GoStrings Sha256 Utf8.
From Stdlib Require Import String Ascii.
From stdpp Require Import base strings list.
From Stdlib Require Import ZArith Lia.
Local Open Scope Z_scope.

#[local] Arguments String.append !_ _ / : simpl nomatch.
#[local] Ltac Zify.zify_post_hook ::= Z.div_mod_to_equations.

(** ** Base64, URL alphabet, no padding *)

Definition sextet_char (k : Z) : ascii :=
  if k <? 26 then chr (65 + k)
  else if k <? 52 then chr (71 + k)
  else if k <? 62 then chr (k - 4)
  else if k =? 62 then "-"%char else "_"%char.

Definition sextet_value (c : ascii) : option Z :=
  let n := code c in
  if (65 <=? n) && (n <=? 90) then Some (n - 65)
  else if (97 <=? n) && (n <=? 122) then Some (n - 71)
  else if (48 <=? n) && (n <=? 57) then Some (n + 4)
  else if n =? 45 then Some 62
  else if n =? 95 then Some 63
  else None.

Fixpoint EncodeToString (s : string) : string :=
  match s with
  | String a (String b (String c s')) =>
    let v := code a * 65536 + code b * 256 + code c in
    String (sextet_char (v / 262144)) (String (sextet_char (v / 4096 mod 64))
      (String (sextet_char (v / 64 mod 64)) (String (sextet_char (v mod 64)) (EncodeToString s'))))
  | String a (String b "") =>
    let v := code a * 65536 + code b * 256 in
    String (sextet_char (v / 262144)) (String (sextet_char (v / 4096 mod 64))
      (String (sextet_char (v / 64 mod 64)) ""))
  | String a "" =>
    let v := code a * 65536 in
    String (sextet_char (v / 262144)) (String (sextet_char (v / 4096 mod 64)) "")
  | "" => ""
  end.

(** The decoder passes over line ends and refuses every other character
    outside the alphabet. *)
Fixpoint sextets (s : string) : option (list Z) :=
  match s with
  | "" => Some []
  | String c s' =>
    match sextet_value c with
    | Some v => match sextets s' with Some l => Some (v :: l) | None => None end
    | None => if (code c =? 10) || (code c =? 13) then sextets s' else None
    end
  end.

(** Bits left over in the last group are ignored. *)
Fixpoint quanta (l : list Z) : option string :=
  match l with
  | a :: b :: c :: d :: l' =>
    let v := a * 262144 + b * 4096 + c * 64 + d in
    match quanta l' with
    | Some t => Some (String (chr (v / 65536)) (String (chr (v / 256 mod 256)) (String (chr (v mod 256)) t)))
    | None => None
    end
  | [a; b; c] =>
    let v := a * 262144 + b * 4096 + c * 64 in
    Some (String (chr (v / 65536)) (String (chr (v / 256 mod 256)) ""))
  | [a; b] => Some (String (chr ((a * 262144 + b * 4096) / 65536)) "")
  | [_] => None
  | [] => Some ""
  end.

Definition DecodeString (s : string) : option string :=
  match sextets s with Some l => quanta l | None => None end.

(** ** HMAC-SHA256 *)

Definition BlockSize : nat := 64.

Definition hmac_block (key : string) : list Z :=
  let k := byte_values (if Nat.ltb BlockSize (String.length key) then Sum256 key else key) in
  k ++ replicate (BlockSize - length k) 0.

Definition xor_pad (pad : Z) (block : list Z) : string := of_byte_values (Z.lxor pad <$> block).

Definition hmac (key msg : string) : string :=
  let block := hmac_block key in
  Sum256 (xor_pad 92 block +:+ Sum256 (xor_pad 54 block +:+ msg)).

(** Test vectors of RFC 4231 and RFC 4648. *)
Example hmac_short_key :
  hex_encode (hmac "Jefe" "what do ya want for nothing?") =
  "5bdcc146bf60754e6a042426089575c75a003f089d2739839dec58b964ec3843".
Proof. vm_compute. reflexivity. Qed.

Example hmac_long_key :
  hex_encode (hmac (string_of_list_ascii (replicate 131 (chr 170)))
    "Test Using Larger Than Block-Size Key - Hash Key First") =
  "60e431591ee0b67f0d8a26aacbf5b77f8e0bc6213728c5140546040f0ee37f54".
Proof. vm_compute. reflexivity. Qed.

Example EncodeToString_foobar :
  EncodeToString "foobar" = "Zm9vYmFy" ∧ EncodeToString "fooba" = "Zm9vYmE" ∧ EncodeToString "foob" = "Zm9vYg".
Proof. done. Qed.

(** ** Proofs *)

Lemma sextet_round_trip k : 0 <= k < 64 → sextet_value (sextet_char k) = Some k.
Proof.
  intros Hk. assert (∃ i, (i < 64)%nat ∧ k = Z.of_nat i) as (i & Hi & ->) by (exists (Z.to_nat k); lia).
  do 64 (destruct i as [|i]; [reflexivity|]). lia.
Qed.

(** Induction by groups of three bytes. *)
Lemma triple_ind (P : string → Prop) :
  P "" → (∀ a, P (String a "")) → (∀ a b, P (String a (String b ""))) →
  (∀ a b c s, P s → P (String a (String b (String c s)))) → ∀ s, P s.
Proof.
  intros H0 H1 H2 H3. fix IH 1. intros [|a [|b [|c s]]]; [done|apply H1|apply H2|apply H3, IH].
Qed.

(** What is encoded is decoded. *)
Lemma DecodeString_EncodeToString s : DecodeString (EncodeToString s) = Some s.
Proof.
  unfold DecodeString. induction s as [|a|a b|a b c s IH] using triple_ind; [done|..];
    pose proof (code_range a); cbn [EncodeToString sextets].
  - rewrite !sextet_round_trip by lia. cbn [quanta]. repeat f_equal. symmetry. rewrite <- (chr_code a) at 1. f_equal. lia.
  - pose proof (code_range b). rewrite !sextet_round_trip by lia. cbn [quanta]. f_equal. symmetry.
    by repeat (apply cons_chr; [lia|]).
  - pose proof (code_range b). pose proof (code_range c). rewrite !sextet_round_trip by lia.
    destruct (sextets (EncodeToString s)) as [l|]; [|done]. cbn [quanta]. rewrite IH. f_equal. symmetry.
    by repeat (apply cons_chr; [lia|]).
Qed.

#[export] Instance EncodeToString_inj : Inj (=) (=) EncodeToString.
Proof.
  intros s t Heq. apply (inj Some). by rewrite <- !DecodeString_EncodeToString, Heq.
Qed.

(** The alphabet: letters, digits, [-] and [_]. *)
Definition url_safe (c : ascii) : bool := match sextet_value c with Some _ => true | None => false end.

Lemma url_safe_sextet k : 0 <= k < 64 → url_safe (sextet_char k) = true.
Proof. intros Hk. unfold url_safe. by rewrite sextet_round_trip. Qed.

Lemma EncodeToString_safe s : all_chars url_safe (EncodeToString s) = true.
Proof.
  induction s as [|a|a b|a b c s IH] using triple_ind; [done|..]; pose proof (code_range a); cbn [EncodeToString all_chars].
  - by rewrite !url_safe_sextet by lia.
  - pose proof (code_range b). by rewrite !url_safe_sextet by lia.
  - pose proof (code_range b). pose proof (code_range c). by rewrite !url_safe_sextet, IH by lia.
Qed.
