(* ===== verification/Paths.v ===== *)
(** * File paths

    [filepath.Clean], [Join] of two elements and [Base] on Unix. *)

From S2P Require Import Prelude GoStrings.
From Stdlib Require Import String Ascii.
From stdpp Require Import base strings list.
From Stdlib Require Import ZArith Lia.

#[local] Arguments String.append !_ _ / : simpl nomatch.

(** The elements between slashes; never the empty list. *)
Fixpoint split_slash (s : string) : list string :=
  match s with
  | "" => [""]
  | String c s' =>
    if Ascii.eqb c "/" then "" :: split_slash s'
    else match split_slash s' with
         | [] => [String c ""]
         | x :: l => String c x :: l
         end
  end.

(** One element of a path; the cleaned ones before it, last first. *)
Definition clean_element (rooted : bool) (acc : list string) (x : string) : list string :=
  if String.eqb x "" || String.eqb x "." then acc
  else if String.eqb x ".." then
    match acc with
    | [] => if rooted then [] else [".."]
    | y :: acc' => if String.eqb y ".." then x :: acc else acc'
    end
  else x :: acc.

Definition is_rooted (s : string) : bool :=
  match s with String c _ => Ascii.eqb c "/" | _ => false end.

Definition clean_elements (s : string) : list string :=
  reverse (foldl (clean_element (is_rooted s)) [] (split_slash s)).

Definition path_Clean (s : string) : string :=
  let body := GoStrings.Join (clean_elements s) "/" in
  if is_rooted s then "/" +:+ body else if String.eqb body "" then "." else body.

(** [filepath.Join(dir, name)] for a name that is not empty. *)
Definition path_Join (dir name : string) : string :=
  if String.eqb dir "" then path_Clean name else path_Clean (dir +:+ "/" +:+ name).

Definition path_Base (s : string) : string :=
  if String.eqb s "" then "."
  else match List.find (λ x, negb (String.eqb x "")) (reverse (split_slash s)) with
       | Some x => x
       | None => "/"
       end.

(** ** Proofs *)

(** A file name: one element that [Clean] leaves alone. *)
Definition file_name (x : string) : bool :=
  all_chars (λ c, negb (Ascii.eqb c "/")) x && negb (String.eqb x "") && negb (String.eqb x ".") && negb (String.eqb x "..").

Lemma split_slash_app a b : split_slash (a +:+ String "/" b) = split_slash a ++ split_slash b.
Proof.
  induction a as [|c a IH]; [done|]. cbn [String.append split_slash]. rewrite IH.
  destruct (Ascii.eqb c "/"); [done|]. destruct (split_slash a) eqn:E; [|done].
  destruct a as [|d a]; simpl in E; [done|]. destruct (Ascii.eqb d "/"); [done|]. by destruct (split_slash a).
Qed.

Lemma split_slash_name x : all_chars (λ c, negb (Ascii.eqb c "/")) x = true → split_slash x = [x].
Proof.
  induction x as [|c x IH]; [done|]. cbn [all_chars split_slash]. intros [Hc Hx]%andb_prop.
  apply negb_true_iff in Hc. by rewrite Hc, IH.
Qed.

Lemma clean_element_name rooted acc x : file_name x = true → clean_element rooted acc x = x :: acc.
Proof.
  unfold file_name, clean_element. intros H. apply andb_prop in H as [H H3]. apply andb_prop in H as [H H2].
  apply andb_prop in H as [_ H1]. apply negb_true_iff in H1, H2, H3. by rewrite H1, H2, H3.
Qed.

Lemma is_rooted_app dir t : dir ≠ "" → is_rooted (dir +:+ t) = is_rooted dir.
Proof. by destruct dir. Qed.

Lemma clean_elements_name dir x :
  dir ≠ "" → file_name x = true → clean_elements (dir +:+ String "/" x) = clean_elements dir ++ [x].
Proof.
  intros Hd Hx. unfold clean_elements. rewrite is_rooted_app, split_slash_app, foldl_app by done.
  rewrite (split_slash_name x) by (unfold file_name in Hx; by do 3 apply andb_prop in Hx as [Hx _]).
  cbn [foldl]. by rewrite clean_element_name, reverse_cons.
Qed.

Lemma Join_snoc l x : l ≠ [] → GoStrings.Join (l ++ [x]) "/" = GoStrings.Join l "/" +:+ "/" +:+ x.
Proof.
  induction l as [|y l IH]; [done|]. intros _. destruct l as [|z l]; [done|].
  change ((y :: z :: l) ++ [x]) with (y :: (z :: l) ++ [x]).
  assert (∀ l, l ≠ [] → GoStrings.Join (y :: l) "/" = y +:+ "/" +:+ GoStrings.Join l "/") as Hj by (by intros []).
  rewrite !Hj by (by destruct l). rewrite IH by done. by rewrite !append_assoc.
Qed.

Lemma append_not_empty a b : b ≠ "" → a +:+ b ≠ "".
Proof. by destruct a. Qed.

(** Files of one directory: the path is a prefix that depends on the
    directory alone, and the name. *)
Lemma path_Join_name dir : ∃ prefix, ∀ x, file_name x = true → path_Join dir x = prefix +:+ x.
Proof.
  unfold path_Join. destruct (String.eqb_spec dir "") as [->|Hd].
  - exists "". intros x Hx. unfold path_Clean.
    assert (is_rooted x = false) as Hr.
    { unfold file_name in Hx. do 3 apply andb_prop in Hx as [Hx _]. destruct x as [|c x]; [done|]. simpl in *.
      by destruct (Ascii.eqb c "/"). }
    assert (clean_elements x = [x]) as ->.
    { unfold clean_elements. rewrite Hr, split_slash_name
        by (unfold file_name in Hx; by do 3 apply andb_prop in Hx as [Hx _]).
      cbn [foldl]. by rewrite clean_element_name. }
    rewrite Hr. simpl. destruct (String.eqb_spec x "") as [->|]; [done|done].
  - set (cs := clean_elements dir).
    exists ((if is_rooted dir then "/" else "") +:+ (if decide (cs = []) then "" else GoStrings.Join cs "/" +:+ "/")).
    intros x Hx. unfold path_Clean. change (dir +:+ "/" +:+ x) with (dir +:+ String "/" x).
    rewrite clean_elements_name, is_rooted_app by done. fold cs.
    assert (x ≠ "") as Hne by (intros ->; done).
    assert (GoStrings.Join (cs ++ [x]) "/" = (if decide (cs = []) then "" else GoStrings.Join cs "/" +:+ "/") +:+ x) as ->.
    { case_decide as Hc; [by rewrite Hc|]. by rewrite Join_snoc, append_assoc. }
    rewrite append_assoc. destruct (is_rooted dir); [done|]. simpl.
    by rewrite (proj2 (String.eqb_neq _ _) (append_not_empty _ _ Hne)).
Qed.

Lemma path_Join_inj dir x y : file_name x = true → file_name y = true → path_Join dir x = path_Join dir y → x = y.
Proof.
  intros Hx Hy. destruct (path_Join_name dir) as [prefix Hp]. rewrite !Hp by done. apply append_inj_l.
Qed.
