(* ===== verification/Os.v ===== *)
(** * Calls to the operating system

    What the agent and the command line client ask of the machine they run
    on: files, processes, and the network as an HTTP client sees it. Files.v
    says what the documentation promises about them. *)

From S2P Require Import Prelude GoStrings.
From Stdlib Require Import String.
From stdpp Require Import base strings list.
From Stdlib Require Import ZArith.
Local Open Scope Z_scope.

(** The reply to a request of [http.DefaultClient]. *)
Record HTTPReply := {
  rp_StatusCode : Z;
  rp_Status : string;
  rp_Body : string;
}.

(** How the wait for the login's browser callback goes on: a request arrives
    with its query parameters, the context ends, or the timer fires. *)
Inductive Awaited :=
  | CallbackArrived (query : list (string * string))
  | ContextDone (e : error)
  | TimedOut.

(** What [cmd.Wait] returns: nil, an [*exec.ExitError] whose [Sys] is a Unix
    wait status, one whose [Sys] is something else, or another error. *)
Inductive WaitError :=
  | WaitNil
  | WaitExit (ws : Z)
  | WaitExitOther
  | WaitOther.

(** A command to run: its argument vector, working directory and the
    variables added to the environment. *)
Record Cmd := {
  cmd_Argv : list string;
  cmd_Dir : string;
  cmd_Env : list (string * string);
}.

Inductive os : Type → Type :=
  | OUserHomeDir : os (res string)
  | OExecutable : os (res string)
  | OStat (path : string) : os (res unit)
  | OReadFile (path : string) : os (res string)
  | OWriteFile (path data : string) (perm : Z) : os (res unit)
  | OMkdirAll (dir : string) (perm : Z) : os (res unit)
  (* an open file: the binary being copied, and the temporary file *)
  | OOpen (path : string) : os (res unit)
  | OCreateTemp (dir pattern : string) : os (res string)
  | OCopy (src dst : string) : os (res unit)
  | OChmod (path : string) (perm : Z) : os (res unit)
  | OCloseFile (path : string) : os (res unit)
  | ORename (old new : string) : os (res unit)
  | ORemove (path : string) : os unit
  (* processes *)
  | OStdinPipe : os (res unit)
  | OStart (cmd : Cmd) : os (res unit)
  | OWaitChild : os WaitError
  | OLookPath (name : string) : os (res string)
  | OExec (path : string) (args : list string) : os error
  (* the kubeconfig and a client for it *)
  | OGetConfig : os (res unit)
  | ONewClient : os (res unit)
  (* controller-runtime's manager: building it, adding to it, starting it *)
  | OManager (what : string) : os (res unit)
  (* the network *)
  | OHTTPDo (method url body : string) : os (res HTTPReply)
  | OListen (addr : string) : os (res string)
  | OAwaitCallback (timeout : Duration) : os Awaited
  | OAwaitResult : os Awaited.
