(* ===== verification/KubeTypes.v ===== *)
(** * The Kubernetes objects kubepark reads and writes

    Records for the object kinds of [k8s.io/api] and [k8s.io/apimachinery]
    with the fields kubepark sets or reads. An optional pointer is an
    [option]; a map that may be nil is a [gmap] (the API never returns an
    empty map that is not nil, so the two are not told apart); a byte slice is
    a [string]; a resource quantity is its value. The transition times of
    conditions are left out: kubepark neither sets nor reads them. *)

From S2P Require Import Prelude.
From Stdlib Require Import String.
From stdpp Require Import base gmap strings list.

(** ** Object metadata *)

Record OwnerReference := {
  or_Kind : string;
  or_Name : string;
  or_UID : string;
  or_Controller : bool;
}.

Record ObjectMeta := {
  Name : string;
  Namespace : string;
  UID : string;
  Generation : Z;
  ResourceVersion : Z;
  CreationTimestamp : Time;
  DeletionTimestamp : option Time;
  mLabels : gmap string string;
  mAnnotations : gmap string string;
  Finalizers : list string;
  OwnerReferences : list OwnerReference;
}.

(** [metav1.ObjectMeta{Name: n, Namespace: ns}], before the API server sees
    the object. *)
Definition newMeta (ns n : string) : ObjectMeta :=
  {| Name := n; Namespace := ns; UID := ""; Generation := 0;
     ResourceVersion := 0; CreationTimestamp := zeroTime;
     DeletionTimestamp := None; mLabels := ∅; mAnnotations := ∅;
     Finalizers := []; OwnerReferences := [] |}.

Definition set_labels (l : gmap string string) (m : ObjectMeta) : ObjectMeta :=
  {| Name := Name m; Namespace := Namespace m; UID := UID m;
     Generation := Generation m; ResourceVersion := ResourceVersion m;
     CreationTimestamp := CreationTimestamp m;
     DeletionTimestamp := DeletionTimestamp m; mLabels := l;
     mAnnotations := mAnnotations m; Finalizers := Finalizers m;
     OwnerReferences := OwnerReferences m |}.

Definition set_annotations (a : gmap string string) (m : ObjectMeta) : ObjectMeta :=
  {| Name := Name m; Namespace := Namespace m; UID := UID m;
     Generation := Generation m; ResourceVersion := ResourceVersion m;
     CreationTimestamp := CreationTimestamp m;
     DeletionTimestamp := DeletionTimestamp m; mLabels := mLabels m;
     mAnnotations := a; Finalizers := Finalizers m;
     OwnerReferences := OwnerReferences m |}.

Definition set_finalizers (f : list string) (m : ObjectMeta) : ObjectMeta :=
  {| Name := Name m; Namespace := Namespace m; UID := UID m;
     Generation := Generation m; ResourceVersion := ResourceVersion m;
     CreationTimestamp := CreationTimestamp m;
     DeletionTimestamp := DeletionTimestamp m; mLabels := mLabels m;
     mAnnotations := mAnnotations m; Finalizers := f;
     OwnerReferences := OwnerReferences m |}.

Definition set_owners (o : list OwnerReference) (m : ObjectMeta) : ObjectMeta :=
  {| Name := Name m; Namespace := Namespace m; UID := UID m;
     Generation := Generation m; ResourceVersion := ResourceVersion m;
     CreationTimestamp := CreationTimestamp m;
     DeletionTimestamp := DeletionTimestamp m; mLabels := mLabels m;
     mAnnotations := mAnnotations m; Finalizers := Finalizers m;
     OwnerReferences := o |}.

(** The fields only the API server writes. *)
Definition set_server (uid : string) (gen rv : Z) (created : Time)
    (deleted : option Time) (m : ObjectMeta) : ObjectMeta :=
  {| Name := Name m; Namespace := Namespace m; UID := uid;
     Generation := gen; ResourceVersion := rv;
     CreationTimestamp := created; DeletionTimestamp := deleted;
     mLabels := mLabels m; mAnnotations := mAnnotations m;
     Finalizers := Finalizers m; OwnerReferences := OwnerReferences m |}.

Record NamespacedName := {
  nn_Namespace : string;
  nn_Name : string;
}.

(** [metav1.Condition]. *)
Inductive ConditionStatus := ConditionTrue | ConditionFalse | ConditionUnknown.

Record Condition := {
  c_Type : string;
  c_Status : ConditionStatus;
  c_Reason : string;
  c_Message : string;
  c_ObservedGeneration : Z;
}.

Definition find_condition (cs : list Condition) (ty : string) : option Condition :=
  find_first (λ c, String.eqb (c_Type c) ty) cs.

(** ** Core objects *)

Record EnvVar := {
  ev_Name : string;
  ev_Value : string;
  ev_ValueFrom : option string;
}.

Record ContainerPort := {
  cp_Name : string;
  cp_ContainerPort : Z;
  cp_Protocol : string;
}.

Record VolumeMount := {
  vm_Name : string;
  vm_MountPath : string;
  vm_ReadOnly : bool;
}.

Record SecurityContext := {
  sc_AllowPrivilegeEscalation : option bool;
  sc_CapabilitiesDrop : list string;
}.

Record ResourceRequirements := {
  rr_Limits : gmap string Z;
  rr_Requests : gmap string Z;
}.

Record Container := {
  ct_Name : string;
  ct_Image : string;
  ct_Command : list string;
  ct_Args : list string;
  ct_Env : list EnvVar;
  ct_Ports : list ContainerPort;
  ct_Resources : ResourceRequirements;
  ct_SecurityContext : option SecurityContext;
  ct_VolumeMounts : list VolumeMount;
}.

Inductive VolumeSource :=
  | VolumePVC (claim : string)
  | VolumeEmptyDir
  | VolumeSecret (secret : string) (defaultMode : option Z).

Record Volume := {
  vol_Name : string;
  vol_Source : VolumeSource;
}.

Record PodSecurityContext := {
  psc_RunAsNonRoot : option bool;
  psc_RunAsUser : option Z;
  psc_FSGroup : option Z;
  psc_SeccompProfile : option string;
}.

Record PodSpec := {
  ps_RestartPolicy : string;
  ps_Hostname : string;
  ps_ServiceAccountName : string;
  ps_AutomountServiceAccountToken : option bool;
  ps_TerminationGracePeriodSeconds : option Z;
  ps_SecurityContext : option PodSecurityContext;
  ps_InitContainers : list Container;
  ps_Containers : list Container;
  ps_Volumes : list Volume;
  ps_PriorityClassName : string;
  ps_RuntimeClassName : option string;
}.

Inductive PodPhase := PodPhaseUnset | PodPending | PodRunning | PodSucceeded | PodFailed | PodUnknown.

Inductive PodConditionType := PodScheduled | PodReady | PodConditionOther (s : string).

Record PodCondition := {
  pc_Type : PodConditionType;
  pc_Status : ConditionStatus;
  pc_Message : string;
}.

Record PodStatus := {
  pst_Phase : PodPhase;
  pst_PodIP : string;
  pst_Conditions : list PodCondition;
}.

Record Pod := {
  pod_ObjectMeta :> ObjectMeta;
  pod_Spec : PodSpec;
  pod_Status : PodStatus;
}.

Record PersistentVolumeClaimSpec := {
  pvs_AccessModes : list string;
  pvs_StorageClassName : option string;
  pvs_Requests : gmap string Z;
}.

Record PersistentVolumeClaim := {
  pvc_ObjectMeta :> ObjectMeta;
  pvc_Spec : PersistentVolumeClaimSpec;
}.

Record Secret := {
  sec_ObjectMeta :> ObjectMeta;
  sec_Data : gmap string string;
}.

Record ServiceAccount := {
  sa_ObjectMeta :> ObjectMeta;
}.

Record KNamespaceObj := {
  ns_ObjectMeta :> ObjectMeta;
}.

(** ** RBAC objects *)

Record PolicyRule := {
  pr_Verbs : list string;
  pr_APIGroups : list string;
  pr_Resources : list string;
  pr_ResourceNames : list string;
}.

Record Role := {
  role_ObjectMeta :> ObjectMeta;
  role_Rules : list PolicyRule;
}.

Record RoleRef := {
  rref_APIGroup : string;
  rref_Kind : string;
  rref_Name : string;
}.

Record Subject := {
  sub_Kind : string;
  sub_Name : string;
  sub_Namespace : string;
}.

Record RoleBinding := {
  rb_ObjectMeta :> ObjectMeta;
  rb_RoleRef : RoleRef;
  rb_Subjects : list Subject;
}.

(** ** Networking objects *)

Record LabelSelector := {
  ls_MatchLabels : gmap string string;
  ls_MatchExpressions : list (string * string * list string);
}.

Record NetworkPolicyPeer := {
  npp_PodSelector : option LabelSelector;
  npp_NamespaceSelector : option LabelSelector;
  npp_IPBlock : option string;
}.

Inductive IntOrString := IntVal (i : Z) | StrVal (s : string).

Record NetworkPolicyPort := {
  npt_Protocol : option string;
  npt_Port : option IntOrString;
}.

Record NetworkPolicyIngressRule := {
  npi_From : list NetworkPolicyPeer;
  npi_Ports : list NetworkPolicyPort;
}.

Record NetworkPolicyEgressRule := {
  npe_To : list NetworkPolicyPeer;
  npe_Ports : list NetworkPolicyPort;
}.

Record NetworkPolicySpec := {
  nps_PodSelector : LabelSelector;
  nps_PolicyTypes : list string;
  nps_Ingress : list NetworkPolicyIngressRule;
  nps_Egress : list NetworkPolicyEgressRule;
}.

Record NetworkPolicy := {
  np_ObjectMeta :> ObjectMeta;
  np_Spec : NetworkPolicySpec;
}.

Record Endpoint := {
  end_Addresses : list string;
  end_Ready : option bool;
}.

Record EndpointSlice := {
  es_ObjectMeta :> ObjectMeta;
  es_Endpoints : list Endpoint;
  es_Ports : list (option Z);
}.

(** ** Decidable equality *)

#[export] Instance OwnerReference_eq_dec : EqDecision OwnerReference.
Proof. solve_decision. Defined.
#[export] Instance ObjectMeta_eq_dec : EqDecision ObjectMeta.
Proof. solve_decision. Defined.
#[export] Instance NamespacedName_eq_dec : EqDecision NamespacedName.
Proof. solve_decision. Defined.
#[export] Instance ConditionStatus_eq_dec : EqDecision ConditionStatus.
Proof. solve_decision. Defined.
#[export] Instance Condition_eq_dec : EqDecision Condition.
Proof. solve_decision. Defined.
#[export] Instance PodPhase_eq_dec : EqDecision PodPhase.
Proof. solve_decision. Defined.
#[export] Instance PodConditionType_eq_dec : EqDecision PodConditionType.
Proof. solve_decision. Defined.
#[export] Instance PolicyRule_eq_dec : EqDecision PolicyRule.
Proof. solve_decision. Defined.
#[export] Instance RoleRef_eq_dec : EqDecision RoleRef.
Proof. solve_decision. Defined.
#[export] Instance Subject_eq_dec : EqDecision Subject.
Proof. solve_decision. Defined.
#[export] Instance LabelSelector_eq_dec : EqDecision LabelSelector.
Proof. solve_decision. Defined.
#[export] Instance NetworkPolicyPeer_eq_dec : EqDecision NetworkPolicyPeer.
Proof. solve_decision. Defined.
#[export] Instance IntOrString_eq_dec : EqDecision IntOrString.
Proof. solve_decision. Defined.
#[export] Instance NetworkPolicyPort_eq_dec : EqDecision NetworkPolicyPort.
Proof. solve_decision. Defined.
#[export] Instance NetworkPolicyIngressRule_eq_dec : EqDecision NetworkPolicyIngressRule.
Proof. solve_decision. Defined.
#[export] Instance NetworkPolicyEgressRule_eq_dec : EqDecision NetworkPolicyEgressRule.
Proof. solve_decision. Defined.
#[export] Instance NetworkPolicySpec_eq_dec : EqDecision NetworkPolicySpec.
Proof. solve_decision. Defined.

#[export] Instance NamespacedName_countable : Countable NamespacedName.
Proof.
  refine (inj_countable' (λ k, (nn_Namespace k, nn_Name k))
            (λ p, {| nn_Namespace := p.1; nn_Name := p.2 |}) _).
  by intros [].
Defined.

(** The key an object is stored under. *)
Definition keyOf (m : ObjectMeta) : NamespacedName :=
  {| nn_Namespace := Namespace m; nn_Name := Name m |}.

(** [IsZero] on a [*metav1.Time]: nil or the zero time. *)
Definition ptr_IsZero (t : option Time) : bool :=
  match t with None => true | Some t => time_IsZero t end.
