(* ===== verification/ApiTypes.v ===== *)
(** * The kubepark custom resources (api/v1alpha1)

    The four kinds of the [kubepark.dev/v1alpha1] group. An enumerated string
    type is an inductive type with the source's constants as constructors and,
    where the field may be unset, one more constructor for the empty string;
    the schema's enum validation rejects every other value. *)

From S2P Require Import Prelude KubeTypes.
From Stdlib Require Import String.
From stdpp Require Import base gmap strings list.

(** ** Sandbox *)

Inductive DesiredState :=
  | DesiredStateUnset
  | DesiredStateRunning
  | DesiredStateStopped.

Inductive AuthMode :=
  | AuthModeUnset
  | AuthModeOIDC
  | AuthModeNone.

Inductive RetainPolicy :=
  | RetainPolicyUnset
  | RetainPolicyRetain
  | RetainPolicyDelete.

Record OwnerSpec := {
  ow_Name : string;
  ow_Groups : list string;
}.

Record ExposedPort := {
  ep_Name : string;
  ep_Port : Z;
  ep_Auth : AuthMode;
  ep_AllowedUsers : list string;
  ep_AllowedGroups : list string;
}.

Record HomeSpec := {
  h_Size : option Z;
  h_StorageClassName : option string;
  h_ExistingClaim : string;
  h_RetainPolicy : RetainPolicy;
}.

Record SandboxSpec := {
  sp_Template : string;
  sp_AccessProfile : string;
  sp_Owner : OwnerSpec;
  sp_DesiredState : DesiredState;
  sp_IdleTimeout : option Duration;
  sp_ExposedPorts : list ExposedPort;
  sp_Home : option HomeSpec;
}.

Inductive SandboxPhase :=
  | SandboxPhaseUnset
  | SandboxPhasePending
  | SandboxPhaseProvisioning
  | SandboxPhaseRunning
  | SandboxPhaseSuspending
  | SandboxPhaseSuspended
  | SandboxPhaseResuming
  | SandboxPhaseFailed
  | SandboxPhaseTerminating.

(** Condition types and reasons. *)
Definition ConditionReady : string := "Ready".
Definition ConditionPodReady : string := "PodReady".
Definition ConditionHomeReady : string := "HomeReady".
Definition ConditionRBACReady : string := "RBACReady".
Definition ConditionTemplateOutdated : string := "TemplateOutdated".

Definition ReasonInvalidRef : string := "InvalidRef".
Definition ReasonClaimInUse : string := "ClaimInUse".
Definition ReasonProfileNotPermitted : string := "ProfileNotPermitted".
Definition ReasonProfileDeleted : string := "ProfileDeleted".
Definition ReasonProvisioning : string := "Provisioning".
Definition ReasonSuspended : string := "Suspended".
Definition ReasonRunning : string := "Running".
Definition ReasonUpToDate : string := "UpToDate".
Definition ReasonOutdated : string := "Outdated".

Record SandboxStatus := {
  st_Phase : SandboxPhase;
  st_Conditions : list Condition;
  st_PodName : string;
  st_PVCName : string;
  st_ServiceAccountName : string;
  st_PodIP : string;
  st_TemplateHash : string;
  st_LastActivityTime : option Time;
  st_ActiveSessions : Z;
  st_ObservedGeneration : Z;
}.

Record Sandbox := {
  sb_ObjectMeta :> ObjectMeta;
  sb_Spec : SandboxSpec;
  sb_Status : SandboxStatus;
}.

Definition emptyStatus : SandboxStatus :=
  {| st_Phase := SandboxPhaseUnset; st_Conditions := []; st_PodName := "";
     st_PVCName := ""; st_ServiceAccountName := ""; st_PodIP := "";
     st_TemplateHash := ""; st_LastActivityTime := None;
     st_ActiveSessions := 0; st_ObservedGeneration := 0 |}.

(** ** SandboxTemplate *)

Inductive IsolationLevel :=
  | IsolationUnset
  | IsolationStandard
  | IsolationStrong.

Record EgressRule := {
  eg_To : list NetworkPolicyPeer;
  eg_Ports : list NetworkPolicyPort;
}.

Record SandboxTemplateSpec := {
  ts_Image : string;
  ts_Command : list string;
  ts_Env : list EnvVar;
  ts_Resources : ResourceRequirements;
  ts_IsolationLevel : IsolationLevel;
  ts_RuntimeClassName : option string;
  ts_HomeSize : Z;
  ts_StorageClassName : option string;
  ts_Egress : list EgressRule;
  ts_DefaultIdleTimeout : option Duration;
  ts_RunAsUser : option Z;
}.

Record SandboxTemplate := {
  tpl_ObjectMeta :> ObjectMeta;
  tpl_Spec : SandboxTemplateSpec;
}.

(** ** AccessProfile *)

Record NamespacedGrant := {
  gr_Namespaces : list string;
  gr_Rules : list PolicyRule;
}.

Record AccessProfileSpec := {
  aps_Grants : list NamespacedGrant;
  aps_AllowedNamespaces : list string;
}.

Definition ConditionValid : string := "Valid".
Definition ReasonValid : string := "Valid".
Definition ReasonMissingNamespace : string := "MissingNamespace".

Record AccessProfileStatus := {
  apst_Conditions : list Condition;
  apst_ObservedGeneration : Z;
}.

Record AccessProfile := {
  ap_ObjectMeta :> ObjectMeta;
  ap_Spec : AccessProfileSpec;
  ap_Status : AccessProfileStatus;
}.

(** ** SandboxSession *)

Inductive SessionKind := SessionKindSSH | SessionKindHTTP.

Inductive SessionState :=
  | SessionStateUnset
  | SessionStateActive
  | SessionStateClosed.

Definition ExitReasonDisconnected : string := "Disconnected".
Definition ExitReasonStaleHeartbeat : string := "StaleHeartbeat".
Definition ExitReasonSandboxDeleted : string := "SandboxDeleted".

Record SandboxSessionSpec := {
  ss_SandboxName : string;
  ss_User : string;
  ss_ClientAddr : string;
  ss_Kind : SessionKind;
  ss_CertSerial : string;
  ss_HeartbeatInterval : option Duration;
}.

Record SandboxSessionStatus := {
  sst_State : SessionState;
  sst_StartTime : option Time;
  sst_LastActivityTime : option Time;
  sst_EndTime : option Time;
  sst_ExitReason : string;
}.

Record SandboxSession := {
  ses_ObjectMeta :> ObjectMeta;
  ses_Spec : SandboxSessionSpec;
  ses_Status : SandboxSessionStatus;
}.

Definition emptySessionStatus : SandboxSessionStatus :=
  {| sst_State := SessionStateUnset; sst_StartTime := None;
     sst_LastActivityTime := None; sst_EndTime := None; sst_ExitReason := "" |}.

(** ** Decidable equality *)

#[export] Instance DesiredState_eq_dec : EqDecision DesiredState.
Proof. solve_decision. Defined.
#[export] Instance AuthMode_eq_dec : EqDecision AuthMode.
Proof. solve_decision. Defined.
#[export] Instance RetainPolicy_eq_dec : EqDecision RetainPolicy.
Proof. solve_decision. Defined.
#[export] Instance SandboxPhase_eq_dec : EqDecision SandboxPhase.
Proof. solve_decision. Defined.
#[export] Instance SandboxStatus_eq_dec : EqDecision SandboxStatus.
Proof. solve_decision. Defined.
#[export] Instance IsolationLevel_eq_dec : EqDecision IsolationLevel.
Proof. solve_decision. Defined.
#[export] Instance SessionState_eq_dec : EqDecision SessionState.
Proof. solve_decision. Defined.

(** ** Field updates

    The code assigns to fields of a status in place; each assignment is one of
    these. *)

Definition set_Phase (p : SandboxPhase) (s : SandboxStatus) : SandboxStatus :=
  {| st_Phase := p; st_Conditions := st_Conditions s; st_PodName := st_PodName s;
     st_PVCName := st_PVCName s; st_ServiceAccountName := st_ServiceAccountName s;
     st_PodIP := st_PodIP s; st_TemplateHash := st_TemplateHash s;
     st_LastActivityTime := st_LastActivityTime s;
     st_ActiveSessions := st_ActiveSessions s;
     st_ObservedGeneration := st_ObservedGeneration s |}.

Definition set_Conditions (c : list Condition) (s : SandboxStatus) : SandboxStatus :=
  {| st_Phase := st_Phase s; st_Conditions := c; st_PodName := st_PodName s;
     st_PVCName := st_PVCName s; st_ServiceAccountName := st_ServiceAccountName s;
     st_PodIP := st_PodIP s; st_TemplateHash := st_TemplateHash s;
     st_LastActivityTime := st_LastActivityTime s;
     st_ActiveSessions := st_ActiveSessions s;
     st_ObservedGeneration := st_ObservedGeneration s |}.

Definition set_PodName (n : string) (s : SandboxStatus) : SandboxStatus :=
  {| st_Phase := st_Phase s; st_Conditions := st_Conditions s; st_PodName := n;
     st_PVCName := st_PVCName s; st_ServiceAccountName := st_ServiceAccountName s;
     st_PodIP := st_PodIP s; st_TemplateHash := st_TemplateHash s;
     st_LastActivityTime := st_LastActivityTime s;
     st_ActiveSessions := st_ActiveSessions s;
     st_ObservedGeneration := st_ObservedGeneration s |}.

Definition set_PVCName (n : string) (s : SandboxStatus) : SandboxStatus :=
  {| st_Phase := st_Phase s; st_Conditions := st_Conditions s; st_PodName := st_PodName s;
     st_PVCName := n; st_ServiceAccountName := st_ServiceAccountName s;
     st_PodIP := st_PodIP s; st_TemplateHash := st_TemplateHash s;
     st_LastActivityTime := st_LastActivityTime s;
     st_ActiveSessions := st_ActiveSessions s;
     st_ObservedGeneration := st_ObservedGeneration s |}.

Definition set_ServiceAccountName (n : string) (s : SandboxStatus) : SandboxStatus :=
  {| st_Phase := st_Phase s; st_Conditions := st_Conditions s; st_PodName := st_PodName s;
     st_PVCName := st_PVCName s; st_ServiceAccountName := n;
     st_PodIP := st_PodIP s; st_TemplateHash := st_TemplateHash s;
     st_LastActivityTime := st_LastActivityTime s;
     st_ActiveSessions := st_ActiveSessions s;
     st_ObservedGeneration := st_ObservedGeneration s |}.

Definition set_PodIP (ip : string) (s : SandboxStatus) : SandboxStatus :=
  {| st_Phase := st_Phase s; st_Conditions := st_Conditions s; st_PodName := st_PodName s;
     st_PVCName := st_PVCName s; st_ServiceAccountName := st_ServiceAccountName s;
     st_PodIP := ip; st_TemplateHash := st_TemplateHash s;
     st_LastActivityTime := st_LastActivityTime s;
     st_ActiveSessions := st_ActiveSessions s;
     st_ObservedGeneration := st_ObservedGeneration s |}.

Definition set_TemplateHash (h : string) (s : SandboxStatus) : SandboxStatus :=
  {| st_Phase := st_Phase s; st_Conditions := st_Conditions s; st_PodName := st_PodName s;
     st_PVCName := st_PVCName s; st_ServiceAccountName := st_ServiceAccountName s;
     st_PodIP := st_PodIP s; st_TemplateHash := h;
     st_LastActivityTime := st_LastActivityTime s;
     st_ActiveSessions := st_ActiveSessions s;
     st_ObservedGeneration := st_ObservedGeneration s |}.

Definition set_LastActivityTime (t : option Time) (s : SandboxStatus) : SandboxStatus :=
  {| st_Phase := st_Phase s; st_Conditions := st_Conditions s; st_PodName := st_PodName s;
     st_PVCName := st_PVCName s; st_ServiceAccountName := st_ServiceAccountName s;
     st_PodIP := st_PodIP s; st_TemplateHash := st_TemplateHash s;
     st_LastActivityTime := t;
     st_ActiveSessions := st_ActiveSessions s;
     st_ObservedGeneration := st_ObservedGeneration s |}.

Definition set_ActiveSessions (n : Z) (s : SandboxStatus) : SandboxStatus :=
  {| st_Phase := st_Phase s; st_Conditions := st_Conditions s; st_PodName := st_PodName s;
     st_PVCName := st_PVCName s; st_ServiceAccountName := st_ServiceAccountName s;
     st_PodIP := st_PodIP s; st_TemplateHash := st_TemplateHash s;
     st_LastActivityTime := st_LastActivityTime s;
     st_ActiveSessions := n;
     st_ObservedGeneration := st_ObservedGeneration s |}.

Definition set_ObservedGeneration (g : Z) (s : SandboxStatus) : SandboxStatus :=
  {| st_Phase := st_Phase s; st_Conditions := st_Conditions s; st_PodName := st_PodName s;
     st_PVCName := st_PVCName s; st_ServiceAccountName := st_ServiceAccountName s;
     st_PodIP := st_PodIP s; st_TemplateHash := st_TemplateHash s;
     st_LastActivityTime := st_LastActivityTime s;
     st_ActiveSessions := st_ActiveSessions s;
     st_ObservedGeneration := g |}.

(** Replacing the metadata, the spec or the status of an object. *)
Definition with_sb_meta (m : ObjectMeta) (sb : Sandbox) : Sandbox :=
  {| sb_ObjectMeta := m; sb_Spec := sb_Spec sb; sb_Status := sb_Status sb |}.
Definition with_sb_status (s : SandboxStatus) (sb : Sandbox) : Sandbox :=
  {| sb_ObjectMeta := sb_ObjectMeta sb; sb_Spec := sb_Spec sb; sb_Status := s |}.
Definition with_sb_spec (s : SandboxSpec) (sb : Sandbox) : Sandbox :=
  {| sb_ObjectMeta := sb_ObjectMeta sb; sb_Spec := s; sb_Status := sb_Status sb |}.

Definition set_DesiredState (d : DesiredState) (s : SandboxSpec) : SandboxSpec :=
  {| sp_Template := sp_Template s; sp_AccessProfile := sp_AccessProfile s;
     sp_Owner := sp_Owner s; sp_DesiredState := d;
     sp_IdleTimeout := sp_IdleTimeout s; sp_ExposedPorts := sp_ExposedPorts s;
     sp_Home := sp_Home s |}.

Definition with_ap_meta (m : ObjectMeta) (p : AccessProfile) : AccessProfile :=
  {| ap_ObjectMeta := m; ap_Spec := ap_Spec p; ap_Status := ap_Status p |}.
Definition with_ap_status (s : AccessProfileStatus) (p : AccessProfile) : AccessProfile :=
  {| ap_ObjectMeta := ap_ObjectMeta p; ap_Spec := ap_Spec p; ap_Status := s |}.

Definition with_ses_status (s : SandboxSessionStatus) (x : SandboxSession) : SandboxSession :=
  {| ses_ObjectMeta := ses_ObjectMeta x; ses_Spec := ses_Spec x; ses_Status := s |}.
