(* ===== verification/GoHeap.v ===== *)
(** * Go memory: values, addresses and what a value unfolds to

    The generated copy functions of api/v1alpha1 are about memory: whether two
    objects share an array or a pointee. Here a heap maps locations to blocks; a
    value is a scalar, a pointer, a slice header, a struct or an array; an
    address is a location and a path into its block ([&out.Spec],
    [&( *out)[i]]). A panic (a nil pointer dereferenced, an index out of range)
    is [None].

    A value of a type [ty] unfolds to a [tree], its deep contents
    ([reify]), and reaches a set of locations ([foot]); [wrote] says what a
    write leaves alone. GoCopy.v builds on this. *)

From S2P Require Import Prelude.
From Stdlib Require Import String.
From stdpp Require Import base gmap strings list.

(** ** Values and addresses *)

Notation loc := positive.

Inductive step := Fld (f : string) | Idx (i : nat).

#[export] Instance step_eq_dec : EqDecision step.
Proof. solve_decision. Defined.

Definition addr : Type := loc * list step.

Inductive scalar := SInt (z : Z) | SString (s : string) | SBool (b : bool).

(** A slice header holds the address of its array, its offset there and its
    length. *)
Inductive gv :=
  | GScalar (s : scalar)
  | GPtr (p : option addr)
  | GSlice (s : option (addr * nat * nat))
  | GStruct (fs : list (string * gv))
  | GArray (vs : list gv).

(** [a.F], as an address. *)
Definition field (a : addr) (f : string) : addr := (a.1, a.2 ++ [Fld f]).
Notation "a ▸ f" := (field a f) (at level 25, left associativity).

Definition at_index (a : addr) (i : nat) : addr := (a.1, a.2 ++ [Idx i]).

Fixpoint fields_get (f : string) (fs : list (string * gv)) : option gv :=
  match fs with
  | [] => None
  | (g, v) :: fs => if decide (f = g) then Some v else fields_get f fs
  end.

Fixpoint fields_set (f : string) (w : gv) (fs : list (string * gv)) : list (string * gv) :=
  match fs with
  | [] => []
  | (g, v) :: fs => if decide (f = g) then (g, w) :: fs else (g, v) :: fields_set f w fs
  end.

(** One step into a value, and its replacement there. *)
Definition sget (v : gv) (s : step) : option gv :=
  match v, s with
  | GStruct fs, Fld f => fields_get f fs
  | GArray vs, Idx i => vs !! i
  | _, _ => None
  end.

Definition sset (v : gv) (s : step) (w : gv) : gv :=
  match v, s with
  | GStruct fs, Fld f => GStruct (fields_set f w fs)
  | GArray vs, Idx i => GArray (<[i:=w]> vs)
  | _, _ => v
  end.

Fixpoint pget (v : gv) (p : list step) : option gv :=
  match p with
  | [] => Some v
  | s :: p => x ← sget v s; pget x p
  end.

Fixpoint pset (v : gv) (p : list step) (w : gv) : option gv :=
  match p with
  | [] => Some w
  | s :: p => x ← sget v s; y ← pset x p w; Some (sset v s y)
  end.

(** ** The heap and computations on it *)

Notation heap := (gmap loc gv).

Definition load (a : addr) (h : heap) : option gv := b ← h !! a.1; pget b a.2.

Definition update (a : addr) (v : gv) (h : heap) : option heap :=
  b ← h !! a.1; b' ← pset b a.2 v; Some (<[a.1:=b']> h).

Definition M (A : Type) : Type := heap → option (A * heap).

Definition ret {A} (x : A) : M A := λ h, Some (x, h).
Definition panic {A} : M A := λ _, None.
Definition bind {A B} (m : M A) (f : A → M B) : M B :=
  λ h, match m h with Some (x, h') => f x h' | None => None end.

Notation "'let*' x := m 'in' k" := (bind m (λ x, k))
  (at level 200, x name, m at level 100, k at level 200).

(** The statements of a block, in order. *)
Fixpoint block (l : list (M unit)) : M unit :=
  match l with
  | [] => ret tt
  | s :: l => let* _ := s in block l
  end.

(** [*a] read and written. *)
Definition get (a : addr) : M gv :=
  λ h, match load a h with Some v => Some (v, h) | None => None end.
Definition put (a : addr) (v : gv) : M unit :=
  λ h, match update a v h with Some h' => Some (tt, h') | None => None end.

(** [*out = *in] *)
Definition assign (out inp : addr) : M unit := let* v := get inp in put out v.

Definition alloc (v : gv) : M addr :=
  λ h, let l := fresh (dom h) in Some ((l, []), <[l:=v]> h).

(** ** Types and their zero values

    A struct type is the chain of its fields. *)
Inductive ty :=
  | TScalar
  | TPtr (t : ty)
  | TSlice (t : ty)
  | TEmpty
  | TField (f : string) (t rest : ty).

Definition struct (fs : list (string * ty)) : ty :=
  foldr (λ f r, TField f.1 f.2 r) TEmpty fs.

Fixpoint zero (t : ty) : gv :=
  match t with
  | TScalar => GScalar (SInt 0)
  | TPtr _ => GPtr None
  | TSlice _ => GSlice None
  | TEmpty => GStruct []
  | TField f t r =>
      GStruct ((f, zero t) :: match zero r with GStruct fs => fs | _ => [] end)
  end.

(** ** The statements of generated code *)

(** [new(T)] and [make([]T, n)] *)
Definition new (t : ty) : M addr := alloc (zero t).
Definition makeSlice (t : ty) (n : nat) : M gv :=
  let* a := alloc (GArray (replicate n (zero t))) in ret (GSlice (Some (a, 0%nat, n))).

(** [*p] where [p] is the pointer stored at [a]. *)
Definition deref (a : addr) : M addr :=
  let* v := get a in match v with GPtr (Some p) => ret p | _ => panic end.

(** [len(s)] and [&s[i]] for the slice stored at [a]. *)
Definition lenAt (a : addr) : M nat :=
  let* v := get a in
  match v with
  | GSlice None => ret 0%nat
  | GSlice (Some (_, _, n)) => ret n
  | _ => panic
  end.

Definition elemAt (a : addr) (i : nat) : M addr :=
  let* v := get a in
  match v with
  | GSlice (Some (b, off, n)) => if decide (i < n)%nat then ret (at_index b (off + i)) else panic
  | _ => panic
  end.

(** [if in.F != nil { s }] *)
Definition ifNotNil (a : addr) (s : M unit) : M unit :=
  let* v := get a in
  match v with
  | GPtr None | GSlice None => ret tt
  | GPtr (Some _) | GSlice (Some _) => s
  | _ => panic
  end.

(** [if in.F != nil { in, out := &in.F, &out.F; s }], and a statement about
    [in.F] and [out.F] that needs no test. *)
Definition ifField (inp out : addr) (f : string) (s : addr → addr → M unit) : M unit :=
  ifNotNil (inp ▸ f) (s (inp ▸ f) (out ▸ f)).
Definition onField (inp out : addr) (f : string) (s : addr → addr → M unit) : M unit :=
  s (inp ▸ f) (out ▸ f).

(** [*out = new(T); **out = **in] *)
Definition newAssign (t : ty) (inp out : addr) : M unit :=
  let* p := new t in
  let* _ := put out (GPtr (Some p)) in
  let* q := deref inp in
  let* p := deref out in
  assign p q.

(** [*out = new(T); ( *in).DeepCopyInto( *out)] *)
Definition newInto (t : ty) (f : addr → addr → M unit) (inp out : addr) : M unit :=
  let* p := new t in
  let* _ := put out (GPtr (Some p)) in
  let* q := deref inp in
  let* p := deref out in
  f q p.

(** [*out = make([]T, len( *in))], then
    [for i := range *in { ( *in)[i].DeepCopyInto(&( *out)[i]) }] *)
Definition sliceInto (t : ty) (f : addr → addr → M unit) (inp out : addr) : M unit :=
  let* n := lenAt inp in
  let* s := makeSlice t n in
  let* _ := put out s in
  let* n := lenAt inp in
  block (map (λ i, let* x := elemAt inp i in let* y := elemAt out i in f x y) (seq 0 n)).

(** [*out = make([]T, len( *in)); copy( *out, *in)]: the target was just made,
    so the arrays do not overlap and have one length. *)
Definition sliceCopy (t : ty) (inp out : addr) : M unit := sliceInto t (λ x y, assign y x) inp out.

(** [( *T).DeepCopy]: nil for nil, otherwise a new object filled by
    [DeepCopyInto]. *)
Definition deepCopyBy (t : ty) (f : addr → addr → M unit) (inp : option addr) : M (option addr) :=
  match inp with
  | None => ret None
  | Some a => let* out := new t in let* _ := f a out in ret (Some out)
  end.

(** ** Deep contents *)

Inductive tree :=
  | Leaf (s : scalar)
  | Nil
  | Ref (t : tree)
  | Seq (ts : list tree)
  | Unit
  | Field (f : string) (t rest : tree).

Fixpoint reify (t : ty) (h : heap) (v : gv) : option tree :=
  match t, v with
  | TScalar, GScalar s => Some (Leaf s)
  | TPtr _, GPtr None => Some Nil
  | TPtr t, GPtr (Some a) => x ← load a h; r ← reify t h x; Some (Ref r)
  | TSlice _, GSlice None => Some Nil
  | TSlice t, GSlice (Some (a, off, n)) =>
      _ ← h !! a.1;
      rs ← mapM (λ i, x ← load (at_index a (off + i)) h; reify t h x) (seq 0 n);
      Some (Seq rs)
  | TEmpty, GStruct _ => Some Unit
  | TField f t r, GStruct fs =>
      x ← fields_get f fs; a ← reify t h x; b ← reify r h v; Some (Field f a b)
  | _, _ => None
  end.

(** The locations the contents are spread over. *)
Fixpoint foot (t : ty) (h : heap) (v : gv) : gset loc :=
  match t, v with
  | TPtr t, GPtr (Some a) =>
      {[a.1]} ∪ match load a h with Some x => foot t h x | None => ∅ end
  | TSlice t, GSlice (Some (a, off, n)) =>
      {[a.1]} ∪ ⋃ map (λ i, match load (at_index a (off + i)) h with
                             | Some x => foot t h x | None => ∅ end) (seq 0 n)
  | TField f t r, GStruct fs =>
      match fields_get f fs with Some x => foot t h x | None => ∅ end ∪ foot r h v
  | _, _ => ∅
  end.

(** The same for the value stored at an address. *)
Definition reifyAt (t : ty) (h : heap) (a : addr) : option tree :=
  v ← load a h; reify t h v.
Definition footAt (t : ty) (h : heap) (a : addr) : gset loc :=
  {[a.1]} ∪ match load a h with Some v => foot t h v | None => ∅ end.

(** ** Paths *)

Lemma fields_get_set f g w fs :
  is_Some (fields_get f fs) →
  fields_get g (fields_set f w fs) = if decide (g = f) then Some w else fields_get g fs.
Proof.
  intros [v Hv]. induction fs as [|[k u] fs IH]; simpl in *; [done|].
  destruct (decide (f = k)) as [->|Hk]; simpl.
  - destruct (decide (g = k)); done.
  - rewrite (IH Hv). repeat case_decide; congruence.
Qed.

Lemma fields_set_set f w w' fs : fields_set f w' (fields_set f w fs) = fields_set f w' fs.
Proof.
  induction fs as [|[k u] fs IH]; simpl; [done|].
  destruct (decide (f = k)) eqn:E; simpl; rewrite ?E; by rewrite ?IH.
Qed.

Lemma fields_set_get f w fs : fields_get f fs = Some w → fields_set f w fs = fs.
Proof.
  induction fs as [|[k u] fs IH]; simpl; [done|].
  case_decide; intros; simplify_eq; [done|]. by rewrite IH.
Qed.

Lemma sget_sset v s w : is_Some (sget v s) → sget (sset v s w) s = Some w.
Proof.
  destruct v, s; simpl; try (by intros [??]).
  - intros. rewrite fields_get_set; [|done]. by rewrite decide_True.
  - intros ?%lookup_lt_is_Some. by apply list_lookup_insert_eq.
Qed.

Lemma sset_sset v s w w' : sset (sset v s w) s w' = sset v s w'.
Proof.
  destruct v, s; simpl; try done.
  - by rewrite fields_set_set.
  - by rewrite list_insert_insert_eq.
Qed.

Lemma sset_sget v s w : sget v s = Some w → sset v s w = v.
Proof.
  destruct v, s; simpl; try done; intros.
  - by rewrite fields_set_get.
  - by rewrite list_insert_id.
Qed.

Lemma pget_app v p q : pget v (p ++ q) = x ← pget v p; pget x q.
Proof.
  revert v. induction p as [|s p IH]; intros v; simpl; [done|].
  destruct (sget v s); simpl; [apply IH|done].
Qed.

Lemma pset_is_Some v p w : is_Some (pget v p) → is_Some (pset v p w).
Proof.
  revert v. induction p as [|s p IH]; intros v; simpl; [done|].
  destruct (sget v s) as [x|]; simpl; [|by intros [??]].
  intros [y ->]%IH. by eexists.
Qed.

Lemma pget_pset v p w v' : pset v p w = Some v' → pget v' p = Some w.
Proof.
  revert v v'. induction p as [|s p IH]; intros v v'; simpl; [congruence|].
  destruct (sget v s) as [x|] eqn:E; simpl; [|done].
  destruct (pset x p w) as [y|] eqn:E'; simpl; [|done]. intros [= <-].
  rewrite sget_sset by by rewrite E. simpl. by eapply IH.
Qed.

Lemma pset_pset v p w w' v' : pset v p w = Some v' → pset v' p w' = pset v p w'.
Proof.
  revert v v'. induction p as [|s p IH]; intros v v'; simpl; [congruence|].
  destruct (sget v s) as [x|] eqn:E; simpl; [|done].
  destruct (pset x p w) as [y|] eqn:E'; simpl; [|done]. intros [= <-].
  rewrite sget_sset by by rewrite E. simpl. rewrite (IH _ _ E').
  destruct (pset x p w'); simpl; [|done]. by rewrite sset_sset.
Qed.

Lemma pset_pget v p w : pget v p = Some w → pset v p w = Some v.
Proof.
  revert v. induction p as [|s p IH]; intros v; simpl; [congruence|].
  destruct (sget v s) as [x|] eqn:E; simpl; [|done].
  intros H. rewrite (IH _ H). simpl. by rewrite sset_sget.
Qed.

Lemma pset_app v p s w : pset v (p ++ [s]) w = x ← pget v p; _ ← sget x s; pset v p (sset x s w).
Proof.
  revert v. induction p as [|s' p IH]; intros v; simpl; [done|].
  destruct (sget v s') as [x|]; simpl; [|done]. rewrite IH.
  destruct (pget x p) as [y|]; simpl; [|done]. by destruct (sget y s).
Qed.

(** ** Writes

    [wrote a v h h']: [h'] differs from [h] only in [*a], which is now [v], and
    in newly allocated blocks. *)
Record wrote (a : addr) (v : gv) (h h' : heap) : Prop := Wrote {
  wrote_other l : l ∈ dom h → l ≠ a.1 → h' !! l = h !! l;
  wrote_block : ∃ b b', h !! a.1 = Some b ∧ pset b a.2 v = Some b' ∧ h' !! a.1 = Some b';
}.

Lemma load_dom a h v : load a h = Some v → a.1 ∈ dom h.
Proof. unfold load. rewrite bind_Some. intros (b & Hb & _). by apply elem_of_dom_2 in Hb. Qed.

Lemma load_agree a h h' : h' !! a.1 = h !! a.1 → load a h' = load a h.
Proof. unfold load. by intros ->. Qed.

Lemma update_wrote a v h x : load a h = Some x → ∃ h', update a v h = Some h' ∧ wrote a v h h'.
Proof.
  unfold load, update. rewrite bind_Some. intros (b & Hb & Hx). rewrite Hb. simpl.
  destruct (pset_is_Some b a.2 v) as [b' Hb']; [by rewrite Hx|]. rewrite Hb'. simpl.
  exists (<[a.1:=b']> h). split; [done|]. split.
  - intros l _ Hl. by rewrite lookup_insert_ne.
  - exists b, b'. by rewrite lookup_insert_eq.
Qed.

Lemma put_wrote a v h x : load a h = Some x → ∃ h', put a v h = Some (tt, h') ∧ wrote a v h h'.
Proof. intros (h' & Hu & Hw)%(update_wrote _ v). exists h'. unfold put. by rewrite Hu. Qed.

Lemma wrote_dom a v h h' : wrote a v h h' → dom h ⊆ dom h'.
Proof.
  intros [Ho (b & b' & Hb & _ & Hb')] l Hl.
  destruct (decide (l = a.1)) as [->|Hn]; [by apply elem_of_dom_2 in Hb'|].
  apply elem_of_dom. rewrite Ho by done. by apply elem_of_dom.
Qed.

Lemma wrote_load a v h h' : wrote a v h h' → load a h' = Some v.
Proof.
  intros [_ (b & b' & _ & Hp & Hb')]. unfold load. rewrite Hb'. simpl. by eapply pget_pset.
Qed.

Lemma wrote_refl a v h : load a h = Some v → wrote a v h h.
Proof.
  unfold load. rewrite bind_Some. intros (b & Hb & Hv).
  split; [done|]. exists b, b. by rewrite (pset_pget _ _ _ Hv).
Qed.

Lemma wrote_trans a v w h h1 h2 : wrote a v h h1 → wrote a w h1 h2 → wrote a w h h2.
Proof.
  intros H1 H2. pose proof (wrote_dom _ _ _ _ H1) as Hd.
  destruct H1 as [Ho1 (b & b1 & Hb & Hp1 & Hb1)], H2 as [Ho2 (b1' & b2 & Hb1' & Hp2 & Hb2)].
  simplify_eq. split.
  - intros l Hl Hn. rewrite Ho2; auto.
  - exists b, b2. split; [done|]. by rewrite <-(pset_pset _ _ _ w _ Hp1).
Qed.

Lemma wrote_sub a s x v h h' :
  load a h = Some x → wrote (a.1, a.2 ++ [s]) v h h' → wrote a (sset x s v) h h'.
Proof.
  intros Hx [Ho (b & b' & Hb & Hp & Hb')]. simpl in *. split; [done|].
  exists b, b'. unfold load in Hx. rewrite Hb in Hx. simpl in Hx.
  rewrite pset_app, Hx in Hp. simpl in Hp.
  destruct (sget x s); [|done]. done.
Qed.

Lemma sub_after (h h1 : heap) l : h ⊆ h1 → l ∈ dom h → h1 !! l = h !! l.
Proof. intros Hs [b Hb]%elem_of_dom. rewrite Hb. by eapply lookup_weaken. Qed.

Lemma wrote_before a v h h1 h2 : h ⊆ h1 → a.1 ∈ dom h → wrote a v h1 h2 → wrote a v h h2.
Proof.
  intros Hs Ha [Ho (b & b' & Hb & Hp & Hb')]. split.
  - intros l Hl Hn. rewrite Ho; [by apply sub_after| |done].
    by eapply elem_of_weaken, subseteq_dom.
  - exists b, b'. by rewrite <-(sub_after _ _ _ Hs Ha).
Qed.

Lemma wrote_after a v h h1 h2 : wrote a v h h1 → h1 ⊆ h2 → wrote a v h h2.
Proof.
  intros Hw Hs. pose proof (wrote_dom _ _ _ _ Hw) as Hd.
  destruct Hw as [Ho (b & b' & Hb & Hp & Hb')]. split.
  - intros l Hl Hn. rewrite <-(Ho l) by done. apply sub_after; auto.
  - exists b, b'. split_and!; [done..|]. by eapply lookup_weaken.
Qed.

(** Writing into a block that did not exist before is invisible there. *)
Lemma wrote_fresh a v h h1 h2 : h ⊆ h1 → a.1 ∉ dom h → wrote a v h1 h2 → h ⊆ h2.
Proof.
  intros Hs Ha [Ho _]. apply map_subseteq_spec. intros l b Hl.
  assert (l ∈ dom h) by by apply elem_of_dom_2 in Hl.
  rewrite Ho; [by eapply lookup_weaken| |set_solver].
  by eapply elem_of_weaken, subseteq_dom.
Qed.

Lemma alloc_spec v h : ∃ l, alloc v h = Some ((l, []), <[l:=v]> h) ∧ l ∉ dom h ∧ h ⊆ <[l:=v]> h.
Proof.
  exists (fresh (dom h)). split; [done|].
  assert (fresh (dom h) ∉ dom h) by apply is_fresh. split; [done|].
  apply insert_subseteq. by apply not_elem_of_dom.
Qed.

(** ** Contents depend on the footprint only *)

Lemma mapM_is_Some_elem {A B} (f : A → option B) l r x :
  mapM f l = Some r → x ∈ l → is_Some (f x).
Proof.
  intros H Hx. apply mapM_Some in H.
  apply list_elem_of_lookup in Hx as [i Hi].
  destruct (Forall2_lookup_l _ _ _ _ _ H Hi) as (y & _ & Hy). by eexists.
Qed.

Lemma mapM_agree {A B} (f g : A → option B) l r :
  mapM f l = Some r → (∀ x y, x ∈ l → f x = Some y → g x = Some y) → mapM g l = Some r.
Proof.
  intros H Hfg. apply mapM_Some. apply mapM_Some in H.
  revert Hfg. induction H as [|x y l r Hx _ IH]; intros Hfg; constructor.
  - apply Hfg; [left|done].
  - apply IH. intros ????. apply Hfg; [by right|done].
Qed.

Lemma foot_dom t h v r : reify t h v = Some r → foot t h v ⊆ dom h.
Proof.
  revert v r. induction t as [|t IH|t IH| |f t IHt s IHs]; intros v r;
    destruct v as [|[a|]|[[[a off] n]|]|fs|]; simpl; try set_solver.
  - intros (x & Hx & (y & Hy & _)%bind_Some)%bind_Some. rewrite Hx.
    apply IH in Hy. apply load_dom in Hx. set_solver.
  - intros (b & Hb & (rs & Hrs & _)%bind_Some)%bind_Some.
    apply elem_of_dom_2 in Hb. intros l [->%elem_of_singleton|Hl]%elem_of_union; [done|].
    apply elem_of_union_list in Hl as (X & HX & Hl).
    apply list_elem_of_fmap in HX as (i & -> & Hi).
    destruct (mapM_is_Some_elem _ _ _ _ Hrs Hi) as [y (x & Hx & Hy)%bind_Some].
    rewrite Hx in Hl. by apply IH in Hy; apply Hy.
  - intros (x & Hx & (y & Hy & (z & Hz & _)%bind_Some)%bind_Some)%bind_Some.
    rewrite Hx. apply IHt in Hy. apply IHs in Hz. set_solver.
Qed.

(** A heap that agrees on the footprint of a value gives it the same contents
    and the same footprint. *)
Lemma reify_frame t h h' v r :
  reify t h v = Some r → (∀ l, l ∈ foot t h v → h' !! l = h !! l) →
  reify t h' v = Some r ∧ foot t h' v = foot t h v.
Proof.
  revert v r. induction t as [|t IH|t IH| |f t IHt s IHs]; intros v r;
    destruct v as [|[a|]|[[[a off] n]|]|fs|]; simpl; try done.
  - intros (x & Hx & (y & Hy & [= <-])%bind_Some)%bind_Some. rewrite Hx. intros Hl.
    assert (load a h' = Some x) as ->.
    { rewrite <-Hx. apply load_agree, Hl. set_solver. }
    destruct (IH _ _ Hy) as [Hr Hf]; [set_solver|]. simpl. by rewrite Hr, Hf.
  - intros (b & Hb & (rs & Hrs & [= <-])%bind_Some)%bind_Some Hl.
    assert (h' !! a.1 = h !! a.1) as Ha by (apply Hl; set_solver).
    assert (∀ i, load (at_index a (off + i)) h' = load (at_index a (off + i)) h) as Hload
      by (intros i; apply load_agree; exact Ha).
    assert (∀ i, i ∈ seq 0 n → ∃ x y, load (at_index a (off + i)) h = Some x ∧ reify t h x = Some y
      ∧ reify t h' x = Some y ∧ foot t h' x = foot t h x) as Hi.
    { intros i Hi. destruct (mapM_is_Some_elem _ _ _ _ Hrs Hi) as [y (x & Hx & Hy)%bind_Some].
      exists x, y. do 2 (split; [done|]). apply IH; [done|]. intros l Hfl. apply Hl.
      apply elem_of_union_r, elem_of_union_list. exists (foot t h x). split; [|done].
      apply list_elem_of_fmap. exists i. by rewrite Hx. }
    rewrite Ha, Hb. simpl. split.
    + erewrite mapM_agree; [done|exact Hrs|]. intros i y Hin Hy. simpl in *.
      destruct (Hi i Hin) as (x & y' & Hx & Hy' & Hr & _). rewrite Hload.
      rewrite Hx in Hy |- *. simpl in *. congruence.
    + do 2 f_equal. apply map_ext_in. intros i Hin%list_elem_of_In.
      destruct (Hi i Hin) as (x & y' & Hx & _ & _ & Hf). by rewrite Hload, Hx.
  - intros (x & Hx & (y & Hy & (z & Hz & [= <-])%bind_Some)%bind_Some)%bind_Some.
    rewrite Hx. intros Hl. simpl.
    destruct (IHt _ _ Hy) as [-> ->]; [set_solver|].
    by destruct (IHs _ _ Hz) as [-> ->]; [set_solver|].
Qed.

Lemma reifyAt_frame t h h' a r :
  reifyAt t h a = Some r → (∀ l, l ∈ footAt t h a → h' !! l = h !! l) →
  reifyAt t h' a = Some r ∧ footAt t h' a = footAt t h a.
Proof.
  unfold reifyAt, footAt. intros (v & Hv & Hr)%bind_Some. rewrite Hv. intros Hl.
  assert (load a h' = Some v) as -> by (rewrite <-Hv; apply load_agree, Hl; set_solver).
  simpl. destruct (reify_frame _ _ h' _ _ Hr) as [-> ->]; [set_solver|done].
Qed.

Lemma footAt_dom t h a r : reifyAt t h a = Some r → footAt t h a ⊆ dom h.
Proof.
  unfold reifyAt, footAt. intros (v & Hv & Hr)%bind_Some. rewrite Hv.
  apply foot_dom in Hr. apply load_dom in Hv. set_solver.
Qed.

(** Contents away from the write survive it. *)
Lemma reifyAt_wrote t h h' a b v r :
  reifyAt t h a = Some r → wrote b v h h' → b.1 ∉ footAt t h a →
  reifyAt t h' a = Some r ∧ footAt t h' a = footAt t h a.
Proof.
  intros Hr [Ho _] Hb. apply reifyAt_frame; [done|].
  intros l Hl. apply Ho; [|set_solver]. by eapply footAt_dom.
Qed.

Lemma reify_wrote t h h' x b v r :
  reify t h x = Some r → wrote b v h h' → b.1 ∉ foot t h x →
  reify t h' x = Some r ∧ foot t h' x = foot t h x.
Proof.
  intros Hr [Ho _] Hb. apply reify_frame; [done|].
  intros l Hl. apply Ho; [|set_solver]. by eapply foot_dom.
Qed.

Lemma reifyAt_sub t h h' a r :
  reifyAt t h a = Some r → h ⊆ h' → reifyAt t h' a = Some r ∧ footAt t h' a = footAt t h a.
Proof.
  intros Hr Hs. apply reifyAt_frame; [done|]. intros l Hl. apply sub_after; [done|].
  by eapply footAt_dom.
Qed.

(** Types without references: a shallow copy is a deep one. *)
Fixpoint plain (t : ty) : bool :=
  match t with
  | TScalar | TEmpty => true
  | TPtr _ | TSlice _ => false
  | TField _ t r => plain t && plain r
  end.

Lemma plain_foot t h v : plain t = true → foot t h v = ∅.
Proof.
  revert v. induction t as [| | | |f t IHt r IHr]; intros v; destruct v; simpl; try done.
  intros [Ht Hr]%andb_prop. rewrite IHr by done.
  destruct (fields_get f fs); [rewrite IHt by done|]; set_solver.
Qed.

Lemma plain_reify t h h' v r : plain t = true → reify t h v = Some r → reify t h' v = Some r.
Proof.
  intros Hp Hr. eapply reify_frame; [done|]. rewrite plain_foot by done. set_solver.
Qed.
