(* ===== verification/GoCopy.v ===== *)
(** * Deep copies of Go values

    [copies T f] says that [f in out] makes [*out] a deep copy of [*in] and
    writes nowhere else. It is proved for the statements the code generator
    emits, once for each form of statement, and composed to whole structs. *)

From Stdlib Require Import String.
From stdpp Require Import base gmap strings list.
From S2P Require Import Prelude GoHeap.

(** ** Deep copying *)

(** [f in out] makes [*out] a deep copy of [*in]: the contents are equal, the
    copy shares no location with anything that existed before, and nothing else
    is written. It does not panic. *)
Definition copies (t : ty) (f : addr → addr → M unit) : Prop :=
  ∀ h inp out r x, reifyAt t h inp = Some r → load out h = Some x → out.1 ∉ footAt t h inp →
  ∃ h' v, f inp out h = Some (tt, h') ∧ wrote out v h h' ∧
          reify t h' v = Some r ∧ foot t h' v ## dom h.

(** The same for one statement, run after [*out = *in]. *)
Definition copied (t : ty) (inp out : addr) (s : M unit) : Prop :=
  ∀ h r, reifyAt t h inp = Some r → load out h = load inp h → out.1 ∉ footAt t h inp →
  ∃ h' v, s h = Some (tt, h') ∧ wrote out v h h' ∧
          reify t h' v = Some r ∧ foot t h' v ## dom h.

(** A copy that is returned by value, and one that is returned by pointer. *)
Definition returns_copy (t : ty) (f : addr → M gv) : Prop :=
  ∀ h inp r, reifyAt t h inp = Some r →
  ∃ h' v, f inp h = Some (v, h') ∧ h ⊆ h' ∧ reify t h' v = Some r ∧ foot t h' v ## dom h.

Definition returns_new (t : ty) (f : option addr → M (option addr)) : Prop :=
  ∀ h inp r, reifyAt t h inp = Some r →
  ∃ h' p, f (Some inp) h = Some (Some p, h') ∧ h ⊆ h' ∧
          reifyAt t h' p = Some r ∧ footAt t h' p ## dom h.

Lemma bind_run {A B} (m : M A) (f : A → M B) h x h' : m h = Some (x, h') → bind m f h = f x h'.
Proof. unfold bind. by intros ->. Qed.

Lemma get_run a h v : load a h = Some v → get a h = Some (v, h).
Proof. unfold get. by intros ->. Qed.

Lemma deref_run a h p : load a h = Some (GPtr (Some p)) → deref a h = Some (p, h).
Proof. intros H. unfold deref. by rewrite (bind_run _ _ _ _ _ (get_run _ _ _ H)). Qed.

Lemma lenAt_run a h b off n : load a h = Some (GSlice (Some (b, off, n))) → lenAt a h = Some (n, h).
Proof. intros H. unfold lenAt. by rewrite (bind_run _ _ _ _ _ (get_run _ _ _ H)). Qed.

Lemma elemAt_run a h b off n i :
  load a h = Some (GSlice (Some (b, off, n))) → (i < n)%nat →
  elemAt a i h = Some (at_index b (off + i), h).
Proof.
  intros H Hi. unfold elemAt. rewrite (bind_run _ _ _ _ _ (get_run _ _ _ H)).
  by rewrite decide_True.
Qed.

Lemma reifyAt_load t h a r : reifyAt t h a = Some r → ∃ v, load a h = Some v ∧ reify t h v = Some r.
Proof. apply bind_Some. Qed.

Lemma copies_copied t f inp out : copies t f → copied t inp out (f inp out).
Proof.
  intros Hf h r Hr Ho Hn. destruct (reifyAt_load _ _ _ _ Hr) as (v & Hv & _).
  eapply Hf; [done| |done]. by rewrite Ho.
Qed.

Lemma assign_copies t : plain t = true → copies t (λ inp out, assign out inp).
Proof.
  intros Hp h inp out r x (v & Hv & Hr)%reifyAt_load Hx _.
  destruct (put_wrote out v h x Hx) as (h' & Hput & Hw). exists h', v.
  unfold assign. rewrite (bind_run _ _ _ _ _ (get_run _ _ _ Hv)).
  rewrite plain_foot by done. split_and!; [done..| |set_solver]. by eapply plain_reify.
Qed.

(** The write of a new reference, followed by writes into the new block. *)
Lemma wrote_then a v b w h h1 h2 :
  wrote a v h h1 → wrote b w h1 h2 → b.1 ∉ dom h → wrote a v h h2.
Proof.
  intros H1 H2 Hb. pose proof (wrote_dom _ _ _ _ H1) as Hd.
  destruct H1 as [Ho1 (c & c' & Hc & Hp & Hc')], H2 as [Ho2 _].
  assert (a.1 ∈ dom h) by by apply elem_of_dom_2 in Hc.
  split.
  - intros l Hl Hn. rewrite Ho2 by set_solver. auto.
  - exists c, c'. split_and!; [done..|]. rewrite Ho2; [done|auto|by intros Heq; rewrite Heq in *].
Qed.

(** A nil reference is already copied by [*out = *in]. *)
Lemma copied_nil t inp out s h r v :
  reify t h v = Some r → v = GPtr None ∨ v = GSlice None →
  load inp h = Some v → load out h = load inp h →
  ∃ h' w, ifNotNil inp s h = Some (tt, h') ∧ wrote out w h h' ∧
          reify t h' w = Some r ∧ foot t h' w ## dom h.
Proof.
  intros Hr Hnil Hv Ho. exists h, v. unfold ifNotNil.
  rewrite (bind_run _ _ _ _ _ (get_run _ _ _ Hv)). rewrite Hv in Ho.
  split_and!; [by destruct Hnil as [->| ->]|by apply wrote_refl|done|].
  clear Hr. destruct Hnil as [->| ->], t; apply disjoint_empty_l.
Qed.

(** Putting a freshly built value into [*out]. *)
Lemma put_copied t h h1 out v x r :
  load out h = Some x → h ⊆ h1 → reify t h1 v = Some r → foot t h1 v ## dom h →
  ∃ h', put out v h1 = Some (tt, h') ∧ wrote out v h h' ∧
        reify t h' v = Some r ∧ foot t h' v ## dom h.
Proof.
  intros Ho Hs Hr Hf. pose proof (load_dom _ _ _ Ho) as Hd.
  assert (load out h1 = Some x) as Ho1 by (rewrite <-Ho; apply load_agree, sub_after; done).
  destruct (put_wrote out v h1 x Ho1) as (h' & Hput & Hw). exists h'.
  destruct (reify_wrote _ _ _ _ _ _ _ Hr Hw) as [-> ->]; [set_solver|].
  split_and!; [done| |done..]. by eapply wrote_before.
Qed.

Lemma returns_copy_copied t f inp out :
  returns_copy t f → copied t inp out (let* v := f inp in put out v).
Proof.
  intros Hf h r Hr Ho Hn. destruct (reifyAt_load _ _ _ _ Hr) as (x & Hx & _).
  destruct (Hf _ _ _ Hr) as (h1 & v & Hrun & Hs & Hrv & Hfv).
  rewrite Hx in Ho. destruct (put_copied _ _ _ _ _ _ _ Ho Hs Hrv Hfv) as (h' & ? & ? & ? & ?).
  exists h', v. by rewrite (bind_run _ _ _ _ _ Hrun).
Qed.

(** ** Pointers *)

Lemma copied_ptr t inp out s :
  (∀ h p r v, load inp h = Some (GPtr (Some p)) → reifyAt t h p = Some r → load out h = Some v →
     out.1 ≠ inp.1 → out.1 ∉ footAt t h p →
     ∃ h' q, s h = Some (tt, h') ∧ wrote out (GPtr (Some q)) h h' ∧
             reifyAt t h' q = Some r ∧ footAt t h' q ## dom h) →
  copied (TPtr t) inp out (ifNotNil inp s).
Proof.
  intros Hs h r Hr Ho Hn. destruct (reifyAt_load _ _ _ _ Hr) as (v & Hv & Hrv).
  unfold footAt in Hn. rewrite Hv in Hn.
  destruct v as [|[p|]|[[[]]|]|fs|]; try done; [|by eapply copied_nil; eauto].
  simpl in Hrv. apply bind_Some in Hrv as (x & Hx & (r' & Hr' & [= <-])%bind_Some).
  unfold ifNotNil. rewrite (bind_run _ _ _ _ _ (get_run _ _ _ Hv)).
  simpl in Hn. rewrite Hx in Hn.
  destruct (Hs h p r' (GPtr (Some p))) as (h' & q & Hrun & Hw & (y & Hy & Hry)%reifyAt_load & Hf).
  - done.
  - unfold reifyAt. by rewrite Hx.
  - by rewrite Ho.
  - set_solver.
  - unfold footAt. rewrite Hx. set_solver.
  - exists h', (GPtr (Some q)). split; [done|]. split; [done|]. simpl.
    unfold footAt in Hf. rewrite Hy in *. simpl. by rewrite Hry.
Qed.

Lemma newInto_copied t f inp out :
  copies t f → copied (TPtr t) inp out (ifNotNil inp (newInto t f inp out)).
Proof.
  intros Hf. apply copied_ptr. intros h p r v Hinp Hr Hv Hne Hn.
  destruct (alloc_spec (zero t) h) as (l & Hl & Hfresh & Hs).
  set (h1 := <[l:=zero t]> h) in *. pose proof (load_dom _ _ _ Hv) as Hd.
  destruct (put_wrote out (GPtr (Some (l, []))) h1 v) as (h2 & Hput & Hw2).
  { rewrite <-Hv. by apply load_agree, sub_after. }
  assert (load inp h2 = Some (GPtr (Some p))) as Hinp2.
  { rewrite <-Hinp. apply load_dom in Hinp. apply load_agree.
    rewrite (wrote_other _ _ _ _ Hw2); [by apply sub_after| |congruence].
    by eapply elem_of_weaken, subseteq_dom. }
  destruct (reifyAt_sub _ _ _ _ _ Hr Hs) as [Hr1 Hf1].
  destruct (reifyAt_wrote _ _ _ _ _ _ _ Hr1 Hw2) as [Hr2 Hf2]; [by rewrite Hf1|].
  pose proof (footAt_dom _ _ _ _ Hr) as Hfd.
  destruct (Hf h2 p (l, []) r (zero t)) as (h3 & w & Hrun & Hw3 & Hrw & Hfw).
  { done. }
  { unfold load. rewrite (wrote_other _ _ _ _ Hw2); subst h1; simpl; [|set_solver..].
    by rewrite lookup_insert_eq. }
  { simpl. rewrite Hf2, Hf1. set_solver. }
  exists h3, (l, []). split; [|split; [|split]].
  - unfold newInto, new. rewrite (bind_run _ _ _ _ _ Hl), (bind_run _ _ _ _ _ Hput),
      (bind_run _ _ _ _ _ (deref_run _ _ _ Hinp2)).
    by rewrite (bind_run _ _ _ _ _ (deref_run _ _ _ (wrote_load _ _ _ _ Hw2))).
  - eapply wrote_then; [by eapply wrote_before|done|done].
  - unfold reifyAt. by rewrite (wrote_load _ _ _ _ Hw3).
  - unfold footAt. rewrite (wrote_load _ _ _ _ Hw3). simpl.
    pose proof (subseteq_dom _ _ Hs). pose proof (wrote_dom _ _ _ _ Hw2). set_solver.
Qed.

Lemma newAssign_copied t inp out :
  plain t = true → copied (TPtr t) inp out (ifNotNil inp (newAssign t inp out)).
Proof. intros Hp. apply (newInto_copied t (λ x y, assign y x)). by apply assign_copies. Qed.

(** [*out = ( *in).DeepCopy()], where [DeepCopy] returns a pointer. *)
Lemma returns_new_copied t f inp out :
  returns_new t f →
  copied (TPtr t) inp out
    (ifNotNil inp (let* p := deref inp in let* q := f (Some p) in put out (GPtr q))).
Proof.
  intros Hf. apply copied_ptr. intros h p r v Hinp Hr Hv Hne Hn.
  destruct (Hf _ _ _ Hr) as (h1 & q & Hrun & Hs & (w & Hw & Hrw)%reifyAt_load & Hfq).
  unfold footAt in Hfq. rewrite Hw in Hfq.
  destruct (put_copied (TPtr t) h h1 out (GPtr (Some q)) v (Ref r)) as (h' & Hput & Hwr & Hr' & Hf').
  { done. } { done. } { simpl. by rewrite Hw; simpl; rewrite Hrw. } { simpl. by rewrite Hw. }
  exists h', q. rewrite (bind_run _ _ _ _ _ (deref_run _ _ _ Hinp)), (bind_run _ _ _ _ _ Hrun).
  simpl in Hr', Hf'. apply bind_Some in Hr' as (y & Hy & (z & Hz & [= ->])%bind_Some).
  unfold reifyAt, footAt. rewrite Hy in *. simpl. by rewrite Hz.
Qed.

(** [x := ( *in).DeepCopy(); *out = &x], where [DeepCopy] returns a value. *)
Lemma addressed_copied t f inp out :
  returns_copy t f →
  copied (TPtr t) inp out
    (ifNotNil inp (let* p := deref inp in let* v := f p in
                   let* x := alloc v in put out (GPtr (Some x)))).
Proof.
  intros Hf. apply copied_ptr. intros h p r v Hinp Hr Hv Hne Hn.
  destruct (Hf _ _ _ Hr) as (h1 & w & Hrun & Hs & Hrw & Hfw).
  destruct (alloc_spec w h1) as (l & Hl & Hfresh & Hs1).
  pose proof (foot_dom _ _ _ _ Hrw) as Hfd. pose proof (subseteq_dom _ _ Hs).
  assert (load (l, []) (<[l:=w]> h1) = Some w) as Hlw.
  { unfold load. simpl. by rewrite lookup_insert_eq. }
  destruct (reify_frame _ _ (<[l:=w]> h1) _ _ Hrw) as [Hrw1 Hfw1].
  { intros k Hk. apply sub_after; [done|set_solver]. }
  destruct (put_copied (TPtr t) h (<[l:=w]> h1) out (GPtr (Some (l, []))) v (Ref r))
    as (h' & Hput & Hwr & Hr' & Hf').
  { done. } { by etrans. }
  { cbn [reify]. rewrite Hlw. simpl. by rewrite Hrw1. }
  { cbn [foot]. rewrite Hlw, Hfw1. simpl. set_solver. }
  exists h', (l, []). rewrite (bind_run _ _ _ _ _ (deref_run _ _ _ Hinp)),
    (bind_run _ _ _ _ _ Hrun), (bind_run _ _ _ _ _ Hl).
  cbn [reify foot] in Hr', Hf'. apply bind_Some in Hr' as (y & Hy & (z & Hz & [= ->])%bind_Some).
  unfold reifyAt, footAt. rewrite Hy in *. simpl. by rewrite Hz.
Qed.

(** ** Slices

    The loop over the elements: [g] is the heap after some rounds, [h] the one
    before the first. The new array is the block [l]. *)
Section slice_loop.
Context (t : ty) (f : addr → addr → M unit) (Hf : copies t f).
Context (h : heap) (inp out a : addr) (off n : nat) (l : loc) (rs : list tree).
Context (Hinp : load inp h = Some (GSlice (Some (a, off, n)))) (Hil : inp.1 ≠ l).
Context (Hout : load out h = Some (GSlice (Some ((l, []), 0%nat, n)))) (Hol : out.1 ≠ l).
Context (Hlen : length rs = n).
Context (Hsrc : ∀ j q, rs !! j = Some q →
  reifyAt t h (at_index a (off + j)) = Some q ∧ l ∉ footAt t h (at_index a (off + j))).

Definition slice_inv (i : nat) (g : heap) : Prop :=
  (∀ k, k ∈ dom h → k ≠ l → g !! k = h !! k) ∧
  ∃ vs, g !! l = Some (GArray vs) ∧ length vs = n ∧
    ∀ j, (j < i)%nat → ∃ w q, vs !! j = Some w ∧ rs !! j = Some q ∧
      reify t g w = Some q ∧ foot t g w ## dom h ∧ l ∉ foot t g w.

Definition slice_body (i : nat) : M unit :=
  let* x := elemAt inp i in let* y := elemAt out i in f x y.

Lemma slice_inv_load i g b v :
  slice_inv i g → load b h = Some v → b.1 ≠ l → load b g = Some v.
Proof.
  intros [Hg _] Hb Hn. rewrite <-Hb. apply load_dom in Hb. by apply load_agree, Hg.
Qed.

Lemma slice_step i g :
  slice_inv i g → (i < n)%nat → ∃ g', slice_body i g = Some (tt, g') ∧ slice_inv (S i) g'.
Proof using Hf Hil Hinp Hlen Hol Hout Hsrc.
  intros Hinv Hi. pose proof Hinv as [Hg (vs & Hvs & Hlvs & Hdone)].
  destruct (lookup_lt_is_Some_2 rs i) as [q Hq]; [lia|].
  destruct (lookup_lt_is_Some_2 vs i) as [x Hx]; [lia|].
  destruct (Hsrc i q Hq) as [Hr Hlf]. pose proof (footAt_dom _ _ _ _ Hr) as Hfd.
  destruct (reifyAt_frame _ _ g _ _ Hr) as [Hrg Hfg].
  { intros k Hk. apply Hg; [by apply Hfd|]. by intros ->. }
  destruct (Hf g (at_index a (off + i)) (at_index (l, []) i) q x) as (g' & w & Hrun & Hw & Hrw & Hfw).
  { done. } { unfold load. simpl. rewrite Hvs. simpl. by rewrite Hx. } { simpl. by rewrite Hfg. }
  assert (l ∈ dom g) as Hld by by apply elem_of_dom_2 in Hvs.
  assert (dom h ⊆ dom g) as Hdg.
  { intros k Hk. destruct (decide (k = l)) as [->|Hkl]; [done|].
    apply elem_of_dom. rewrite Hg by done. by apply elem_of_dom. }
  exists g'. split.
  { unfold slice_body.
    rewrite (bind_run _ _ _ _ _ (elemAt_run _ _ _ _ _ _ (slice_inv_load _ _ _ _ Hinv Hinp Hil) Hi)).
    by rewrite (bind_run _ _ _ _ _ (elemAt_run _ _ _ _ _ _ (slice_inv_load _ _ _ _ Hinv Hout Hol) Hi)). }
  pose proof (wrote_sub (l, []) (Idx i) (GArray vs) w g g') as Hsub.
  unfold load in Hsub. simpl in Hsub. rewrite Hvs in Hsub. specialize (Hsub eq_refl Hw).
  split.
  { intros k Hk Hkl. rewrite (wrote_other _ _ _ _ Hw); auto. }
  exists (<[i:=w]> vs). split; [|split; [by rewrite length_insert|]].
  { apply wrote_load in Hsub. unfold load in Hsub. simpl in Hsub.
    destruct (g' !! l); simpl in *; congruence. }
  intros j Hj. destruct (decide (j = i)) as [->|Hji].
  - exists w, q. rewrite list_lookup_insert_eq by lia. split_and!; [done..|set_solver|set_solver].
  - destruct (Hdone j ltac:(lia)) as (wj & qj & Hwj & Hqj & Hrj & Hfj & Hlj).
    exists wj, qj. rewrite list_lookup_insert_ne by done.
    by destruct (reify_wrote _ _ _ _ _ _ _ Hrj Hw) as [-> ->].
Qed.

Lemma slice_loop i k g :
  slice_inv i g → (i + k = n)%nat →
  ∃ g', block (map slice_body (seq i k)) g = Some (tt, g') ∧ slice_inv n g'.
Proof using Hf Hil Hinp Hlen Hol Hout Hsrc.
  revert i g. induction k as [|k IH]; intros i g Hinv Hik; cbn [seq map block].
  - assert (i = n) as -> by lia. by exists g.
  - destruct (slice_step i g Hinv ltac:(lia)) as (g1 & Hrun & Hinv1).
    rewrite (bind_run _ _ _ _ _ Hrun). apply IH; [done|lia].
Qed.

Lemma slice_inv_reify g :
  slice_inv n g →
  reify (TSlice t) g (GSlice (Some ((l, []), 0%nat, n))) = Some (Seq rs) ∧
  foot (TSlice t) g (GSlice (Some ((l, []), 0%nat, n))) ## dom h ∖ {[l]}.
Proof using Hlen.
  clear f Hf inp out a off Hinp Hil Hout Hol Hsrc. intros [_ (vs & Hvs & Hlvs & Hdone)].
  assert (∀ j, load (at_index (l, []) j) g = vs !! j) as Hload.
  { intros j. unfold load. simpl. rewrite Hvs. simpl. by destruct (vs !! j). }
  split.
  - simpl. rewrite Hvs. simpl.
    erewrite (proj2 (mapM_Some _ (seq 0 n) rs)); [done|].
    apply Forall2_same_length_lookup_2; [by rewrite length_seq|].
    intros j i q [-> Hj]%lookup_seq Hq.
    destruct (Hdone j Hj) as (w & q' & Hw & Hq' & Hr & _).
    rewrite Hload. simpl. rewrite Hw. simpl. congruence.
  - cbn [foot fst]. apply disjoint_union_l. split; [set_solver|].
    apply elem_of_disjoint. intros k (X & HX & Hk)%elem_of_union_list Hkd.
    apply list_elem_of_fmap in HX as (i & -> & Hi). apply elem_of_seq in Hi as [_ Hi].
    destruct (Hdone i Hi) as (w & q' & Hw & _ & _ & Hfw & _).
    rewrite Hload in Hk. simpl in Hk. rewrite Hw in Hk. set_solver.
Qed.
End slice_loop.

Lemma sliceInto_copied t f inp out :
  copies t f → copied (TSlice t) inp out (ifNotNil inp (sliceInto t f inp out)).
Proof.
  intros Hf h r Hr Ho Hn. destruct (reifyAt_load _ _ _ _ Hr) as (v & Hv & Hrv).
  destruct v as [|[]|[[[a off] n]|]|fs|]; try done; [|by eapply copied_nil; eauto].
  pose proof (footAt_dom _ _ _ _ Hr) as Hfd. unfold footAt in Hn, Hfd. rewrite Hv in Hn, Hfd.
  pose proof Hrv as (b & Hb & (rs & Hrs & [= <-])%bind_Some)%bind_Some.
  destruct (alloc_spec (GArray (replicate n (zero t))) h) as (l & Hl & Hfresh & Hs).
  set (h1 := <[l:=_]> h) in *. set (S := GSlice (Some ((l, []), 0%nat, n))).
  rewrite Hv in Ho. pose proof (load_dom _ _ _ Ho) as Hod. pose proof (load_dom _ _ _ Hv) as Hid.
  destruct (put_wrote out S h1 _ ltac:(rewrite <-Ho; by apply load_agree, sub_after))
    as (h2 & Hput & Hw2).
  assert (∀ k, k ∈ dom h → k ≠ out.1 → h2 !! k = h !! k) as Hsame.
  { intros k Hk Hko. rewrite (wrote_other _ _ _ _ Hw2); [by apply sub_after| |done].
    by eapply elem_of_weaken, subseteq_dom. }
  assert (load inp h2 = Some (GSlice (Some (a, off, n)))) as Hinp.
  { rewrite <-Hv. apply load_agree, Hsame; [done|set_solver]. }
  assert (length rs = n) as Hlen by (apply length_mapM in Hrs; by rewrite length_seq in Hrs).
  assert (∀ j q, rs !! j = Some q → reifyAt t h2 (at_index a (off + j)) = Some q ∧
    l ∉ footAt t h2 (at_index a (off + j))) as Hsrc.
  { intros j q Hq. apply mapM_Some in Hrs as Hall.
    destruct (Forall2_lookup_r _ _ _ _ _ Hall Hq) as (i & [-> Hi]%lookup_seq & Hiq). simpl in Hiq.
    destruct (reifyAt_frame t h h2 (at_index a (off + j)) q) as [Hq2 Hf2].
    - done.
    - intros k Hk. apply Hsame; [by eapply footAt_dom|]. intros ->. apply Hn. revert Hk.
      unfold footAt. cbn [foot]. intros [Hk|Hk]%elem_of_union; [set_solver|].
      apply elem_of_union_r, elem_of_union_r, elem_of_union_list. eexists. split; [|exact Hk].
      apply list_elem_of_fmap. exists j. split; [done|]. apply elem_of_seq. lia.
    - split; [done|]. rewrite Hf2. intros Hk. by apply Hfresh; eapply footAt_dom. }
  assert (slice_inv t h2 n l rs 0 h2) as Hinv0.
  { split; [done|]. exists (replicate n (zero t)). rewrite length_replicate.
    split_and!; [|done|lia]. rewrite (wrote_other _ _ _ _ Hw2); subst h1; [|set_solver..].
    by rewrite lookup_insert_eq. }
  destruct (slice_loop t f Hf h2 inp out a off n l rs Hinp ltac:(set_solver)
    (wrote_load _ _ _ _ Hw2) ltac:(set_solver) Hlen Hsrc 0 n h2 Hinv0 eq_refl) as (g & Hrun & Hinv).
  exists g, S. destruct (slice_inv_reify t h2 n l rs Hlen g Hinv) as [Hrg Hfg].
  split; [|split; [|split]]; [| |done|].
  - unfold ifNotNil. rewrite (bind_run _ _ _ _ _ (get_run _ _ _ Hv)). unfold sliceInto.
    rewrite (bind_run _ _ _ _ _ (lenAt_run _ _ _ _ _ Hv)). unfold makeSlice.
    rewrite (bind_run _ _ _ _ _ (bind_run _ _ _ _ _ Hl)), (bind_run _ _ _ _ _ Hput).
    by rewrite (bind_run _ _ _ _ _ (lenAt_run _ _ _ _ _ Hinp)).
  - assert (wrote out S h h2) as [Ho2 (c & c' & Hc & Hp & Hc')] by by eapply wrote_before.
    destruct Hinv as [Hg _]. pose proof (wrote_dom _ _ _ _ Hw2) as Hd2.
    assert (dom h ⊆ dom h2) as Hdh by (apply subseteq_dom in Hs; set_solver). split.
    + intros k Hk Hko. rewrite Hg; [by apply Ho2|set_solver|set_solver].
    + exists c, c'. split_and!; [done..|]. rewrite Hg; [done|set_solver|set_solver].
  - pose proof (wrote_dom _ _ _ _ Hw2). apply subseteq_dom in Hs. set_solver.
Qed.

Lemma sliceCopy_copied t inp out :
  plain t = true → copied (TSlice t) inp out (ifNotNil inp (sliceCopy t inp out)).
Proof. intros Hp. apply sliceInto_copied. by apply assign_copies. Qed.

(** ** Structs

    After [*out = *in] each statement completes one field; a field without a
    statement must have a type without references. *)

Fixpoint names (t : ty) : list string :=
  match t with TField f _ r => f :: names r | _ => [] end.

Fixpoint is_struct (t : ty) : bool :=
  match t with TEmpty => true | TField _ _ r => is_struct r | _ => false end.

Definition fields_copied (t : ty) (inp out : addr) (l : list (M unit)) : Prop :=
  ∀ h r x, reifyAt t h inp = Some r → load out h = Some (GStruct x) →
  (∀ f, f ∈ names t → load (out ▸ f) h = load (inp ▸ f) h) → out.1 ∉ footAt t h inp →
  ∃ h' y, block l h = Some (tt, h') ∧ wrote out (GStruct y) h h' ∧
          (∀ f, f ∉ names t → fields_get f y = fields_get f x) ∧
          reify t h' (GStruct y) = Some r ∧ foot t h' (GStruct y) ## dom h.

Lemma load_field a f h : load (a ▸ f) h = v ← load a h; sget v (Fld f).
Proof.
  unfold load, field. simpl. destruct (h !! a.1) as [b|]; simpl; [|done].
  rewrite pget_app. destruct (pget b a.2) as [x|]; simpl; [|done]. by destruct (sget x (Fld f)).
Qed.

Lemma reifyAt_field f t s h a r :
  reifyAt (TField f t s) h a = Some r →
  ∃ rt rs, r = Field f rt rs ∧ reifyAt t h (a ▸ f) = Some rt ∧ reifyAt s h a = Some rs ∧
           footAt (TField f t s) h a = footAt t h (a ▸ f) ∪ footAt s h a.
Proof.
  intros (v & Hv & Hr)%reifyAt_load. destruct v as [| | |fs|]; try done. simpl in Hr.
  apply bind_Some in Hr as (x & Hx & (rt & Hrt & (rs & Hrs & [= <-])%bind_Some)%bind_Some).
  exists rt, rs. unfold reifyAt, footAt. rewrite load_field, Hv. simpl. rewrite Hx. simpl.
  split_and!; [done..|]. set_solver.
Qed.

Lemma fields_done inp out : fields_copied TEmpty inp out [].
Proof.
  intros h r x (v & Hv & Hr)%reifyAt_load Hx _ _. exists h, x.
  destruct v; try done. split_and!; [done|by apply wrote_refl|done..|apply disjoint_empty_l].
Qed.

Lemma fields_plain f t s inp out l :
  plain t = true → f ∉ names s →
  fields_copied s inp out l → fields_copied (TField f t s) inp out l.
Proof.
  intros Hp Hfs Hl h r x (rt & rs & -> & Hrt & Hrs & Hft)%reifyAt_field Hx Heq Hn.
  rewrite Hft in Hn.
  destruct (Hl h rs x Hrs Hx ltac:(intros; apply Heq; by right) ltac:(set_solver))
    as (h' & y & Hrun & Hw & Hother & Hr' & Hf').
  exists h', y. split; [done|]. split; [done|]. split.
  { intros g [Hg1 Hg2]%not_elem_of_cons. auto. }
  destruct (reifyAt_load _ _ _ _ Hrt) as (v & Hv & Hrv).
  assert (fields_get f y = Some v) as Hget.
  { rewrite Hother by done. rewrite <-Hv, <-Heq by by left. by rewrite load_field, Hx. }
  cbn [reify foot]. rewrite Hget, plain_foot by done. simpl.
  rewrite (plain_reify _ _ h' _ _ Hp Hrv), Hr'. split; [done|set_solver].
Qed.

Lemma fields_stmt f t s inp out c l :
  copied t (inp ▸ f) (out ▸ f) c → f ∉ names s →
  fields_copied s inp out l → fields_copied (TField f t s) inp out (c :: l).
Proof.
  intros Hc Hfs Hl h r x (rt & rs & -> & Hrt & Hrs & Hft)%reifyAt_field Hx Heq Hn.
  rewrite Hft in Hn.
  destruct (Hc h rt Hrt (Heq f (list_elem_of_here _ _)) ltac:(simpl; set_solver))
    as (h1 & v & Hrun & Hw & Hrv & Hfv).
  pose proof (wrote_sub out (Fld f) (GStruct x) v h h1 Hx Hw) as Hw1. simpl in Hw1.
  assert (is_Some (fields_get f x)) as Hfx.
  { destruct (reifyAt_load _ _ _ _ Hrt) as (u & Hu & _).
    rewrite <-Heq, load_field, Hx in Hu by by left. by eexists. }
  destruct (reifyAt_wrote _ _ _ _ _ _ _ Hrs Hw1 ltac:(set_solver)) as [Hrs1 Hfs1].
  destruct (Hl h1 rs (fields_set f v x) Hrs1 (wrote_load _ _ _ _ Hw1))
    as (h2 & y & Hrun2 & Hw2 & Hother & Hr2 & Hf2).
  { intros g Hg. assert (g ≠ f) as Hgf by (by intros ->).
    assert (load (inp ▸ g) h1 = load (inp ▸ g) h) as ->.
    { destruct (reifyAt_load _ _ _ _ Hrs) as (u & Hu%load_dom & _). apply load_agree.
      apply (wrote_other _ _ _ _ Hw1); [done|]. simpl.
      intros Hio. apply Hn, elem_of_union_r, elem_of_union_l. set_solver. }
    rewrite <-Heq by by right. rewrite !load_field, Hx, (wrote_load _ _ _ _ Hw1). simpl.
    by rewrite fields_get_set, decide_False. }
  { by rewrite Hfs1; set_solver. }
  pose proof (load_dom _ _ _ Hx) as Hod. pose proof (wrote_dom _ _ _ _ Hw1) as Hd1.
  destruct (reify_wrote _ _ _ _ _ _ _ Hrv Hw2 ltac:(set_solver)) as [Hrv2 Hfv2].
  exists h2, y. split; [|split; [|split]].
  - cbn [block]. by rewrite (bind_run _ _ _ _ _ Hrun).
  - by eapply wrote_trans.
  - intros g [Hg1 Hg2]%not_elem_of_cons. rewrite Hother by done.
    by rewrite fields_get_set, decide_False.
  - assert (fields_get f y = Some v) as Hget.
    { rewrite Hother by done. by rewrite fields_get_set, decide_True. }
    cbn [reify foot]. rewrite Hget. simpl. rewrite Hrv2, Hr2, Hfv2. split; [done|set_solver].
Qed.

(** The body of a generated [DeepCopyInto]. *)
Lemma struct_copies t l :
  is_struct t = true → (∀ inp out, fields_copied t inp out (l inp out)) →
  copies t (λ inp out, block (assign out inp :: l inp out)).
Proof.
  intros Ht Hl h inp out r x Hr Hx Hn. destruct (reifyAt_load _ _ _ _ Hr) as (v & Hv & Hrv).
  destruct (put_wrote out v h x Hx) as (h1 & Hput & Hw).
  destruct (reifyAt_wrote _ _ _ _ _ _ _ Hr Hw Hn) as [Hr1 Hf1].
  assert (load inp h1 = Some v) as Hv1.
  { rewrite <-Hv. apply load_agree, (wrote_other _ _ _ _ Hw); [by apply load_dom in Hv|].
    unfold footAt in Hn. set_solver. }
  assert (∃ fs, v = GStruct fs) as [fs ->].
  { destruct t, v; try done; by eexists. }
  pose proof (wrote_load _ _ _ _ Hw) as Ho1.
  destruct (Hl inp out h1 r fs) as (h2 & y & Hrun & Hw2 & _ & Hr2 & Hf2); [done..| | |].
  { intros f _. by rewrite !load_field, Ho1, Hv1. }
  { by rewrite Hf1. }
  exists h2, (GStruct y). split; [|split; [by eapply wrote_trans|split; [done|]]].
  - cbn [block]. unfold assign at 1.
    rewrite (bind_run _ _ _ _ _ (eq_trans (bind_run _ _ _ _ _ (get_run _ _ _ Hv)) Hput)). done.
  - pose proof (wrote_dom _ _ _ _ Hw). set_solver.
Qed.

(** [DeepCopy] from [DeepCopyInto]. *)
Lemma deepCopyBy_new t f : copies t f → returns_new t (deepCopyBy t f).
Proof.
  intros Hf h inp r Hr. destruct (alloc_spec (zero t) h) as (l & Hl & Hfresh & Hs).
  destruct (reifyAt_sub _ _ _ _ _ Hr Hs) as [Hr1 Hf1].
  pose proof (footAt_dom _ _ _ _ Hr) as Hfd.
  destruct (Hf (<[l:=zero t]> h) inp (l, []) r (zero t)) as (h2 & v & Hrun & Hw & Hrv & Hfv).
  { done. } { unfold load. simpl. by rewrite lookup_insert_eq. } { simpl. rewrite Hf1. set_solver. }
  exists h2, (l, []). split_and!.
  - unfold deepCopyBy, new. by rewrite (bind_run _ _ _ _ _ Hl), (bind_run _ _ _ _ _ Hrun).
  - exact (wrote_fresh (l, []) v h _ h2 Hs Hfresh Hw).
  - unfold reifyAt. by rewrite (wrote_load _ _ _ _ Hw).
  - unfold footAt. rewrite (wrote_load _ _ _ _ Hw). simpl. apply subseteq_dom in Hs. set_solver.
Qed.

(** ** A copy and its original do not influence each other

    Whatever is done afterwards to locations that did not exist before the copy
    was made leaves the original alone; whatever is done to those that did
    leaves the copy alone. *)
Definition independent (t : ty) (h h' : heap) (a p : addr) (r : tree) : Prop :=
  (∀ g, (∀ l, l ∈ dom h → g !! l = h' !! l) → reifyAt t g a = Some r) ∧
  (∀ g, (∀ l, l ∉ dom h → g !! l = h' !! l) → reifyAt t g p = Some r).

Lemma fresh_independent t h h' a p r :
  reifyAt t h a = Some r → h ⊆ h' → reifyAt t h' p = Some r → footAt t h' p ## dom h →
  independent t h h' a p r.
Proof.
  intros Ha Hs Hp Hf. split; intros g Hg.
  - eapply reifyAt_frame; [done|]. intros l Hl%(footAt_dom _ _ _ _ Ha).
    rewrite Hg by done. by apply sub_after.
  - eapply reifyAt_frame; [done|]. intros l Hl. apply Hg. set_solver.
Qed.

(** ** A copier for any type

    Used to show that the laws asked of other packages' types can be met. The
    first component copies a value, the second the fields of a struct. *)
Fixpoint copier (t : ty) : (addr → addr → M unit) * (addr → addr → list (M unit)) :=
  match t with
  | TScalar => (λ inp out, assign out inp, λ _ _, [])
  | TPtr t => (λ inp out, block [assign out inp; ifNotNil inp (newInto t (copier t).1 inp out)], λ _ _, [])
  | TSlice t => (λ inp out, block [assign out inp; ifNotNil inp (sliceInto t (copier t).1 inp out)], λ _ _, [])
  | TEmpty => (λ inp out, block [assign out inp], λ _ _, [])
  | TField f t r =>
      let l := λ inp out, (copier t).1 (inp ▸ f) (out ▸ f) :: (copier r).2 inp out in
      (λ inp out, block (assign out inp :: l inp out), l)
  end.

Fixpoint good (t : ty) : bool :=
  match t with
  | TScalar | TEmpty => true
  | TPtr t | TSlice t => good t
  | TField f t r => good t && good r && is_struct r && bool_decide (f ∉ names r)
  end.

Lemma ref_copies t s :
  (∀ inp out, copied t inp out (s inp out)) → copies t (λ inp out, block [assign out inp; s inp out]).
Proof.
  intros Hs h inp out r x Hr Hx Hn. destruct (reifyAt_load _ _ _ _ Hr) as (v & Hv & _).
  destruct (put_wrote out v h x Hx) as (h1 & Hput & Hw).
  destruct (reifyAt_wrote _ _ _ _ _ _ _ Hr Hw Hn) as [Hr1 Hf1].
  assert (load inp h1 = Some v) as Hv1.
  { rewrite <-Hv. apply load_agree, (wrote_other _ _ _ _ Hw); [by apply load_dom in Hv|].
    unfold footAt in Hn. set_solver. }
  destruct (Hs inp out h1 r Hr1) as (h2 & w & Hrun & Hw2 & Hrw & Hfw).
  { by rewrite Hv1, (wrote_load _ _ _ _ Hw). } { by rewrite Hf1. }
  exists h2, w. split; [|split; [by eapply wrote_trans|split; [done|]]].
  - cbn [block]. unfold assign at 1.
    rewrite (bind_run _ _ _ _ _ (eq_trans (bind_run _ _ _ _ _ (get_run _ _ _ Hv)) Hput)).
    by rewrite (bind_run _ _ _ _ _ Hrun).
  - pose proof (wrote_dom _ _ _ _ Hw). set_solver.
Qed.

Lemma copier_copies t :
  good t = true →
  copies t (copier t).1 ∧ (is_struct t = true → ∀ inp out, fields_copied t inp out ((copier t).2 inp out)).
Proof.
  induction t as [|t IH|t IH| |f t IHt r IHr]; simpl; intros Hg.
  - split; [|done]. by apply assign_copies.
  - split; [|done]. apply ref_copies. intros. by apply newInto_copied, IH.
  - split; [|done]. apply ref_copies. intros. by apply sliceInto_copied, IH.
  - split; [|intros; apply fields_done]. apply (struct_copies TEmpty (λ _ _, [])); [done|].
    intros. apply fields_done.
  - apply andb_prop in Hg as [[[Ht Hr]%andb_prop Hs]%andb_prop Hn%bool_decide_eq_true].
    assert (∀ inp out, fields_copied (TField f t r) inp out
      ((copier t).1 (inp ▸ f) (out ▸ f) :: (copier r).2 inp out)) as Hl.
    { intros. apply fields_stmt; [by apply copies_copied, IHt|done|by apply IHr]. }
    split; [|by intros].
    exact (struct_copies (TField f t r) (λ inp out, _ :: _) Hs Hl).
Qed.
