(* ===== verification/DeepCopy.v ===== *)
(** * The generated copy functions (api/v1alpha1/zz_generated.deepcopy.go)

    Every struct of the API group has a [DeepCopyInto] and a [DeepCopy]; the
    eight root types also have a [DeepCopyObject]. The controllers rely on them
    whenever they edit an object they got from the shared cache: the sandbox
    controller works on [*sb.Status.DeepCopy()], and every merge patch starts
    from [sb.DeepCopy()].

    A struct of the API is described by its type ([SandboxSpec_ty], ...), a
    function by the statements of its body, over the memory of GoHeap.v. The
    copy functions of other packages' types (ObjectMeta, Condition, Quantity,
    ...) are the class [KubeCopy] with [KubeCopyLaws]. *)

From Stdlib Require Import String.
From stdpp Require Import base gmap strings list.
From S2P Require Import Prelude GoHeap GoCopy.

(** ** Types of other packages *)

Inductive libType :=
  | ListMeta | ObjectMeta | Condition | PolicyRule | NetworkPolicyPeer
  | NetworkPolicyPort | EnvVar | ResourceRequirements | Quantity | Time.

(** What their values look like and their copy functions: [DeepCopyInto], and
    for [resource.Quantity] and [metav1.Time] [DeepCopy], by value and by
    pointer. A Go map is a reference to its table, an array of entries. *)
Class KubeCopy := {
  lib_ty : libType → ty;
  lib_DeepCopyInto : libType → addr → addr → M unit;
  Quantity_DeepCopy : addr → M gv;
  Time_DeepCopy : option addr → M (option addr);
}.

Class KubeCopyLaws (K : KubeCopy) : Prop := {
  lib_copies n : copies (lib_ty n) (lib_DeepCopyInto n);
  Quantity_copies : returns_copy (lib_ty Quantity) Quantity_DeepCopy;
  Time_copies : returns_new (lib_ty Time) Time_DeepCopy;
}.

(** [metav1.TypeMeta] and [metav1.Duration] hold no references. *)
Definition TypeMeta_ty : ty := struct [("Kind", TScalar); ("APIVersion", TScalar)].
Definition Duration_ty : ty := struct [("Duration", TScalar)].

Section generated.
Context `{KubeCopy}.

(** ** The structs of the API *)

Definition OwnerSpec_ty : ty :=
  struct [("Name", TScalar); ("Groups", TSlice TScalar)].

Definition ExposedPort_ty : ty :=
  struct [("Name", TScalar); ("Port", TScalar); ("Auth", TScalar);
          ("AllowedUsers", TSlice TScalar); ("AllowedGroups", TSlice TScalar)].

Definition HomeSpec_ty : ty :=
  struct [("Size", TPtr (lib_ty Quantity)); ("StorageClassName", TPtr TScalar);
          ("ExistingClaim", TScalar); ("RetainPolicy", TScalar)].

Definition SandboxSpec_ty : ty :=
  struct [("Template", TScalar); ("AccessProfile", TScalar); ("Owner", OwnerSpec_ty);
          ("DesiredState", TScalar); ("IdleTimeout", TPtr Duration_ty);
          ("ExposedPorts", TSlice ExposedPort_ty); ("Home", TPtr HomeSpec_ty)].

Definition SandboxStatus_ty : ty :=
  struct [("Phase", TScalar); ("Conditions", TSlice (lib_ty Condition));
          ("PodName", TScalar); ("PVCName", TScalar); ("ServiceAccountName", TScalar);
          ("PodIP", TScalar); ("TemplateHash", TScalar);
          ("LastActivityTime", TPtr (lib_ty Time)); ("ActiveSessions", TScalar);
          ("ObservedGeneration", TScalar)].

Definition Sandbox_ty : ty :=
  struct [("TypeMeta", TypeMeta_ty); ("ObjectMeta", lib_ty ObjectMeta);
          ("Spec", SandboxSpec_ty); ("Status", SandboxStatus_ty)].

Definition SandboxList_ty : ty :=
  struct [("TypeMeta", TypeMeta_ty); ("ListMeta", lib_ty ListMeta);
          ("Items", TSlice Sandbox_ty)].

Definition EgressRule_ty : ty :=
  struct [("To", TSlice (lib_ty NetworkPolicyPeer));
          ("Ports", TSlice (lib_ty NetworkPolicyPort))].

Definition SandboxTemplateSpec_ty : ty :=
  struct [("Image", TScalar); ("Command", TSlice TScalar); ("Env", TSlice (lib_ty EnvVar));
          ("Resources", lib_ty ResourceRequirements); ("IsolationLevel", TScalar);
          ("RuntimeClassName", TPtr TScalar); ("HomeSize", lib_ty Quantity);
          ("StorageClassName", TPtr TScalar); ("Egress", TSlice EgressRule_ty);
          ("DefaultIdleTimeout", TPtr Duration_ty); ("RunAsUser", TPtr TScalar)].

Definition SandboxTemplateStatus_ty : ty :=
  struct [("Conditions", TSlice (lib_ty Condition))].

Definition SandboxTemplate_ty : ty :=
  struct [("TypeMeta", TypeMeta_ty); ("ObjectMeta", lib_ty ObjectMeta);
          ("Spec", SandboxTemplateSpec_ty); ("Status", SandboxTemplateStatus_ty)].

Definition SandboxTemplateList_ty : ty :=
  struct [("TypeMeta", TypeMeta_ty); ("ListMeta", lib_ty ListMeta);
          ("Items", TSlice SandboxTemplate_ty)].

Definition NamespacedGrant_ty : ty :=
  struct [("Namespaces", TSlice TScalar); ("Rules", TSlice (lib_ty PolicyRule))].

Definition AccessProfileSpec_ty : ty :=
  struct [("Grants", TSlice NamespacedGrant_ty); ("AllowedNamespaces", TSlice TScalar)].

Definition AccessProfileStatus_ty : ty :=
  struct [("Conditions", TSlice (lib_ty Condition)); ("ObservedGeneration", TScalar)].

Definition AccessProfile_ty : ty :=
  struct [("TypeMeta", TypeMeta_ty); ("ObjectMeta", lib_ty ObjectMeta);
          ("Spec", AccessProfileSpec_ty); ("Status", AccessProfileStatus_ty)].

Definition AccessProfileList_ty : ty :=
  struct [("TypeMeta", TypeMeta_ty); ("ListMeta", lib_ty ListMeta);
          ("Items", TSlice AccessProfile_ty)].

Definition SandboxSessionSpec_ty : ty :=
  struct [("SandboxName", TScalar); ("User", TScalar); ("ClientAddr", TScalar);
          ("Kind", TScalar); ("CertSerial", TScalar); ("HeartbeatInterval", TPtr Duration_ty)].

Definition SandboxSessionStatus_ty : ty :=
  struct [("State", TScalar); ("StartTime", TPtr (lib_ty Time));
          ("LastActivityTime", TPtr (lib_ty Time)); ("EndTime", TPtr (lib_ty Time));
          ("ExitReason", TScalar)].

Definition SandboxSession_ty : ty :=
  struct [("TypeMeta", TypeMeta_ty); ("ObjectMeta", lib_ty ObjectMeta);
          ("Spec", SandboxSessionSpec_ty); ("Status", SandboxSessionStatus_ty)].

Definition SandboxSessionList_ty : ty :=
  struct [("TypeMeta", TypeMeta_ty); ("ListMeta", lib_ty ListMeta);
          ("Items", TSlice SandboxSession_ty)].

(** ** DeepCopyInto

    Fields of a scalar type are copied by [*out = *in]. [ifField inp out F s] is
    [if in.F != nil { in, out := &in.F, &out.F; s }], [onField inp out F s] is
    [s] with [&in.F] and [&out.F]. *)

Definition OwnerSpec_DeepCopyInto (inp out : addr) : M unit :=
  block [ assign out inp;
          ifField inp out "Groups" (sliceCopy TScalar) ].

Definition ExposedPort_DeepCopyInto (inp out : addr) : M unit :=
  block [ assign out inp;
          ifField inp out "AllowedUsers" (sliceCopy TScalar);
          ifField inp out "AllowedGroups" (sliceCopy TScalar) ].

Definition HomeSpec_DeepCopyInto (inp out : addr) : M unit :=
  block [ assign out inp;
          ifField inp out "Size" (λ inp out,
            let* p := deref inp in let* v := Quantity_DeepCopy p in
            let* x := alloc v in put out (GPtr (Some x)));
          ifField inp out "StorageClassName" (newAssign TScalar) ].

Definition SandboxSpec_DeepCopyInto (inp out : addr) : M unit :=
  block [ assign out inp;
          onField inp out "Owner" OwnerSpec_DeepCopyInto;
          ifField inp out "IdleTimeout" (newAssign Duration_ty);
          ifField inp out "ExposedPorts" (sliceInto ExposedPort_ty ExposedPort_DeepCopyInto);
          ifField inp out "Home" (newInto HomeSpec_ty HomeSpec_DeepCopyInto) ].

Definition SandboxStatus_DeepCopyInto (inp out : addr) : M unit :=
  block [ assign out inp;
          ifField inp out "Conditions" (sliceInto (lib_ty Condition) (lib_DeepCopyInto Condition));
          ifField inp out "LastActivityTime" (λ inp out,
            let* p := deref inp in let* q := Time_DeepCopy (Some p) in put out (GPtr q)) ].

Definition Sandbox_DeepCopyInto (inp out : addr) : M unit :=
  block [ assign out inp;
          onField inp out "TypeMeta" (λ inp out, assign out inp);
          onField inp out "ObjectMeta" (lib_DeepCopyInto ObjectMeta);
          onField inp out "Spec" SandboxSpec_DeepCopyInto;
          onField inp out "Status" SandboxStatus_DeepCopyInto ].

Definition SandboxList_DeepCopyInto (inp out : addr) : M unit :=
  block [ assign out inp;
          onField inp out "TypeMeta" (λ inp out, assign out inp);
          onField inp out "ListMeta" (lib_DeepCopyInto ListMeta);
          ifField inp out "Items" (sliceInto Sandbox_ty Sandbox_DeepCopyInto) ].

Definition EgressRule_DeepCopyInto (inp out : addr) : M unit :=
  block [ assign out inp;
          ifField inp out "To" (sliceInto (lib_ty NetworkPolicyPeer) (lib_DeepCopyInto NetworkPolicyPeer));
          ifField inp out "Ports" (sliceInto (lib_ty NetworkPolicyPort) (lib_DeepCopyInto NetworkPolicyPort)) ].

Definition SandboxTemplateSpec_DeepCopyInto (inp out : addr) : M unit :=
  block [ assign out inp;
          ifField inp out "Command" (sliceCopy TScalar);
          ifField inp out "Env" (sliceInto (lib_ty EnvVar) (lib_DeepCopyInto EnvVar));
          onField inp out "Resources" (lib_DeepCopyInto ResourceRequirements);
          ifField inp out "RuntimeClassName" (newAssign TScalar);
          onField inp out "HomeSize" (λ inp out, let* v := Quantity_DeepCopy inp in put out v);
          ifField inp out "StorageClassName" (newAssign TScalar);
          ifField inp out "Egress" (sliceInto EgressRule_ty EgressRule_DeepCopyInto);
          ifField inp out "DefaultIdleTimeout" (newAssign Duration_ty);
          ifField inp out "RunAsUser" (newAssign TScalar) ].

Definition SandboxTemplateStatus_DeepCopyInto (inp out : addr) : M unit :=
  block [ assign out inp;
          ifField inp out "Conditions" (sliceInto (lib_ty Condition) (lib_DeepCopyInto Condition)) ].

Definition SandboxTemplate_DeepCopyInto (inp out : addr) : M unit :=
  block [ assign out inp;
          onField inp out "TypeMeta" (λ inp out, assign out inp);
          onField inp out "ObjectMeta" (lib_DeepCopyInto ObjectMeta);
          onField inp out "Spec" SandboxTemplateSpec_DeepCopyInto;
          onField inp out "Status" SandboxTemplateStatus_DeepCopyInto ].

Definition SandboxTemplateList_DeepCopyInto (inp out : addr) : M unit :=
  block [ assign out inp;
          onField inp out "TypeMeta" (λ inp out, assign out inp);
          onField inp out "ListMeta" (lib_DeepCopyInto ListMeta);
          ifField inp out "Items" (sliceInto SandboxTemplate_ty SandboxTemplate_DeepCopyInto) ].

Definition NamespacedGrant_DeepCopyInto (inp out : addr) : M unit :=
  block [ assign out inp;
          ifField inp out "Namespaces" (sliceCopy TScalar);
          ifField inp out "Rules" (sliceInto (lib_ty PolicyRule) (lib_DeepCopyInto PolicyRule)) ].

Definition AccessProfileSpec_DeepCopyInto (inp out : addr) : M unit :=
  block [ assign out inp;
          ifField inp out "Grants" (sliceInto NamespacedGrant_ty NamespacedGrant_DeepCopyInto);
          ifField inp out "AllowedNamespaces" (sliceCopy TScalar) ].

Definition AccessProfileStatus_DeepCopyInto (inp out : addr) : M unit :=
  block [ assign out inp;
          ifField inp out "Conditions" (sliceInto (lib_ty Condition) (lib_DeepCopyInto Condition)) ].

Definition AccessProfile_DeepCopyInto (inp out : addr) : M unit :=
  block [ assign out inp;
          onField inp out "TypeMeta" (λ inp out, assign out inp);
          onField inp out "ObjectMeta" (lib_DeepCopyInto ObjectMeta);
          onField inp out "Spec" AccessProfileSpec_DeepCopyInto;
          onField inp out "Status" AccessProfileStatus_DeepCopyInto ].

Definition AccessProfileList_DeepCopyInto (inp out : addr) : M unit :=
  block [ assign out inp;
          onField inp out "TypeMeta" (λ inp out, assign out inp);
          onField inp out "ListMeta" (lib_DeepCopyInto ListMeta);
          ifField inp out "Items" (sliceInto AccessProfile_ty AccessProfile_DeepCopyInto) ].

Definition SandboxSessionSpec_DeepCopyInto (inp out : addr) : M unit :=
  block [ assign out inp;
          ifField inp out "HeartbeatInterval" (newAssign Duration_ty) ].

Definition SandboxSessionStatus_DeepCopyInto (inp out : addr) : M unit :=
  block [ assign out inp;
          ifField inp out "StartTime" (λ inp out,
            let* p := deref inp in let* q := Time_DeepCopy (Some p) in put out (GPtr q));
          ifField inp out "LastActivityTime" (λ inp out,
            let* p := deref inp in let* q := Time_DeepCopy (Some p) in put out (GPtr q));
          ifField inp out "EndTime" (λ inp out,
            let* p := deref inp in let* q := Time_DeepCopy (Some p) in put out (GPtr q)) ].

Definition SandboxSession_DeepCopyInto (inp out : addr) : M unit :=
  block [ assign out inp;
          onField inp out "TypeMeta" (λ inp out, assign out inp);
          onField inp out "ObjectMeta" (lib_DeepCopyInto ObjectMeta);
          onField inp out "Spec" SandboxSessionSpec_DeepCopyInto;
          onField inp out "Status" SandboxSessionStatus_DeepCopyInto ].

Definition SandboxSessionList_DeepCopyInto (inp out : addr) : M unit :=
  block [ assign out inp;
          onField inp out "TypeMeta" (λ inp out, assign out inp);
          onField inp out "ListMeta" (lib_DeepCopyInto ListMeta);
          ifField inp out "Items" (sliceInto SandboxSession_ty SandboxSession_DeepCopyInto) ].

(** ** DeepCopy *)

Definition OwnerSpec_DeepCopy : option addr → M (option addr) :=
  deepCopyBy OwnerSpec_ty OwnerSpec_DeepCopyInto.

Definition ExposedPort_DeepCopy : option addr → M (option addr) :=
  deepCopyBy ExposedPort_ty ExposedPort_DeepCopyInto.

Definition HomeSpec_DeepCopy : option addr → M (option addr) :=
  deepCopyBy HomeSpec_ty HomeSpec_DeepCopyInto.

Definition SandboxSpec_DeepCopy : option addr → M (option addr) :=
  deepCopyBy SandboxSpec_ty SandboxSpec_DeepCopyInto.

Definition SandboxStatus_DeepCopy : option addr → M (option addr) :=
  deepCopyBy SandboxStatus_ty SandboxStatus_DeepCopyInto.

Definition Sandbox_DeepCopy : option addr → M (option addr) :=
  deepCopyBy Sandbox_ty Sandbox_DeepCopyInto.

Definition SandboxList_DeepCopy : option addr → M (option addr) :=
  deepCopyBy SandboxList_ty SandboxList_DeepCopyInto.

Definition EgressRule_DeepCopy : option addr → M (option addr) :=
  deepCopyBy EgressRule_ty EgressRule_DeepCopyInto.

Definition SandboxTemplateSpec_DeepCopy : option addr → M (option addr) :=
  deepCopyBy SandboxTemplateSpec_ty SandboxTemplateSpec_DeepCopyInto.

Definition SandboxTemplateStatus_DeepCopy : option addr → M (option addr) :=
  deepCopyBy SandboxTemplateStatus_ty SandboxTemplateStatus_DeepCopyInto.

Definition SandboxTemplate_DeepCopy : option addr → M (option addr) :=
  deepCopyBy SandboxTemplate_ty SandboxTemplate_DeepCopyInto.

Definition SandboxTemplateList_DeepCopy : option addr → M (option addr) :=
  deepCopyBy SandboxTemplateList_ty SandboxTemplateList_DeepCopyInto.

Definition NamespacedGrant_DeepCopy : option addr → M (option addr) :=
  deepCopyBy NamespacedGrant_ty NamespacedGrant_DeepCopyInto.

Definition AccessProfileSpec_DeepCopy : option addr → M (option addr) :=
  deepCopyBy AccessProfileSpec_ty AccessProfileSpec_DeepCopyInto.

Definition AccessProfileStatus_DeepCopy : option addr → M (option addr) :=
  deepCopyBy AccessProfileStatus_ty AccessProfileStatus_DeepCopyInto.

Definition AccessProfile_DeepCopy : option addr → M (option addr) :=
  deepCopyBy AccessProfile_ty AccessProfile_DeepCopyInto.

Definition AccessProfileList_DeepCopy : option addr → M (option addr) :=
  deepCopyBy AccessProfileList_ty AccessProfileList_DeepCopyInto.

Definition SandboxSessionSpec_DeepCopy : option addr → M (option addr) :=
  deepCopyBy SandboxSessionSpec_ty SandboxSessionSpec_DeepCopyInto.

Definition SandboxSessionStatus_DeepCopy : option addr → M (option addr) :=
  deepCopyBy SandboxSessionStatus_ty SandboxSessionStatus_DeepCopyInto.

Definition SandboxSession_DeepCopy : option addr → M (option addr) :=
  deepCopyBy SandboxSession_ty SandboxSession_DeepCopyInto.

Definition SandboxSessionList_DeepCopy : option addr → M (option addr) :=
  deepCopyBy SandboxSessionList_ty SandboxSessionList_DeepCopyInto.

(** ** DeepCopyObject

    The result is an interface value: the dynamic type with the pointer, or the
    nil interface, never a typed nil. *)
Inductive objectType :=
  | Sandbox_object
  | SandboxList_object
  | SandboxTemplate_object
  | SandboxTemplateList_object
  | AccessProfile_object
  | AccessProfileList_object
  | SandboxSession_object
  | SandboxSessionList_object.

Definition Object : Type := option (objectType * addr).

Definition asObject (k : objectType) (c : option addr) : M Object :=
  match c with Some p => ret (Some (k, p)) | None => ret None end.

Definition Sandbox_DeepCopyObject (inp : option addr) : M Object :=
  let* c := Sandbox_DeepCopy inp in asObject Sandbox_object c.

Definition SandboxList_DeepCopyObject (inp : option addr) : M Object :=
  let* c := SandboxList_DeepCopy inp in asObject SandboxList_object c.

Definition SandboxTemplate_DeepCopyObject (inp : option addr) : M Object :=
  let* c := SandboxTemplate_DeepCopy inp in asObject SandboxTemplate_object c.

Definition SandboxTemplateList_DeepCopyObject (inp : option addr) : M Object :=
  let* c := SandboxTemplateList_DeepCopy inp in asObject SandboxTemplateList_object c.

Definition AccessProfile_DeepCopyObject (inp : option addr) : M Object :=
  let* c := AccessProfile_DeepCopy inp in asObject AccessProfile_object c.

Definition AccessProfileList_DeepCopyObject (inp : option addr) : M Object :=
  let* c := AccessProfileList_DeepCopy inp in asObject AccessProfileList_object c.

Definition SandboxSession_DeepCopyObject (inp : option addr) : M Object :=
  let* c := SandboxSession_DeepCopy inp in asObject SandboxSession_object c.

Definition SandboxSessionList_DeepCopyObject (inp : option addr) : M Object :=
  let* c := SandboxSessionList_DeepCopy inp in asObject SandboxSessionList_object c.

(** ** Registration

    [SchemeBuilder.Register] collects objects in package initialisation, file
    by file in the order of their names; [AddToScheme] makes them known under
    the group version. *)
Record GroupVersion := { gv_Group : string; gv_Version : string }.

Definition SchemeGroupVersion : GroupVersion :=
  {| gv_Group := "kubepark.dev"; gv_Version := "v1alpha1" |}.

Definition Register (objs builder : list objectType) : list objectType := builder ++ objs.

Definition accessprofile_init : list objectType → list objectType :=
  Register [AccessProfile_object; AccessProfileList_object].
Definition sandbox_init : list objectType → list objectType :=
  Register [Sandbox_object; SandboxList_object].
Definition sandboxsession_init : list objectType → list objectType :=
  Register [SandboxSession_object; SandboxSessionList_object].
Definition sandboxtemplate_init : list objectType → list objectType :=
  Register [SandboxTemplate_object; SandboxTemplateList_object].

Definition SchemeBuilder : list objectType :=
  sandboxtemplate_init (sandboxsession_init (sandbox_init (accessprofile_init []))).

Definition AddToScheme (scheme : list (GroupVersion * objectType)) : list (GroupVersion * objectType) :=
  scheme ++ map (pair SchemeGroupVersion) SchemeBuilder.

(** Every type with a [DeepCopyObject] is registered, once. *)
Lemma registered_once : (∀ k, k ∈ SchemeBuilder) ∧ NoDup SchemeBuilder.
Proof.
  split; [intros []; apply list_elem_of_In; simpl; tauto|].
  repeat (constructor; [rewrite list_elem_of_In; simpl; intuition congruence|]). constructor.
Qed.

(** ** All of them *)

Inductive apiType :=
  | OwnerSpec_api
  | ExposedPort_api
  | HomeSpec_api
  | SandboxSpec_api
  | SandboxStatus_api
  | Sandbox_api
  | SandboxList_api
  | EgressRule_api
  | SandboxTemplateSpec_api
  | SandboxTemplateStatus_api
  | SandboxTemplate_api
  | SandboxTemplateList_api
  | NamespacedGrant_api
  | AccessProfileSpec_api
  | AccessProfileStatus_api
  | AccessProfile_api
  | AccessProfileList_api
  | SandboxSessionSpec_api
  | SandboxSessionStatus_api
  | SandboxSession_api
  | SandboxSessionList_api.

Definition api_ty (k : apiType) : ty :=
  match k with
  | OwnerSpec_api => OwnerSpec_ty
  | ExposedPort_api => ExposedPort_ty
  | HomeSpec_api => HomeSpec_ty
  | SandboxSpec_api => SandboxSpec_ty
  | SandboxStatus_api => SandboxStatus_ty
  | Sandbox_api => Sandbox_ty
  | SandboxList_api => SandboxList_ty
  | EgressRule_api => EgressRule_ty
  | SandboxTemplateSpec_api => SandboxTemplateSpec_ty
  | SandboxTemplateStatus_api => SandboxTemplateStatus_ty
  | SandboxTemplate_api => SandboxTemplate_ty
  | SandboxTemplateList_api => SandboxTemplateList_ty
  | NamespacedGrant_api => NamespacedGrant_ty
  | AccessProfileSpec_api => AccessProfileSpec_ty
  | AccessProfileStatus_api => AccessProfileStatus_ty
  | AccessProfile_api => AccessProfile_ty
  | AccessProfileList_api => AccessProfileList_ty
  | SandboxSessionSpec_api => SandboxSessionSpec_ty
  | SandboxSessionStatus_api => SandboxSessionStatus_ty
  | SandboxSession_api => SandboxSession_ty
  | SandboxSessionList_api => SandboxSessionList_ty
  end.

Definition api_DeepCopyInto (k : apiType) : addr → addr → M unit :=
  match k with
  | OwnerSpec_api => OwnerSpec_DeepCopyInto
  | ExposedPort_api => ExposedPort_DeepCopyInto
  | HomeSpec_api => HomeSpec_DeepCopyInto
  | SandboxSpec_api => SandboxSpec_DeepCopyInto
  | SandboxStatus_api => SandboxStatus_DeepCopyInto
  | Sandbox_api => Sandbox_DeepCopyInto
  | SandboxList_api => SandboxList_DeepCopyInto
  | EgressRule_api => EgressRule_DeepCopyInto
  | SandboxTemplateSpec_api => SandboxTemplateSpec_DeepCopyInto
  | SandboxTemplateStatus_api => SandboxTemplateStatus_DeepCopyInto
  | SandboxTemplate_api => SandboxTemplate_DeepCopyInto
  | SandboxTemplateList_api => SandboxTemplateList_DeepCopyInto
  | NamespacedGrant_api => NamespacedGrant_DeepCopyInto
  | AccessProfileSpec_api => AccessProfileSpec_DeepCopyInto
  | AccessProfileStatus_api => AccessProfileStatus_DeepCopyInto
  | AccessProfile_api => AccessProfile_DeepCopyInto
  | AccessProfileList_api => AccessProfileList_DeepCopyInto
  | SandboxSessionSpec_api => SandboxSessionSpec_DeepCopyInto
  | SandboxSessionStatus_api => SandboxSessionStatus_DeepCopyInto
  | SandboxSession_api => SandboxSession_DeepCopyInto
  | SandboxSessionList_api => SandboxSessionList_DeepCopyInto
  end.

Definition api_DeepCopy (k : apiType) : option addr → M (option addr) :=
  match k with
  | OwnerSpec_api => OwnerSpec_DeepCopy
  | ExposedPort_api => ExposedPort_DeepCopy
  | HomeSpec_api => HomeSpec_DeepCopy
  | SandboxSpec_api => SandboxSpec_DeepCopy
  | SandboxStatus_api => SandboxStatus_DeepCopy
  | Sandbox_api => Sandbox_DeepCopy
  | SandboxList_api => SandboxList_DeepCopy
  | EgressRule_api => EgressRule_DeepCopy
  | SandboxTemplateSpec_api => SandboxTemplateSpec_DeepCopy
  | SandboxTemplateStatus_api => SandboxTemplateStatus_DeepCopy
  | SandboxTemplate_api => SandboxTemplate_DeepCopy
  | SandboxTemplateList_api => SandboxTemplateList_DeepCopy
  | NamespacedGrant_api => NamespacedGrant_DeepCopy
  | AccessProfileSpec_api => AccessProfileSpec_DeepCopy
  | AccessProfileStatus_api => AccessProfileStatus_DeepCopy
  | AccessProfile_api => AccessProfile_DeepCopy
  | AccessProfileList_api => AccessProfileList_DeepCopy
  | SandboxSessionSpec_api => SandboxSessionSpec_DeepCopy
  | SandboxSessionStatus_api => SandboxSessionStatus_DeepCopy
  | SandboxSession_api => SandboxSession_DeepCopy
  | SandboxSessionList_api => SandboxSessionList_DeepCopy
  end.

Definition object_ty (k : objectType) : ty :=
  match k with
  | Sandbox_object => Sandbox_ty
  | SandboxList_object => SandboxList_ty
  | SandboxTemplate_object => SandboxTemplate_ty
  | SandboxTemplateList_object => SandboxTemplateList_ty
  | AccessProfile_object => AccessProfile_ty
  | AccessProfileList_object => AccessProfileList_ty
  | SandboxSession_object => SandboxSession_ty
  | SandboxSessionList_object => SandboxSessionList_ty
  end.

Definition object_DeepCopyObject (k : objectType) : option addr → M Object :=
  match k with
  | Sandbox_object => Sandbox_DeepCopyObject
  | SandboxList_object => SandboxList_DeepCopyObject
  | SandboxTemplate_object => SandboxTemplate_DeepCopyObject
  | SandboxTemplateList_object => SandboxTemplateList_DeepCopyObject
  | AccessProfile_object => AccessProfile_DeepCopyObject
  | AccessProfileList_object => AccessProfileList_DeepCopyObject
  | SandboxSession_object => SandboxSession_DeepCopyObject
  | SandboxSessionList_object => SandboxSessionList_DeepCopyObject
  end.

(** ** Each function copies *)

Context {Laws : KubeCopyLaws _}.

Lemma Quantity_stmt inp out :
  copied (lib_ty Quantity) inp out ((λ inp out, let* v := Quantity_DeepCopy inp in put out v) inp out).
Proof using Laws. apply returns_copy_copied, Quantity_copies. Qed.

Lemma Quantity_ptr_stmt inp out :
  copied (TPtr (lib_ty Quantity)) inp out
    (ifNotNil inp ((λ inp out, let* p := deref inp in let* v := Quantity_DeepCopy p in
                     let* x := alloc v in put out (GPtr (Some x))) inp out)).
Proof using Laws. apply addressed_copied, Quantity_copies. Qed.

Lemma Time_ptr_stmt inp out :
  copied (TPtr (lib_ty Time)) inp out
    (ifNotNil inp ((λ inp out, let* p := deref inp in let* q := Time_DeepCopy (Some p) in
                     put out (GPtr q)) inp out)).
Proof using Laws. apply returns_new_copied, Time_copies. Qed.

Hint Resolve lib_copies : deepcopy.

(** One statement, by its form. *)
Ltac copy_stmt :=
  unfold ifField, onField;
  first
    [ apply (copies_copied _ (λ inp out, assign out inp)), assign_copies; reflexivity
    | apply Quantity_ptr_stmt | apply Time_ptr_stmt | apply Quantity_stmt
    | apply sliceCopy_copied; reflexivity
    | apply newAssign_copied; reflexivity
    | apply sliceInto_copied; solve [eauto with deepcopy]
    | apply newInto_copied; solve [eauto with deepcopy]
    | apply copies_copied; solve [eauto with deepcopy] ].

(** Field by field: a statement copies its field, a field without a statement
    is plain. *)
Ltac copy_struct :=
  apply struct_copies; [reflexivity|]; intros inp out;
  repeat first
    [ apply fields_done
    | apply fields_stmt;
      [ solve [copy_stmt]
      | apply (bool_decide_unpack _); vm_compute; exact I |]
    | apply fields_plain;
      [ reflexivity | apply (bool_decide_unpack _); vm_compute; exact I |] ].

Lemma OwnerSpec_copies : copies OwnerSpec_ty OwnerSpec_DeepCopyInto.
Proof using Laws. copy_struct. Qed.
Hint Resolve OwnerSpec_copies : deepcopy.

Lemma ExposedPort_copies : copies ExposedPort_ty ExposedPort_DeepCopyInto.
Proof using Laws. copy_struct. Qed.
Hint Resolve ExposedPort_copies : deepcopy.

Lemma HomeSpec_copies : copies HomeSpec_ty HomeSpec_DeepCopyInto.
Proof using Laws. copy_struct. Qed.
Hint Resolve HomeSpec_copies : deepcopy.

Lemma SandboxSpec_copies : copies SandboxSpec_ty SandboxSpec_DeepCopyInto.
Proof using Laws. copy_struct. Qed.
Hint Resolve SandboxSpec_copies : deepcopy.

Lemma SandboxStatus_copies : copies SandboxStatus_ty SandboxStatus_DeepCopyInto.
Proof using Laws. copy_struct. Qed.
Hint Resolve SandboxStatus_copies : deepcopy.

Lemma Sandbox_copies : copies Sandbox_ty Sandbox_DeepCopyInto.
Proof using Laws. copy_struct. Qed.
Hint Resolve Sandbox_copies : deepcopy.

Lemma SandboxList_copies : copies SandboxList_ty SandboxList_DeepCopyInto.
Proof using Laws. copy_struct. Qed.
Hint Resolve SandboxList_copies : deepcopy.

Lemma EgressRule_copies : copies EgressRule_ty EgressRule_DeepCopyInto.
Proof using Laws. copy_struct. Qed.
Hint Resolve EgressRule_copies : deepcopy.

Lemma SandboxTemplateSpec_copies : copies SandboxTemplateSpec_ty SandboxTemplateSpec_DeepCopyInto.
Proof using Laws. copy_struct. Qed.
Hint Resolve SandboxTemplateSpec_copies : deepcopy.

Lemma SandboxTemplateStatus_copies : copies SandboxTemplateStatus_ty SandboxTemplateStatus_DeepCopyInto.
Proof using Laws. copy_struct. Qed.
Hint Resolve SandboxTemplateStatus_copies : deepcopy.

Lemma SandboxTemplate_copies : copies SandboxTemplate_ty SandboxTemplate_DeepCopyInto.
Proof using Laws. copy_struct. Qed.
Hint Resolve SandboxTemplate_copies : deepcopy.

Lemma SandboxTemplateList_copies : copies SandboxTemplateList_ty SandboxTemplateList_DeepCopyInto.
Proof using Laws. copy_struct. Qed.
Hint Resolve SandboxTemplateList_copies : deepcopy.

Lemma NamespacedGrant_copies : copies NamespacedGrant_ty NamespacedGrant_DeepCopyInto.
Proof using Laws. copy_struct. Qed.
Hint Resolve NamespacedGrant_copies : deepcopy.

Lemma AccessProfileSpec_copies : copies AccessProfileSpec_ty AccessProfileSpec_DeepCopyInto.
Proof using Laws. copy_struct. Qed.
Hint Resolve AccessProfileSpec_copies : deepcopy.

Lemma AccessProfileStatus_copies : copies AccessProfileStatus_ty AccessProfileStatus_DeepCopyInto.
Proof using Laws. copy_struct. Qed.
Hint Resolve AccessProfileStatus_copies : deepcopy.

Lemma AccessProfile_copies : copies AccessProfile_ty AccessProfile_DeepCopyInto.
Proof using Laws. copy_struct. Qed.
Hint Resolve AccessProfile_copies : deepcopy.

Lemma AccessProfileList_copies : copies AccessProfileList_ty AccessProfileList_DeepCopyInto.
Proof using Laws. copy_struct. Qed.
Hint Resolve AccessProfileList_copies : deepcopy.

Lemma SandboxSessionSpec_copies : copies SandboxSessionSpec_ty SandboxSessionSpec_DeepCopyInto.
Proof using Laws. copy_struct. Qed.
Hint Resolve SandboxSessionSpec_copies : deepcopy.

Lemma SandboxSessionStatus_copies : copies SandboxSessionStatus_ty SandboxSessionStatus_DeepCopyInto.
Proof using Laws. copy_struct. Qed.
Hint Resolve SandboxSessionStatus_copies : deepcopy.

Lemma SandboxSession_copies : copies SandboxSession_ty SandboxSession_DeepCopyInto.
Proof using Laws. copy_struct. Qed.
Hint Resolve SandboxSession_copies : deepcopy.

Lemma SandboxSessionList_copies : copies SandboxSessionList_ty SandboxSessionList_DeepCopyInto.
Proof using Laws. copy_struct. Qed.
Hint Resolve SandboxSessionList_copies : deepcopy.

Lemma api_copies k : copies (api_ty k) (api_DeepCopyInto k).
Proof using Laws.
  refine (match k with
          | OwnerSpec_api => OwnerSpec_copies
          | ExposedPort_api => ExposedPort_copies
          | HomeSpec_api => HomeSpec_copies
          | SandboxSpec_api => SandboxSpec_copies
          | SandboxStatus_api => SandboxStatus_copies
          | Sandbox_api => Sandbox_copies
          | SandboxList_api => SandboxList_copies
          | EgressRule_api => EgressRule_copies
          | SandboxTemplateSpec_api => SandboxTemplateSpec_copies
          | SandboxTemplateStatus_api => SandboxTemplateStatus_copies
          | SandboxTemplate_api => SandboxTemplate_copies
          | SandboxTemplateList_api => SandboxTemplateList_copies
          | NamespacedGrant_api => NamespacedGrant_copies
          | AccessProfileSpec_api => AccessProfileSpec_copies
          | AccessProfileStatus_api => AccessProfileStatus_copies
          | AccessProfile_api => AccessProfile_copies
          | AccessProfileList_api => AccessProfileList_copies
          | SandboxSessionSpec_api => SandboxSessionSpec_copies
          | SandboxSessionStatus_api => SandboxSessionStatus_copies
          | SandboxSession_api => SandboxSession_copies
          | SandboxSessionList_api => SandboxSessionList_copies
          end).
Qed.

Lemma object_DeepCopyObject_by k :
  ∃ a, object_ty k = api_ty a ∧
       object_DeepCopyObject k = λ inp, let* c := api_DeepCopy a inp in asObject k c.
Proof.
  refine (match k with
          | Sandbox_object => ex_intro _ Sandbox_api (conj eq_refl eq_refl)
          | SandboxList_object => ex_intro _ SandboxList_api (conj eq_refl eq_refl)
          | SandboxTemplate_object => ex_intro _ SandboxTemplate_api (conj eq_refl eq_refl)
          | SandboxTemplateList_object => ex_intro _ SandboxTemplateList_api (conj eq_refl eq_refl)
          | AccessProfile_object => ex_intro _ AccessProfile_api (conj eq_refl eq_refl)
          | AccessProfileList_object => ex_intro _ AccessProfileList_api (conj eq_refl eq_refl)
          | SandboxSession_object => ex_intro _ SandboxSession_api (conj eq_refl eq_refl)
          | SandboxSessionList_object => ex_intro _ SandboxSessionList_api (conj eq_refl eq_refl)
          end).
Qed.

Lemma api_DeepCopy_by k : api_DeepCopy k = deepCopyBy (api_ty k) (api_DeepCopyInto k).
Proof. by destruct k. Qed.

(** C21. Copying any object of the API, or any part of one, succeeds without a panic;
    the copy has the contents of the original, lives in new memory and is
    independent of it: whatever happens to the copy's memory afterwards leaves
    the original as it was, and whatever happens to memory that existed before
    leaves the copy as it was. Nil is copied to nil. *)
Theorem deepcopy_independent k h a r :
  reifyAt (api_ty k) h a = Some r →
  api_DeepCopy k None h = Some (None, h) ∧
  ∃ p h', api_DeepCopy k (Some a) h = Some (Some p, h') ∧ p.1 ∉ dom h ∧
          reifyAt (api_ty k) h' a = Some r ∧ reifyAt (api_ty k) h' p = Some r ∧
          independent (api_ty k) h h' a p r.
Proof using Laws.
  intros Hr. rewrite api_DeepCopy_by. split; [done|].
  destruct (deepCopyBy_new _ _ (api_copies k) h a r Hr) as (h' & p & Hrun & Hs & Hp & Hf).
  exists p, h'. split_and!; [done| |by eapply reifyAt_sub|done|by apply fresh_independent].
  unfold footAt in Hf. set_solver.
Qed.

(** [DeepCopyObject] returns the copy under the type of its receiver, and for
    nil the nil interface. *)
Theorem DeepCopyObject_exact k h a r :
  reifyAt (object_ty k) h a = Some r →
  object_DeepCopyObject k None h = Some (None, h) ∧
  ∃ p h', object_DeepCopyObject k (Some a) h = Some (Some (k, p), h') ∧
          reifyAt (object_ty k) h' p = Some r ∧ independent (object_ty k) h h' a p r.
Proof using Laws.
  destruct (object_DeepCopyObject_by k) as (n & -> & ->). rewrite api_DeepCopy_by.
  intros Hr. split; [done|].
  destruct (deepCopyBy_new _ _ (api_copies n) h a r Hr) as (h' & p & Hrun & Hs & Hp & Hf).
  exists p, h'. rewrite (bind_run _ _ _ _ _ Hrun).
  split_and!; [done|done|by apply fresh_independent].
Qed.

(** ** The status the sandbox controller edits

    [status := *sb.Status.DeepCopy()]: the conditions are edited in place, on
    arrays the cached object does not see. *)
Definition workingStatus (sb : addr) : M gv :=
  let* p := SandboxStatus_DeepCopy (Some (sb ▸ "Status")) in
  match p with Some p => get p | None => panic end.

Lemma Sandbox_status_part h sb r :
  reifyAt Sandbox_ty h sb = Some r → ∃ s, reifyAt SandboxStatus_ty h (sb ▸ "Status") = Some s.
Proof.
  intros (_ & r1 & _ & _ & H1 & _)%reifyAt_field. apply reifyAt_field in H1 as (_ & r2 & _ & _ & H2 & _).
  apply reifyAt_field in H2 as (_ & r3 & _ & _ & H3 & _).
  apply reifyAt_field in H3 as (s & _ & _ & Hs & _). by exists s.
Qed.

Theorem working_status_private h sb r :
  reifyAt Sandbox_ty h sb = Some r →
  ∃ v h', workingStatus sb h = Some (v, h') ∧
          reify SandboxStatus_ty h' v = reifyAt SandboxStatus_ty h (sb ▸ "Status") ∧
          foot SandboxStatus_ty h' v ## dom h ∧
          ∀ g, (∀ l, l ∈ dom h → g !! l = h' !! l) → reifyAt Sandbox_ty g sb = Some r.
Proof using Laws.
  intros Hr. destruct (Sandbox_status_part _ _ _ Hr) as [s Hst].
  destruct (deepCopyBy_new _ _ SandboxStatus_copies h _ s Hst)
    as (h' & p & Hrun & Hs & (v & Hv & Hp)%reifyAt_load & Hf).
  exists v, h'. unfold workingStatus, SandboxStatus_DeepCopy.
  rewrite (bind_run _ _ _ _ _ Hrun), Hst. unfold footAt in Hf. rewrite Hv in Hf.
  split_and!; [by apply get_run|done|set_solver|].
  intros g Hg. eapply reifyAt_frame; [done|]. intros l Hl%(footAt_dom _ _ _ _ Hr).
  rewrite Hg by done. by apply sub_after.
Qed.

End generated.

(** ** The laws can be met

    Types of other packages with the references their real ones have, copied by
    the generic copier. *)

Definition strings_ty : ty := TSlice TScalar.
Definition stringMap_ty : ty := TPtr (TSlice (struct [("Key", TScalar); ("Value", TScalar)])).

Definition sample_ty (n : libType) : ty :=
  match n with
  | ListMeta => struct [("ResourceVersion", TScalar); ("Continue", TScalar);
                        ("RemainingItemCount", TPtr TScalar)]
  | ObjectMeta => struct [("Name", TScalar); ("Namespace", TScalar); ("UID", TScalar);
                          ("DeletionTimestamp", TPtr TScalar); ("Labels", stringMap_ty);
                          ("Annotations", stringMap_ty); ("Finalizers", strings_ty)]
  | Condition => struct [("Type", TScalar); ("Status", TScalar); ("ObservedGeneration", TScalar);
                         ("LastTransitionTime", TScalar); ("Reason", TScalar); ("Message", TScalar)]
  | PolicyRule => struct [("Verbs", strings_ty); ("APIGroups", strings_ty);
                          ("Resources", strings_ty); ("ResourceNames", strings_ty)]
  | NetworkPolicyPeer => struct [("PodSelector", TPtr stringMap_ty); ("IPBlock", TPtr strings_ty)]
  | NetworkPolicyPort => struct [("Protocol", TPtr TScalar); ("Port", TPtr TScalar);
                                 ("EndPort", TPtr TScalar)]
  | EnvVar => struct [("Name", TScalar); ("Value", TScalar); ("ValueFrom", TPtr TScalar)]
  | ResourceRequirements => struct [("Limits", stringMap_ty); ("Requests", stringMap_ty)]
  | Quantity => struct [("i", TScalar); ("d", TPtr TScalar); ("s", TScalar); ("Format", TScalar)]
  | Time => TScalar
  end.

#[export] Instance sampleCopy : KubeCopy := {|
  lib_ty := sample_ty;
  lib_DeepCopyInto n := (copier (sample_ty n)).1;
  Quantity_DeepCopy a := let* out := new (sample_ty Quantity) in
    let* _ := (copier (sample_ty Quantity)).1 a out in get out;
  Time_DeepCopy := deepCopyBy TScalar (copier TScalar).1;
|}.

Lemma sample_good n : good (sample_ty n) = true.
Proof. by destruct n. Qed.

Lemma by_value t f :
  copies t f → returns_copy t (λ a, let* out := new t in let* _ := f a out in get out).
Proof.
  intros Hf h inp r Hr.
  destruct (deepCopyBy_new _ _ Hf h inp r Hr) as (h' & p & Hrun & Hs & (v & Hv & Hp)%reifyAt_load & Hfp).
  exists h', v. unfold footAt in Hfp. rewrite Hv in Hfp. split_and!; [|done..|set_solver].
  revert Hrun. unfold deepCopyBy, bind.
  destruct (new t h) as [[x h1]|]; [|done]. destruct (f inp x h1) as [[[] h2]|]; [|done].
  intros [= -> ->]. by apply get_run.
Qed.

#[export] Instance sampleCopy_laws : KubeCopyLaws sampleCopy.
Proof.
  split.
  - intros n. apply copier_copies, sample_good.
  - apply by_value. by apply copier_copies.
  - apply deepCopyBy_new. by apply copier_copies.
Qed.

(** A sandbox in memory: one finalizer, an exposed port, a home with a size, one
    condition. *)
Definition str (s : string) : gv := GScalar (SString s).
Definition block_at (l : loc) : addr := (l, []).

Definition sampleMeta : gv :=
  GStruct [("Name", str "alpha"); ("Namespace", str "team"); ("UID", str "u-1");
           ("DeletionTimestamp", GPtr None); ("Labels", GPtr None); ("Annotations", GPtr None);
           ("Finalizers", GSlice (Some (block_at 2, 0%nat, 1%nat)))].

Definition sampleSpec : gv :=
  GStruct [("Template", str "base"); ("AccessProfile", str "");
           ("Owner", GStruct [("Name", str "alice"); ("Groups", GSlice None)]);
           ("DesiredState", str "Running"); ("IdleTimeout", GPtr None);
           ("ExposedPorts", GSlice (Some (block_at 3, 0%nat, 1%nat)));
           ("Home", GPtr (Some (block_at 4)))].

Definition sampleStatus : gv :=
  GStruct [("Phase", str "Running"); ("Conditions", GSlice (Some (block_at 6, 1%nat, 1%nat)));
           ("PodName", str "sb-alpha"); ("PVCName", str "sb-alpha-home");
           ("ServiceAccountName", str "sb-alpha"); ("PodIP", str "10.0.0.7");
           ("TemplateHash", str "h"); ("LastActivityTime", GPtr (Some (block_at 7)));
           ("ActiveSessions", GScalar (SInt 0)); ("ObservedGeneration", GScalar (SInt 3))].

Definition sampleCondition (s : string) : gv :=
  GStruct [("Type", str "Ready"); ("Status", str s); ("ObservedGeneration", GScalar (SInt 3));
           ("LastTransitionTime", GScalar (SInt 0)); ("Reason", str "Running"); ("Message", str "")].

Definition sampleHeap : heap :=
  list_to_map
    [ (1%positive, GStruct [("TypeMeta", GStruct [("Kind", str "Sandbox"); ("APIVersion", str "v1alpha1")]);
                   ("ObjectMeta", sampleMeta); ("Spec", sampleSpec); ("Status", sampleStatus)]);
      (2%positive, GArray [str "kubepark.dev/cleanup"]);
      (3%positive, GArray [GStruct [("Name", str "web"); ("Port", GScalar (SInt 8080)); ("Auth", str "oidc");
                           ("AllowedUsers", GSlice None); ("AllowedGroups", GSlice None)]]);
      (4%positive, GStruct [("Size", GPtr (Some (block_at 5))); ("StorageClassName", GPtr None);
                   ("ExistingClaim", str ""); ("RetainPolicy", str "Retain")]);
      (5%positive, GStruct [("i", GScalar (SInt 10)); ("d", GPtr None); ("s", str "10Gi"); ("Format", str "BinarySI")]);
      (6%positive, GArray [sampleCondition "False"; sampleCondition "True"]);
      (7%positive, GScalar (SInt 1700000000)) ].

Definition sampleTree : tree :=
  default Unit (reifyAt (api_ty Sandbox_api) sampleHeap (block_at 1)).

Lemma deepcopy_independent_witness :
  reifyAt (api_ty Sandbox_api) sampleHeap (block_at 1) = Some sampleTree ∧
  ∃ p h', api_DeepCopy Sandbox_api (Some (block_at 1)) sampleHeap = Some (Some p, h') ∧
          p.1 ∉ dom sampleHeap ∧ independent (api_ty Sandbox_api) sampleHeap h' (block_at 1) p sampleTree.
Proof.
  assert (reifyAt (api_ty Sandbox_api) sampleHeap (block_at 1) = Some sampleTree) as Hr
    by (vm_compute; reflexivity).
  split; [exact Hr|].
  destruct (deepcopy_independent Sandbox_api sampleHeap (block_at 1) sampleTree Hr)
    as (_ & p & h' & Hrun & Hp & _ & _ & Hi).
  exists p, h'. auto.
Defined.

(** A shallow copy of the status is not one: [*out = *in] alone lets a write to
    the copy's first condition show in the original. *)
Lemma shallow_copy_shares :
  ∃ p h' e g,
    deepCopyBy SandboxStatus_ty (λ inp out, assign out inp) (Some (block_at 1 ▸ "Status")) sampleHeap
      = Some (Some p, h') ∧
    elemAt (p ▸ "Conditions") 0 h' = Some (e, h') ∧
    put e (sampleCondition "Unknown") h' = Some (tt, g) ∧
    reifyAt SandboxStatus_ty g (block_at 1 ▸ "Status")
      ≠ reifyAt SandboxStatus_ty sampleHeap (block_at 1 ▸ "Status").
Proof. do 4 eexists. split_and!; [vm_compute; reflexivity..|]. vm_compute. discriminate. Qed.
