(* ===== verification/Client.v ===== *)
(** * The API client and the programs that use it

    kubepark's components act on the world through calls: requests to the
    Kubernetes API (controller-runtime's [client.Client]), readings of the
    clock, environment variables and random sources, and, in the gateway,
    network operations. A handler is a [prog]: a tree that issues one call
    after another and continues with each answer.

    The API server is not part of the repository. It is a parameter: an [Env]
    that answers each call in a world [W], with [view] showing the objects it
    stores. [api_spec] states what its documentation promises, and a theorem
    about a handler holds for every environment that keeps those promises
    ([Conforms]). Nothing is promised about which calls fail: any call may
    return an error at any time, and after an error other than the documented
    refusals the object it targeted is in an unknown state. *)

From S2P Require Import Prelude Os KubeTypes ApiTypes.
From Stdlib Require Import String.
From stdpp Require Import base gmap strings list.
From Stdlib Require Import ZArith Lia.
Local Open Scope Z_scope.

(** ** Kinds of objects *)

Inductive Kind : Type → Type :=
  | KSandbox : Kind Sandbox
  | KTemplate : Kind SandboxTemplate
  | KAccessProfile : Kind AccessProfile
  | KSession : Kind SandboxSession
  | KPod : Kind Pod
  | KPVC : Kind PersistentVolumeClaim
  | KSecret : Kind Secret
  | KNetPol : Kind NetworkPolicy
  | KServiceAccount : Kind ServiceAccount
  | KRoleBinding : Kind RoleBinding
  | KRole : Kind Role
  | KNamespace : Kind KNamespaceObj
  | KEndpointSlice : Kind EndpointSlice.

Inductive tag :=
  | TSandbox | TTemplate | TAccessProfile | TSession | TPod | TPVC | TSecret
  | TNetPol | TServiceAccount | TRoleBinding | TRole | TNamespace | TEndpointSlice.

#[export] Instance tag_eq_dec : EqDecision tag.
Proof. solve_decision. Defined.

Definition kind_tag {T} (K : Kind T) : tag :=
  match K with
  | KSandbox => TSandbox | KTemplate => TTemplate | KAccessProfile => TAccessProfile
  | KSession => TSession | KPod => TPod | KPVC => TPVC | KSecret => TSecret
  | KNetPol => TNetPol | KServiceAccount => TServiceAccount
  | KRoleBinding => TRoleBinding | KRole => TRole | KNamespace => TNamespace
  | KEndpointSlice => TEndpointSlice
  end.

Definition meta {T} (K : Kind T) : T → ObjectMeta :=
  match K with
  | KSandbox => sb_ObjectMeta | KTemplate => tpl_ObjectMeta
  | KAccessProfile => ap_ObjectMeta | KSession => ses_ObjectMeta
  | KPod => pod_ObjectMeta | KPVC => pvc_ObjectMeta | KSecret => sec_ObjectMeta
  | KNetPol => np_ObjectMeta | KServiceAccount => sa_ObjectMeta
  | KRoleBinding => rb_ObjectMeta | KRole => role_ObjectMeta
  | KNamespace => ns_ObjectMeta | KEndpointSlice => es_ObjectMeta
  end.

Definition with_meta {T} (K : Kind T) : ObjectMeta → T → T :=
  match K with
  | KSandbox => with_sb_meta
  | KTemplate => λ m o, {| tpl_ObjectMeta := m; tpl_Spec := tpl_Spec o |}
  | KAccessProfile => with_ap_meta
  | KSession => λ m o, {| ses_ObjectMeta := m; ses_Spec := ses_Spec o; ses_Status := ses_Status o |}
  | KPod => λ m o, {| pod_ObjectMeta := m; pod_Spec := pod_Spec o; pod_Status := pod_Status o |}
  | KPVC => λ m o, {| pvc_ObjectMeta := m; pvc_Spec := pvc_Spec o |}
  | KSecret => λ m o, {| sec_ObjectMeta := m; sec_Data := sec_Data o |}
  | KNetPol => λ m o, {| np_ObjectMeta := m; np_Spec := np_Spec o |}
  | KServiceAccount => λ m o, {| sa_ObjectMeta := m |}
  | KRoleBinding => λ m o, {| rb_ObjectMeta := m; rb_RoleRef := rb_RoleRef o; rb_Subjects := rb_Subjects o |}
  | KRole => λ m o, {| role_ObjectMeta := m; role_Rules := role_Rules o |}
  | KNamespace => λ m o, {| ns_ObjectMeta := m |}
  | KEndpointSlice => λ m o, {| es_ObjectMeta := m; es_Endpoints := es_Endpoints o; es_Ports := es_Ports o |}
  end.

(** The status subresource: [with_status K s o] is [o] with the status of
    [s]. Kinds without the subresource have no separate status. *)
Definition with_status {T} (K : Kind T) : T → T → T :=
  match K with
  | KSandbox => λ s o, with_sb_status (sb_Status s) o
  | KAccessProfile => λ s o, with_ap_status (ap_Status s) o
  | KSession => λ s o, with_ses_status (ses_Status s) o
  | KPod => λ s o, {| pod_ObjectMeta := pod_ObjectMeta o; pod_Spec := pod_Spec o; pod_Status := pod_Status s |}
  | _ => λ _ o, o
  end.

(** The status an object has when it has just been created. *)
Definition reset_status {T} (K : Kind T) : T → T :=
  match K with
  | KSandbox => with_sb_status emptyStatus
  | KAccessProfile => with_ap_status {| apst_Conditions := []; apst_ObservedGeneration := 0 |}
  | KSession => with_ses_status emptySessionStatus
  | KPod => λ o, {| pod_ObjectMeta := pod_ObjectMeta o; pod_Spec := pod_Spec o;
                    pod_Status := {| pst_Phase := PodPending; pst_PodIP := ""; pst_Conditions := [] |} |}
  | _ => λ o, o
  end.

Definition okey {T} (K : Kind T) (o : T) : NamespacedName := keyOf (meta K o).

Lemma meta_with_meta {T} (K : Kind T) m o : meta K (with_meta K m o) = m.
Proof. destruct K; done. Qed.

Lemma meta_with_status {T} (K : Kind T) s o : meta K (with_status K s o) = meta K o.
Proof. destruct K; done. Qed.

Lemma with_status_self {T} (K : Kind T) (o : T) : with_status K o o = o.
Proof. destruct K; by destruct o. Qed.

Lemma with_meta_self {T} (K : Kind T) (o : T) : with_meta K (meta K o) o = o.
Proof. destruct K; by destruct o. Qed.

Lemma meta_reset_status {T} (K : Kind T) o : meta K (reset_status K o) = meta K o.
Proof. destruct K; done. Qed.

(** ** Selectors of a list request *)

Record ListOptions := {
  lo_Namespace : option string;
  lo_Labels : list (string * string);
  lo_Field : option (string * string);
}.

Definition InNamespace (ns : string) : ListOptions :=
  {| lo_Namespace := Some ns; lo_Labels := []; lo_Field := None |}.
Definition MatchingLabels (l v : string) : ListOptions :=
  {| lo_Namespace := None; lo_Labels := [(l, v)]; lo_Field := None |}.
Definition MatchingFields (f v : string) : ListOptions :=
  {| lo_Namespace := None; lo_Labels := []; lo_Field := Some (f, v) |}.

(** The field indexes the sandbox controller registers with the manager. *)
Definition indexSandboxTemplate : string := ".spec.template".
Definition indexSandboxExistingClaim : string := ".spec.home.existingClaim".
Definition indexSandboxAccessProfile : string := ".spec.accessProfile".

Definition sandboxIndex (field : string) (sb : Sandbox) : list string :=
  if String.eqb field indexSandboxTemplate then [sp_Template (sb_Spec sb)]
  else if String.eqb field indexSandboxExistingClaim then
    match sp_Home (sb_Spec sb) with
    | None => []
    | Some h => if String.eqb (h_ExistingClaim h) "" then [] else [h_ExistingClaim h]
    end
  else if String.eqb field indexSandboxAccessProfile then
    if String.eqb (sp_AccessProfile (sb_Spec sb)) "" then []
    else [sp_AccessProfile (sb_Spec sb)]
  else [].

Definition field_values {T} (K : Kind T) (field : string) : T → list string :=
  match K with
  | KSandbox => sandboxIndex field
  | _ => λ _, []
  end.

Definition has_label (m : ObjectMeta) (lv : string * string) : bool :=
  bool_decide (mLabels m !! lv.1 = Some lv.2).

Definition selected {T} (K : Kind T) (lo : ListOptions) (o : T) : bool :=
  match lo_Namespace lo with
  | Some ns => String.eqb (Namespace (meta K o)) ns
  | None => true
  end
  && forallb (has_label (meta K o)) (lo_Labels lo)
  && match lo_Field lo with
     | Some (f, v) => contains (field_values K f o) v
     | None => true
     end.

(** ** Calls *)

Inductive RejectionReason := Prohibited | ConnectionFailed.

Inductive event : Type → Type :=
  (* client.Client *)
  | EGet {T} (K : Kind T) (k : NamespacedName) : event (res T)
  | EList {T} (K : Kind T) (lo : ListOptions) : event (res (list T))
  | ECreate {T} (K : Kind T) (o : T) : event (res T)
  | EUpdate {T} (K : Kind T) (o : T) : event (res T)
  | EDelete {T} (K : Kind T) (k : NamespacedName) : event (res unit)
  | EPatch {T} (K : Kind T) (k : NamespacedName) (f : T → T) : event (res T)
  | EStatusUpdate {T} (K : Kind T) (o : T) : event (res T)
  | EStatusPatch {T} (K : Kind T) (k : NamespacedName) (f : T → T) : event (res T)
  (* time.Now, os.Getenv, crypto/rand, crypto/ed25519 *)
  | ENow : event Time
  | EGetenv (name : string) : event string
  | ERandRead (n : nat) : event (res string)
  | EGenerateKey : event (res (string * string))
  (* the gateway's network side *)
  | EWait (d : Duration) : event (option error)
  | EDial (addr : string) : event (res unit)
  | EReject (reason : RejectionReason) (msg : string) : event unit
  | EAccept : event (res unit)
  | EBridge : event unit
  | ECloseUpstream : event unit
  | EStartHeartbeat (interval : Duration) (k : NamespacedName) : event unit
  | EStopHeartbeat (k : NamespacedName) : event unit
  (* the machine the agent and the client run on *)
  | EOS {X} (o : os X) : event X.

(** ** Programs *)

Inductive prog (A : Type) : Type :=
  | Ret (a : A)
  | Call {X : Type} (e : event X) (k : X → prog A).
Arguments Ret {A} a.
Arguments Call {A X} e k.

Definition call {X} (e : event X) : prog X := Call e Ret.

Fixpoint pbind {A B} (f : A → prog B) (p : prog A) : prog B :=
  match p with
  | Ret a => f a
  | Call e k => Call e (λ x, pbind f (k x))
  end.

#[export] Instance prog_ret : MRet prog := @Ret.
#[export] Instance prog_bind : MBind prog := @pbind.

(** Binding a call that may fail: an error ends the function with it. *)
Definition ebind {A B} (p : prog (res A)) (f : A → prog (res B)) : prog (res B) :=
  r ← p; match r with Ok a => f a | Err e => Ret (Err e) end.

Notation "x ←? p ; q" := (ebind p (λ x, q))
  (at level 20, p at level 100, q at level 200, format "x  ←?  p ;  '/' q") : kubepark_scope.
Notation "p ;;? q" := (ebind p (λ _, q))
  (at level 100, q at level 200, right associativity, format "p  ;;?  '/' q") : kubepark_scope.
#[global] Open Scope kubepark_scope.

(** A loop over a list whose body may end the function with an error. *)
Fixpoint for_each {A} (l : list A) (body : A → prog (res unit)) : prog (res unit) :=
  match l with
  | [] => Ret (Ok tt)
  | x :: l => body x ;;? for_each l body
  end.

(** ** Environments *)

Class World (W : Type) := {
  view : ∀ {T}, Kind T → W → NamespacedName → option T;
  clock : W → Time;
  environ : W → string → string;
  view_key : ∀ T (K : Kind T) w k o, view K w k = Some o → okey K o = k;
}.

Definition Env (W : Type) : Type := ∀ X, event X → W → X * W.

Fixpoint run {W A} (env : Env W) (p : prog A) (w : W) : A * W :=
  match p with
  | Ret a => (a, w)
  | Call e k => let '(x, w') := env _ e w in run env (k x) w'
  end.

Section spec.
Context {W : Type} `{World W}.

(** No object changed. *)
Definition unchanged (w w' : W) : Prop :=
  (∀ T (K : Kind T) k, view K w' k = view K w k) ∧ environ w' = environ w.

(** No object changed but, possibly, one. *)
Definition same_but {T} (K : Kind T) (k : NamespacedName) (w w' : W) : Prop :=
  (∀ T' (K' : Kind T') k',
    (kind_tag K', k') ≠ (kind_tag K, k) → view K' w' k' = view K' w k')
  ∧ environ w' = environ w.

Definition get_spec {T} (K : Kind T) (k : NamespacedName) (w : W) (r : res T) (w' : W) : Prop :=
  unchanged w w' ∧
  match r with
  | Ok o => view K w k = Some o
  | Err e => IsNotFound e = true → view K w k = None
  end.

Definition list_spec {T} (K : Kind T) (lo : ListOptions) (w : W) (r : res (list T)) (w' : W) : Prop :=
  unchanged w w' ∧
  match r with
  | Ok l => (∀ o, o ∈ l ↔ view K w (okey K o) = Some o ∧ selected K lo o = true)
            ∧ NoDup (okey K <$> l)
  | Err _ => True
  end.

(** The server fills in the fields it owns and ignores a submitted status. *)
Definition created_as {T} (K : Kind T) (o o' : T) : Prop :=
  ∃ uid gen rv t,
    o' = with_meta K (set_server uid gen rv t None (meta K o)) (reset_status K o).

Definition create_spec {T} (K : Kind T) (o : T) (w : W) (r : res T) (w' : W) : Prop :=
  same_but K (okey K o) w w' ∧
  match r with
  | Ok o' => view K w (okey K o) = None ∧ view K w' (okey K o) = Some o' ∧ created_as K o o'
  | Err e => IsAlreadyExists e = true →
             is_Some (view K w (okey K o)) ∧ view K w' (okey K o) = view K w (okey K o)
  end.

(** A stored object after a write: the server advances the resource version
    and, when the spec changed, the generation. *)
Definition stored_as {T} (K : Kind T) (o o' : T) : Prop :=
  ∃ gen rv, o' = with_meta K (set_server (UID (meta K o)) gen rv
                   (CreationTimestamp (meta K o)) (DeletionTimestamp (meta K o)) (meta K o)) o.

(** An update replaces everything but the status, if the submitted object
    carries the current resource version. An object that is being deleted
    disappears with its last finalizer. *)
Definition update_spec {T} (K : Kind T) (o : T) (w : W) (r : res T) (w' : W) : Prop :=
  same_but K (okey K o) w w' ∧
  match r with
  | Ok o' => ∃ cur, view K w (okey K o) = Some cur ∧
      ResourceVersion (meta K o) = ResourceVersion (meta K cur) ∧
      stored_as K (with_status K cur o) o' ∧
      view K w' (okey K o) =
        (if bool_decide (is_Some (DeletionTimestamp (meta K cur)) ∧ Finalizers (meta K o) = [])
         then None else Some o')
  | Err e => IsNotFound e = true →
             view K w (okey K o) = None ∧ view K w' (okey K o) = None
  end.

(** A deleted object is gone, or is marked and goes later: pods terminate
    gracefully, and an object with finalizers waits for them. *)
Definition marked_deleted {T} (K : Kind T) (o o' : T) : Prop :=
  ∃ gen rv t, time_IsZero t = false ∧
    o' = with_meta K (set_server (UID (meta K o)) gen rv
           (CreationTimestamp (meta K o)) (Some t) (meta K o)) o.

Definition delete_spec {T} (K : Kind T) (k : NamespacedName) (w : W) (r : res unit) (w' : W) : Prop :=
  same_but K k w w' ∧
  match r with
  | Ok _ => ∃ cur, view K w k = Some cur ∧
      (view K w' k = None ∨ ∃ o', view K w' k = Some o' ∧ marked_deleted K cur o') ∧
      (kind_tag K ≠ TPod → Finalizers (meta K cur) = [] → view K w' k = None)
  | Err e => IsNotFound e = true → view K w k = None ∧ view K w' k = None
  end.

(** A merge patch changes on the server the fields the caller changed. *)
Definition patch_spec {T} (K : Kind T) (k : NamespacedName) (f : T → T) (w : W) (r : res T) (w' : W) : Prop :=
  same_but K k w w' ∧
  match r with
  | Ok o' => ∃ cur, view K w k = Some cur ∧
      stored_as K (with_status K cur (f cur)) o' ∧ view K w' k = Some o'
  | Err e => IsNotFound e = true → view K w k = None ∧ view K w' k = None
  end.

(** A write to the status subresource, whether it succeeds or not, neither
    creates nor removes the object and changes nothing but its status. *)
Definition status_only {T} (K : Kind T) (k : NamespacedName) (w w' : W) : Prop :=
  match view K w k with
  | None => view K w' k = None
  | Some cur => ∃ s o, view K w' k = Some o ∧ stored_as K (with_status K s cur) o
  end.

Definition status_update_spec {T} (K : Kind T) (o : T) (w : W) (r : res T) (w' : W) : Prop :=
  same_but K (okey K o) w w' ∧ status_only K (okey K o) w w' ∧
  match r with
  | Ok o' => ∃ cur, view K w (okey K o) = Some cur ∧
      ResourceVersion (meta K o) = ResourceVersion (meta K cur) ∧
      stored_as K (with_status K o cur) o' ∧ view K w' (okey K o) = Some o'
  | Err e => IsNotFound e = true →
             view K w (okey K o) = None ∧ view K w' (okey K o) = None
  end.

Definition status_patch_spec {T} (K : Kind T) (k : NamespacedName) (f : T → T) (w : W) (r : res T) (w' : W) : Prop :=
  same_but K k w w' ∧ status_only K k w w' ∧
  match r with
  | Ok o' => ∃ cur, view K w k = Some cur ∧
      stored_as K (with_status K (f cur) cur) o' ∧ view K w' k = Some o'
  | Err e => IsNotFound e = true → view K w k = None ∧ view K w' k = None
  end.

(** What the documentation promises about each call. While a call waits, or
    bytes flow between client and sandbox, anything may happen elsewhere. *)
Definition call_spec {X} (e : event X) : W → X → W → Prop :=
  match e with
  | EGet K k => get_spec K k
  | EList K lo => list_spec K lo
  | ECreate K o => create_spec K o
  | EUpdate K o => update_spec K o
  | EDelete K k => delete_spec K k
  | EPatch K k f => patch_spec K k f
  | EStatusUpdate K o => status_update_spec K o
  | EStatusPatch K k f => status_patch_spec K k f
  | ENow => λ w t w', unchanged w w' ∧ t = clock w'
  | EGetenv n => λ w s w', unchanged w w' ∧ s = environ w n
  | ERandRead n => λ w r w', unchanged w w' ∧
      match r with Ok b => String.length b = n | Err _ => True end
  | EGenerateKey => λ w _ w', unchanged w w'
  | EWait d => λ w r w', r = None → clock w + d <= clock w'
  | EBridge => λ _ _ _, True
  | EDial _ | EReject _ _ | EAccept | ECloseUpstream
  | EStartHeartbeat _ _ | EStopHeartbeat _ => λ w _ w', unchanged w w'
  | EOS _ => λ w _ w', unchanged w w'
  end.

Definition api_spec {X} (e : event X) (w : W) (x : X) (w' : W) : Prop :=
  clock w <= clock w' ∧ call_spec e w x w'.

Class Conforms (env : Env W) : Prop :=
  conforms : ∀ X (e : event X) w, api_spec e w (env X e w).1 (env X e w).2.

(** ** Symbolic execution

    [wp p Q w]: whatever a conforming environment answers, running [p] from
    [w] ends with a result and a world that satisfy [Q]. *)
Fixpoint wp {A} (p : prog A) (Q : A → W → Prop) (w : W) : Prop :=
  match p with
  | Ret a => Q a w
  | Call e k => ∀ x w', api_spec e w x w' → wp (k x) Q w'
  end.

Lemma wp_run {A} (env : Env W) `{!Conforms env} (p : prog A) Q w :
  wp p Q w → Q (run env p w).1 (run env p w).2.
Proof.
  revert w. induction p as [a|X e k IH]; intros w Hw; [done|]. simpl in *.
  pose proof (conforms _ e w) as He. destruct (env X e w) as [x w'].
  by apply IH, Hw.
Qed.

Lemma run_bind {A B} (env : Env W) (p : prog A) (f : A → prog B) w :
  run env (p ≫= f) w = run env (f (run env p w).1) (run env p w).2.
Proof.
  revert w. induction p as [a|X e k IH]; intros w; simpl; [done|].
  destruct (env X e w) as [x w']. apply IH.
Qed.

Lemma run_wp {A} (env : Env W) `{!Conforms env} (p : prog A) Q w r w' :
  run env p w = (r, w') → wp p Q w → Q r w'.
Proof. intros Hrun Hwp. pose proof (wp_run env p Q w Hwp) as HQ. by rewrite Hrun in HQ. Qed.

Lemma wp_mono {A} (p : prog A) (Q R : A → W → Prop) w :
  wp p Q w → (∀ a w', Q a w' → R a w') → wp p R w.
Proof. revert w. induction p as [a|X e k IH]; simpl; intros w Hw HQ; eauto. Qed.

Lemma wp_bind {A B} (p : prog A) (f : A → prog B) Q w :
  wp p (λ a w', wp (f a) Q w') w → wp (p ≫= f) Q w.
Proof. revert w. induction p as [a|X e k IH]; simpl; intros w Hw; eauto. Qed.

Lemma wp_ebind {A B} (p : prog (res A)) (f : A → prog (res B)) Q w :
  wp p (λ r w', match r with Ok a => wp (f a) Q w' | Err e => Q (Err e) w' end) w →
  wp (ebind p f) Q w.
Proof.
  intros Hw. apply wp_bind. eapply wp_mono; [exact Hw|]. by intros [a|e] w' Hr.
Qed.

Lemma wp_bind_inv {A B} (p : prog A) (f : A → prog B) Q w :
  wp (p ≫= f) Q w → wp p (λ a w', wp (f a) Q w') w.
Proof. revert w. induction p as [a|X e k IH]; simpl; intros w Hw; eauto. Qed.

Lemma wp_ebind_inv {A B} (p : prog (res A)) (f : A → prog (res B)) Q w :
  wp (ebind p f) Q w →
  wp p (λ r w', match r with Ok a => wp (f a) Q w' | Err e => Q (Err e) w' end) w.
Proof.
  intros Hw. eapply wp_mono; [exact (wp_bind_inv _ _ _ _ Hw)|]. by intros [a|e] w' Hr.
Qed.

Lemma wp_call {X} (e : event X) Q w :
  (∀ x w', api_spec e w x w' → Q x w') → wp (call e) Q w.
Proof. done. Qed.

Lemma wp_and {A} (p : prog A) (Q R : A → W → Prop) w :
  wp p Q w → wp p R w → wp p (λ a w', Q a w' ∧ R a w') w.
Proof. revert w. induction p as [a|X e k IH]; simpl; intros w HQ HR; eauto. Qed.

(** Time does not run backwards. *)
Lemma wp_clock {A} (p : prog A) w : wp p (λ _ w', clock w <= clock w') w.
Proof.
  revert w. induction p as [a|X e k IH]; simpl; intros w; [lia|].
  intros x w' [Hc _]. eapply wp_mono; [apply IH|]. simpl. lia.
Qed.

(** An invariant carried through a loop. *)
Lemma wp_for_each {A} (I : list A → W → Prop) (Qe : error → W → Prop) l body w :
  I l w →
  (∀ x l' w, I (x :: l') w →
     wp (body x) (λ r w', match r with Ok _ => I l' w' | Err e => Qe e w' end) w) →
  wp (for_each l body) (λ r w', match r with Ok _ => I [] w' | Err e => Qe e w' end) w.
Proof.
  revert w. induction l as [|x l IH]; intros w HI Hbody; simpl; [done|].
  apply wp_ebind. eapply wp_mono; [by apply Hbody|]. intros [[]|e] w' Hr; [|done].
  by apply IH.
Qed.

(** ** Facts about unchanged parts of the world *)

Lemma unchanged_refl w : unchanged w w.
Proof. done. Qed.

Lemma unchanged_trans w1 w2 w3 : unchanged w1 w2 → unchanged w2 w3 → unchanged w1 w3.
Proof. intros [H1 E1] [H2 E2]. split; [|congruence]. intros. by rewrite H2. Qed.

Lemma unchanged_same_but {T} (K : Kind T) k w w' : unchanged w w' → same_but K k w w'.
Proof. intros [H1 E1]. by split; intros. Qed.

Lemma same_but_trans {T} (K : Kind T) k w1 w2 w3 :
  same_but K k w1 w2 → same_but K k w2 w3 → same_but K k w1 w3.
Proof. intros [H1 E1] [H2 E2]. split; [|congruence]. intros. by rewrite H2, H1. Qed.

(** Only objects in [P] may have changed. *)
Definition frame (P : tag → NamespacedName → Prop) (w w' : W) : Prop :=
  (∀ T (K : Kind T) k, ¬ P (kind_tag K) k → view K w' k = view K w k)
  ∧ environ w' = environ w.

Lemma frame_refl P w : frame P w w.
Proof. done. Qed.

Lemma frame_trans P w1 w2 w3 : frame P w1 w2 → frame P w2 w3 → frame P w1 w3.
Proof. intros [H1 E1] [H2 E2]. split; [|congruence]. intros. by rewrite H2, H1. Qed.

Lemma frame_mono (P Q : tag → NamespacedName → Prop) w w' :
  frame P w w' → (∀ t k, P t k → Q t k) → frame Q w w'.
Proof. intros [H1 E1] HPQ. split; [|done]. intros. apply H1. auto. Qed.

Lemma frame_unchanged P w w' : unchanged w w' → frame P w w'.
Proof. intros [H1 E1]. by split; intros. Qed.

Lemma frame_same_but {T} (K : Kind T) k (P : tag → NamespacedName → Prop) w w' :
  same_but K k w w' → P (kind_tag K) k → frame P w w'.
Proof.
  intros [H1 E1] HP. split; [|done]. intros T' K' k' HnP. apply H1.
  intros Heq. simplify_eq. congruence.
Qed.

Lemma frame_view {T} (K : Kind T) k P w w' :
  frame P w w' → ¬ P (kind_tag K) k → view K w' k = view K w k.
Proof. intros [H1 _]. apply H1. Qed.

Lemma same_but_view {T T'} (K : Kind T) k (K' : Kind T') k' w w' :
  same_but K k w w' → (kind_tag K', k') ≠ (kind_tag K, k) →
  view K' w' k' = view K' w k'.
Proof. intros [H1 _]. apply H1. Qed.

Lemma same_but_key {T} (K : Kind T) k k' w w' :
  same_but K k w w' → k' ≠ k → view K w' k' = view K w k'.
Proof. intros Hs Hne. eapply same_but_view; [done|]. congruence. Qed.

(** No live object is stored there: nothing, or something on its way out. *)
Definition not_live {T} (K : Kind T) (w : W) (k : NamespacedName) : Prop :=
  ∀ o, view K w k = Some o → ptr_IsZero (DeletionTimestamp (meta K o)) = false.

Lemma not_live_view {T} (K : Kind T) w w' k :
  view K w' k = view K w k → not_live K w k → not_live K w' k.
Proof. unfold not_live. by intros ->. Qed.

Lemma delete_not_live {T} (K : Kind T) k w u w' :
  delete_spec K k w (Ok u) w' → not_live K w' k.
Proof.
  intros [_ (cur & Hcur & [Hn|(o' & Ho' & gen & rv & t & Ht & ->)] & _)] o Ho.
  - congruence.
  - rewrite Ho' in Ho. simplify_eq. by rewrite meta_with_meta.
Qed.

Lemma selected_labels {T} (K : Kind T) l v o :
  selected K (MatchingLabels l v) o = true ↔ mLabels (meta K o) !! l = Some v.
Proof.
  unfold selected, has_label. simpl. rewrite !andb_true_r. apply bool_decide_eq_true.
Qed.

Lemma selected_namespace {T} (K : Kind T) ns o :
  selected K (InNamespace ns) o = true ↔ Namespace (meta K o) = ns.
Proof. unfold selected. simpl. rewrite !andb_true_r. apply String.eqb_eq. Qed.

Lemma selected_field {T} (K : Kind T) f v o :
  selected K (MatchingFields f v) o = true ↔ v ∈ field_values K f o.
Proof. unfold selected. simpl. apply contains_true. Qed.

Lemma status_only_refl {T} (K : Kind T) k w : status_only K k w w.
Proof.
  unfold status_only. destruct (view K w k) as [cur|]; [|done]. exists cur, cur. split; [done|].
  rewrite with_status_self. exists (Generation (meta K cur)), (ResourceVersion (meta K cur)).
  rewrite <- (with_meta_self K cur) at 1. f_equal. by destruct (meta K cur).
Qed.

Lemma created_as_meta {T} (K : Kind T) o o' :
  created_as K o o' → okey K o' = okey K o ∧ mLabels (meta K o') = mLabels (meta K o)
    ∧ DeletionTimestamp (meta K o') = None.
Proof. intros (uid & gen & rv & t & ->). unfold okey. by rewrite meta_with_meta. Qed.

End spec.

#[export] Hint Resolve unchanged_refl unchanged_same_but frame_refl frame_unchanged
  frame_same_but : kubepark.

(** ** Properties of every answer

    [calls P p]: every call [p] can ever issue satisfies [P], whatever was
    answered before: not even a misbehaving server makes it issue another. *)
Fixpoint calls {A} (P : ∀ X, event X → Prop) (p : prog A) : Prop :=
  match p with
  | Ret _ => True
  | Call e k => P _ e ∧ ∀ x, calls P (k x)
  end.

Lemma calls_bind {A B} P (p : prog A) (f : A → prog B) :
  calls P p → (∀ a, calls P (f a)) → calls P (p ≫= f).
Proof. induction p as [a|X e k IH]; simpl; [auto|]. intros [He Hk] Hf. split; auto. Qed.

Lemma calls_ebind {A B} P (p : prog (res A)) (f : A → prog (res B)) :
  calls P p → (∀ a, calls P (f a)) → calls P (ebind p f).
Proof. intros Hp Hf. apply calls_bind; [done|]. intros [a|e]; [apply Hf|done]. Qed.

Lemma calls_for_each {A} P (l : list A) body :
  (∀ x, x ∈ l → calls P (body x)) → calls P (for_each l body).
Proof.
  induction l as [|x l IH]; simpl; [done|]. intros Hb. apply calls_ebind.
  - apply Hb. left.
  - intros _. apply IH. intros y Hy. apply Hb. by right.
Qed.

Lemma calls_mono {A} (P Q : ∀ X, event X → Prop) (p : prog A) :
  calls P p → (∀ X (e : event X), P X e → Q X e) → calls Q p.
Proof. induction p as [a|X e k IH]; simpl; [done|]. intros [He Hk] HPQ. split; auto. Qed.

(** Calls that change nothing on the API server. *)
Definition is_read {X} (e : event X) : Prop :=
  match e with
  | ECreate _ _ | EUpdate _ _ | EDelete _ _ | EPatch _ _ _
  | EStatusUpdate _ _ | EStatusPatch _ _ _ => False
  | _ => True
  end.

(** ** Traces

    The calls a program issues in an environment, in order. *)
Inductive some_event :=
  | SomeEvent {X} (e : event X).

Fixpoint trace {W A} (env : Env W) (p : prog A) (w : W) : list some_event :=
  match p with
  | Ret _ => []
  | Call e k => SomeEvent e :: trace env (k (env _ e w).1) (env _ e w).2
  end.

Lemma trace_bind {W A B} (env : Env W) (p : prog A) (f : A → prog B) w :
  trace env (p ≫= f) w = trace env p w ++ trace env (f (run env p w).1) (run env p w).2.
Proof.
  revert w. induction p as [a|X e k IH]; intros w; simpl; [done|].
  rewrite IH. destruct (env X e w) as [x w']. done.
Qed.

Lemma calls_trace {W A} (env : Env W) (P : some_event → Prop) (p : prog A) w :
  calls (λ X e, P (SomeEvent e)) p → ∀ e, e ∈ trace env p w → P e.
Proof.
  revert w. induction p as [a|X e k IH]; intros w; simpl.
  - intros _ e He. by apply not_elem_of_nil in He.
  - intros [He Hk] e' [->|Hin]%elem_of_cons; [done|]. by eapply IH.
Qed.

(** ** Where each call is issued

    The calls of a run, each with the world it is issued in, and the program
    logic for a condition [P] that every call has to meet there. *)
Fixpoint moments {W A} (env : Env W) (p : prog A) (w : W) : list (some_event * W) :=
  match p with
  | Ret _ => []
  | Call e k => (SomeEvent e, w) :: moments env (k (env _ e w).1) (env _ e w).2
  end.

Lemma moments_trace {W A} (env : Env W) (p : prog A) w : (moments env p w).*1 = trace env p w.
Proof. revert w. induction p as [a|X e k IH]; intros w; simpl; [done|]. by rewrite IH. Qed.

Section per_call.
Context {W : Type} `{World W} (P : some_event → W → Prop).

Fixpoint wpc {A} (p : prog A) (Q : A → W → Prop) (w : W) : Prop :=
  match p with
  | Ret a => Q a w
  | Call e k => P (SomeEvent e) w ∧ ∀ x w', api_spec e w x w' → wpc (k x) Q w'
  end.

Lemma wpc_moments {A} (env : Env W) `{!Conforms env} (p : prog A) Q w e w1 :
  wpc p Q w → (e, w1) ∈ moments env p w → P e w1.
Proof.
  revert w. induction p as [a|X f k IH]; intros w; simpl.
  - intros _ Hin. by apply not_elem_of_nil in Hin.
  - intros [Hf Hk] [[= -> ->]|Hin]%elem_of_cons; [done|].
    pose proof (conforms _ f w) as Hs. destruct (env X f w) as [x w']. by eapply IH; [apply Hk|].
Qed.

Lemma wpc_bind {A B} (p : prog A) (f : A → prog B) Q w :
  wpc p (λ a w', wpc (f a) Q w') w → wpc (p ≫= f) Q w.
Proof. revert w. induction p as [a|X e k IH]; simpl; [done|]. intros w [He Hk]. split; [done|]. auto. Qed.

Lemma wpc_mono {A} (p : prog A) (Q R : A → W → Prop) w :
  wpc p Q w → (∀ a w', Q a w' → R a w') → wpc p R w.
Proof. revert w. induction p as [a|X e k IH]; simpl; intros w Hw HQ; [by apply HQ|]. destruct Hw. split; eauto. Qed.

(** A program whose calls all meet the condition wherever they are issued. *)
Lemma wpc_calls {A} (p : prog A) Q w :
  calls (λ X e, ∀ w, P (SomeEvent e) w) p → wp p Q w → wpc p Q w.
Proof. revert w. induction p as [a|X e k IH]; simpl; intros w; [done|]. intros [He Hk] Hw. split; auto. Qed.

End per_call.
