(* ===== verification/Files.v ===== *)
(** * Files

    What the documentation of package [os] promises about the calls of Os.v,
    in a world that shows what is stored on the machine by path. A call that fails
    leaves every file alone but the one it names, whose contents are then
    unknown; [ORename] is atomic; a temporary file has a number for the star of
    its pattern. Calls to anything else than the machine
    leave its files alone. *)

From S2P Require Import Prelude GoStrings Json Os KubeTypes ApiTypes Client.
From Stdlib Require Import String.
From stdpp Require Import base gmap strings list.
From Stdlib Require Import ZArith Lia.
Local Open Scope Z_scope.

Record File := {
  f_Data : string;
  f_Mode : Z;
}.

(** What the machine stores by path, and the path of the running binary. *)
Class FileWorld (W : Type) := {
  files : W → gmap string File;
  executable : string;
}.

Section spec.
Context {W : Type} `{World W} `{FileWorld W}.

(** No file changed but, possibly, one. *)
Definition files_but (p : string) (w w' : W) : Prop := ∀ q, q ≠ p → files w' !! q = files w !! q.

(** The permissions of a new file are those asked for, less the umask. *)
Definition created_mode (perm mode : Z) : Prop := Z.land mode perm = mode.

Definition os_spec {X} (o : os X) : W → X → W → Prop :=
  match o with
  | OStat p => λ w r w', files w' = files w ∧ (r = Ok tt → is_Some (files w !! p))
  | OReadFile p => λ w r w', files w' = files w ∧
      match r with Ok d => ∃ f, files w !! p = Some f ∧ f_Data f = d | Err _ => True end
  | OWriteFile p d perm => λ w r w', files_but p w w' ∧
      match r with
      | Ok _ => ∃ f, files w' !! p = Some f ∧ f_Data f = d ∧
          match files w !! p with Some old => f_Mode f = f_Mode old | None => created_mode perm (f_Mode f) end
      | Err _ => True
      end
  | OCreateTemp dir pat => λ w r w',
      match r with
      | Ok p => files w !! p = None ∧ files_but p w w' ∧
          ∃ prefix number, p = prefix +:+ number ∧ number ≠ "" ∧ all_chars is_digit number = true
      | Err _ => files w' = files w
      end
  | OExecutable => λ w r w', files w' = files w ∧ ∀ p, r = Ok p → p = executable
  | OOpen p => λ w r w', files w' = files w ∧ (r = Ok tt → is_Some (files w !! p))
  | OCopy src dst => λ w r w', files_but dst w w' ∧
      match r with
      | Ok _ => ∃ f g, files w !! src = Some f ∧ files w' !! dst = Some g ∧ f_Data g = f_Data f
      | Err _ => True
      end
  | OChmod p perm => λ w r w', files_but p w w' ∧
      match r with
      | Ok _ => ∃ f g, files w !! p = Some f ∧ files w' !! p = Some g ∧ f_Data g = f_Data f ∧ f_Mode g = perm
      | Err _ => True
      end
  | ORename old new => λ w r w',
      match r with
      | Ok _ => ∃ f, files w !! old = Some f ∧ files w' = <[new := f]> (base.delete old (files w))
      | Err _ => files w' = files w
      end
  | ORemove p => λ w _ w', files_but p w w'
  | _ => λ w _ w', files w' = files w
  end.

Definition file_spec {X} (e : event X) (w : W) (x : X) (w' : W) : Prop :=
  match e in event X return X → Prop with
  | EOS o => λ x, os_spec o w x w'
  | _ => λ _, files w' = files w
  end x.

Class FileConforms (env : Env W) : Prop :=
  file_conforms : ∀ X (e : event X) w, file_spec e w (env X e w).1 (env X e w).2.

(** [wpf I p Q w]: in an environment that keeps both sets of promises, every
    world from [w] on satisfies [I] and the run ends in [Q]. *)
Fixpoint wpf {A} (I : W → Prop) (p : prog A) (Q : A → W → Prop) (w : W) : Prop :=
  I w ∧
  match p with
  | Ret a => Q a w
  | Call e k => ∀ x w', api_spec e w x w' → file_spec e w x w' → wpf I (k x) Q w'
  end.

(** The worlds a run passes through. *)
Fixpoint worlds {A} (env : Env W) (p : prog A) (w : W) : list W :=
  w :: match p with
       | Ret _ => []
       | Call e k => worlds env (k (env _ e w).1) (env _ e w).2
       end.

Lemma wpf_run {A} (env : Env W) `{!Conforms env} `{!FileConforms env} I (p : prog A) Q w :
  wpf I p Q w → Forall I (worlds env p w) ∧ Q (run env p w).1 (run env p w).2.
Proof.
  revert w. induction p as [a|X e k IH]; intros w [HI Hw]; [by repeat constructor|]. simpl.
  pose proof (conforms _ e w) as He. pose proof (file_conforms _ e w) as Hf. destruct (env X e w) as [x w'].
  destruct (IH x w' (Hw x w' He Hf)) as [HIs HQ]. split; [by constructor|done].
Qed.

Lemma wpf_bind {A B} I (p : prog A) (f : A → prog B) Q w :
  wpf I p (λ a w', wpf I (f a) Q w') w → wpf I (p ≫= f) Q w.
Proof.
  revert w. induction p as [a|X e k IH]; intros w [HI Hw]; [exact Hw|]. split; [done|]. intros x w' He Hf. by apply IH, Hw.
Qed.

Lemma wpf_mono {A} I (p : prog A) (Q R : A → W → Prop) w :
  wpf I p Q w → (∀ a w', I w' → Q a w' → R a w') → wpf I p R w.
Proof.
  revert w. induction p as [a|X e k IH]; intros w [HI Hw] HQ; (split; [done|]); [by apply HQ|].
  intros x w' He Hf. apply IH; [by apply Hw|done].
Qed.

Lemma wpf_ebind {A B} I (p : prog (res A)) (f : A → prog (res B)) Q w :
  wpf I p (λ r w', match r with Ok a => wpf I (f a) Q w' | Err e => I w' ∧ Q (Err e) w' end) w →
  wpf I (ebind p f) Q w.
Proof.
  intros Hw. apply wpf_bind. eapply wpf_mono; [exact Hw|]. by intros [a|e] w' HI Hr.
Qed.

Lemma wpf_call {X} I (e : event X) Q w :
  I w → (∀ x w', api_spec e w x w' → file_spec e w x w' → I w' ∧ Q x w') → wpf I (call e) Q w.
Proof. intros HI Hw. split; [done|]. intros x w' He Hf. simpl. by apply Hw. Qed.

(** The run ends in [Q]; nothing is claimed of the worlds between. *)
Definition anything (w : W) : Prop := True.

Lemma run_wpf {A} (env : Env W) `{!Conforms env} `{!FileConforms env} (p : prog A) Q w r w' :
  run env p w = (r, w') → wpf anything p Q w → Q r w'.
Proof. intros Hrun Hw. destruct (wpf_run env anything p Q w Hw) as [_ HQ]. by rewrite Hrun in HQ. Qed.

(** A program that asks nothing of the machine leaves its files alone. *)
Definition no_os {X} (e : event X) : Prop := match e with EOS _ => False | _ => True end.

Lemma wpf_no_os {A} I (p : prog A) Q w :
  calls (@no_os) p → I w → (∀ u u', files u' = files u → I u → I u') →
  wp p (λ a w', files w' = files w → Q a w') w → wpf I p Q w.
Proof.
  intros Hc HI Hmono. revert w HI. induction p as [a|X e k IH]; intros w HI Hw; simpl in *; [by split; [|apply Hw]|].
  destruct Hc as [He Hk]. split; [done|]. intros x w' Ha Hf. assert (files w' = files w) as Heq by (by destruct e).
  apply IH; [done|by eapply Hmono|]. specialize (Hw x w' Ha). rewrite Heq. exact Hw.
Qed.

End spec.
