(* ===== verification/Fake.v ===== *)
(** * An API server that keeps its promises

    [Cluster] is an in-memory store with one map per kind, a clock and an
    environment, and [fake] answers every call on it. It conforms to the
    specification of Client.v, which shows that specification satisfiable;
    the examples of the development run the handlers on it. *)

From S2P Require Import Prelude Os KubeTypes ApiTypes Client.
From Stdlib Require Import String Ascii.
From stdpp Require Import base gmap strings list fin_maps.
From Stdlib Require Import ZArith Lia.
Local Open Scope Z_scope.

Abbreviation Objs := (gmap NamespacedName).

Record Cluster := {
  cl_Sandbox : Objs Sandbox;
  cl_Template : Objs SandboxTemplate;
  cl_AccessProfile : Objs AccessProfile;
  cl_Session : Objs SandboxSession;
  cl_Pod : Objs Pod;
  cl_PVC : Objs PersistentVolumeClaim;
  cl_Secret : Objs Secret;
  cl_NetPol : Objs NetworkPolicy;
  cl_ServiceAccount : Objs ServiceAccount;
  cl_RoleBinding : Objs RoleBinding;
  cl_Role : Objs Role;
  cl_Namespace : Objs KNamespaceObj;
  cl_EndpointSlice : Objs EndpointSlice;
  cl_clock : Time;
  cl_environ : list (string * string);
}.

Definition emptyCluster : Cluster :=
  {| cl_Sandbox := ∅; cl_Template := ∅; cl_AccessProfile := ∅; cl_Session := ∅;
     cl_Pod := ∅; cl_PVC := ∅; cl_Secret := ∅; cl_NetPol := ∅; cl_ServiceAccount := ∅;
     cl_RoleBinding := ∅; cl_Role := ∅; cl_Namespace := ∅; cl_EndpointSlice := ∅;
     cl_clock := 0; cl_environ := [] |}.

Definition objs {T} (K : Kind T) : Cluster → Objs T :=
  match K with
  | KSandbox => cl_Sandbox | KTemplate => cl_Template | KAccessProfile => cl_AccessProfile
  | KSession => cl_Session | KPod => cl_Pod | KPVC => cl_PVC | KSecret => cl_Secret
  | KNetPol => cl_NetPol | KServiceAccount => cl_ServiceAccount
  | KRoleBinding => cl_RoleBinding | KRole => cl_Role | KNamespace => cl_Namespace
  | KEndpointSlice => cl_EndpointSlice
  end.

(** The store with the map of one kind replaced. *)
Definition pick {T T'} (K : Kind T) (m : Objs T) (K' : Kind T') (c : Cluster) : Objs T' :=
  match K in Kind T return Objs T → Objs T' with
  | KSandbox => match K' in Kind T' return Objs Sandbox → Objs T' with KSandbox => λ m, m | K' => λ _, objs K' c end
  | KTemplate => match K' in Kind T' return Objs SandboxTemplate → Objs T' with KTemplate => λ m, m | K' => λ _, objs K' c end
  | KAccessProfile => match K' in Kind T' return Objs AccessProfile → Objs T' with KAccessProfile => λ m, m | K' => λ _, objs K' c end
  | KSession => match K' in Kind T' return Objs SandboxSession → Objs T' with KSession => λ m, m | K' => λ _, objs K' c end
  | KPod => match K' in Kind T' return Objs Pod → Objs T' with KPod => λ m, m | K' => λ _, objs K' c end
  | KPVC => match K' in Kind T' return Objs PersistentVolumeClaim → Objs T' with KPVC => λ m, m | K' => λ _, objs K' c end
  | KSecret => match K' in Kind T' return Objs Secret → Objs T' with KSecret => λ m, m | K' => λ _, objs K' c end
  | KNetPol => match K' in Kind T' return Objs NetworkPolicy → Objs T' with KNetPol => λ m, m | K' => λ _, objs K' c end
  | KServiceAccount => match K' in Kind T' return Objs ServiceAccount → Objs T' with KServiceAccount => λ m, m | K' => λ _, objs K' c end
  | KRoleBinding => match K' in Kind T' return Objs RoleBinding → Objs T' with KRoleBinding => λ m, m | K' => λ _, objs K' c end
  | KRole => match K' in Kind T' return Objs Role → Objs T' with KRole => λ m, m | K' => λ _, objs K' c end
  | KNamespace => match K' in Kind T' return Objs KNamespaceObj → Objs T' with KNamespace => λ m, m | K' => λ _, objs K' c end
  | KEndpointSlice => match K' in Kind T' return Objs EndpointSlice → Objs T' with KEndpointSlice => λ m, m | K' => λ _, objs K' c end
  end m.

Definition set_objs {T} (K : Kind T) (m : Objs T) (c : Cluster) : Cluster :=
  {| cl_Sandbox := pick K m KSandbox c; cl_Template := pick K m KTemplate c;
     cl_AccessProfile := pick K m KAccessProfile c; cl_Session := pick K m KSession c;
     cl_Pod := pick K m KPod c; cl_PVC := pick K m KPVC c; cl_Secret := pick K m KSecret c;
     cl_NetPol := pick K m KNetPol c; cl_ServiceAccount := pick K m KServiceAccount c;
     cl_RoleBinding := pick K m KRoleBinding c; cl_Role := pick K m KRole c;
     cl_Namespace := pick K m KNamespace c; cl_EndpointSlice := pick K m KEndpointSlice c;
     cl_clock := cl_clock c; cl_environ := cl_environ c |}.

Definition put {T} (K : Kind T) (o : T) (c : Cluster) : Cluster :=
  set_objs K (<[okey K o := o]> (objs K c)) c.
Definition drop {T} (K : Kind T) (k : NamespacedName) (c : Cluster) : Cluster :=
  set_objs K (base.delete k (objs K c)) c.

Definition set_clock (t : Time) (c : Cluster) : Cluster :=
  {| cl_Sandbox := cl_Sandbox c; cl_Template := cl_Template c;
     cl_AccessProfile := cl_AccessProfile c; cl_Session := cl_Session c;
     cl_Pod := cl_Pod c; cl_PVC := cl_PVC c; cl_Secret := cl_Secret c;
     cl_NetPol := cl_NetPol c; cl_ServiceAccount := cl_ServiceAccount c;
     cl_RoleBinding := cl_RoleBinding c; cl_Role := cl_Role c;
     cl_Namespace := cl_Namespace c; cl_EndpointSlice := cl_EndpointSlice c;
     cl_clock := t; cl_environ := cl_environ c |}.

(** ** The world it presents *)

Definition lookup_obj {T} (K : Kind T) (c : Cluster) (k : NamespacedName) : option T :=
  match objs K c !! k with
  | Some o => if decide (okey K o = k) then Some o else None
  | None => None
  end.

Fixpoint assoc (l : list (string * string)) (n : string) : string :=
  match l with
  | [] => ""
  | (m, v) :: l => if String.eqb m n then v else assoc l n
  end.

Lemma lookup_obj_key T (K : Kind T) c k o : lookup_obj K c k = Some o → okey K o = k.
Proof. unfold lookup_obj. intros. repeat case_match; naive_solver. Qed.

#[export] Instance cluster_world : World Cluster := {|
  view := @lookup_obj;
  clock := cl_clock;
  environ := λ c, assoc (cl_environ c);
  view_key := lookup_obj_key;
|}.

Lemma objs_set {T T'} (K : Kind T) (K' : Kind T') m c : objs K' (set_objs K m c) = pick K m K' c.
Proof. destruct K'; reflexivity. Qed.

Lemma pick_same {T} (K : Kind T) m c : pick K m K c = m.
Proof. destruct K; reflexivity. Qed.

Lemma view_put_same {T} (K : Kind T) o c : view K (put K o c) (okey K o) = Some o.
Proof.
  simpl. unfold lookup_obj, put. rewrite objs_set, pick_same, lookup_insert_eq.
  by rewrite decide_True.
Qed.

Lemma view_drop_same {T} (K : Kind T) k c : view K (drop K k c) k = None.
Proof. simpl. unfold lookup_obj, drop. by rewrite objs_set, pick_same, lookup_delete_eq. Qed.

Lemma same_but_set {T} (K : Kind T) k m c :
  (∀ k', k' ≠ k → m !! k' = objs K c !! k') → same_but K k c (set_objs K m c).
Proof.
  intros Hm. split; [|done]. intros T' K' k' Hne. simpl. unfold lookup_obj.
  rewrite objs_set. destruct K, K'; simpl in *; try done; rewrite Hm; congruence.
Qed.

Lemma same_but_put {T} (K : Kind T) o c : same_but K (okey K o) c (put K o c).
Proof. apply same_but_set. intros k' Hne. by apply lookup_insert_ne. Qed.

Lemma same_but_drop {T} (K : Kind T) k c : same_but K k c (drop K k c).
Proof. apply same_but_set. intros k' Hne. by apply lookup_delete_ne. Qed.

(** ** The server *)

Definition notFound {A} : res A := Err (StatusError StatusReasonNotFound "not found").
Definition alreadyExists {A} : res A := Err (StatusError StatusReasonAlreadyExists "already exists").
Definition conflict {A} : res A := Err (StatusError StatusReasonConflict "conflict").
Definition refused {A} : res A := Err (StatusError StatusReasonOther "refused").

(** A write advances the resource version and leaves the rest as given. *)
Definition bump {T} (K : Kind T) (o : T) : T :=
  with_meta K (set_server (UID (meta K o)) (Generation (meta K o))
    (ResourceVersion (meta K o) + 1) (CreationTimestamp (meta K o))
    (DeletionTimestamp (meta K o)) (meta K o)) o.

Definition mark {T} (K : Kind T) (t : Time) (o : T) : T :=
  with_meta K (set_server (UID (meta K o)) (Generation (meta K o))
    (ResourceVersion (meta K o) + 1) (CreationTimestamp (meta K o)) (Some t) (meta K o)) o.

Definition fresh_object {T} (K : Kind T) (o : T) (c : Cluster) : T :=
  with_meta K (set_server ("uid-" +:+ Name (meta K o))%string 1 1 (cl_clock c) None (meta K o))
    (reset_status K o).

Definition listed {T} (K : Kind T) (lo : ListOptions) (c : Cluster) : list T :=
  List.filter (λ o, selected K lo o)
    (omap (lookup_obj K c) ((map_to_list (objs K c)).*1)).

Fixpoint zeros (n : nat) : string :=
  match n with O => "" | S n => String "000"%char (zeros n) end.

(** Stores [o] over the object at [k] if that is its key. *)
Definition replace {T} (K : Kind T) (k : NamespacedName) (o : T) (c : Cluster) : res T * Cluster :=
  if decide (okey K o = k) then (Ok (bump K o), put K (bump K o) c) else (refused, c).

Definition do_create {T} (K : Kind T) (o : T) (c : Cluster) : res T * Cluster :=
  match lookup_obj K c (okey K o) with
  | Some _ => (alreadyExists, c)
  | None => (Ok (fresh_object K o c), put K (fresh_object K o c) c)
  end.

Definition do_update {T} (K : Kind T) (o : T) (c : Cluster) : res T * Cluster :=
  match lookup_obj K c (okey K o) with
  | None => (notFound, c)
  | Some cur =>
    if ResourceVersion (meta K o) =? ResourceVersion (meta K cur) then
      let o' := bump K (with_status K cur o) in
      if bool_decide (is_Some (DeletionTimestamp (meta K cur)) ∧ Finalizers (meta K o) = [])
      then (Ok o', drop K (okey K o) c) else (Ok o', put K o' c)
    else (conflict, c)
  end.

Definition do_delete {T} (K : Kind T) (k : NamespacedName) (c : Cluster) : res unit * Cluster :=
  match lookup_obj K c k with
  | None => (notFound, c)
  | Some cur =>
    if decide (Finalizers (meta K cur) = []) then (Ok tt, drop K k c)
    else (Ok tt, put K (mark K (Z.max 0 (cl_clock c)) cur) c)
  end.

Definition do_patch {T} (K : Kind T) (k : NamespacedName) (f : T → T) (c : Cluster) : res T * Cluster :=
  match lookup_obj K c k with
  | None => (notFound, c)
  | Some cur => replace K k (with_status K cur (f cur)) c
  end.

Definition do_status_update {T} (K : Kind T) (o : T) (c : Cluster) : res T * Cluster :=
  match lookup_obj K c (okey K o) with
  | None => (notFound, c)
  | Some cur =>
    if ResourceVersion (meta K o) =? ResourceVersion (meta K cur)
    then replace K (okey K o) (with_status K o cur) c else (conflict, c)
  end.

Definition do_status_patch {T} (K : Kind T) (k : NamespacedName) (f : T → T) (c : Cluster) : res T * Cluster :=
  match lookup_obj K c k with
  | None => (notFound, c)
  | Some cur => replace K k (with_status K (f cur) cur) c
  end.

(** The cluster runs no programs: every request to the machine fails. *)
Definition no_machine {X} (o : os X) : X :=
  let e := TextError "not available" in
  match o in os X return X with
  | OUserHomeDir => Err e | OExecutable => Err e | OStat _ => Err e | OReadFile _ => Err e
  | OWriteFile _ _ _ => Err e | OMkdirAll _ _ => Err e | OOpen _ => Err e | OCreateTemp _ _ => Err e
  | OCopy _ _ => Err e | OChmod _ _ => Err e | OCloseFile _ => Err e | ORename _ _ => Err e
  | ORemove _ => tt | OStdinPipe => Err e | OStart _ => Err e | OWaitChild => WaitOther | OLookPath _ => Err e | OExec _ _ => e | OGetConfig => Err e | ONewClient => Err e | OManager _ => Err e
  | OHTTPDo _ _ _ => Err e
  | OListen _ => Err e | OAwaitCallback _ => TimedOut | OAwaitResult => TimedOut
  end.

Definition fake : Env Cluster := λ X e,
  match e in event X return Cluster → X * Cluster with
  | EGet K k => λ c, (match lookup_obj K c k with Some o => Ok o | None => notFound end, c)
  | EList K lo => λ c, (Ok (listed K lo c), c)
  | ECreate K o => do_create K o
  | EUpdate K o => do_update K o
  | EDelete K k => do_delete K k
  | EPatch K k f => do_patch K k f
  | EStatusUpdate K o => do_status_update K o
  | EStatusPatch K k f => do_status_patch K k f
  | ENow => λ c, (cl_clock c, c)
  | EGetenv n => λ c, (assoc (cl_environ c) n, c)
  | ERandRead n => λ c, (Ok (zeros n), c)
  | EGenerateKey => λ c, (Ok ("pub", "priv")%string, c)
  | EWait d => λ c, (None, set_clock (cl_clock c + Z.max 0 d) c)
  | EDial _ => λ c, (Ok tt, c)
  | EReject _ _ => λ c, (tt, c)
  | EAccept => λ c, (Ok tt, c)
  | EBridge => λ c, (tt, c)
  | ECloseUpstream => λ c, (tt, c)
  | EStartHeartbeat _ _ => λ c, (tt, c)
  | EStopHeartbeat _ => λ c, (tt, c)
  | EOS o => λ c, (no_machine o, c)
  end.

(** ** It conforms *)

Lemma okey_bump {T} (K : Kind T) o : okey K (bump K o) = okey K o.
Proof. unfold okey, bump. by rewrite meta_with_meta. Qed.

Lemma okey_with_status {T} (K : Kind T) s o : okey K (with_status K s o) = okey K o.
Proof. unfold okey. by rewrite meta_with_status. Qed.

Lemma bump_stored {T} (K : Kind T) o : stored_as K o (bump K o).
Proof. by eexists _, _. Qed.

Lemma elem_listed {T} (K : Kind T) lo c o :
  o ∈ listed K lo c ↔ view K c (okey K o) = Some o ∧ selected K lo o = true.
Proof.
  unfold listed. rewrite list_elem_of_In, List.filter_In, <- list_elem_of_In, list_elem_of_omap.
  split.
  - intros [(k & Hk & Ho) Hs]. split; [|done]. by rewrite (lookup_obj_key _ _ _ _ _ Ho).
  - intros [Ho Hs]. split; [|done]. exists (okey K o). split; [|done].
    simpl in Ho. unfold lookup_obj in Ho.
    destruct (objs K c !! okey K o) as [o'|] eqn:E; [|done].
    apply list_elem_of_fmap. exists (okey K o, o'). split; [done|]. by apply elem_of_map_to_list.
Qed.

Lemma NoDup_listed {T} (K : Kind T) lo c : NoDup (okey K <$> listed K lo c).
Proof.
  unfold listed. pose proof (NoDup_fst_map_to_list (objs K c)) as Hnd.
  induction ((map_to_list (objs K c)).*1) as [|k ks IH]; simpl; [constructor|].
  apply NoDup_cons in Hnd as [Hk Hnd]. specialize (IH Hnd).
  destruct (lookup_obj K c k) as [o|] eqn:Ho; [|done]. simpl.
  destruct (selected K lo o); [|done]. simpl. constructor; [|done].
  rewrite (lookup_obj_key _ _ _ _ _ Ho). intros Hin. apply list_elem_of_fmap in Hin as (o' & -> & Ho').
  apply list_elem_of_In, List.filter_In in Ho' as [Ho' _].
  apply list_elem_of_In, list_elem_of_omap in Ho' as (k' & Hk' & Hv).
  by rewrite (lookup_obj_key _ _ _ _ _ Hv) in Hk.
Qed.

Lemma clock_set {T} (K : Kind T) m c : cl_clock (set_objs K m c) = cl_clock c.
Proof. done. Qed.

Lemma replace_ok {T} (K : Kind T) k o c :
  cl_clock (replace K k o c).2 = cl_clock c ∧ same_but K k c (replace K k o c).2 ∧
  match (replace K k o c).1 with
  | Ok o' => stored_as K o o' ∧ view K (replace K k o c).2 k = Some o'
  | Err e => IsNotFound e = false
  end.
Proof.
  unfold replace. destruct (decide (okey K o = k)) as [<-|]; simpl; [|done].
  rewrite <- (okey_bump K o). split; [done|]. split; [apply same_but_put|].
  split; [apply bump_stored|]. apply view_put_same.
Qed.

Lemma same_but_id {T} (K : Kind T) k c : same_but K k c c.
Proof. by apply unchanged_same_but. Qed.

Lemma create_ok {T} (K : Kind T) o c :
  cl_clock (do_create K o c).2 = cl_clock c ∧
  create_spec K o c (do_create K o c).1 (do_create K o c).2.
Proof.
  unfold do_create. destruct (lookup_obj K c (okey K o)) as [o'|] eqn:E; simpl.
  - split; [done|]. split; [apply same_but_id|]. intros _. split; [simpl; rewrite E; eauto|done].
  - assert (okey K (fresh_object K o c) = okey K o) as Hk.
    { unfold okey, fresh_object. by rewrite meta_with_meta. }
    split; [done|]. rewrite <- Hk in E. unfold create_spec. rewrite <- Hk.
    split; [apply same_but_put|]. split; [done|]. split; [apply view_put_same|].
    by eexists _, _, _, _.
Qed.

Lemma update_ok {T} (K : Kind T) o c :
  cl_clock (do_update K o c).2 = cl_clock c ∧
  update_spec K o c (do_update K o c).1 (do_update K o c).2.
Proof.
  unfold do_update. destruct (lookup_obj K c (okey K o)) as [cur|] eqn:E; simpl.
  2:{ split; [done|]. split; [apply same_but_id|]. done. }
  destruct (Z.eqb_spec (ResourceVersion (meta K o)) (ResourceVersion (meta K cur))) as [Hrv|Hrv]; simpl.
  2:{ split; [done|]. split; [apply same_but_id|]. done. }
  set (o' := bump K (with_status K cur o)).
  assert (okey K o' = okey K o) as Hk by (unfold o'; by rewrite okey_bump, okey_with_status).
  assert (stored_as K (with_status K cur o) o') as Hst by apply bump_stored.
  destruct (bool_decide _) eqn:Hb; (split; [done|]); split.
  - apply same_but_drop.
  - exists cur. rewrite Hb. split; [done|]. split; [done|]. split; [done|]. apply view_drop_same.
  - rewrite <- Hk. apply same_but_put.
  - exists cur. rewrite Hb. split; [done|]. split; [done|]. split; [done|].
    rewrite <- Hk. apply view_put_same.
Qed.

Lemma delete_ok {T} (K : Kind T) k c :
  cl_clock (do_delete K k c).2 = cl_clock c ∧
  delete_spec K k c (do_delete K k c).1 (do_delete K k c).2.
Proof.
  unfold do_delete. destruct (lookup_obj K c k) as [cur|] eqn:E; simpl.
  2:{ split; [done|]. split; [apply same_but_id|]. done. }
  pose proof (lookup_obj_key _ _ _ _ _ E) as Hk.
  case_decide as Hf; (split; [done|]); split; simpl.
  - apply same_but_drop.
  - exists cur. split; [done|]. split; [left|intros _ _]; apply view_drop_same.
  - replace k with (okey K (mark K (Z.max 0 (cl_clock c)) cur)) by (unfold okey, mark; by rewrite meta_with_meta).
    apply same_but_put.
  - exists cur. split; [done|]. split; [|done]. right. exists (mark K (Z.max 0 (cl_clock c)) cur).
    split; [|eexists _, _, _; split; [|done]; apply Z.eqb_neq; unfold zeroTime, Second; lia].
    replace k with (okey K (mark K (Z.max 0 (cl_clock c)) cur)) by (unfold okey, mark; by rewrite meta_with_meta).
    apply view_put_same.
Qed.

Lemma patch_ok {T} (K : Kind T) k f c :
  cl_clock (do_patch K k f c).2 = cl_clock c ∧
  patch_spec K k f c (do_patch K k f c).1 (do_patch K k f c).2.
Proof.
  unfold do_patch. destruct (lookup_obj K c k) as [cur|] eqn:E.
  2:{ split; [done|]. split; [apply same_but_id|]. done. }
  destruct (replace_ok K k (with_status K cur (f cur)) c) as (Hc & Hsb & Hr).
  split; [done|]. split; [done|]. destruct (replace _ _ _ _).1; [|by rewrite Hr].
  exists cur. by destruct Hr.
Qed.

Lemma replace_status_only {T} (K : Kind T) k s cur c :
  view K c k = Some cur → status_only K k c (replace K k (with_status K s cur) c).2.
Proof.
  intros Hv. pose proof (replace_ok K k (with_status K s cur) c) as (_ & _ & Hr).
  unfold status_only. rewrite Hv. unfold replace in *.
  rewrite decide_True in * by (rewrite okey_with_status; by eapply view_key).
  destruct Hr as [Hst Hvw]. by exists s, (bump K (with_status K s cur)).
Qed.

Lemma status_update_ok {T} (K : Kind T) o c :
  cl_clock (do_status_update K o c).2 = cl_clock c ∧
  status_update_spec K o c (do_status_update K o c).1 (do_status_update K o c).2.
Proof.
  unfold do_status_update. destruct (lookup_obj K c (okey K o)) as [cur|] eqn:E.
  2:{ split; [done|]. split; [apply same_but_id|]. split; [apply status_only_refl|]. done. }
  destruct (Z.eqb_spec (ResourceVersion (meta K o)) (ResourceVersion (meta K cur))) as [Hrv|Hrv].
  2:{ split; [done|]. split; [apply same_but_id|]. split; [apply status_only_refl|]. done. }
  destruct (replace_ok K (okey K o) (with_status K o cur) c) as (Hc & Hsb & Hr).
  split; [done|]. split; [done|]. split; [by apply replace_status_only|].
  destruct (replace _ _ _ _).1; [|by rewrite Hr]. exists cur. by destruct Hr.
Qed.

Lemma status_patch_ok {T} (K : Kind T) k f c :
  cl_clock (do_status_patch K k f c).2 = cl_clock c ∧
  status_patch_spec K k f c (do_status_patch K k f c).1 (do_status_patch K k f c).2.
Proof.
  unfold do_status_patch. destruct (lookup_obj K c k) as [cur|] eqn:E.
  2:{ split; [done|]. split; [apply same_but_id|]. split; [apply status_only_refl|]. done. }
  destruct (replace_ok K k (with_status K (f cur) cur) c) as (Hc & Hsb & Hr).
  split; [done|]. split; [done|]. split; [by apply replace_status_only|].
  destruct (replace _ _ _ _).1; [|by rewrite Hr]. exists cur. by destruct Hr.
Qed.

Lemma zeros_length n : String.length (zeros n) = n.
Proof. induction n; simpl; congruence. Qed.

#[export] Instance fake_conforms : Conforms fake.
Proof.
  intros X e c. unfold api_spec. destruct e; simpl.
  - split; [lia|]. split; [apply unchanged_refl|]. simpl.
    by destruct (lookup_obj K c k) eqn:E.
  - split; [lia|]. split; [apply unchanged_refl|]. split; [apply elem_listed|apply NoDup_listed].
  - destruct (create_ok K o c) as [-> ?]. split; [lia|done].
  - destruct (update_ok K o c) as [-> ?]. split; [lia|done].
  - destruct (delete_ok K k c) as [-> ?]. split; [lia|done].
  - destruct (patch_ok K k f c) as [-> ?]. split; [lia|done].
  - destruct (status_update_ok K o c) as [-> ?]. split; [lia|done].
  - destruct (status_patch_ok K k f c) as [-> ?]. split; [lia|done].
  - split; [lia|]. done.
  - split; [lia|]. done.
  - split; [lia|]. split; [done|]. apply zeros_length.
  - split; [lia|]. done.
  - split; [lia|]. intros _. lia.
  - split; [lia|]. done.
  - split; [lia|]. done.
  - split; [lia|]. done.
  - split; [lia|]. done.
  - split; [lia|]. done.
  - split; [lia|]. done.
  - split; [lia|]. done.
  - split; [lia|]. done.
Qed.
