(* ===== verification/Libs.v ===== *)
(** * Functions of the Kubernetes libraries

    The functions of apimachinery and controller-runtime the controllers call,
    as parameters ([ApiMachinery]), and what their documentation promises
    ([ApiMachineryLaws]). [SetStatusCondition] is [meta.SetStatusCondition],
    the finalizer functions and [SetControllerReference] are
    [controllerutil]'s, [SemanticDeepEqual] is
    [equality.Semantic.DeepEqual] (which compares quantities by value and
    identifies nil and empty collections, as this model does), and
    [json_Marshal_template] is [json.Marshal] on a template spec, whose
    encoding is fixed by the library types inside it. *)

From S2P Require Import Prelude KubeTypes ApiTypes.
From Stdlib Require Import String.
From stdpp Require Import base gmap strings list.

Class ApiMachinery := {
  SetStatusCondition : list Condition → Condition → list Condition;
  ContainsFinalizer : list string → string → bool;
  AddFinalizer : list string → string → list string;
  RemoveFinalizer : list string → string → list string;
  SetControllerReference : Sandbox → ObjectMeta → res ObjectMeta;
  SemanticDeepEqual : ∀ T, EqDecision T → T → T → bool;
  json_Marshal_template : SandboxTemplateSpec → res string;
}.

Arguments SemanticDeepEqual {_ T _} a b.

(** The owner reference of a sandbox that controls an object. *)
Definition controllerRef (sb : Sandbox) : OwnerReference :=
  {| or_Kind := "Sandbox"; or_Name := Name sb; or_UID := UID sb; or_Controller := true |}.

Class ApiMachineryLaws (AM : ApiMachinery) : Prop := {
  (** The condition of that type is now the given one, every other one is
      as before. *)
  SetStatusCondition_same cs c :
    find_condition (SetStatusCondition cs c) (c_Type c) = Some c;
  SetStatusCondition_other cs c ty :
    ty ≠ c_Type c →
    find_condition (SetStatusCondition cs c) ty = find_condition cs ty;
  (** A condition of a type that is there is updated in place, another one is
      appended. *)
  SetStatusCondition_types cs c :
    c_Type <$> SetStatusCondition cs c =
    (if contains (c_Type <$> cs) (c_Type c) then c_Type <$> cs else (c_Type <$> cs) ++ [c_Type c]);
  ContainsFinalizer_spec fs f : ContainsFinalizer fs f = true ↔ f ∈ fs;
  AddFinalizer_spec fs f g : g ∈ AddFinalizer fs f ↔ g = f ∨ g ∈ fs;
  RemoveFinalizer_spec fs f g : g ∈ RemoveFinalizer fs f ↔ g ≠ f ∧ g ∈ fs;
  (** An object of the owner's namespace that nothing controls yet. *)
  SetControllerReference_fresh (sb : Sandbox) m :
    Namespace m = Namespace sb → OwnerReferences m = [] →
    SetControllerReference sb m = Ok (set_owners [controllerRef sb] m);
  SemanticDeepEqual_spec T (d : EqDecision T) (a b : T) :
    SemanticDeepEqual (T := T) a b = true ↔ a = b;
}.

(** ** A library that keeps the promises *)

Fixpoint set_condition (cs : list Condition) (c : Condition) : list Condition :=
  match cs with
  | [] => [c]
  | d :: cs' => if String.eqb (c_Type d) (c_Type c) then c :: cs' else d :: set_condition cs' c
  end.

Definition simpleMachinery : ApiMachinery := {|
  SetStatusCondition := set_condition;
  ContainsFinalizer := contains;
  AddFinalizer := λ fs f, if contains fs f then fs else fs ++ [f];
  RemoveFinalizer := λ fs f, List.filter (λ g, negb (String.eqb g f)) fs;
  SetControllerReference := λ sb m, Ok (set_owners [controllerRef sb] m);
  SemanticDeepEqual := λ T _ a b, bool_decide (a = b);
  json_Marshal_template := λ t, Ok (ts_Image t);
|}.

Lemma set_condition_same cs c : find_condition (set_condition cs c) (c_Type c) = Some c.
Proof.
  unfold find_condition. induction cs as [|d cs IH]; simpl.
  - by rewrite String.eqb_refl.
  - destruct (String.eqb_spec (c_Type d) (c_Type c)) as [Heq|Hne]; simpl.
    + by rewrite String.eqb_refl.
    + apply String.eqb_neq in Hne. by rewrite Hne.
Qed.

Lemma set_condition_other cs c ty :
  ty ≠ c_Type c → find_condition (set_condition cs c) ty = find_condition cs ty.
Proof.
  intros Hty. unfold find_condition. induction cs as [|d cs IH]; simpl.
  - destruct (String.eqb_spec (c_Type c) ty); [congruence|done].
  - destruct (String.eqb_spec (c_Type d) (c_Type c)) as [Heq|Hne]; simpl.
    + rewrite Heq. destruct (String.eqb_spec (c_Type c) ty); [congruence|done].
    + by rewrite IH.
Qed.

Lemma set_condition_types cs c :
  c_Type <$> set_condition cs c =
  (if contains (c_Type <$> cs) (c_Type c) then c_Type <$> cs else (c_Type <$> cs) ++ [c_Type c]).
Proof.
  induction cs as [|d cs IH]; [done|]. cbn [set_condition]. unfold contains in *.
  destruct (String.eqb_spec (c_Type d) (c_Type c)) as [Heq|Hne]; cbn [fmap list_fmap].
  - rewrite bool_decide_true by (rewrite Heq; left). by rewrite Heq.
  - rewrite IH. destruct (decide (c_Type c ∈ c_Type <$> cs)) as [Hin|Hin].
    + rewrite !bool_decide_true by (done || by right). done.
    + rewrite !bool_decide_false by (done || by intros [?|?]%elem_of_cons). done.
Qed.

#[export] Instance simpleMachinery_laws : ApiMachineryLaws simpleMachinery.
Proof.
  split; simpl.
  - apply set_condition_same.
  - apply set_condition_other.
  - apply set_condition_types.
  - apply contains_true.
  - intros fs f g. destruct (contains fs f) eqn:E.
    + apply contains_true in E. split; [by right|]. by intros [->|].
    + rewrite elem_of_app, list_elem_of_singleton. tauto.
  - intros fs f g. rewrite !list_elem_of_In, List.filter_In, negb_true_iff, String.eqb_neq.
    tauto.
  - done.
  - intros. apply bool_decide_eq_true.
Qed.
