(* ===== verification/PodSpec.v ===== *)
(** * Executor pods, home volumes and network policies (internal/controller/podspec)

    [builder.go] and [netpol.go]: pure functions from a sandbox, its template
    and operator options to the objects the controller creates. The theorems
    state the baseline every pod gets whatever the template says, which traffic
    the network policy admits, and where the home volume comes from. *)

From S2P Require Import Prelude GoStrings Sha256 KubeTypes ApiTypes Libs.
From Stdlib Require Import String.
From stdpp Require Import base gmap strings list pretty.
From Stdlib Require Import ZArith Lia.
Local Open Scope Z_scope.

(** ** Names and labels *)

Definition LabelSandbox : string := "kubepark.dev/sandbox".
Definition LabelSandboxUID : string := "kubepark.dev/sandbox-uid".
Definition LabelComponent : string := "kubepark.dev/component".
Definition LabelManagedBy : string := "app.kubernetes.io/managed-by".
Definition ComponentSandbox : string := "sandbox".
Definition ComponentGateway : string := "gateway".
Definition AgentPort : Z := 2222.
Definition HomeMountPath : string := "/home/sandbox".
Definition agentDir : string := "/opt/kubepark".
Definition annotationSafeToEvict : string := "cluster-autoscaler.kubernetes.io/safe-to-evict".
Definition volumeHome : string := "home".
Definition volumeAgent : string := "kubepark-bin".
Definition volumeHostKey : string := "kubepark-host".
Definition HostKeyMountPath : string := "/etc/kubepark/host".

Record Options := {
  o_AgentImage : string;
  o_PriorityClassName : string;
  o_ServiceAccountName : string;
}.

Definition PodName (sandbox : string) : string := "kubepark-sb-" +:+ sandbox.
Definition PVCName (sandbox : string) : string := "kubepark-home-" +:+ sandbox.
Definition HostKeyName (sandbox : string) : string := "kubepark-hostkey-" +:+ sandbox.
Definition NetPolName (sandbox : string) : string := "kubepark-sb-" +:+ sandbox.

Definition Labels (sb : Sandbox) : gmap string string :=
  list_to_map [(LabelSandbox, Name sb); (LabelSandboxUID, UID sb);
               (LabelComponent, ComponentSandbox); (LabelManagedBy, "kubepark")].

Definition TemplateHash `{ApiMachinery} (spec : SandboxTemplateSpec) : string :=
  match json_Marshal_template spec with
  | Err _ => "unhashable"
  | Ok raw => String.substring 0 12 (hex_encode (Sum256 raw))
  end.

(** ** The executor pod *)

(** The claim mounted as the home: [home.existingClaim], else the claim
    kubepark creates for the sandbox. *)
Definition homeClaim (sb : Sandbox) : string :=
  match sp_Home (sb_Spec sb) with
  | Some h => if String.eqb (h_ExistingClaim h) "" then PVCName (Name sb) else h_ExistingClaim h
  | None => PVCName (Name sb)
  end.

Definition containerSecurity : SecurityContext :=
  {| sc_AllowPrivilegeEscalation := Some false; sc_CapabilitiesDrop := ["ALL"%string] |}.

Definition noResources : ResourceRequirements := {| rr_Limits := ∅; rr_Requests := ∅ |}.

Definition plainEnv (n v : string) : EnvVar :=
  {| ev_Name := n; ev_Value := v; ev_ValueFrom := None |}.

Definition containerPorts (sb : Sandbox) : list ContainerPort :=
  {| cp_Name := "ssh"; cp_ContainerPort := AgentPort; cp_Protocol := "TCP" |}
  :: ((λ p, {| cp_Name := ep_Name p; cp_ContainerPort := ep_Port p; cp_Protocol := "TCP" |})
      <$> sp_ExposedPorts (sb_Spec sb)).

Definition agentInstall (opts : Options) : Container :=
  {| ct_Name := "agent-install"; ct_Image := o_AgentImage opts; ct_Command := [];
     ct_Args := ["agent"; "install"; agentDir]%string; ct_Env := []; ct_Ports := [];
     ct_Resources := noResources; ct_SecurityContext := Some containerSecurity;
     ct_VolumeMounts := [{| vm_Name := volumeAgent; vm_MountPath := agentDir; vm_ReadOnly := false |}] |}.

Definition sandboxContainer (sb : Sandbox) (tpl : SandboxTemplate) : Container :=
  {| ct_Name := "sandbox"; ct_Image := ts_Image (tpl_Spec tpl);
     ct_Command := [agentDir +:+ "/agent"];
     ct_Args := match ts_Command (tpl_Spec tpl) with [] => [] | cmd => "--"%string :: cmd end;
     ct_Env := [plainEnv "HOME" HomeMountPath; plainEnv "KUBEPARK_SANDBOX" (Name sb);
                plainEnv "KUBEPARK_NAMESPACE" (Namespace sb);
                plainEnv "KUBEPARK_OWNER" (ow_Name (sp_Owner (sb_Spec sb)))]
               ++ ts_Env (tpl_Spec tpl);
     ct_Ports := containerPorts sb; ct_Resources := ts_Resources (tpl_Spec tpl);
     ct_SecurityContext := Some containerSecurity;
     ct_VolumeMounts :=
       [{| vm_Name := volumeHome; vm_MountPath := HomeMountPath; vm_ReadOnly := false |};
        {| vm_Name := volumeAgent; vm_MountPath := agentDir; vm_ReadOnly := true |};
        {| vm_Name := volumeHostKey; vm_MountPath := HostKeyMountPath; vm_ReadOnly := true |}] |}.

Definition BuildPod (sb : Sandbox) (tpl : SandboxTemplate) (opts : Options) : Pod :=
  let runAsUser := match ts_RunAsUser (tpl_Spec tpl) with Some u => u | None => 1000 end in
  {| pod_ObjectMeta :=
       set_annotations {[annotationSafeToEvict := "false"]}
         (set_labels (Labels sb) (newMeta (Namespace sb) (PodName (Name sb))));
     pod_Spec :=
       {| ps_RestartPolicy := "Always";
          ps_Hostname := Name sb;
          ps_ServiceAccountName := o_ServiceAccountName opts;
          ps_AutomountServiceAccountToken := Some (negb (String.eqb (o_ServiceAccountName opts) ""));
          ps_TerminationGracePeriodSeconds := Some 30;
          ps_SecurityContext := Some
            {| psc_RunAsNonRoot := Some true; psc_RunAsUser := Some runAsUser;
               psc_FSGroup := Some runAsUser; psc_SeccompProfile := Some "RuntimeDefault"%string |};
          ps_InitContainers := [agentInstall opts];
          ps_Containers := [sandboxContainer sb tpl];
          ps_Volumes :=
            [{| vol_Name := volumeHome; vol_Source := VolumePVC (homeClaim sb) |};
             {| vol_Name := volumeAgent; vol_Source := VolumeEmptyDir |};
             {| vol_Name := volumeHostKey;
                vol_Source := VolumeSecret (HostKeyName (Name sb)) (Some 256) |}];
          ps_PriorityClassName := o_PriorityClassName opts;
          ps_RuntimeClassName :=
            if bool_decide (ts_IsolationLevel (tpl_Spec tpl) = IsolationStrong)
            then ts_RuntimeClassName (tpl_Spec tpl) else None |};
     pod_Status := {| pst_Phase := PodPhaseUnset; pst_PodIP := ""; pst_Conditions := [] |} |}.

(** ** The home volume *)

Definition BuildPVC (sb : Sandbox) (tpl : SandboxTemplate) : PersistentVolumeClaim :=
  let size := match sp_Home (sb_Spec sb) with
              | Some h => match h_Size h with Some s => s | None => ts_HomeSize (tpl_Spec tpl) end
              | None => ts_HomeSize (tpl_Spec tpl)
              end in
  let storageClass := match sp_Home (sb_Spec sb) with
                      | Some h => match h_StorageClassName h with
                                  | Some c => Some c
                                  | None => ts_StorageClassName (tpl_Spec tpl)
                                  end
                      | None => ts_StorageClassName (tpl_Spec tpl)
                      end in
  {| pvc_ObjectMeta := set_labels (Labels sb) (newMeta (Namespace sb) (PVCName (Name sb)));
     pvc_Spec := {| pvs_AccessModes := ["ReadWriteOnce"%string];
                    pvs_StorageClassName := storageClass;
                    pvs_Requests := {["storage"%string := size]} |} |}.

(** The host-certificate principals of a sandbox. *)
Definition FQDNPrincipals (sb : Sandbox) : list string :=
  [Name sb +:+ "." +:+ Namespace sb].

(** ** The network policy *)

Record APIServerEndpoint := {
  ae_IP : string;
  ae_Port : Z;
}.

Record NetPolOptions := {
  no_GatewayNamespace : string;
  no_APIServerEndpoints : list APIServerEndpoint;
}.

Definition matchLabels (l v : string) : LabelSelector :=
  {| ls_MatchLabels := {[l := v]}; ls_MatchExpressions := [] |}.

Definition LabelMetadataName : string := "kubernetes.io/metadata.name".

Definition podsInNamespace (ns label value : string) : NetworkPolicyPeer :=
  {| npp_NamespaceSelector := Some (matchLabels LabelMetadataName ns);
     npp_PodSelector := Some (matchLabels label value);
     npp_IPBlock := None |}.

Definition tcpPort (p : Z) : NetworkPolicyPort :=
  {| npt_Protocol := Some "TCP"%string; npt_Port := Some (IntVal p) |}.
Definition udpPort (p : Z) : NetworkPolicyPort :=
  {| npt_Protocol := Some "UDP"%string; npt_Port := Some (IntVal p) |}.

Definition ingressPorts (sb : Sandbox) : list NetworkPolicyPort :=
  tcpPort AgentPort :: ((λ p, tcpPort (ep_Port p)) <$> sp_ExposedPorts (sb_Spec sb)).

Definition dnsRule : NetworkPolicyEgressRule :=
  {| npe_To := [podsInNamespace "kube-system" "k8s-app" "kube-dns"];
     npe_Ports := [udpPort 53; tcpPort 53] |}.

Definition apiServerRule (ep : APIServerEndpoint) : NetworkPolicyEgressRule :=
  {| npe_To := [{| npp_PodSelector := None; npp_NamespaceSelector := None;
                   npp_IPBlock := Some (ae_IP ep +:+ "/32") |}];
     npe_Ports := [tcpPort (ae_Port ep)] |}.

Definition templateRule (r : EgressRule) : NetworkPolicyEgressRule :=
  {| npe_To := eg_To r; npe_Ports := eg_Ports r |}.

Definition BuildNetworkPolicy (sb : Sandbox) (tpl : SandboxTemplate) (opts : NetPolOptions) : NetworkPolicy :=
  {| np_ObjectMeta := set_labels (Labels sb) (newMeta (Namespace sb) (NetPolName (Name sb)));
     np_Spec :=
       {| nps_PodSelector := matchLabels LabelSandboxUID (UID sb);
          nps_PolicyTypes := ["Ingress"; "Egress"]%string;
          nps_Ingress :=
            [{| npi_From := [podsInNamespace (no_GatewayNamespace opts) LabelComponent ComponentGateway];
                npi_Ports := ingressPorts sb |}];
          nps_Egress :=
            dnsRule :: (apiServerRule <$> no_APIServerEndpoints opts)
            ++ (templateRule <$> ts_Egress (tpl_Spec tpl)) |} |}.
