(* ===== verification/PodPolicy.v ===== *)
(** * What the built pods and policies mean

    Theorems about [BuildPod] and [BuildNetworkPolicy] of PodSpec.v: the
    security baseline that no template can lift, and the traffic the policy
    admits, by the documented meaning of a Kubernetes NetworkPolicy. *)

From S2P Require Import Prelude GoStrings KubeTypes ApiTypes PodSpec.
From Stdlib Require Import String.
From stdpp Require Import base gmap strings list fin_maps.
From Stdlib Require Import ZArith Lia.
Local Open Scope Z_scope.

(** ** The meaning of a network policy *)

(** [matchExpressions]: a key, an operator and values. *)
Definition expression_matches (l : gmap string string) (e : string * string * list string) : bool :=
  let '(key, op, values) := e in
  match l !! key with
  | Some v => if String.eqb op "In" then contains values v
              else if String.eqb op "NotIn" then negb (contains values v)
              else String.eqb op "Exists"
  | None => String.eqb op "NotIn" || String.eqb op "DoesNotExist"
  end.

Definition selector_matches (s : LabelSelector) (l : gmap string string) : bool :=
  bool_decide (ls_MatchLabels s ⊆ l) && forallb (expression_matches l) (ls_MatchExpressions s).

(** A pod at the other end of a connection. *)
Record PeerPod := {
  pp_Labels : gmap string string;
  pp_Namespace : string;
  pp_NamespaceLabels : gmap string string;
}.

(** A peer that selects pods; a peer with an address block selects none. *)
Definition peer_matches (policyNamespace : string) (p : PeerPod) (peer : NetworkPolicyPeer) : bool :=
  match npp_IPBlock peer with
  | Some _ => false
  | None =>
    match npp_NamespaceSelector peer with
    | Some s => selector_matches s (pp_NamespaceLabels p)
    | None => String.eqb (pp_Namespace p) policyNamespace
    end
    && match npp_PodSelector peer with
       | Some s => selector_matches s (pp_Labels p)
       | None => true
       end
  end.

Definition port_matches (proto : string) (port : Z) (p : NetworkPolicyPort) : bool :=
  String.eqb (default "TCP" (npt_Protocol p))%string proto
  && match npt_Port p with
     | None => true
     | Some (IntVal i) => i =? port
     | Some (StrVal _) => false
     end.

(** An empty list of peers or ports stands for all of them. *)
Definition any_or {A} (f : A → bool) (l : list A) : bool :=
  match l with [] => true | _ => existsb f l end.

Definition admits_ingress (np : NetworkPolicy) (src : PeerPod) (proto : string) (port : Z) : bool :=
  existsb (λ rule, any_or (peer_matches (Namespace np) src) (npi_From rule)
                   && any_or (port_matches proto port) (npi_Ports rule)) (nps_Ingress (np_Spec np)).

Definition admits_egress (np : NetworkPolicy) (dst : PeerPod) (proto : string) (port : Z) : bool :=
  existsb (λ rule, any_or (peer_matches (Namespace np) dst) (npe_To rule)
                   && any_or (port_matches proto port) (npe_Ports rule)) (nps_Egress (np_Spec np)).

(** The policy applies to a pod of its namespace that its selector matches. *)
Definition applies_to (np : NetworkPolicy) (pod : Pod) : bool :=
  String.eqb (Namespace np) (Namespace pod) && selector_matches (nps_PodSelector (np_Spec np)) (mLabels pod).

(** ** Selectors and ports of the built policy *)

Lemma matchLabels_spec l v m : selector_matches (matchLabels l v) m = true ↔ m !! l = Some v.
Proof.
  unfold selector_matches, matchLabels. simpl. rewrite andb_true_r, bool_decide_eq_true.
  apply map_singleton_subseteq_l.
Qed.

Lemma podsInNamespace_spec pns p ns l v :
  peer_matches pns p (podsInNamespace ns l v) = true ↔
  pp_NamespaceLabels p !! LabelMetadataName = Some ns ∧ pp_Labels p !! l = Some v.
Proof. unfold peer_matches. simpl. by rewrite andb_true_iff, !matchLabels_spec. Qed.

Lemma tcpPort_spec proto port p : port_matches proto port (tcpPort p) = true ↔ proto = "TCP"%string ∧ port = p.
Proof.
  change (String.eqb "TCP" proto && (p =? port) = true ↔ proto = "TCP"%string ∧ port = p).
  rewrite andb_true_iff, String.eqb_eq, Z.eqb_eq. naive_solver.
Qed.

Lemma udpPort_spec proto port p : port_matches proto port (udpPort p) = true ↔ proto = "UDP"%string ∧ port = p.
Proof.
  change (String.eqb "UDP" proto && (p =? port) = true ↔ proto = "UDP"%string ∧ port = p).
  rewrite andb_true_iff, String.eqb_eq, Z.eqb_eq. naive_solver.
Qed.

Lemma ingressPorts_spec sb proto port :
  any_or (port_matches proto port) (ingressPorts sb) = true ↔
  proto = "TCP"%string ∧ (port = AgentPort ∨ port ∈ ep_Port <$> sp_ExposedPorts (sb_Spec sb)).
Proof.
  unfold any_or, ingressPorts. cbn [existsb]. rewrite orb_true_iff, tcpPort_spec, existsb_exists.
  setoid_rewrite <- list_elem_of_In. split.
  - intros [[-> ->]|(p & Hin & Hp)]; [auto|]. apply list_elem_of_fmap in Hin as (e & -> & He).
    apply tcpPort_spec in Hp as [-> ->]. split; [done|]. right. apply list_elem_of_fmap. eauto.
  - intros [-> [->|Hin]]; [by left|]. right. apply list_elem_of_fmap in Hin as (e & -> & He).
    exists (tcpPort (ep_Port e)). split; [apply list_elem_of_fmap; eauto|]. by apply tcpPort_spec.
Qed.

Lemma Labels_uid sb : Labels sb !! LabelSandboxUID = Some (UID sb).
Proof. done. Qed.

(** The egress rule for one API server endpoint admits no pod by its labels. *)
Lemma apiServerRule_no_pod ns dst proto port eps :
  existsb (λ rule, any_or (peer_matches ns dst) (npe_To rule)
                   && any_or (port_matches proto port) (npe_Ports rule)) (apiServerRule <$> eps) = false.
Proof. induction eps as [|e eps IH]; simpl; [done|]. apply IH. Qed.

(** ** The theorems *)

(** Whatever the template, the pod of a sandbox runs as a non-root user under
    the runtime's default seccomp profile, every container of it drops all
    capabilities and forbids privilege escalation, a service account token is
    mounted exactly when the sandbox has a service account, and the only
    secret it mounts is its own host key, readable by its owner alone. *)
Theorem pod_baseline sb tpl opts :
  let ps := pod_Spec (BuildPod sb tpl opts) in
  (∃ sc, ps_SecurityContext ps = Some sc ∧ psc_RunAsNonRoot sc = Some true ∧
     psc_SeccompProfile sc = Some "RuntimeDefault"%string) ∧
  (∀ c, c ∈ ps_InitContainers ps ++ ps_Containers ps →
     ∃ sc, ct_SecurityContext c = Some sc ∧ sc_AllowPrivilegeEscalation sc = Some false ∧
       "ALL"%string ∈ sc_CapabilitiesDrop sc) ∧
  (ps_AutomountServiceAccountToken ps = Some true ↔ ps_ServiceAccountName ps ≠ ""%string) ∧
  (∀ v secret mode, v ∈ ps_Volumes ps → vol_Source v = VolumeSecret secret mode →
     secret = HostKeyName (Name sb) ∧ mode = Some 256).
Proof.
  simpl. split; [eauto|]. split; [|split].
  - intros c Hc. rewrite !elem_of_cons, elem_of_nil in Hc.
    destruct Hc as [->|[->|[]]]; eexists; (split; [done|]); (split; [done|]); left.
  - destruct (String.eqb_spec (o_ServiceAccountName opts) "") as [->|Hne]; naive_solver.
  - intros v secret mode Hv Hs. rewrite !elem_of_cons, elem_of_nil in Hv.
    destruct Hv as [->|[->|[->|[]]]]; simpl in Hs; naive_solver.
Qed.

(** C35. Nothing reaches a sandbox's pod but gateway pods, and those only on the
    agent's port and the ports the sandbox exposes, over TCP. *)
Theorem ingress_only_from_gateway sb tpl opts src proto port :
  admits_ingress (BuildNetworkPolicy sb tpl opts) src proto port = true ↔
  pp_NamespaceLabels src !! LabelMetadataName = Some (no_GatewayNamespace opts) ∧
  pp_Labels src !! LabelComponent = Some ComponentGateway ∧
  proto = "TCP"%string ∧ (port = AgentPort ∨ port ∈ ep_Port <$> sp_ExposedPorts (sb_Spec sb)).
Proof.
  unfold admits_ingress. cbn [nps_Ingress np_Spec BuildNetworkPolicy existsb npi_From npi_Ports].
  rewrite orb_false_r, andb_true_iff, ingressPorts_spec. unfold any_or at 1. cbn [existsb].
  rewrite orb_false_r, podsInNamespace_spec. tauto.
Qed.

(** A template without egress rules lets a sandbox talk to no pod in the
    cluster but the DNS servers, on port 53. *)
Theorem egress_default_dns_only sb tpl opts dst proto port :
  ts_Egress (tpl_Spec tpl) = [] →
  admits_egress (BuildNetworkPolicy sb tpl opts) dst proto port = true ↔
  pp_NamespaceLabels dst !! LabelMetadataName = Some "kube-system"%string ∧
  pp_Labels dst !! "k8s-app"%string = Some "kube-dns"%string ∧
  (proto = "UDP"%string ∨ proto = "TCP"%string) ∧ port = 53.
Proof.
  intros He. unfold admits_egress. cbn [nps_Egress np_Spec BuildNetworkPolicy existsb].
  rewrite He, fmap_nil, app_nil_r, apiServerRule_no_pod, orb_false_r, andb_true_iff.
  unfold any_or. cbn [npe_To npe_Ports dnsRule existsb].
  rewrite !orb_false_r, podsInNamespace_spec, orb_true_iff, udpPort_spec, tcpPort_spec. naive_solver.
Qed.

(** Among the pods of a namespace the policy of a sandbox applies to the pods
    of that sandbox and to no other sandbox's. *)
Theorem policy_selects_own_pod (sb : Sandbox) tpl opts (sb' : Sandbox) tpl' opts' :
  Namespace sb' = Namespace sb →
  applies_to (BuildNetworkPolicy sb tpl opts) (BuildPod sb' tpl' opts') = true ↔ UID sb' = UID sb.
Proof.
  intros Hns. unfold applies_to. cbn [Namespace]. rewrite andb_true_iff, String.eqb_eq.
  change (nps_PodSelector _) with (matchLabels LabelSandboxUID (UID sb)). rewrite matchLabels_spec.
  change (mLabels (BuildPod sb' tpl' opts')) with (Labels sb'). rewrite Labels_uid.
  split; [by intros [_ [= ?]]|]. intros ->. by split.
Qed.
