(* ===== verification/SSHCA.v ===== *)
(** * The SSH certificate authority (internal/sshca, internal/gateway/signer.go)

    Key generation, signing and checking of SSH certificates. The wire formats
    and the cryptography are [golang.org/x/crypto/ssh]: the class [SSHLib] has
    the functions the code calls and [SSHLaws] what their documentation
    promises. The theorems show that [CheckUserCert] accepts a certificate
    exactly when it is a user certificate of the expected authority for the
    expected principal inside its validity window, without a critical option
    other than [source-address] (which the library leaves to its caller, and
    nobody here looks at), and that what
    [SignUserCert] issues is accepted for its principal only, from one minute
    before issuance until it expires. *)

From S2P Require Import Prelude GoStrings Utf8 Sha256 KubeTypes ApiTypes Client.
From Stdlib Require Import String Ascii.
From stdpp Require Import base gmap strings list pretty.
From Stdlib Require Import ZArith Lia.
Local Open Scope Z_scope.

(** ** The library *)

Class SSHTypes := {
  PublicKey : Type;
  Signer : Type;
  PemBlock : Type;
  Signature : Type;
}.

Record Certificate `{SSHTypes} := {
  cert_Key : PublicKey;
  cert_Serial : Z;
  cert_CertType : Z;
  cert_KeyId : string;
  cert_ValidPrincipals : list string;
  cert_ValidAfter : Z;
  cert_ValidBefore : Z;
  cert_CriticalOptions : gmap string string;
  cert_Extensions : gmap string string;
  cert_SignatureKey : option PublicKey;
  cert_Signature : option Signature;
}.

Definition UserCert : Z := 1.
Definition HostCert : Z := 2.
Definition CertTimeInfinity : Z := 2 ^ 64 - 1.

Class SSHLib := {
  ssh_types :: SSHTypes;
  key_Marshal : PublicKey → string;
  MarshalPrivateKey : string → string → res PemBlock;
  pem_EncodeToMemory : PemBlock → string;
  NewPublicKey : string → res PublicKey;
  MarshalAuthorizedKey : PublicKey → string;
  ParsePrivateKey : string → res Signer;
  ParseAuthorizedKey : string → res PublicKey;
  (** A certificate is itself a public key; [as_certificate] is the type
      assertion [key.( *ssh.Certificate )]. *)
  cert_as_key : Certificate → PublicKey;
  as_certificate : PublicKey → option Certificate;
  signer_PublicKey : Signer → PublicKey;
  (** [cert.SignCert]: the entropy it draws, the authority, the certificate. *)
  cert_SignCert : string → Signer → Certificate → res Certificate;
  (** [CertChecker.CheckCert] with the given clock, no revocation list and no
      supported critical options. *)
  CheckCert : Time → string → Certificate → option error;
  (** The signature on a certificate verifies under its signature key. *)
  signature_verifies : Certificate → bool;
  (** A signer that presents the certificate. *)
  NewCertSigner : Certificate → Signer → res Signer;
}.

(** The window check of the library: the bounds are seconds since the epoch,
    read as [int64]. *)
Definition in_window `{SSHTypes} (now : Time) (c : Certificate) : Prop :=
  0 <= int64_wrap (cert_ValidAfter c) <= time_Unix now ∧
  (cert_ValidBefore c = CertTimeInfinity ∨
   (0 <= int64_wrap (cert_ValidBefore c) ∧ time_Unix now < int64_wrap (cert_ValidBefore c))).

(** The critical options [CertChecker.CheckCert] lets through when the checker
    lists none as supported: a certificate that carries any other option is
    refused, but [source-address] is skipped, because the library leaves it to
    [serverAuthenticate], which reads it from the permissions the key callback
    returns. *)
Definition options_skipped `{SSHTypes} (c : Certificate) : Prop :=
  map_Forall (λ o _, o = "source-address") (cert_CriticalOptions c).

(** The certificate without its signature. *)
Definition unsigned `{SSHTypes} (c : Certificate) : Certificate :=
  {| cert_Key := cert_Key c; cert_Serial := cert_Serial c; cert_CertType := cert_CertType c;
     cert_KeyId := cert_KeyId c; cert_ValidPrincipals := cert_ValidPrincipals c;
     cert_ValidAfter := cert_ValidAfter c; cert_ValidBefore := cert_ValidBefore c;
     cert_CriticalOptions := cert_CriticalOptions c; cert_Extensions := cert_Extensions c;
     cert_SignatureKey := None; cert_Signature := None |}.

Class SSHLaws (L : SSHLib) : Prop := {
  ParseAuthorizedKey_Marshal k :
    ParseAuthorizedKey (MarshalAuthorizedKey k) = Ok k;
  as_certificate_as_key c : as_certificate (cert_as_key c) = Some c;
  SignCert_signs e ca c c' :
    cert_SignCert e ca c = Ok c' →
    unsigned c' = unsigned c ∧ cert_SignatureKey c' = Some (signer_PublicKey ca)
    ∧ signature_verifies c' = true;
  CheckCert_spec now principal c :
    CheckCert now principal c = None ↔
    options_skipped c ∧
    (cert_ValidPrincipals c = [] ∨ principal ∈ cert_ValidPrincipals c) ∧
    in_window now c ∧ signature_verifies c = true;
  (** The authorized-keys format is base64 text. *)
  MarshalAuthorizedKey_text k : valid_utf8 (MarshalAuthorizedKey k) = true;
  (** An error exactly when the certificate is for another key. *)
  NewCertSigner_spec c s :
    match NewCertSigner c s with
    | Ok s' => key_Marshal (cert_Key c) = key_Marshal (signer_PublicKey s) ∧ signer_PublicKey s' = cert_as_key c
    | Err _ => key_Marshal (cert_Key c) ≠ key_Marshal (signer_PublicKey s)
    end;
}.

Section sshca.
Context `{SSH : SSHLib}.

(** ** Keys *)

Record KeyPair := {
  PrivatePEM : string;
  PublicAuthorized : string;
}.

Definition pemEncode (block : PemBlock) : string := pem_EncodeToMemory block.

Definition GenerateKeyPair (comment : string) : prog (res KeyPair) :=
  r ← call EGenerateKey;
  match r with
  | Err e => Ret (Err (WrapError "generate ed25519 key" e))
  | Ok (pub, priv) =>
    match MarshalPrivateKey priv comment with
    | Err e => Ret (Err (WrapError "marshal private key" e))
    | Ok pemBlock =>
      match NewPublicKey pub with
      | Err e => Ret (Err (WrapError "convert public key" e))
      | Ok sshPub =>
        Ret (Ok {| PrivatePEM := pemEncode pemBlock;
                   PublicAuthorized := MarshalAuthorizedKey sshPub |})
      end
    end
  end.

Definition ParseSigner (privatePEM : string) : res Signer :=
  match ParsePrivateKey privatePEM with
  | Err e => Err (WrapError "parse private key" e)
  | Ok s => Ok s
  end.

Definition ParsePublicKey (authorized : string) : res PublicKey :=
  match ParseAuthorizedKey authorized with
  | Err e => Err (WrapError "parse public key" e)
  | Ok k => Ok k
  end.

(** [binary.BigEndian.Uint64]. *)
Definition BigEndian_Uint64 (b : string) : Z :=
  foldl (λ acc v, 256 * acc + v) 0 (byte_values b).

Lemma BigEndian_Uint64_bound b n :
  String.length b = n → 0 <= BigEndian_Uint64 b < 256 ^ Z.of_nat n.
Proof.
  intros <-. unfold BigEndian_Uint64.
  assert (∀ l acc k, 0 <= acc < 256 ^ Z.of_nat k → Forall (λ v, 0 <= v < 256) l →
            0 <= foldl (λ acc v, 256 * acc + v) acc l < 256 ^ Z.of_nat (k + length l)) as Hgen.
  { intros l. induction l as [|v l IH]; intros acc k Hacc Hl; simpl; [by rewrite Nat.add_0_r|].
    apply Forall_cons in Hl as [Hv Hl]. rewrite Nat.add_succ_r, <- Nat.add_succ_l.
    apply IH; [|done]. rewrite Nat2Z.inj_succ, Z.pow_succ_r by lia. lia. }
  pose proof (Hgen (byte_values b) 0 0%nat) as Hb. simpl in Hb.
  rewrite byte_values_length in Hb. apply Hb; [lia|apply byte_values_bound].
Qed.

Definition NewSerial : prog (res Z) :=
  r ← call (ERandRead 8);
  match r with
  | Err e => Ret (Err (WrapError "generate serial" e))
  | Ok b => Ret (Ok (BigEndian_Uint64 b))
  end.

(** ** Signing *)

Definition validBefore (now : Time) (validFor : Duration) : Z :=
  if validFor <=? 0 then CertTimeInfinity
  else uint64_wrap (time_Unix (time_Add now validFor)).

Definition validAfter (now : Time) : Z := uint64_wrap (time_Unix (time_Add now (- Minute))).

(** [cert.SignCert(rand.Reader, ca)] with its error wrapped. *)
Definition signCert (what : string) (ca : Signer) (c : Certificate) : prog (res Certificate) :=
  r ← call (ERandRead 32);
  match r with
  | Err e => Ret (Err (WrapError what e))
  | Ok entropy =>
    match cert_SignCert entropy ca c with
    | Err e => Ret (Err (WrapError what e))
    | Ok c' => Ret (Ok c')
    end
  end.

Definition SignHostCert (ca : Signer) (hostPub : PublicKey) (principals : list string)
    (validFor : Duration) (now : Time) : prog (res Certificate) :=
  serial ←? NewSerial;
  match principals with
  | [] => Ret (Err (TextError "panic: index out of range [0] with length 0"))
  | keyId :: _ =>
    signCert "sign host certificate" ca
      {| cert_Key := hostPub; cert_Serial := serial; cert_CertType := HostCert;
         cert_KeyId := keyId; cert_ValidPrincipals := principals;
         cert_ValidAfter := validAfter now; cert_ValidBefore := validBefore now validFor;
         cert_CriticalOptions := ∅; cert_Extensions := ∅;
         cert_SignatureKey := None; cert_Signature := None |}
  end.

Definition SignUserCert (ca : Signer) (userPub : PublicKey) (principal : string)
    (validFor : Duration) (now : Time) : prog (res Certificate) :=
  if String.eqb principal "" then
    Ret (Err (TextError "refusing to sign a certificate without a principal"))
  else
    serial ←? NewSerial;
    signCert "sign user certificate" ca
      {| cert_Key := userPub; cert_Serial := serial; cert_CertType := UserCert;
         cert_KeyId := principal; cert_ValidPrincipals := [principal];
         cert_ValidAfter := validAfter now; cert_ValidBefore := validBefore now validFor;
         cert_CriticalOptions := ∅;
         cert_Extensions := list_to_map [("permit-pty"%string, ""%string);
           ("permit-port-forwarding"%string, ""%string); ("permit-agent-forwarding"%string, ""%string)];
         cert_SignatureKey := None; cert_Signature := None |}.

(** ** Checking *)

(** Comparison by wire encoding; a missing key equals nothing. *)
Definition keysEqual (a b : option PublicKey) : bool :=
  match a, b with
  | Some a, Some b => String.eqb (key_Marshal a) (key_Marshal b)
  | _, _ => false
  end.

(** [None] is Go's nil error: the certificate is accepted. *)
Definition CheckUserCert (cert : option Certificate) (caPub : option PublicKey)
    (principal : string) (now : Time) : option error :=
  match cert with
  | None => Some (TextError "no certificate presented")
  | Some cert =>
    if negb (cert_CertType cert =? UserCert) then
      Some (TextError ("certificate is not a user certificate (type "
                       +:+ pretty (cert_CertType cert) +:+ ")"))
    else if bool_decide (cert_ValidPrincipals cert = []) then
      Some (TextError "certificate has no principals")
    else if negb (keysEqual (cert_SignatureKey cert) caPub) then
      Some (TextError "certificate not signed by the expected CA")
    else match CheckCert now principal cert with
         | Some e => Some (WrapError "certificate check failed" e)
         | None => None
         end
  end.

(** ** The gateway's signer *)

Record GatewaySigner := {
  sg_ca : Signer;
  sg_ttl : Duration;
}.

Definition NewSigner (userCAPrivPEM : string) (ttl : Duration) : res GatewaySigner :=
  match ParseSigner userCAPrivPEM with
  | Err e => Err (WrapError "parse user CA" e)
  | Ok ca => Ok {| sg_ca := ca; sg_ttl := if ttl <=? 0 then 8 * Hour else ttl |}
  end.

Definition Sign (s : GatewaySigner) (pubAuthorized principal : string) : prog (res string) :=
  match ParsePublicKey pubAuthorized with
  | Err e => Ret (Err (WrapError "parse public key" e))
  | Ok pub =>
    now ← call ENow;
    cert ←? SignUserCert (sg_ca s) pub principal (sg_ttl s) now;
    Ret (Ok (MarshalAuthorizedKey (cert_as_key cert)))
  end.

End sshca.

(** ** What is accepted *)

Section proofs.
Context `{SSH : SSHLib} `{!SSHLaws SSH}.

Lemma keysEqual_spec a b :
  keysEqual a b = true ↔ ∃ x y, a = Some x ∧ b = Some y ∧ key_Marshal x = key_Marshal y.
Proof.
  unfold keysEqual. destruct a as [x|], b as [y|]; try naive_solver.
  rewrite String.eqb_eq. naive_solver.
Qed.

Lemma CheckUserCert_spec cert caPub principal now :
  CheckUserCert cert caPub principal now = None ↔
  ∃ c, cert = Some c ∧ cert_CertType c = UserCert ∧
    principal ∈ cert_ValidPrincipals c ∧
    keysEqual (cert_SignatureKey c) caPub = true ∧
    signature_verifies c = true ∧ in_window now c ∧ options_skipped c.
Proof.
  destruct cert as [c|]; simpl; [|naive_solver].
  destruct (Z.eqb_spec (cert_CertType c) UserCert) as [Ht|Ht]; simpl.
  2:{ split; [done|]. intros (c' & [= <-] & ? & _). done. }
  case_bool_decide as Hp.
  { split; [done|]. intros (c' & [= <-] & _ & Hin & _). rewrite Hp in Hin.
    by apply not_elem_of_nil in Hin. }
  destruct (keysEqual (cert_SignatureKey c) caPub) eqn:Hk; simpl.
  2:{ split; [done|]. intros (c' & [= <-] & _ & _ & ? & _). congruence. }
  destruct (CheckCert now principal c) as [e|] eqn:Hc.
  - split; [done|]. intros (c' & [= <-] & _ & Hin & _ & Hs & Hw & Ho).
    assert (CheckCert now principal c = None) by (apply CheckCert_spec; auto). congruence.
  - apply CheckCert_spec in Hc as (Ho & Hin & Hw & Hs). split; [|done]. intros _.
    exists c. destruct Hin as [|Hin]; [done|]. auto 10.
Qed.

Context {W : Type} `{World W}.

Lemma wp_NewSerial w :
  wp NewSerial (λ r w', unchanged w w' ∧
     match r with Ok s => 0 <= s < 2 ^ 64 | Err _ => True end) w.
Proof.
  apply wp_bind, wp_call. intros [b|e] w' [_ [Hun Hb]]; simpl; [|done].
  split; [done|]. exact (BigEndian_Uint64_bound b 8 Hb).
Qed.

Lemma wp_signCert what ca c w :
  wp (signCert what ca c) (λ r w', unchanged w w' ∧
     match r with
     | Ok c' => unsigned c' = unsigned c ∧ cert_SignatureKey c' = Some (signer_PublicKey ca)
                ∧ signature_verifies c' = true
     | Err _ => True
     end) w.
Proof.
  apply wp_bind, wp_call. intros [b|e] w' [_ [Hun _]]; cbn beta iota; [|done].
  destruct (cert_SignCert b ca c) as [c'|e] eqn:E; [|done].
  split; [done|]. by eapply SignCert_signs.
Qed.

(** The fields a signature does not touch. *)
Lemma unsigned_fields (c c' : Certificate) :
  unsigned c = unsigned c' →
  cert_CertType c = cert_CertType c' ∧ cert_ValidPrincipals c = cert_ValidPrincipals c' ∧
  cert_ValidAfter c = cert_ValidAfter c' ∧ cert_ValidBefore c = cert_ValidBefore c' ∧
  cert_CriticalOptions c = cert_CriticalOptions c' ∧ cert_Key c = cert_Key c'.
Proof. unfold unsigned. intros [=]. auto 10. Qed.

Lemma no_options_skipped (c : Certificate) : cert_CriticalOptions c = ∅ → options_skipped c.
Proof. unfold options_skipped. intros ->. apply map_Forall_empty. Qed.

(** What a successful [SignUserCert] and [SignHostCert] return. *)
Definition issued (ca : Signer) (ty : Z) (pub : PublicKey) (principals : list string)
    (validFor : Duration) (now : Time) (c : Certificate) : Prop :=
  cert_CertType c = ty ∧ cert_Key c = pub ∧ cert_ValidPrincipals c = principals ∧
  cert_ValidAfter c = validAfter now ∧ cert_ValidBefore c = validBefore now validFor ∧
  cert_CriticalOptions c = ∅ ∧ cert_SignatureKey c = Some (signer_PublicKey ca) ∧
  signature_verifies c = true.

Lemma wp_SignUserCert ca pub principal validFor now w :
  wp (SignUserCert ca pub principal validFor now)
     (λ r w', unchanged w w' ∧
        match r with
        | Ok c => principal ≠ ""%string ∧ issued ca UserCert pub [principal] validFor now c
        | Err _ => True
        end) w.
Proof.
  unfold SignUserCert. destruct (String.eqb_spec principal "") as [->|Hne]; [done|].
  apply wp_ebind. eapply wp_mono; [apply wp_NewSerial|]. intros [s|e] w1 [Hun _]; [|done].
  eapply wp_mono; [apply wp_signCert|]. intros [c|e] w2 [Hun2 Hc];
    (split; [by eapply unchanged_trans|]); [|done]. split; [done|].
  destruct Hc as (Hu & Hk & Hs). apply unsigned_fields in Hu. unfold issued. naive_solver.
Qed.

Lemma wp_SignHostCert ca pub principals validFor now w :
  wp (SignHostCert ca pub principals validFor now)
     (λ r w', unchanged w w' ∧
        match r with
        | Ok c => issued ca HostCert pub principals validFor now c
        | Err _ => True
        end) w.
Proof.
  apply wp_ebind. eapply wp_mono; [apply wp_NewSerial|]. intros [s|e] w1 [Hun _]; [|done].
  destruct principals as [|p ps]; [done|].
  eapply wp_mono; [apply wp_signCert|]. intros [c|e] w2 [Hun2 Hc];
    (split; [by eapply unchanged_trans|]); [|done].
  destruct Hc as (Hu & Hk & Hs). apply unsigned_fields in Hu. unfold issued. naive_solver.
Qed.

(** *** The validity window of an issued certificate *)

(** Instants for which the seconds fit the [int64] the check reads them as. *)
Definition representable (t : Time) : Prop := 0 <= time_Unix t < 2 ^ 63.

Lemma uint64_int64 z : 0 <= z < 2 ^ 63 → int64_wrap (uint64_wrap z) = z.
Proof.
  intros Hz. rewrite uint64_wrap_id by lia. apply int64_wrap_id.
  unfold int64_range, int64_min, int64_max. lia.
Qed.

Lemma validBefore_infinite now validFor :
  representable (now + validFor) →
  (validBefore now validFor = CertTimeInfinity ↔ validFor <= 0).
Proof.
  unfold validBefore, representable, time_Add. intros Hr.
  destruct (Z.leb_spec validFor 0) as [Hle|Hgt]; [done|].
  rewrite uint64_wrap_id by lia. unfold CertTimeInfinity. lia.
Qed.

Lemma issued_window ca ty pub ps validFor now c t :
  issued ca ty pub ps validFor now c →
  representable (now - Minute) → representable (now + validFor) →
  (in_window t c ↔
   time_Unix (now - Minute) <= time_Unix t ∧
   (validFor <= 0 ∨ time_Unix t < time_Unix (now + validFor))).
Proof.
  intros (_ & _ & _ & Ha & Hb & _) Hr1 Hr2. unfold in_window. rewrite Ha, Hb.
  rewrite (validBefore_infinite now validFor Hr2).
  unfold validAfter, time_Add. change (now + - Minute) with (now - Minute).
  rewrite uint64_int64 by (unfold representable in *; lia).
  unfold validBefore, time_Add. destruct (Z.leb_spec validFor 0) as [Hle|Hgt].
  - unfold representable in *. intuition lia.
  - rewrite uint64_int64 by (unfold representable in *; lia). unfold representable in *.
    intuition lia.
Qed.

Lemma keysEqual_refl k : keysEqual (Some k) (Some k) = true.
Proof. apply String.eqb_refl. Qed.

(** ** The theorems *)

(** A certificate is accepted exactly when it is a user certificate that
    names the principal, was signed by the expected authority, verifies, is
    inside its window and carries no critical option but [source-address],
    which restricts nothing here; in particular one without
    principals, which OpenSSH would accept for everybody, is refused. *)
Theorem CheckUserCert_accepts cert caPub principal now :
  CheckUserCert cert caPub principal now = None ↔
  ∃ c, cert = Some c ∧ cert_CertType c = UserCert ∧
    principal ∈ cert_ValidPrincipals c ∧
    keysEqual (cert_SignatureKey c) caPub = true ∧
    signature_verifies c = true ∧ in_window now c ∧ options_skipped c.
Proof. apply CheckUserCert_spec. Qed.

(** A certificate its authority restricted to a source address passes like one
    without the restriction: the check skips the option, and neither the check
    nor its callers look at the address. *)
Theorem source_address_ignored cert caPub principal now addr :
  cert_CriticalOptions cert = {["source-address" := addr]} →
  CheckUserCert (Some cert) caPub principal now = None ↔
  cert_CertType cert = UserCert ∧ principal ∈ cert_ValidPrincipals cert ∧
  keysEqual (cert_SignatureKey cert) caPub = true ∧ signature_verifies cert = true ∧ in_window now cert.
Proof.
  intros Ho. rewrite CheckUserCert_spec. split; [naive_solver|]. intros. exists cert.
  unfold options_skipped. rewrite Ho, map_Forall_singleton. naive_solver.
Qed.

(** A certificate [SignUserCert] issued is accepted for exactly its principal,
    from a minute before it was issued until it expires, and at any later time
    when no validity was set. *)
Theorem SignUserCert_accepted (env : Env W) `{!Conforms env} ca pub principal validFor now w c w' :
  run env (SignUserCert ca pub principal validFor now) w = (Ok c, w') →
  representable (now - Minute) → representable (now + validFor) →
  ∀ principal' t,
    CheckUserCert (Some c) (Some (signer_PublicKey ca)) principal' t = None ↔
    principal' = principal ∧
    time_Unix (now - Minute) <= time_Unix t ∧
    (validFor <= 0 ∨ time_Unix t < time_Unix (now + validFor)).
Proof.
  intros Hrun Hr1 Hr2 principal' t.
  pose proof (run_wp env _ _ _ _ _ Hrun (wp_SignUserCert ca pub principal validFor now w)) as (_ & _ & Hi).
  pose proof (issued_window _ _ _ _ _ _ _ t Hi Hr1 Hr2) as Hw.
  destruct Hi as (Ht & _ & Hp & _ & _ & Ho & Hk & Hs).
  rewrite CheckUserCert_spec, <- Hw. split.
  - intros (c' & [= <-] & _ & Hin & _ & _ & Hwin & _). rewrite Hp in Hin.
    apply list_elem_of_singleton in Hin as ->. done.
  - intros [-> Hwin]. exists c. rewrite Hp, Hk. split; [done|]. split; [done|].
    split; [by apply list_elem_of_singleton|]. rewrite keysEqual_refl. auto using no_options_skipped.
Qed.

(** A host certificate never authenticates a user. *)
Theorem SignHostCert_not_user (env : Env W) `{!Conforms env} ca pub principals validFor now w c w' :
  run env (SignHostCert ca pub principals validFor now) w = (Ok c, w') →
  ∀ caPub principal t, is_Some (CheckUserCert (Some c) caPub principal t).
Proof.
  intros Hrun caPub principal t.
  pose proof (run_wp env _ _ _ _ _ Hrun (wp_SignHostCert ca pub principals validFor now w)) as [_ Hi].
  destruct Hi as (Ht & _). destruct (CheckUserCert (Some c) caPub principal t) eqn:E; [eauto|].
  apply CheckUserCert_spec in E as (c' & [= <-] & Ht' & _). by rewrite Ht in Ht'.
Qed.

(** *** The gateway's signer *)

Lemma NewSigner_ttl pem ttl s : NewSigner pem ttl = Ok s → 0 < sg_ttl s.
Proof.
  unfold NewSigner. destruct (ParseSigner pem); [|done]. intros [= <-]. simpl.
  destruct (Z.leb_spec ttl 0); unfold Hour, Minute, Second; lia.
Qed.

Lemma wp_Sign s pub principal w :
  wp (Sign s pub principal)
     (λ r w', unchanged w w' ∧
        match r with
        | Ok out => ∃ c k now, out = MarshalAuthorizedKey (cert_as_key c) ∧
            ParsePublicKey pub = Ok k ∧ clock w <= now ∧ now <= clock w' ∧
            issued (sg_ca s) UserCert k [principal] (sg_ttl s) now c
        | Err _ => True
        end) w.
Proof.
  unfold Sign. destruct (ParsePublicKey pub) as [k|e]; [|done].
  intros now w1 [Hck [Hun ->]]. apply wp_ebind.
  eapply wp_mono; [apply wp_and; [apply wp_SignUserCert|apply wp_clock]|].
  intros [c|e] w2 [[Hun2 Hc] Hck2]; simpl; (split; [by eapply unchanged_trans|]); [|done].
  destruct Hc as [_ Hi]. exists c, k, (clock w1). auto 10.
Qed.

(** C29. Whatever key and principal are asked for, the certificate the signer
    returns parses back to a user certificate on that key for that principal
    alone, and it expires: the check refuses it [sg_ttl] after issuance. *)
Theorem Sign_bounded (env : Env W) `{!Conforms env} pem ttl s pub principal w out w' :
  NewSigner pem ttl = Ok s →
  run env (Sign s pub principal) w = (Ok out, w') →
  representable (clock w - Minute) → representable (clock w' + sg_ttl s) →
  ∃ c k, ParseAuthorizedKey out = Ok (cert_as_key c) ∧ ParsePublicKey pub = Ok k ∧
    cert_Key c = k ∧ cert_CertType c = UserCert ∧ cert_ValidPrincipals c = [principal] ∧
    ∀ caPub p t, time_Unix (clock w' + sg_ttl s) <= time_Unix t →
      is_Some (CheckUserCert (Some c) caPub p t).
Proof.
  intros Hnew Hrun Hr1 Hr2. pose proof (NewSigner_ttl _ _ _ Hnew) as Httl.
  pose proof (run_wp env _ _ _ _ _ Hrun (wp_Sign s pub principal w)) as [_ (c & k & now & -> & Hk & Hn1 & Hn2 & Hi)].
  exists c, k. split; [apply ParseAuthorizedKey_Marshal|]. split; [done|].
  pose proof Hi as (Ht & Hkey & Hp & _). split; [done|]. split; [done|]. split; [done|].
  intros caPub p t Hlate. destruct (CheckUserCert (Some c) caPub p t) eqn:E; [eauto|]. exfalso.
  apply CheckUserCert_spec in E as (c' & [= <-] & _ & _ & _ & _ & Hwin & _).
  assert (representable (now - Minute) ∧ representable (now + sg_ttl s)) as [Ha Hb].
  { unfold representable in *.
    pose proof (time_Unix_mono (clock w - Minute) (now - Minute)).
    pose proof (time_Unix_mono (now - Minute) (now + sg_ttl s)).
    pose proof (time_Unix_mono (now + sg_ttl s) (clock w' + sg_ttl s)).
    unfold Minute, Second in *. lia. }
  apply (issued_window _ _ _ _ _ _ _ t Hi Ha Hb) in Hwin.
  pose proof (time_Unix_mono (now + sg_ttl s) (clock w' + sg_ttl s)). lia.
Qed.

End proofs.
