(* ===== verification/FakeSSH.v ===== *)
(** * An SSH library that keeps its promises

    A stand-in for [golang.org/x/crypto/ssh] on which the laws of SSHCA.v
    hold: keys are names, a certificate is encoded as a key through a
    countability encoding, a signature is the key that made it. It has no
    cryptographic strength; it shows the laws satisfiable and runs the
    examples. *)

From S2P Require Import Prelude Utf8 SSHCA.
From Stdlib Require Import String Ascii.
From stdpp Require Import base gmap strings list countable.
From Stdlib Require Import ZArith Lia.
Local Open Scope Z_scope.

#[export] Instance fakeTypes : SSHTypes := {|
  PublicKey := (string + positive)%type;
  Signer := (string + positive)%type;
  PemBlock := string;
  Signature := string;
|}.

Definition cert_fields (c : Certificate) :=
  ((cert_Key c, cert_Serial c, cert_CertType c, cert_KeyId c),
   (cert_ValidPrincipals c, cert_ValidAfter c, cert_ValidBefore c),
   (cert_CriticalOptions c, cert_Extensions c, cert_SignatureKey c, cert_Signature c)).

#[export] Instance cert_eq_dec : EqDecision Certificate.
Proof.
  intros c d. destruct (decide (cert_fields c = cert_fields d)) as [E|E].
  - left. destruct c, d. unfold cert_fields in E. simpl in E. congruence.
  - right. by intros ->.
Defined.

#[export] Instance cert_countable : Countable Certificate.
Proof.
  refine (inj_countable' cert_fields
    (λ '((k, s, t, i), (p, a, b), (o, x, sk, sg)),
      {| cert_Key := k; cert_Serial := s; cert_CertType := t; cert_KeyId := i;
         cert_ValidPrincipals := p; cert_ValidAfter := a; cert_ValidBefore := b;
         cert_CriticalOptions := o; cert_Extensions := x;
         cert_SignatureKey := sk; cert_Signature := sg |}) _).
  by intros [].
Defined.

(** Keys as text: the bits of their encoding. *)
Fixpoint bits (p : positive) : string :=
  match p with
  | xH => ""
  | xO p => String "0" (bits p)
  | xI p => String "1" (bits p)
  end.

Fixpoint of_bits (s : string) : positive :=
  match s with
  | EmptyString => xH
  | String c s => if Ascii.eqb c "1" then xI (of_bits s) else xO (of_bits s)
  end.

Lemma of_bits_bits p : of_bits (bits p) = p.
Proof. induction p; simpl; congruence. Qed.

Definition fakePrincipal (principal : string) (c : Certificate) : bool :=
  bool_decide (cert_ValidPrincipals c = []) || contains (cert_ValidPrincipals c) principal.

#[export] Instance in_window_dec now c : Decision (in_window now c).
Proof. unfold in_window. apply _. Defined.

#[export] Instance options_skipped_dec c : Decision (options_skipped c).
Proof. unfold options_skipped. apply _. Defined.

Definition fakeVerifies (c : Certificate) : bool :=
  match cert_SignatureKey c, cert_Signature c with
  | Some (inl k), Some s => String.eqb k s
  | _, _ => false
  end.

Definition fakeSign (ca : string) (c : Certificate) : Certificate :=
  {| cert_Key := cert_Key c; cert_Serial := cert_Serial c; cert_CertType := cert_CertType c;
     cert_KeyId := cert_KeyId c; cert_ValidPrincipals := cert_ValidPrincipals c;
     cert_ValidAfter := cert_ValidAfter c; cert_ValidBefore := cert_ValidBefore c;
     cert_CriticalOptions := cert_CriticalOptions c; cert_Extensions := cert_Extensions c;
     cert_SignatureKey := Some (inl ca); cert_Signature := Some ca |}.

Definition fakeCheck (now : Time) (principal : string) (c : Certificate) : option error :=
  if bool_decide (options_skipped c) && fakePrincipal principal c
     && bool_decide (in_window now c) && fakeVerifies c
  then None else Some (TextError "ssh: certificate refused").

Definition fakeSSH : SSHLib := {|
  ssh_types := fakeTypes;
  key_Marshal := λ k, bits (encode k);
  MarshalPrivateKey := λ priv _, Ok priv;
  pem_EncodeToMemory := λ b, b;
  NewPublicKey := λ pub, Ok (inl pub);
  MarshalAuthorizedKey := λ k, bits (encode k);
  ParsePrivateKey := λ s, Ok (inl s);
  ParseAuthorizedKey := λ s,
    match decode (of_bits s) with
    | Some k => Ok k
    | None => Err (TextError "ssh: no key found")
    end;
  cert_as_key := λ c, inr (encode c);
  as_certificate := λ k, match k with inr p => decode p | inl _ => None end;
  signer_PublicKey := λ s, s;
  cert_SignCert := λ _ ca c,
    match ca with
    | inl k => Ok (fakeSign k c)
    | inr _ => Err (TextError "ssh: a certificate signer cannot sign certificates")
    end;
  CheckCert := fakeCheck;
  signature_verifies := fakeVerifies;
  NewCertSigner := λ c s,
    if String.eqb (bits (encode (cert_Key c))) (bits (encode s)) then Ok (inr (encode c))
    else Err (TextError "ssh: signer and cert have different public key");
|}.

Lemma bits_text p : valid_utf8 (bits p) = true.
Proof.
  apply String.eqb_eq. induction p as [p IH|p IH|]; [| |done]; cbn [bits]; rewrite to_valid_ascii, IH; done.
Qed.

#[export] Instance fakeSSH_laws : SSHLaws fakeSSH.
Proof.
  split; simpl.
  - intros k. by rewrite of_bits_bits, decode_encode.
  - intros c. apply decode_encode.
  - intros _ [ca|ca] c c'; [intros [= <-]|done]. split; [done|]. split; [done|]. apply String.eqb_refl.
  - intros now p c. unfold fakeCheck, fakePrincipal.
    destruct (bool_decide_reflect (options_skipped c)); simpl; [|naive_solver].
    destruct (bool_decide_reflect (in_window now c)); simpl;
      [|rewrite andb_false_r; naive_solver].
    rewrite andb_true_r. destruct (fakeVerifies c); simpl;
      [|rewrite andb_false_r; split; [done|intros (_ & _ & _ & ?); done]].
    rewrite andb_true_r. case_bool_decide; simpl; [naive_solver|].
    destruct (contains (cert_ValidPrincipals c) p) eqn:Hc.
    + apply contains_true in Hc. naive_solver.
    + apply contains_false in Hc. split; [done|]. intros (_ & [?|?] & _); done.
  - intros k. apply bits_text.
  - intros c s. destruct (String.eqb _ _) eqn:E; [by apply String.eqb_eq in E|by apply String.eqb_neq in E].
Qed.
