(* ===== verification/StatusMonad.v ===== *)
(** * Functions that update a sandbox status

    The methods of [SandboxReconciler] take a pointer to the status under
    construction, write to it in place, call the API and may return an error;
    what they wrote to the status stays written when they do. [SM A] is such a
    method: from the status so far, a program that ends with the status as it
    left it and a result. *)

From S2P Require Import Prelude KubeTypes ApiTypes Client Libs.
From Stdlib Require Import String.
From stdpp Require Import base gmap strings list.
From Stdlib Require Import ZArith.
Local Open Scope Z_scope.

Definition SM (A : Type) : Type := SandboxStatus → prog (SandboxStatus * res A).

Definition sret {A} (a : A) : SM A := λ s, Ret (s, Ok a).
Definition sthrow {A} (e : error) : SM A := λ s, Ret (s, Err e).

Definition sbind {A B} (m : SM A) (f : A → SM B) : SM B := λ s,
  sr ← m s;
  match sr.2 with
  | Ok a => f a sr.1
  | Err e => Ret (sr.1, Err e)
  end.

(** A call whose error is returned, and a call whose error is inspected. *)
Definition lift {A} (p : prog (res A)) : SM A := λ s, r ← p; Ret (s, r).
Definition attempt {A} (p : prog A) : SM A := λ s, r ← p; Ret (s, Ok r).

Definition modify (f : SandboxStatus → SandboxStatus) : SM unit := λ s, Ret (f s, Ok tt).
Definition getStatus : SM SandboxStatus := λ s, Ret (s, Ok s).

Notation "x ←! m ; q" := (sbind m (λ x, q))
  (at level 20, m at level 100, q at level 200, format "x  ←!  m ;  '/' q") : kubepark_scope.
Notation "m ;;! q" := (sbind m (λ _, q))
  (at level 100, q at level 200, right associativity, format "m  ;;!  '/' q") : kubepark_scope.

(** [ctrl.Result]: when to reconcile again; zero is not at all. *)
Record Result := { RequeueAfter : Duration }.
Definition noResult : Result := {| RequeueAfter := 0 |}.

(** [SandboxReconciler.setCondition]. *)
Definition conditionOf (sb : Sandbox) (condType : string)
    (condStatus : ConditionStatus) (reason message : string) : Condition :=
  {| c_Type := condType; c_Status := condStatus; c_Reason := reason;
     c_Message := message; c_ObservedGeneration := Generation sb |}.

Definition setCondition `{ApiMachinery} (sb : Sandbox) (condType : string)
    (condStatus : ConditionStatus) (reason message : string) : SM unit :=
  modify (λ s, set_Conditions
    (SetStatusCondition (st_Conditions s)
       (conditionOf sb condType condStatus reason message)) s).

(** The condition of a type as the status under construction has it. *)
Definition statusCondition (s : SandboxStatus) (ty : string) : option (ConditionStatus * string) :=
  match find_condition (st_Conditions s) ty with
  | Some c => Some (c_Status c, c_Reason c)
  | None => None
  end.

(** ** Symbolic execution of status methods *)

Section wp.
Context {W : Type} `{World W}.

Lemma wp_sbind {A B} (m : SM A) (f : A → SM B) s (Q : SandboxStatus * res B → W → Prop) w :
  wp (m s) (λ sr w', match sr.2 with
                     | Ok a => wp (f a sr.1) Q w'
                     | Err e => Q (sr.1, Err e) w'
                     end) w →
  wp (sbind m f s) Q w.
Proof.
  intros Hw. apply wp_bind. eapply wp_mono; [exact Hw|].
  intros [s' [a|e]] w' Hr; done.
Qed.

Lemma wp_lift {A} (p : prog (res A)) s (Q : SandboxStatus * res A → W → Prop) w :
  wp p (λ r w', Q (s, r) w') w → wp (lift p s) Q w.
Proof. intros Hw. apply wp_bind. eapply wp_mono; [exact Hw|]. done. Qed.

Lemma wp_attempt {A} (p : prog A) s (Q : SandboxStatus * res A → W → Prop) w :
  wp p (λ r w', Q (s, Ok r) w') w → wp (attempt p s) Q w.
Proof. intros Hw. apply wp_bind. eapply wp_mono; [exact Hw|]. done. Qed.

Lemma wp_sbind_lift {A B} (p : prog (res A)) (f : A → SM B) s (Q : SandboxStatus * res B → W → Prop) w :
  wp p (λ r w', match r with Ok a => wp (f a s) Q w' | Err e => Q (s, Err e) w' end) w →
  wp (sbind (lift p) f s) Q w.
Proof. intros Hw. by apply wp_sbind, wp_lift. Qed.

Lemma wp_sbind_attempt {A B} (p : prog A) (f : A → SM B) s (Q : SandboxStatus * res B → W → Prop) w :
  wp p (λ r w', wp (f r s) Q w') w → wp (sbind (attempt p) f s) Q w.
Proof. intros Hw. by apply wp_sbind, wp_attempt. Qed.

Lemma wp_sbind_modify {B} g (f : unit → SM B) s (Q : SandboxStatus * res B → W → Prop) w :
  wp (f tt (g s)) Q w → wp (sbind (modify g) f s) Q w.
Proof. done. Qed.

Lemma wp_sbind_get {B} (f : SandboxStatus → SM B) s (Q : SandboxStatus * res B → W → Prop) w :
  wp (f s s) Q w → wp (sbind getStatus f s) Q w.
Proof. done. Qed.

End wp.

Lemma calls_sbind {A B} P (m : SM A) (f : A → SM B) s :
  calls P (m s) → (∀ a s', calls P (f a s')) → calls P (sbind m f s).
Proof. intros Hm Hf. apply calls_bind; [done|]. intros [s' [a|e]]; [apply Hf|done]. Qed.

Lemma calls_lift {A} P (p : prog (res A)) s : calls P p → calls P (lift p s).
Proof. intros Hp. by apply calls_bind. Qed.

Lemma calls_attempt {A} P (p : prog A) s : calls P p → calls P (attempt p s).
Proof. intros Hp. by apply calls_bind. Qed.

(** Walking through a program, leaf by leaf: what remains are the calls. The
    database holds the lemmas about the programs already walked through. *)
Create HintDb leaves.

Ltac leaves :=
  repeat first
    [ done | solve [eauto with leaves nocore]
    | apply calls_sbind; [|intros ? ?]
    | apply calls_lift | apply calls_attempt
    | apply calls_ebind; [|intros ?]
    | apply calls_for_each; intros ? _
    | apply calls_bind; [|intros ?]
    | case_match ].
