(* ===== verification/SandboxRBAC.v ===== *)
(** * Access profiles turned into RBAC (internal/controller/sandbox_rbac.go, rbacnames.go)

    [reconcileRBAC] gives a sandbox the credentials its access profile grants,
    or none. The theorems: a profile that is missing or does not permit the
    sandbox's namespace leaves the sandbox with no live role binding and no
    service account (default deny); a permitted profile leaves exactly one
    binding per grant namespace, to the sandbox's own service account; and
    nothing but role bindings and the service account is ever written. *)

From S2P Require Import Prelude GoStrings KubeTypes ApiTypes Client Libs PodSpec StatusMonad.
From Stdlib Require Import String.
From stdpp Require Import base gmap strings list pretty.
From Stdlib Require Import ZArith Lia.
Local Open Scope Z_scope.

(** ** Names *)

Definition LabelProfile : string := "kubepark.dev/profile".
Definition ManagedByValue : string := "kubepark".
Definition AccessProfileFinalizer : string := "kubepark.dev/finalizer".

Definition saName (sandbox : string) : string := "kubepark-sb-" +:+ sandbox.
Definition profileRoleName (profile : string) : string := "kubepark-ap-" +:+ profile.
Definition roleBindingName (sandbox : string) : string := "kubepark-sb-" +:+ sandbox.

Definition nn (ns n : string) : NamespacedName := {| nn_Namespace := ns; nn_Name := n |}.

Record rbacResult := {
  rr_ServiceAccount : string;
  rr_Ready : bool;
}.

(** [rbacResult{}]. *)
Definition noRBAC : rbacResult := {| rr_ServiceAccount := ""; rr_Ready := false |}.

Section rbac.
Context `{AM : ApiMachinery}.

(** [r.Delete(ctx, obj)] with a missing object taken for deleted. *)
Definition deleteIgnoringNotFound {T} (K : Kind T) (k : NamespacedName) : prog (res unit) :=
  r ← call (EDelete K k); Ret (IgnoreNotFound r).

(** Deleting the objects with a label outside some namespaces; the sandbox
    controller does so with role bindings, the profile controller with roles. *)
Definition gcLabelled {T} (K : Kind T) (label value : string) (keep : list string) : prog (res unit) :=
  items ←? call (EList K (MatchingLabels label value));
  for_each items (λ o,
    if contains keep (Namespace (meta K o)) then Ret (Ok tt)
    else deleteIgnoringNotFound K (okey K o)).

Definition gcRBAC (sb : Sandbox) (keep : list string) : prog (res unit) :=
  gcLabelled KRoleBinding LabelSandboxUID (UID sb) keep.

(** The loops of [grantNamespaces]: [seen] and [out] hold the same names. *)
Definition addNew (out : list string) (ns : string) : list string :=
  if contains out ns then out else out ++ [ns].

Definition grantNamespaces (profile : AccessProfile) : list string :=
  foldl (λ out g, foldl addNew out (gr_Namespaces g)) [] (aps_Grants (ap_Spec profile)).

Definition ensureOwned {T} (K : Kind T) (sb : Sandbox) (o : T) : prog (res unit) :=
  match SetControllerReference sb (meta K o) with
  | Err e => Ret (Err e)
  | Ok m => r ← call (ECreate K (with_meta K m o)); Ret (IgnoreAlreadyExists (to_unit r))
  end.

Definition with_subjects (s : list Subject) (rb : RoleBinding) : RoleBinding :=
  {| rb_ObjectMeta := rb_ObjectMeta rb; rb_RoleRef := rb_RoleRef rb; rb_Subjects := s |}.

Definition createIgnoringExisting (desired : RoleBinding) : prog (res unit) :=
  r ← call (ECreate KRoleBinding desired); Ret (IgnoreAlreadyExists (to_unit r)).

Definition applyRoleBinding (desired : RoleBinding) : prog (res unit) :=
  r ← call (EGet KRoleBinding (okey KRoleBinding desired));
  match r with
  | Err e => if IsNotFound e then createIgnoringExisting desired else Ret (Err e)
  | Ok existing =>
    if negb (bool_decide (rb_RoleRef existing = rb_RoleRef desired)) then
      deleteIgnoringNotFound KRoleBinding (okey KRoleBinding existing) ;;?
      createIgnoringExisting desired
    else if negb (SemanticDeepEqual (rb_Subjects existing) (rb_Subjects desired)) then
      r ← call (EUpdate KRoleBinding (with_subjects (rb_Subjects desired) existing));
      Ret (to_unit r)
    else Ret (Ok tt)
  end.

(** The objects [reconcileRBAC] builds. *)
Definition sandboxServiceAccount (sb : Sandbox) (profile : AccessProfile) : ServiceAccount :=
  {| sa_ObjectMeta :=
       set_annotations (list_to_map [("kubepark.dev/owner"%string, ow_Name (sp_Owner (sb_Spec sb)));
                                     ("kubepark.dev/access-profile"%string, Name profile)])
         (set_labels (Labels sb) (newMeta (Namespace sb) (saName (Name sb)))) |}.

Definition sandboxSubject (sb : Sandbox) : Subject :=
  {| sub_Kind := "ServiceAccount"; sub_Name := saName (Name sb); sub_Namespace := Namespace sb |}.

Definition profileRoleRef (profile : AccessProfile) : RoleRef :=
  {| rref_APIGroup := "rbac.authorization.k8s.io"; rref_Kind := "Role";
     rref_Name := profileRoleName (Name profile) |}.

Definition sandboxRoleBinding (sb : Sandbox) (profile : AccessProfile) (ns : string) : RoleBinding :=
  {| rb_ObjectMeta :=
       set_labels (list_to_map [(LabelSandboxUID, UID sb); (LabelProfile, Name profile);
                                (LabelManagedBy, ManagedByValue)])
         (newMeta ns (roleBindingName (Name sb)));
     rb_RoleRef := profileRoleRef profile;
     rb_Subjects := [sandboxSubject sb] |}.

(** No credentials: remove what an earlier profile left and say why. *)
Definition refuseRBAC (sb : Sandbox) (st : ConditionStatus) (reason message : string)
    (r : rbacResult) : SM rbacResult :=
  lift (gcRBAC sb []) ;;!
  modify (set_ServiceAccountName "") ;;!
  setCondition sb ConditionRBACReady st reason message ;;!
  sret r.

Definition reconcileRBAC (sb : Sandbox) : SM rbacResult :=
  if String.eqb (sp_AccessProfile (sb_Spec sb)) "" then
    refuseRBAC sb ConditionTrue ReasonRunning
      "no access profile; sandbox has no cluster credentials"
      {| rr_ServiceAccount := ""; rr_Ready := true |}
  else
    r ←! attempt (call (EGet KAccessProfile (nn "" (sp_AccessProfile (sb_Spec sb)))));
    match r with
    | Err e =>
      if IsNotFound e then
        refuseRBAC sb ConditionFalse ReasonProfileDeleted
          ("AccessProfile " +:+ quote (sp_AccessProfile (sb_Spec sb)) +:+ " not found") noRBAC
      else sthrow e
    | Ok profile =>
      if negb (contains (aps_AllowedNamespaces (ap_Spec profile)) (Namespace sb)) then
        refuseRBAC sb ConditionFalse ReasonProfileNotPermitted
          ("namespace " +:+ quote (Namespace sb) +:+ " is not in AccessProfile "
           +:+ quote (Name profile) +:+ " allowedNamespaces") noRBAC
      else
        lift (ensureOwned KServiceAccount sb (sandboxServiceAccount sb profile)) ;;!
        lift (for_each (grantNamespaces profile)
                (λ ns, applyRoleBinding (sandboxRoleBinding sb profile ns))) ;;!
        lift (gcRBAC sb (grantNamespaces profile)) ;;!
        modify (set_ServiceAccountName (saName (Name sb))) ;;!
        setCondition sb ConditionRBACReady ConditionTrue ReasonRunning
          ("bound to AccessProfile " +:+ quote (Name profile) +:+ " in "
           +:+ pretty (Z.of_nat (length (grantNamespaces profile))) +:+ " namespace(s)") ;;!
        sret {| rr_ServiceAccount := saName (Name sb); rr_Ready := true |}
    end.

End rbac.

(** ** Deleting and garbage collection *)

Section proofs.
Context `{AM : ApiMachinery} {W : Type} `{World W}.

Lemma wp_deleteIgnoringNotFound {T} (K : Kind T) k w :
  wp (deleteIgnoringNotFound K k)
     (λ r w', same_but K k w w' ∧ match r with Ok _ => not_live K w' k | Err _ => True end) w.
Proof.
  intros r w' [_ Hd]. pose proof Hd as [Hsb Hr]. split; [done|].
  destruct r as [u|e]; simpl; [by eapply delete_not_live|].
  destruct (IsNotFound e); [|done]. intros o Ho. destruct Hr; [done|congruence].
Qed.

(** What [gcLabelled] may write to, and what it leaves: every live object with
    the label is in a namespace to keep. *)
Definition gc_label_targets {T} (K : Kind T) (l v : string) (keep : list string) (w : W)
    (t : tag) (k : NamespacedName) : Prop :=
  t = kind_tag K ∧
  ∃ o, view K w k = Some o ∧ mLabels (meta K o) !! l = Some v ∧ nn_Namespace k ∉ keep.

Definition labels_within {T} (K : Kind T) (l v : string) (keep : list string) (w : W) : Prop :=
  ∀ k o, view K w k = Some o → mLabels (meta K o) !! l = Some v →
    DeletionTimestamp (meta K o) = None → nn_Namespace k ∈ keep.

Lemma wp_gcLabelled {T} (K : Kind T) lbl v keep w :
  wp (gcLabelled K lbl v keep)
     (λ r w', frame (gc_label_targets K lbl v keep w) w w' ∧
              match r with Ok _ => labels_within K lbl v keep w' | Err _ => True end) w.
Proof.
  apply wp_ebind, wp_call. intros [l|e] w1 [_ [Hun Hl]]; [|by split; [apply frame_unchanged|]].
  destruct Hl as [Hl _]. cbn beta iota.
  set (I := λ (rest : list T) w2,
    frame (gc_label_targets K lbl v keep w) w w2 ∧ (∀ x, x ∈ rest → x ∈ l) ∧
    ∀ k o, view K w2 k = Some o → mLabels (meta K o) !! lbl = Some v →
      DeletionTimestamp (meta K o) = None →
      nn_Namespace k ∈ keep ∨ k ∈ okey K <$> rest).
  eapply wp_mono; [eapply (wp_for_each I (λ _ w2, frame (gc_label_targets K lbl v keep w) w w2))|].
  - split; [by apply frame_unchanged|]. split; [done|]. intros k o Hv Hlab _. right.
    rewrite (proj1 Hun) in Hv. pose proof (view_key _ _ _ _ _ Hv) as <-.
    apply list_elem_of_fmap. exists o. split; [done|]. apply Hl. split; [done|].
    by apply selected_labels.
  - intros x rest w2 (Hfr & Hsub & HI). assert (x ∈ l) as Hx by (apply Hsub; left).
    apply Hl in Hx as [Hx Hsel]. apply selected_labels in Hsel.
    destruct (contains keep (Namespace (meta K x))) eqn:Hk.
    + simpl. split; [done|]. split; [intros y Hy; apply Hsub; by right|].
      intros k o Hv Hlab Hd. destruct (HI k o Hv Hlab Hd) as [|Hin]; [by left|].
      apply elem_of_cons in Hin as [->|Hin]; [|by right]. left. by apply contains_true.
    + apply contains_false in Hk. eapply wp_mono; [apply wp_deleteIgnoringNotFound|].
      intros r w3 [Hsb Hr].
      assert (frame (gc_label_targets K lbl v keep w) w w3) as Hfr3.
      { eapply frame_trans; [exact Hfr|]. eapply frame_same_but; [exact Hsb|].
        split; [done|]. by exists x. }
      destruct r as [[]|e]; [|done]. split; [done|].
      split; [intros y Hy; apply Hsub; by right|]. intros k o Hv Hlab Hd.
      destruct (decide (k = okey K x)) as [->|Hne].
      { specialize (Hr _ Hv). by rewrite Hd in Hr. }
      rewrite (same_but_key _ _ _ _ _ Hsb Hne) in Hv.
      destruct (HI k o Hv Hlab Hd) as [|Hin]; [by left|].
      apply elem_of_cons in Hin as [->|Hin]; [done|by right].
  - intros [[]|e] w2; [|done]. intros (Hfr & _ & HI). split; [done|].
    intros k o Hv Hlab Hd. destruct (HI k o Hv Hlab Hd) as [|Hin]; [done|].
    by apply not_elem_of_nil in Hin.
Qed.

(** The role bindings that carry the UID label of a sandbox. *)
Definition labelled (sb : Sandbox) (rb : RoleBinding) : Prop :=
  mLabels rb !! LabelSandboxUID = Some (UID sb).

Definition gc_targets (sb : Sandbox) (keep : list string) (w : W) (t : tag) (k : NamespacedName) : Prop :=
  t = TRoleBinding ∧
  ∃ rb, view KRoleBinding w k = Some rb ∧ labelled sb rb ∧ nn_Namespace k ∉ keep.

Definition bindings_within (sb : Sandbox) (keep : list string) (w : W) : Prop :=
  ∀ k rb, view KRoleBinding w k = Some rb → labelled sb rb →
    DeletionTimestamp rb = None → nn_Namespace k ∈ keep.

Lemma wp_gcRBAC sb keep w :
  wp (gcRBAC sb keep)
     (λ r w', frame (gc_targets sb keep w) w w' ∧
              match r with Ok _ => bindings_within sb keep w' | Err _ => True end) w.
Proof. exact (wp_gcLabelled KRoleBinding LabelSandboxUID (UID sb) keep w). Qed.

(** ** Role bindings *)

(** The stored object is neither being deleted nor held by a finalizer. *)
Definition settled {T} (K : Kind T) (w : W) (k : NamespacedName) : Prop :=
  ∀ o, view K w k = Some o → DeletionTimestamp (meta K o) = None ∧ Finalizers (meta K o) = [].

(** A live binding at the key of [d] grants what [d] asks. *)
Definition bound_as (d : RoleBinding) (w : W) : Prop :=
  ∃ rb, view KRoleBinding w (okey KRoleBinding d) = Some rb ∧
    DeletionTimestamp rb = None ∧
    rb_RoleRef rb = rb_RoleRef d ∧ rb_Subjects rb = rb_Subjects d.

Lemma bound_as_view d w w' :
  view KRoleBinding w' (okey KRoleBinding d) = view KRoleBinding w (okey KRoleBinding d) →
  bound_as d w → bound_as d w'.
Proof. unfold bound_as. by intros ->. Qed.

Lemma wp_delete_settled {T} (K : Kind T) k w :
  kind_tag K ≠ TPod → settled K w k →
  wp (deleteIgnoringNotFound K k)
     (λ r w', same_but K k w w' ∧ match r with Ok _ => view K w' k = None | Err _ => True end) w.
Proof.
  intros HK Hset r w' [_ [Hsb Hr]]. split; [done|].
  destruct r as [u|e]; simpl.
  - destruct Hr as (cur & Hcur & _ & Hgone). apply Hgone; [done|]. by apply Hset.
  - destruct (IsNotFound e); [|done]. by destruct Hr.
Qed.

Lemma wp_createIgnoringExisting d w :
  view KRoleBinding w (okey KRoleBinding d) = None →
  wp (createIgnoringExisting d)
     (λ r w', same_but KRoleBinding (okey KRoleBinding d) w w' ∧
              match r with Ok _ => bound_as d w' | Err _ => True end) w.
Proof.
  intros Hnone r w' [_ [Hsb Hr]]. split; [done|]. destruct r as [o|e]; simpl.
  - destruct Hr as (_ & Hv & uid & gen & rv & t & ->). eexists. split; [exact Hv|]. done.
  - destruct (IsAlreadyExists e); [|done]. destruct Hr as [[o Ho] Hv]; [done|congruence].
Qed.

(** Replacing the subjects of a binding that has the wanted role. *)
Lemma wp_update_subjects (d rb : RoleBinding) w :
  okey KRoleBinding rb = okey KRoleBinding d →
  view KRoleBinding w (okey KRoleBinding d) = Some rb →
  DeletionTimestamp rb = None → rb_RoleRef rb = rb_RoleRef d →
  wp (r ← call (EUpdate KRoleBinding (with_subjects (rb_Subjects d) rb)); Ret (to_unit r))
     (λ r w', same_but KRoleBinding (okey KRoleBinding d) w w' ∧
              match r with Ok _ => bound_as d w' | Err _ => True end) w.
Proof.
  intros Hkey Hv Hlive Href r w' [_ Hu].
  change (update_spec KRoleBinding (with_subjects (rb_Subjects d) rb) w r w') in Hu.
  unfold update_spec in Hu.
  change (okey KRoleBinding (with_subjects (rb_Subjects d) rb)) with (okey KRoleBinding rb) in Hu.
  rewrite Hkey in Hu. destruct Hu as [Hsb Hu]. split; [done|].
  destruct r as [o|e]; [|done]. destruct Hu as (cur & Hcur & _ & (gen & rv & ->) & Hv').
  rewrite Hv in Hcur. simplify_eq. simpl in Hv'.
  rewrite bool_decide_eq_false_2 in Hv' by (rewrite Hlive; intros [[? ?] _]; done).
  simpl. eexists. split; [exact Hv'|]. done.
Qed.

Lemma wp_applyRoleBinding `{!ApiMachineryLaws AM} d w :
  settled KRoleBinding w (okey KRoleBinding d) →
  wp (applyRoleBinding d)
     (λ r w', same_but KRoleBinding (okey KRoleBinding d) w w' ∧
              match r with Ok _ => bound_as d w' | Err _ => True end) w.
Proof.
  intros Hset. apply wp_bind, wp_call. intros [rb|e] w1 [_ [Hun Hr]]; cbn beta iota;
    pose proof (unchanged_same_but KRoleBinding (okey KRoleBinding d) _ _ Hun) as Hsb1.
  2:{ destruct (IsNotFound e) eqn:He; [|done].
      eapply wp_mono; [apply wp_createIgnoringExisting; by rewrite (proj1 Hun), Hr|].
      intros r w2 [Hsb Hb]. split; [by eapply same_but_trans|done]. }
  pose proof (view_key _ _ _ _ _ Hr) as Hkey. destruct (Hset _ Hr) as [Hlive Hfin].
  case_bool_decide as Hrr; cbn [negb].
  - destruct (SemanticDeepEqual (rb_Subjects rb) (rb_Subjects d)) eqn:Heq; cbn [negb].
    + apply SemanticDeepEqual_spec in Heq. split; [done|].
      exists rb. by rewrite (proj1 Hun), Hr.
    + eapply wp_mono; [by apply wp_update_subjects; [|rewrite (proj1 Hun)| |]|].
      intros r w2 [Hsb Hb]. split; [by eapply same_but_trans|done].
  - rewrite Hkey. apply wp_ebind. eapply wp_mono; [apply wp_delete_settled; [done|]|].
    + intros o. rewrite (proj1 Hun). apply Hset.
    + intros [[]|e] w2 [Hsb Hnone]; [|split; [by eapply same_but_trans|done]].
      eapply wp_mono; [by apply wp_createIgnoringExisting|].
      intros r w3 [Hsb3 Hb]. split; [|done].
      eapply same_but_trans; [|done]. by eapply same_but_trans.
Qed.

(** ** The namespaces a profile grants into *)

Lemma foldl_addNew_elem l out ns : ns ∈ foldl addNew out l ↔ ns ∈ out ∨ ns ∈ l.
Proof.
  revert out. induction l as [|x l IH]; intros out; simpl; [set_solver|].
  rewrite IH. unfold addNew. destruct (contains out x) eqn:Hx.
  - apply contains_true in Hx. set_solver.
  - set_solver.
Qed.

Lemma foldl_addNew_NoDup l out : NoDup out → NoDup (foldl addNew out l).
Proof.
  revert out. induction l as [|x l IH]; intros out Hnd; simpl; [done|]. apply IH.
  unfold addNew. destruct (contains out x) eqn:Hx; [done|]. apply contains_false in Hx.
  apply NoDup_app. split; [done|]. split; [|apply NoDup_singleton].
  intros y Hy Hy'. apply list_elem_of_singleton in Hy' as ->. done.
Qed.

Lemma grantNamespaces_loop gs out ns :
  ns ∈ foldl (λ out g, foldl addNew out (gr_Namespaces g)) out gs ↔
  ns ∈ out ∨ ∃ g, g ∈ gs ∧ ns ∈ gr_Namespaces g.
Proof.
  revert out. induction gs as [|g gs IH]; intros out; simpl.
  - split; [by left|]. intros [|(g & Hg & _)]; [done|]. by apply not_elem_of_nil in Hg.
  - rewrite IH, foldl_addNew_elem. split.
    + intros [[|]|(g' & ? & ?)]; [by left|right; exists g|right; exists g'];
        split; [left|done|by right|done].
    + intros [|(g' & [->|Hg]%elem_of_cons & ?)]; [by left; left|by left; right|].
      right. by exists g'.
Qed.

Lemma elem_of_grantNamespaces p ns :
  ns ∈ grantNamespaces p ↔ ∃ g, g ∈ aps_Grants (ap_Spec p) ∧ ns ∈ gr_Namespaces g.
Proof.
  unfold grantNamespaces. rewrite grantNamespaces_loop. split; [|by right].
  intros [Hn|]; [by apply not_elem_of_nil in Hn|done].
Qed.

Lemma NoDup_grantNamespaces p : NoDup (grantNamespaces p).
Proof.
  unfold grantNamespaces. generalize (NoDup_nil_2 (A := string)).
  generalize (@nil string). induction (aps_Grants (ap_Spec p)) as [|g gs IH];
    intros out Hnd; simpl; [done|]. by apply IH, foldl_addNew_NoDup.
Qed.

(** ** One binding per grant namespace *)

Definition bindingKey (sb : Sandbox) (ns : string) : NamespacedName :=
  nn ns (roleBindingName (Name sb)).

(** The role bindings the grant loop may write to. *)
Definition grant_targets (sb : Sandbox) (nss : list string) (t : tag) (k : NamespacedName) : Prop :=
  t = TRoleBinding ∧ ∃ ns, ns ∈ nss ∧ k = bindingKey sb ns.

Lemma wp_grant_loop `{!ApiMachineryLaws AM} sb profile nss w :
  NoDup nss → (∀ ns, ns ∈ nss → settled KRoleBinding w (bindingKey sb ns)) →
  wp (for_each nss (λ ns, applyRoleBinding (sandboxRoleBinding sb profile ns)))
     (λ r w', frame (grant_targets sb nss) w w' ∧
        match r with
        | Ok _ => ∀ ns, ns ∈ nss → bound_as (sandboxRoleBinding sb profile ns) w'
        | Err _ => True
        end) w.
Proof.
  intros Hnd Hset.
  set (I := λ (rest : list string) w1,
    frame (grant_targets sb nss) w w1 ∧ NoDup rest ∧ (∀ ns, ns ∈ rest → ns ∈ nss) ∧
    (∀ ns, ns ∈ rest → settled KRoleBinding w1 (bindingKey sb ns)) ∧
    ∀ ns, ns ∈ nss → ns ∉ rest → bound_as (sandboxRoleBinding sb profile ns) w1).
  eapply wp_mono; [apply (wp_for_each I (λ _ w1, frame (grant_targets sb nss) w w1))|].
  - split; [apply frame_refl|]. split; [done|]. split; [done|]. split; [done|].
    by intros ns Hin Hnin.
  - intros ns rest w1 (Hfr & Hndr & Hsub & Hs & Hb). apply NoDup_cons in Hndr as [Hni Hndr].
    eapply wp_mono; [apply wp_applyRoleBinding, Hs; left|].
    intros r w2 [Hsb Hr]. change (okey _ _) with (bindingKey sb ns) in Hsb.
    assert (frame (grant_targets sb nss) w w2) as Hfr2.
    { eapply frame_trans; [done|]. eapply frame_same_but; [done|]. split; [done|].
      exists ns. split; [apply Hsub; left|done]. }
    destruct r as [[]|e]; [|done].
    assert (∀ ns', ns' ≠ ns → view KRoleBinding w2 (bindingKey sb ns') =
                              view KRoleBinding w1 (bindingKey sb ns')) as Hother.
    { intros ns' Hne. apply (same_but_key _ _ _ _ _ Hsb). unfold bindingKey, nn. congruence. }
    split; [done|]. split; [done|]. split; [|split].
    + intros ns' Hns'. apply Hsub. by right.
    + intros ns' Hns' o. rewrite Hother by (intros ->; done). apply Hs. by right.
    + intros ns' Hin Hnin. destruct (decide (ns' = ns)) as [->|Hne]; [done|].
      eapply bound_as_view; [by apply Hother|]. apply Hb; [done|].
      intros [->|?]%elem_of_cons; done.
  - intros [[]|e] w1; [|done]. intros (Hfr & _ & _ & _ & Hb). split; [done|].
    intros ns Hns. apply Hb; [done|]. apply not_elem_of_nil.
Qed.

(** ** The whole reconciliation *)

(** What RBAC reconciliation may write: the sandbox's service account, role
    bindings of the sandbox's name, and role bindings that carry its UID. *)
Definition rbac_target (sb : Sandbox) (w : W) (t : tag) (k : NamespacedName) : Prop :=
  (t = TServiceAccount ∧ k = nn (Namespace sb) (saName (Name sb))) ∨
  (t = TRoleBinding ∧
   (nn_Name k = roleBindingName (Name sb) ∨
    ∃ rb, view KRoleBinding w k = Some rb ∧ labelled sb rb)).

Lemma rbac_target_view sb w w' t k :
  (∀ k, view KRoleBinding w' k = view KRoleBinding w k) →
  rbac_target sb w' t k → rbac_target sb w t k.
Proof.
  intros Hv [?|[-> [?|(rb & Hrb & ?)]]]; [by left|by right; split; [|left]|].
  right. split; [done|]. right. exists rb. by rewrite <- Hv.
Qed.

(** Role bindings and service accounts are the only kinds among them. *)
Lemma rbac_target_kind sb w t k :
  rbac_target sb w t k → t = TRoleBinding ∨ t = TServiceAccount.
Proof. intros [[-> _]|[-> _]]; auto. Qed.

(** No live binding of the sandbox is left. *)
Definition no_bindings (sb : Sandbox) (w : W) : Prop :=
  ∀ k rb, view KRoleBinding w k = Some rb → labelled sb rb → is_Some (DeletionTimestamp rb).

Lemma bindings_within_nil sb w : bindings_within sb [] w → no_bindings sb w.
Proof.
  intros Hb k rb Hv Hl. destruct (DeletionTimestamp rb) eqn:Hd; [eauto|].
  specialize (Hb k rb Hv Hl Hd). by apply not_elem_of_nil in Hb.
Qed.

Lemma wp_refuseRBAC sb st reason msg r s w :
  wp (refuseRBAC sb st reason msg r s)
     (λ sr w', frame (gc_targets sb [] w) w w' ∧
        match sr.2 with
        | Ok r' => r' = r ∧ no_bindings sb w' ∧
            sr.1 = set_Conditions
              (SetStatusCondition (st_Conditions s) (conditionOf sb ConditionRBACReady st reason msg))
              (set_ServiceAccountName "" s)
        | Err _ => sr.1 = s
        end) w.
Proof.
  apply wp_sbind, wp_lift. eapply wp_mono; [apply wp_gcRBAC|].
  intros [[]|e] w' [Hfr Hb]; simpl; [|done]. split; [done|]. split; [done|].
  split; [by apply bindings_within_nil|done].
Qed.

Lemma wp_ensureOwned {T} (K : Kind T) sb o w :
  wp (ensureOwned K sb o)
     (λ r w', match SetControllerReference sb (meta K o) with
              | Err e => r = Err e ∧ w' = w
              | Ok m => same_but K (keyOf m) w w' ∧
                  match r with Ok _ => is_Some (view K w' (keyOf m)) | Err _ => True end
              end) w.
Proof.
  unfold ensureOwned. destruct (SetControllerReference sb (meta K o)) as [m|e]; [|done].
  apply wp_bind, wp_call. intros r w' [_ [Hsb Hr]]. unfold okey in Hsb, Hr.
  rewrite meta_with_meta in Hsb, Hr. split; [done|].
  destruct r as [o'|e]; simpl; [destruct Hr as (_ & -> & _); eauto|].
  destruct (IsAlreadyExists e); [|done]. by destruct Hr as [? ->].
Qed.

(** [o] with the sandbox as its controller. *)
Definition owned_by {T} (K : Kind T) (sb : Sandbox) (o : T) : T :=
  with_meta K (set_owners [controllerRef sb] (meta K o)) o.

Lemma okey_owned_by {T} (K : Kind T) sb o : okey K (owned_by K sb o) = okey K o.
Proof. unfold okey, owned_by. by rewrite meta_with_meta. Qed.

(** An object that did not exist is created, owned by the sandbox. *)
Lemma wp_ensureOwned_fresh `{!ApiMachineryLaws AM} {T} (K : Kind T) (sb : Sandbox) o w :
  OwnerReferences (meta K o) = [] → Namespace (meta K o) = Namespace sb →
  view K w (okey K o) = None →
  wp (ensureOwned K sb o)
     (λ r w', same_but K (okey K o) w w' ∧
        match r with
        | Ok _ => ∃ o', view K w' (okey K o) = Some o' ∧ created_as K (owned_by K sb o) o'
        | Err _ => True
        end) w.
Proof.
  intros Ho Hns Hnone. unfold ensureOwned. rewrite SetControllerReference_fresh by done.
  apply wp_bind, wp_call. intros r w' [_ Hc].
  change (create_spec K (owned_by K sb o) w r w') in Hc.
  unfold create_spec in Hc. rewrite okey_owned_by in Hc. destruct Hc as [Hsb Hr]. split; [done|].
  destruct r as [o'|e]; simpl.
  - destruct Hr as (_ & Hv & Hc). by exists o'.
  - destruct (IsAlreadyExists e); [|done]. destruct (Hr eq_refl) as [[o' Ho'] _]. congruence.
Qed.

(** The outcome of a reconciliation that applied the profile [p]. *)
Definition granted (sb : Sandbox) (p : AccessProfile) (w : W) : Prop :=
  is_Some (view KServiceAccount w (nn (Namespace sb) (saName (Name sb)))) ∧
  (∀ ns, ns ∈ grantNamespaces p → bound_as (sandboxRoleBinding sb p ns) w) ∧
  bindings_within sb (grantNamespaces p) w.

Lemma wp_grant `{!ApiMachineryLaws AM} sb p w :
  (∀ ns, ns ∈ grantNamespaces p → settled KRoleBinding w (bindingKey sb ns)) →
  wp (ensureOwned KServiceAccount sb (sandboxServiceAccount sb p) ;;?
      for_each (grantNamespaces p) (λ ns, applyRoleBinding (sandboxRoleBinding sb p ns)) ;;?
      gcRBAC sb (grantNamespaces p))
     (λ r w', frame (rbac_target sb w) w w' ∧ match r with Ok _ => granted sb p w' | Err _ => True end) w.
Proof.
  intros Hset. apply wp_ebind. eapply wp_mono; [apply wp_ensureOwned|].
  simpl. rewrite SetControllerReference_fresh by done. cbn beta iota.
  intros r w1 [Hsb1 Hsa]. assert (frame (rbac_target sb w) w w1) as Hf1.
  { eapply frame_same_but; [done|]. by left. }
  destruct r as [[]|e]; [|done]. apply wp_ebind.
  eapply wp_mono; [apply wp_grant_loop; [apply NoDup_grantNamespaces|]|].
  { intros ns Hns o. rewrite (same_but_view _ _ _ _ _ _ Hsb1) by done. by apply Hset. }
  intros r w2 [Hf2 Hb2]. assert (frame (rbac_target sb w) w w2) as Hf2'.
  { eapply frame_trans; [done|]. eapply frame_mono; [done|]. intros t k [-> (ns & _ & ->)].
    right. split; [done|]. by left. }
  destruct r as [[]|e]; [|done]. eapply wp_mono; [apply wp_gcRBAC|].
  intros r w3 [Hf3 Hb3]. split.
  { eapply frame_trans; [done|]. eapply frame_mono; [done|]. intros t k [-> (rb & Hrb & Hl & _)].
    right. split; [done|]. destruct (decide (nn_Name k = roleBindingName (Name sb))) as [|Hne]; [by left|].
    right. exists rb. split; [|done]. rewrite <- Hrb, (frame_view KRoleBinding _ _ _ _ Hf2);
      [symmetry; by apply (same_but_view _ _ _ _ _ _ Hsb1)|].
    intros [_ (ns & _ & ->)]. by apply Hne. }
  destruct r as [[]|e]; [|done]. split; [|split; [|done]].
  - rewrite (frame_view KServiceAccount _ _ _ _ Hf3) by (intros [? _]; done).
    by rewrite (frame_view KServiceAccount _ _ _ _ Hf2) by (intros [? _]; done).
  - intros ns Hns. eapply bound_as_view; [|by apply Hb2].
    apply (frame_view KRoleBinding _ _ _ _ Hf3). by intros (_ & rb & _ & _ & Hnin).
Qed.

(** What [reconcileRBAC] establishes, by outcome: an error leaves the status
    as it was; [Ready] without a service account means there is no profile;
    [Ready] with one means the profile permits the namespace and is applied;
    not [Ready] means it is missing or does not. *)
Definition rbac_outcome (sb : Sandbox) (s : SandboxStatus) (w : W)
    (sr : SandboxStatus * res rbacResult) (w' : W) : Prop :=
  match sr.2 with
  | Err _ => sr.1 = s
  | Ok r =>
    st_ServiceAccountName sr.1 = rr_ServiceAccount r ∧
    (∃ st reason msg, st_Conditions sr.1 = SetStatusCondition (st_Conditions s)
        (conditionOf sb ConditionRBACReady st reason msg) ∧
      (rr_Ready r = true ↔ st = ConditionTrue)) ∧
    (∃ cs san, sr.1 = set_Conditions cs (set_ServiceAccountName san s)) ∧
    let p := view KAccessProfile w (nn "" (sp_AccessProfile (sb_Spec sb))) in
    if String.eqb (sp_AccessProfile (sb_Spec sb)) "" then
      r = {| rr_ServiceAccount := ""; rr_Ready := true |} ∧ no_bindings sb w'
    else match p with
         | Some p => if contains (aps_AllowedNamespaces (ap_Spec p)) (Namespace sb)
                     then r = {| rr_ServiceAccount := saName (Name sb); rr_Ready := true |}
                          ∧ granted sb p w'
                     else r = noRBAC ∧ no_bindings sb w'
         | None => r = noRBAC ∧ no_bindings sb w'
         end
  end.

Lemma gc_rbac_target sb keep w0 w1 w w' :
  (∀ k, view KRoleBinding w0 k = view KRoleBinding w1 k) →
  frame (gc_targets sb keep w0) w w' → frame (rbac_target sb w1) w w'.
Proof.
  intros Hv Hf. eapply frame_mono; [done|]. intros t k [-> (rb & Hrb & Hl & _)].
  right. split; [done|]. right. exists rb. by rewrite <- Hv.
Qed.

Lemma wp_reconcileRBAC `{!ApiMachineryLaws AM} sb s w :
  (∀ ns, settled KRoleBinding w (bindingKey sb ns)) →
  wp (reconcileRBAC sb s)
     (λ sr w', frame (rbac_target sb w) w w' ∧ rbac_outcome sb s w sr w') w.
Proof.
  intros Hset. unfold reconcileRBAC, rbac_outcome.
  destruct (String.eqb (sp_AccessProfile (sb_Spec sb)) "") eqn:Hnone.
  { eapply wp_mono; [apply wp_refuseRBAC|]. intros [s' r] w' [Hf Hr]. simpl in *.
    split; [by eapply gc_rbac_target|]. destruct r as [r|e]; [|done].
    destruct Hr as (-> & Hb & ->). simpl. split; [done|]. split; [|eauto].
    eexists _, _, _. split; [done|]. split; done. }
  apply wp_sbind, wp_attempt, wp_call. intros r w1 [_ [Hun Hr]]. cbn beta iota.
  pose proof (frame_unchanged (rbac_target sb w) _ _ Hun) as Hf1. destruct r as [p|e]; cbn [snd fst].
  2:{ destruct (IsNotFound e); [|done]. rewrite (Hr eq_refl).
      eapply wp_mono; [apply wp_refuseRBAC|]. intros [s' r] w' [Hf Hr']. simpl in *.
      split; [eapply frame_trans; [done|]; eapply gc_rbac_target; [|done]; intros; apply (proj1 Hun)|]. destruct r as [r|e']; [|done].
      destruct Hr' as (-> & Hb & ->). simpl. split; [done|]. split; [|eauto].
      eexists _, _, _. split; [done|]. split; done. }
  rewrite Hr. destruct (contains _ _) eqn:Hin; cbn [negb].
  2:{ eapply wp_mono; [apply wp_refuseRBAC|]. intros [s' r] w' [Hf Hr']. simpl in *.
      split; [eapply frame_trans; [done|]; eapply gc_rbac_target; [|done]; intros; apply (proj1 Hun)|]. destruct r as [r|e']; [|done].
      destruct Hr' as (-> & Hb & ->). simpl. split; [done|]. split; [|eauto].
      eexists _, _, _. split; [done|]. split; done. }
  assert (∀ ns, ns ∈ grantNamespaces p → settled KRoleBinding w1 (bindingKey sb ns)) as Hset1.
  { intros ns _ o. rewrite (proj1 Hun). apply Hset. }
  pose proof (wp_grant sb p w1 Hset1) as Hg.
  assert (∀ w2, frame (rbac_target sb w1) w1 w2 → frame (rbac_target sb w) w w2) as Hback.
  { intros w2 Hf2. eapply frame_trans; [done|]. eapply frame_mono; [done|]. intros t k.
    apply rbac_target_view. intros. apply (proj1 Hun). }
  apply wp_ebind_inv in Hg. apply wp_sbind_lift. eapply wp_mono; [exact Hg|]. clear Hg.
  intros [[]|e] w2 Hg; [|split; [|done]; apply Hback; by destruct Hg].
  apply wp_ebind_inv in Hg. apply wp_sbind_lift. eapply wp_mono; [exact Hg|]. clear Hg.
  intros [[]|e] w3 Hg; [|split; [|done]; apply Hback; by destruct Hg].
  apply wp_sbind_lift. eapply wp_mono; [exact Hg|]. clear Hg.
  intros [[]|e] w4 [Hf Hg]; (split; [by apply Hback|]); [|done].
  simpl. split; [done|]. split; [|eauto]. eexists _, _, _. split; done.
Qed.

(** ** The theorems *)

Context `{!ApiMachineryLaws AM} (env : Env W) `{!Conforms env}.

Lemma run_reconcileRBAC sb s w s' r w' :
  (∀ ns, settled KRoleBinding w (bindingKey sb ns)) →
  run env (reconcileRBAC sb s) w = ((s', Ok r), w') →
  frame (rbac_target sb w) w w' ∧ rbac_outcome sb s w (s', Ok r) w'.
Proof. intros Hset Hrun. exact (run_wp env _ _ _ _ _ Hrun (wp_reconcileRBAC sb s w Hset)). Qed.

(** C1. Default deny: with a profile that does not exist or does not allow the
    sandbox's namespace, the sandbox ends with no service account, no live
    role binding anywhere and RBACReady false, and is not let through. *)
Theorem rbac_default_deny sb s w s' r w' :
  (∀ ns, settled KRoleBinding w (bindingKey sb ns)) →
  sp_AccessProfile (sb_Spec sb) ≠ ""%string →
  (∀ p, view KAccessProfile w (nn "" (sp_AccessProfile (sb_Spec sb))) = Some p →
        Namespace sb ∉ aps_AllowedNamespaces (ap_Spec p)) →
  run env (reconcileRBAC sb s) w = ((s', Ok r), w') →
  rr_Ready r = false ∧ rr_ServiceAccount r = ""%string ∧ st_ServiceAccountName s' = ""%string ∧
  no_bindings sb w' ∧
  ∃ c, find_condition (st_Conditions s') ConditionRBACReady = Some c ∧ c_Status c ≠ ConditionTrue.
Proof.
  intros Hset Hne Hdeny Hrun. destruct (run_reconcileRBAC _ _ _ _ _ _ Hset Hrun) as [_ Ho].
  destruct Ho as (Hsa & (st & reason & msg & Hcs & Hready) & _ & Ho). simpl in *.
  destruct (String.eqb_spec (sp_AccessProfile (sb_Spec sb)) "") as [?|_]; [done|].
  assert (r = noRBAC ∧ no_bindings sb w') as [-> Hnb].
  { destruct (view KAccessProfile w _) as [p|]; [|done].
    destruct (contains _ _) eqn:Hc; [|done]. apply contains_true in Hc. by destruct (Hdeny p eq_refl). }
  split; [done|]. split; [done|]. split; [done|]. split; [done|].
  eexists. rewrite Hcs. split; [apply (SetStatusCondition_same _ (conditionOf _ _ _ _ _))|].
  intros E. simpl in E. by apply Hready in E.
Qed.

(** C2. A permitted profile ends with the sandbox's service account in place; in
    every namespace of its grants a live binding of that service account, and
    of nobody else, to the profile's role; and no live binding with the
    sandbox's UID anywhere else. *)
Theorem rbac_grants_exactly sb s w s' r w' p :
  (∀ ns, settled KRoleBinding w (bindingKey sb ns)) →
  sp_AccessProfile (sb_Spec sb) ≠ ""%string →
  view KAccessProfile w (nn "" (sp_AccessProfile (sb_Spec sb))) = Some p →
  Namespace sb ∈ aps_AllowedNamespaces (ap_Spec p) →
  run env (reconcileRBAC sb s) w = ((s', Ok r), w') →
  r = {| rr_ServiceAccount := saName (Name sb); rr_Ready := true |} ∧
  st_ServiceAccountName s' = saName (Name sb) ∧
  is_Some (view KServiceAccount w' (nn (Namespace sb) (saName (Name sb)))) ∧
  (∀ g ns, g ∈ aps_Grants (ap_Spec p) → ns ∈ gr_Namespaces g →
     ∃ rb, view KRoleBinding w' (nn ns (roleBindingName (Name sb))) = Some rb ∧
       DeletionTimestamp rb = None ∧ rb_Subjects rb = [sandboxSubject sb] ∧
       rref_Name (rb_RoleRef rb) = profileRoleName (Name p)) ∧
  (∀ k rb, view KRoleBinding w' k = Some rb → labelled sb rb → DeletionTimestamp rb = None →
     ∃ g, g ∈ aps_Grants (ap_Spec p) ∧ nn_Namespace k ∈ gr_Namespaces g).
Proof.
  intros Hset Hne Hp Hin Hrun. destruct (run_reconcileRBAC _ _ _ _ _ _ Hset Hrun) as [_ Ho].
  destruct Ho as (Hsa & _ & _ & Ho). simpl in *. rewrite Hp in Ho.
  destruct (String.eqb_spec (sp_AccessProfile (sb_Spec sb)) "") as [?|_]; [done|].
  apply contains_true in Hin. rewrite Hin in Ho. destruct Ho as [-> (H1 & H2 & H3)].
  split; [done|]. split; [done|]. split; [done|]. split.
  - intros g ns Hg Hns. destruct (H2 ns) as (rb & Hv & Hd & Href & Hsub);
      [apply elem_of_grantNamespaces; eauto|]. exists rb. split; [done|]. split; [done|].
    split; [done|]. by rewrite Href.
  - intros k rb Hv Hl Hd. apply elem_of_grantNamespaces. eauto.
Qed.

(** Whatever the outcome, RBAC reconciliation writes to the sandbox's service
    account, role bindings of its name and role bindings of its UID only. *)
Theorem rbac_writes_own sb s w sr w' :
  (∀ ns, settled KRoleBinding w (bindingKey sb ns)) →
  run env (reconcileRBAC sb s) w = (sr, w') →
  frame (rbac_target sb w) w w'.
Proof.
  intros Hset Hrun. exact (proj1 (run_wp env _ _ _ _ _ Hrun (wp_reconcileRBAC sb s w Hset))).
Qed.

End proofs.
