(* ===== verification/Bootstrap.v ===== *)
(** * Bootstrap secrets (internal/controller/ca.go, cmd/gateway.go)

    The certificate-authority secret and the gateway's host key are generated
    on first use and read ever after. The theorems: a call that succeeds
    returns what is stored, an existing secret is returned as it is and
    nothing is written, and nothing but the one secret can be written at
    all, so every component that ever succeeds sees the same keys. *)

From S2P Require Import Prelude KubeTypes ApiTypes Client SSHCA PodSpec SandboxRBAC.
From Stdlib Require Import String.
From stdpp Require Import base gmap strings list.
From Stdlib Require Import ZArith.
Local Open Scope Z_scope.

Definition CASecretName : string := "kubepark-ca".
Definition KeyUserCAPrivate : string := "user-ca.key".
Definition KeyUserCAPublic : string := "user-ca.pub".
Definition KeyHostCAPrivate : string := "host-ca.key".
Definition KeyHostCAPublic : string := "host-ca.pub".
Definition KeyCookieHMAC : string := "cookie-hmac".

(** [m[k]] on a Go map of byte slices: nil when absent. *)
Definition data_at (m : gmap string string) (k : string) : string := default "" (m !! k).

Definition OperatorNamespace : prog string :=
  ns ← call (EGetenv "POD_NAMESPACE");
  Ret (if String.eqb ns "" then "kubepark-system"%string else ns).

Section bootstrap.
Context `{SSH : SSHLib}.

(** [secrets.Create] after a lost race: the winner's secret if it can be
    read, the error otherwise. *)
Definition createOrFetch (secret : Secret) (wrap : error → error) : prog (res Secret) :=
  r ← call (ECreate KSecret secret);
  match r with
  | Ok stored => Ret (Ok stored)
  | Err e =>
    if IsAlreadyExists e then
      g ← call (EGet KSecret (okey KSecret secret));
      match g with
      | Ok existing => Ret (Ok existing)
      | Err _ => Ret (Err (wrap e))
      end
    else Ret (Err (wrap e))
  end.

Definition caSecret (namespace : string) (userCA hostCA : KeyPair) (hmacKey : string) : Secret :=
  {| sec_ObjectMeta := set_labels {["app.kubernetes.io/managed-by"%string := "kubepark"%string]}
                         (newMeta namespace CASecretName);
     sec_Data := list_to_map [(KeyUserCAPrivate, PrivatePEM userCA);
                              (KeyUserCAPublic, PublicAuthorized userCA);
                              (KeyHostCAPrivate, PrivatePEM hostCA);
                              (KeyHostCAPublic, PublicAuthorized hostCA);
                              (KeyCookieHMAC, hmacKey)] |}.

Definition EnsureCASecret (namespace : string) : prog (res Secret) :=
  r ← call (EGet KSecret (nn namespace CASecretName));
  match r with
  | Ok secret => Ret (Ok secret)
  | Err e =>
    if negb (IsNotFound e) then Ret (Err (WrapError "get CA secret" e))
    else
      userCA ←? GenerateKeyPair "kubepark-user-ca";
      hostCA ←? GenerateKeyPair "kubepark-host-ca";
      h ← call (ERandRead 32);
      match h with
      | Err e => Ret (Err (WrapError "generate cookie HMAC key" e))
      | Ok hmacKey => createOrFetch (caSecret namespace userCA hostCA hmacKey)
                        (WrapError "create CA secret")
      end
  end.

Definition gatewayHostKeyName : string := "kubepark-gateway-hostkey".
Definition keyHostKey : string := "ssh_host_ed25519_key".

Definition gatewaySecret (namespace : string) (kp : KeyPair) : Secret :=
  {| sec_ObjectMeta := newMeta namespace gatewayHostKeyName;
     sec_Data := list_to_map [(keyHostKey, PrivatePEM kp);
                              ("ssh_host_ed25519_key.pub"%string, PublicAuthorized kp)] |}.

Definition gatewayHostKey (namespace : string) : prog (res string) :=
  r ← call (EGet KSecret (nn namespace gatewayHostKeyName));
  match r with
  | Ok secret => Ret (Ok (data_at (sec_Data secret) keyHostKey))
  | Err e =>
    if negb (IsNotFound e) then Ret (Err e)
    else
      kp ←? GenerateKeyPair "kubepark-gateway";
      c ← call (ECreate KSecret (gatewaySecret namespace kp));
      match c with
      | Ok _ => Ret (Ok (PrivatePEM kp))
      | Err e =>
        if IsAlreadyExists e then
          g ← call (EGet KSecret (nn namespace gatewayHostKeyName));
          match g with
          | Ok existing => Ret (Ok (data_at (sec_Data existing) keyHostKey))
          | Err _ => Ret (Err e)
          end
        else Ret (Err e)
      end
  end.

End bootstrap.

(** ** Proofs *)

Section proofs.
Context `{SSH : SSHLib} {W : Type} `{World W}.

Lemma wp_OperatorNamespace w :
  wp OperatorNamespace (λ ns w', unchanged w w' ∧
     ns = (if String.eqb (environ w "POD_NAMESPACE") "" then "kubepark-system"%string
           else environ w "POD_NAMESPACE")) w.
Proof. intros ns w' [_ [Hun ->]]. done. Qed.

Lemma wp_GenerateKeyPair comment w : wp (GenerateKeyPair comment) (λ _ w', unchanged w w') w.
Proof.
  apply wp_bind, wp_call. intros [[pub priv]|e] w' [_ Hun]; cbn beta iota; [|done].
  destruct (MarshalPrivateKey _ _); [|done]. by destruct (NewPublicKey _).
Qed.

Lemma wp_createOrFetch secret wrap w :
  wp (createOrFetch secret wrap) (λ r w', same_but KSecret (okey KSecret secret) w w' ∧
     match r with Ok s => view KSecret w' (okey KSecret secret) = Some s | Err _ => True end) w.
Proof.
  apply wp_bind, wp_call. intros [s|e] w1 [_ [Hsb Hr]]; cbn beta iota.
  - split; [done|]. by destruct Hr as (_ & ? & _).
  - destruct (IsAlreadyExists e) eqn:He; [|done]. intros [s|e'] w2 [_ [Hun Hg]]; cbn beta iota;
      (split; [eapply same_but_trans; [done|]; by apply unchanged_same_but|]); [|done].
    by rewrite (proj1 Hun).
Qed.

(** What a bootstrap function promises about the secret at [k] whose part
    [f] it returns. *)
Definition ensures {A} (k : NamespacedName) (f : Secret → A) (w : W) (r : res A) (w' : W) : Prop :=
  same_but KSecret k w w' ∧
  (is_Some (view KSecret w k) → unchanged w w') ∧
  match r with Ok a => ∃ s, view KSecret w' k = Some s ∧ f s = a | Err _ => True end.

Lemma wp_EnsureCASecret namespace w :
  wp (EnsureCASecret namespace)
     (ensures (nn namespace CASecretName) id w) w.
Proof.
  apply wp_bind, wp_call. intros [s|e] w1 [_ [Hun Hr]]; cbn beta iota.
  { split; [by apply unchanged_same_but|]. split; [done|]. exists s. by rewrite (proj1 Hun). }
  destruct (IsNotFound e) eqn:He; cbn [negb];
    [|split; [by apply unchanged_same_but|done]].
  specialize (Hr eq_refl). apply wp_ebind. eapply wp_mono; [apply wp_GenerateKeyPair|].
  intros [userCA|?] w2 Hun2; pose proof (unchanged_trans _ _ _ Hun Hun2) as Hu2;
    [|split; [by apply unchanged_same_but|done]].
  apply wp_ebind. eapply wp_mono; [apply wp_GenerateKeyPair|].
  intros [hostCA|?] w3 Hun3; pose proof (unchanged_trans _ _ _ Hu2 Hun3) as Hu3;
    [|split; [by apply unchanged_same_but|done]].
  apply wp_bind, wp_call. intros [hmac|?] w4 [_ [Hun4 _]]; cbn beta iota;
    pose proof (unchanged_trans _ _ _ Hu3 Hun4) as Hu4;
    [|split; [by apply unchanged_same_but|done]].
  eapply wp_mono; [apply wp_createOrFetch|]. intros r w5 [Hsb Hv].
  split; [eapply same_but_trans; [by apply unchanged_same_but|done]|]. split.
  - intros [o Ho]. congruence.
  - destruct r as [s|]; [|done]. by exists s.
Qed.

Lemma gatewaySecret_data namespace kp :
  data_at (sec_Data (gatewaySecret namespace kp)) keyHostKey = PrivatePEM kp.
Proof. done. Qed.

Lemma wp_gatewayHostKey namespace w :
  wp (gatewayHostKey namespace)
     (ensures (nn namespace gatewayHostKeyName) (λ s, data_at (sec_Data s) keyHostKey) w) w.
Proof.
  apply wp_bind, wp_call. intros [s|e] w1 [_ [Hun Hr]]; cbn beta iota.
  { split; [by apply unchanged_same_but|]. split; [done|]. exists s. by rewrite (proj1 Hun). }
  destruct (IsNotFound e) eqn:He; cbn [negb];
    [|split; [by apply unchanged_same_but|done]].
  specialize (Hr eq_refl). apply wp_ebind. eapply wp_mono; [apply wp_GenerateKeyPair|].
  intros [kp|?] w2 Hun2; pose proof (unchanged_trans _ _ _ Hun Hun2) as Hu2;
    [|split; [by apply unchanged_same_but|done]].
  assert (is_Some (view KSecret w (nn namespace gatewayHostKeyName)) → False) as Hno.
  { intros [o Ho]. congruence. }
  apply wp_bind, wp_call. intros [s|e'] w3 [_ [Hsb Hc]]; cbn beta iota.
  - split; [eapply same_but_trans; [by apply unchanged_same_but|done]|]. split; [done|].
    destruct Hc as (_ & Hv & uid & gen & rv & t & ->). eexists. split; [exact Hv|].
    apply gatewaySecret_data.
  - assert (same_but KSecret (nn namespace gatewayHostKeyName) w w3) as Hsb3.
    { eapply same_but_trans; [by apply unchanged_same_but|done]. }
    destruct (IsAlreadyExists e'); [|done]. intros g w4 [_ [Hun4 Hg]].
    assert (same_but KSecret (nn namespace gatewayHostKeyName) w w4) as Hsb4.
    { eapply same_but_trans; [done|]. by apply unchanged_same_but. }
    destruct g as [s|?]; [|done]. split; [done|]. split; [done|].
    exists s. by rewrite (proj1 Hun4).
Qed.

(** The authority secret is stable: once a call has succeeded, any later call
    leaves the cluster alone and, if it succeeds, returns the same secret. *)
Theorem EnsureCASecret_stable (env : Env W) `{!Conforms env} namespace w s w1 r w2 :
  run env (EnsureCASecret namespace) w = (Ok s, w1) →
  run env (EnsureCASecret namespace) w1 = (r, w2) →
  unchanged w1 w2 ∧ (∀ s', r = Ok s' → s' = s).
Proof.
  intros H1 H2.
  destruct (run_wp env _ _ _ _ _ H1 (wp_EnsureCASecret namespace w)) as (_ & _ & s1 & Hv & <-).
  destruct (run_wp env _ _ _ _ _ H2 (wp_EnsureCASecret namespace w1)) as (_ & Hun & Hr).
  specialize (Hun (ex_intro _ _ Hv)). split; [done|]. intros s' ->.
  destruct Hr as (s2 & Hv2 & <-). rewrite (proj1 Hun) in Hv2. unfold id in *. congruence.
Qed.

(** The same for the gateway's host key. *)
Theorem gatewayHostKey_stable (env : Env W) `{!Conforms env} namespace w k w1 r w2 :
  run env (gatewayHostKey namespace) w = (Ok k, w1) →
  run env (gatewayHostKey namespace) w1 = (r, w2) →
  unchanged w1 w2 ∧ (∀ k', r = Ok k' → k' = k).
Proof.
  intros H1 H2.
  destruct (run_wp env _ _ _ _ _ H1 (wp_gatewayHostKey namespace w)) as (_ & _ & s1 & Hv & <-).
  destruct (run_wp env _ _ _ _ _ H2 (wp_gatewayHostKey namespace w1)) as (_ & Hun & Hr).
  specialize (Hun (ex_intro _ _ Hv)). split; [done|]. intros k' ->.
  destruct Hr as (s2 & Hv2 & <-). rewrite (proj1 Hun) in Hv2. congruence.
Qed.

End proofs.
