(* ===== verification/SandboxHome.v ===== *)
(** * The home volume of a sandbox (internal/controller/sandbox_controller.go)

    [reconcileHome] creates the sandbox's claim or adopts an existing one,
    guarding a shared claim with a deterministic tie-break. The theorems: the
    tie-break is a strict total order, the guard reports exactly the
    contenders that win it, two sandboxes that name one claim, neither being
    deleted nor both stopped and suspended, are not both admitted in one state
    of the cluster, and an admitted sandbox has the claim its pod will mount. *)

From S2P Require Import Prelude GoStrings KubeTypes ApiTypes Client Libs PodSpec StatusMonad SandboxRBAC.
From Stdlib Require Import String.
From stdpp Require Import base gmap strings list.
From Stdlib Require Import ZArith Lia.
Local Open Scope Z_scope.

Section home.
Context `{AM : ApiMachinery}.

(** [wins a b]: [a] beats [b] in the claim tie-break. *)
Definition wins (a b : Sandbox) : bool :=
  let at_ := CreationTimestamp a in
  let bt := CreationTimestamp b in
  if negb (at_ =? bt) then time_Before at_ bt
  else String.ltb (UID a) (UID b).

Definition ownerOfGeneratedClaim (claim : string) : option string :=
  match GoStrings.strip_prefix "kubepark-home-" claim with
  | Some rest => if String.eqb rest "" then None else Some rest
  | None => None
  end.

(** The loop body of [claimConflict]: does [other] keep [sb] from the claim? *)
Definition blocks (sb other : Sandbox) : bool :=
  if String.eqb (UID other) (UID sb) || negb (ptr_IsZero (DeletionTimestamp other)) then false
  else if bool_decide (sp_DesiredState (sb_Spec other) = DesiredStateStopped)
          && bool_decide (st_Phase (sb_Status other) = SandboxPhaseSuspended) then false
  else wins other sb.

Definition firstConflict (sb : Sandbox) (candidates : list Sandbox) : string :=
  match find_first (blocks sb) candidates with
  | Some other => Name other
  | None => ""
  end.

(** The sandbox that owns a generated claim, when it is another one. *)
Definition generatedClaimOwner (sb : Sandbox) (claim : string) : prog (res (list Sandbox)) :=
  match ownerOfGeneratedClaim claim with
  | Some owner =>
    if negb (String.eqb owner (Name sb)) then
      r ← call (EGet KSandbox (nn (Namespace sb) owner));
      match r with
      | Ok ownerSb => Ret (Ok [ownerSb])
      | Err e => if negb (IsNotFound e) then Ret (Err e) else Ret (Ok [])
      end
    else Ret (Ok [])
  | None => Ret (Ok [])
  end.

Definition claimSelector (ns claim : string) : ListOptions :=
  {| lo_Namespace := Some ns; lo_Labels := [];
     lo_Field := Some (indexSandboxExistingClaim, claim) |}.

Definition claimConflict (sb : Sandbox) (claim : string) : prog (res string) :=
  others ←? call (EList KSandbox (claimSelector (Namespace sb) claim));
  owner ←? generatedClaimOwner sb claim;
  Ret (Ok (firstConflict sb (others ++ owner))).

Definition existingClaim (sb : Sandbox) : string :=
  match sp_Home (sb_Spec sb) with Some h => h_ExistingClaim h | None => "" end.

(** The end of [reconcileHome]: the claim is in place. *)
Definition homeReady (sb : Sandbox) (claim : string) : SM (option Result) :=
  modify (set_PVCName claim) ;;!
  setCondition sb ConditionHomeReady ConditionTrue ReasonProvisioning "home volume ready" ;;!
  sret None.

(** A claim that cannot be used yet. *)
Definition homeBlocked (sb : Sandbox) (reason message : string) (r : Result) : SM (option Result) :=
  modify (set_Phase SandboxPhasePending) ;;!
  setCondition sb ConditionHomeReady ConditionFalse reason message ;;!
  sret (Some r).

(** [Some r]: stop this reconciliation with result [r]. *)
Definition reconcileHome (sb : Sandbox) : SM (option Result) :=
  if negb (String.eqb (existingClaim sb) "") then
    let claim := existingClaim sb in
    conflict ←! lift (claimConflict sb claim);
    if negb (String.eqb conflict "") then
      homeBlocked sb ReasonClaimInUse
        ("claim " +:+ quote claim +:+ " is in use by sandbox " +:+ quote conflict)
        {| RequeueAfter := 30 * Second |}
    else
      r ←! attempt (call (EGet KPVC (nn (Namespace sb) claim)));
      match r with
      | Err e =>
        if IsNotFound e then
          homeBlocked sb ReasonInvalidRef
            ("existing claim " +:+ quote claim +:+ " not found") noResult
        else sthrow e
      | Ok _ => homeReady sb claim
      end
  else
    let claim := PVCName (Name sb) in
    tpl ←! lift (call (EGet KTemplate (nn "" (sp_Template (sb_Spec sb)))));
    r ←! attempt (call (EGet KPVC (nn (Namespace sb) claim)));
    match r with
    | Err e =>
      if IsNotFound e then
        lift (c ← call (ECreate KPVC (BuildPVC sb tpl)); Ret (IgnoreAlreadyExists (to_unit c))) ;;!
        homeReady sb claim
      else sthrow e
    | Ok _ => homeReady sb claim
    end.

End home.

(** ** The tie-break *)

Lemma wins_irrefl a : wins a a = false.
Proof.
  unfold wins. rewrite Z.eqb_refl. simpl.
  destruct (String.ltb (UID a) (UID a)) eqn:E; [|done]. by rewrite (ltb_asym _ _ E) in E.
Qed.

Lemma wins_asym a b : wins a b = true → wins b a = false.
Proof.
  unfold wins, time_Before. rewrite (Z.eqb_sym (CreationTimestamp b)).
  destruct (Z.eqb_spec (CreationTimestamp a) (CreationTimestamp b)); simpl.
  - apply ltb_asym.
  - rewrite Z.ltb_lt, Z.ltb_ge. lia.
Qed.

Lemma wins_trans a b c : wins a b = true → wins b c = true → wins a c = true.
Proof.
  unfold wins, time_Before.
  destruct (Z.eqb_spec (CreationTimestamp a) (CreationTimestamp b)),
           (Z.eqb_spec (CreationTimestamp b) (CreationTimestamp c)),
           (Z.eqb_spec (CreationTimestamp a) (CreationTimestamp c)); simpl;
    rewrite ?Z.ltb_lt; try lia. apply ltb_trans.
Qed.

Lemma wins_total (a b : Sandbox) : UID a ≠ UID b → wins a b = true ∨ wins b a = true.
Proof.
  intros Hne. unfold wins, time_Before. rewrite (Z.eqb_sym (CreationTimestamp b)).
  destruct (Z.eqb_spec (CreationTimestamp a) (CreationTimestamp b)); simpl.
  - by apply ltb_total.
  - rewrite !Z.ltb_lt. lia.
Qed.

Lemma ownerOfGeneratedClaim_Some claim owner :
  ownerOfGeneratedClaim claim = Some owner ↔ claim = PVCName owner ∧ owner ≠ ""%string.
Proof.
  unfold ownerOfGeneratedClaim, PVCName. destruct (GoStrings.strip_prefix _ _) as [r|] eqn:E.
  - apply strip_prefix_Some in E as ->. destruct (String.eqb_spec r "") as [->|Hr].
    + split; [done|]. intros [E Hne]. by apply append_inj_l in E.
    + split; [by intros [= <-]|]. intros [E _]. apply append_inj_l in E. by subst.
  - split; [done|]. intros [-> _].
    assert (GoStrings.strip_prefix "kubepark-home-" ("kubepark-home-" +:+ owner) = Some owner)
      by by apply strip_prefix_Some. congruence.
Qed.

(** ** The guard *)

Section proofs.
Context `{AM : ApiMachinery} {W : Type} `{World W}.

(** [other] uses the claim of [sb], or owns it as its generated one. *)
Definition shares (sb : Sandbox) (claim : string) (other : Sandbox) : Prop :=
  existingClaim other = claim ∨
  (claim = PVCName (Name other) ∧ Name other ≠ ""%string ∧ Name other ≠ Name sb).

(** The sandboxes that keep [sb] from the claim in a world. *)
Definition conflicting (sb : Sandbox) (claim : string) (w : W) (other : Sandbox) : Prop :=
  view KSandbox w (nn (Namespace sb) (Name other)) = Some other ∧
  shares sb claim other ∧ blocks sb other = true.

Lemma blocks_true sb other :
  blocks sb other = true ↔
  UID other ≠ UID sb ∧ ptr_IsZero (DeletionTimestamp other) = true ∧
  ¬ (sp_DesiredState (sb_Spec other) = DesiredStateStopped ∧
     st_Phase (sb_Status other) = SandboxPhaseSuspended) ∧ wins other sb = true.
Proof.
  unfold blocks. destruct (String.eqb_spec (UID other) (UID sb)); simpl; [naive_solver|].
  destruct (ptr_IsZero (DeletionTimestamp other)); simpl; [|naive_solver].
  repeat case_bool_decide; simpl; naive_solver.
Qed.

Lemma claim_index sb claim :
  claim ≠ ""%string → (claim ∈ sandboxIndex indexSandboxExistingClaim sb ↔ existingClaim sb = claim).
Proof.
  intros Hne. unfold sandboxIndex, existingClaim. simpl.
  destruct (sp_Home (sb_Spec sb)) as [h|].
  - destruct (String.eqb_spec (h_ExistingClaim h) "") as [E|E].
    + rewrite elem_of_nil, E. naive_solver.
    + rewrite list_elem_of_singleton. naive_solver.
  - rewrite elem_of_nil. naive_solver.
Qed.

Lemma selected_claim ns claim (o : Sandbox) :
  claim ≠ ""%string →
  (selected KSandbox (claimSelector ns claim) o = true ↔
   Namespace o = ns ∧ existingClaim o = claim).
Proof.
  intros Hne. unfold selected. simpl.
  rewrite andb_true_r, andb_true_iff, String.eqb_eq, contains_true.
  by rewrite (claim_index o claim Hne).
Qed.

Lemma wp_generatedClaimOwner sb claim w :
  wp (generatedClaimOwner sb claim)
     (λ r w', unchanged w w' ∧
        match r with
        | Ok l => ∀ o : Sandbox, o ∈ l ↔ view KSandbox w (nn (Namespace sb) (Name o)) = Some o ∧
                    claim = PVCName (Name o) ∧ Name o ≠ ""%string ∧ Name o ≠ Name sb
        | Err _ => True
        end) w.
Proof.
  unfold generatedClaimOwner. destruct (ownerOfGeneratedClaim claim) as [owner|] eqn:Ho.
  - apply ownerOfGeneratedClaim_Some in Ho as [-> Hne].
    destruct (String.eqb_spec owner (Name sb)) as [->|Hsb]; cbn [negb].
    + split; [apply unchanged_refl|]. intros o. split; [intros Hx; by apply not_elem_of_nil in Hx|].
      intros (_ & E & _ & Hx). unfold PVCName in E. by apply append_inj_l in E.
    + apply wp_bind, wp_call. intros [x|e] w1 [_ [Hun Hr]]; cbn beta iota.
      * split; [done|]. intros o. rewrite list_elem_of_singleton.
        pose proof (view_key _ _ _ _ _ Hr) as Hk. unfold okey, keyOf, nn in Hk. simpl in Hk.
        simplify_eq. split; [by intros ->|]. intros (Hv & E & _).
        unfold PVCName in E. apply append_inj_l in E. rewrite <- E in Hv. congruence.
      * destruct (IsNotFound e); cbn [negb]; [|done]. split; [done|]. intros o.
        split; [intros Hx; by apply not_elem_of_nil in Hx|]. intros (Hv & E & _).
        unfold PVCName in E. apply append_inj_l in E. subst. rewrite Hr in Hv; done.
  - split; [apply unchanged_refl|]. intros o. split; [intros Hx; by apply not_elem_of_nil in Hx|].
    intros (_ & E & Hne & _).
    assert (ownerOfGeneratedClaim claim = Some (Name o)) by by apply ownerOfGeneratedClaim_Some.
    congruence.
Qed.

(** What a successful answer of [claimConflict] means. *)
Definition conflict_answer (sb : Sandbox) (claim : string) (w : W) (name : string) : Prop :=
  (name = ""%string ∧ ∀ o, ¬ conflicting sb claim w o) ∨
  ∃ o, conflicting sb claim w o ∧ name = Name o.

Lemma wp_claimConflict sb claim w :
  claim ≠ ""%string →
  wp (claimConflict sb claim)
     (λ r w', unchanged w w' ∧
        match r with Ok name => conflict_answer sb claim w name | Err _ => True end) w.
Proof.
  intros Hne. apply wp_ebind, wp_call. intros [l|e] w1 [_ [Hun Hl]]; cbn beta iota; [|done].
  destruct Hl as [Hl _]. apply wp_ebind. eapply wp_mono; [apply wp_generatedClaimOwner|].
  intros [l2|e] w2 [Hun2 Hl2]; (split; [by eapply unchanged_trans|]); [|done].
  assert (∀ o : Sandbox, o ∈ l ++ l2 ↔ view KSandbox w (nn (Namespace sb) (Name o)) = Some o ∧ shares sb claim o) as Hin.
  { intros o. rewrite elem_of_app, Hl, Hl2, (proj1 Hun), selected_claim by done.
    unfold shares, okey, keyOf, nn. simpl. split.
    - intros [(Hv & <- & Hc)|(Hv & Hc)]; auto.
    - intros [Hv [Hc|Hc]]; [|auto]. left. pose proof (view_key _ _ _ _ _ Hv) as Hk.
      unfold okey, keyOf in Hk. simpl in Hk. injection Hk as Hns. rewrite Hns. auto. }
  unfold firstConflict. destruct (find_first (blocks sb) (l ++ l2)) as [o|] eqn:Hf.
  - right. exists o. apply find_first_Some in Hf as [Ho Hb]. apply Hin in Ho as [Hv Hs].
    done.
  - left. split; [done|]. intros o (Hv & Hs & Hb). rewrite find_first_None in Hf.
    assert (blocks sb o = false) by by apply Hf, Hin. congruence.
Qed.

(** ** The whole step *)

(** The claim is there and recorded. *)
Definition home_admitted (sb : Sandbox) (s s' : SandboxStatus) (w' : W) : Prop :=
  is_Some (view KPVC w' (nn (Namespace sb) (homeClaim sb))) ∧
  s' = set_Conditions (SetStatusCondition (st_Conditions s)
         (conditionOf sb ConditionHomeReady ConditionTrue ReasonProvisioning "home volume ready"))
         (set_PVCName (homeClaim sb) s).

(** What may change: nothing for an existing claim, the generated claim
    otherwise, and that only when it does not exist. *)
Definition home_frame (sb : Sandbox) (w w' : W) : Prop :=
  if String.eqb (existingClaim sb) ""
  then same_but KPVC (nn (Namespace sb) (PVCName (Name sb))) w w' ∧
       ∀ pvc, view KPVC w (nn (Namespace sb) (PVCName (Name sb))) = Some pvc →
              view KPVC w' (nn (Namespace sb) (PVCName (Name sb))) = Some pvc
  else unchanged w w'.

Definition home_blocked (sb : Sandbox) (s s' : SandboxStatus) : Prop :=
  ∃ reason msg, s' = set_Conditions (SetStatusCondition (st_Conditions s)
         (conditionOf sb ConditionHomeReady ConditionFalse reason msg))
         (set_Phase SandboxPhasePending s).

Definition home_outcome (sb : Sandbox) (s : SandboxStatus) (w : W)
    (sr : SandboxStatus * res (option Result)) (w' : W) : Prop :=
  match sr.2 with
  | Ok None => home_admitted sb s sr.1 w' ∧
      (existingClaim sb ≠ ""%string → ∀ o, ¬ conflicting sb (existingClaim sb) w o)
  | Ok (Some _) => existingClaim sb ≠ ""%string ∧ home_blocked sb s sr.1 ∧
      ((∃ o, conflicting sb (existingClaim sb) w o) ∨
       view KPVC w (nn (Namespace sb) (existingClaim sb)) = None)
  | Err _ => sr.1 = s
  end.

Lemma homeClaim_existing sb :
  homeClaim sb = if String.eqb (existingClaim sb) "" then PVCName (Name sb) else existingClaim sb.
Proof. unfold homeClaim, existingClaim. by destruct (sp_Home (sb_Spec sb)). Qed.

Lemma conflict_name sb claim w name :
  conflict_answer sb claim w name → name = ""%string →
  (∀ o, view KSandbox w (nn (Namespace sb) "") ≠ Some o) →
  ∀ o, ¬ conflicting sb claim w o.
Proof.
  intros [[_ Hn]|(o & (Hv & _) & ->)] Heq Hnoname; [done|].
  exfalso. rewrite Heq in Hv. by eapply Hnoname.
Qed.

(** No object is stored under the empty name. *)
Definition named (w : W) : Prop := ∀ ns o, view KSandbox w (nn ns "") ≠ Some o.

Lemma wp_reconcileHome_existing sb s w :
  named w → existingClaim sb ≠ ""%string →
  wp (reconcileHome sb s) (λ sr w', unchanged w w' ∧ home_outcome sb s w sr w') w.
Proof.
  intros Hn Hne. unfold reconcileHome, home_outcome, home_admitted. rewrite homeClaim_existing.
  destruct (String.eqb_spec (existingClaim sb) "") as [|_]; [done|]. cbn [negb].
  apply wp_sbind_lift. eapply wp_mono; [by apply wp_claimConflict|].
  intros [name|e] w1 [Hun Hc]; [|done].
  destruct (String.eqb_spec name "") as [Hname|Hname]; cbn [negb];
    [|split; [done|]; split; [done|]; split; [by eexists _, _|]; left;
      destruct Hc as [[? _]|(o & Ho & _)]; [done|by exists o]].
  apply wp_sbind, wp_attempt, wp_call. intros r w2 [_ [Hun2 Hr]].
  pose proof (unchanged_trans _ _ _ Hun Hun2) as Hu. destruct r as [pvc|e]; cbn [snd fst].
  - split; [done|]. split; [|by intros _; eapply conflict_name].
    split; [|done]. rewrite (proj1 Hun2). simpl. rewrite Hr. eauto.
  - destruct (IsNotFound e) eqn:He; (split; [done|]); [|done]. split; [done|]. split; [by eexists _, _|].
    right. rewrite <- (proj1 Hun). by apply Hr.
Qed.

Lemma wp_reconcileHome_generated sb s w :
  existingClaim sb = ""%string →
  wp (reconcileHome sb s) (λ sr w', home_frame sb w w' ∧ home_outcome sb s w sr w') w.
Proof.
  intros He. unfold reconcileHome, home_outcome, home_admitted, home_frame.
  rewrite homeClaim_existing, He. simpl String.eqb. cbn [negb].
  set (k := nn (Namespace sb) (PVCName (Name sb))).
  assert (∀ w w', unchanged w w' → same_but KPVC k w w' ∧
            ∀ pvc, view KPVC w k = Some pvc → view KPVC w' k = Some pvc) as Hsame.
  { intros v v' Hun. split; [by apply unchanged_same_but|]. intros pvc. by rewrite (proj1 Hun). }
  apply wp_sbind_lift, wp_call. intros [tpl|e] w1 [_ [Hun1 _]]; [|split; [by apply Hsame|done]].
  apply wp_sbind, wp_attempt, wp_call. intros r w2 [_ [Hun2 Hr]].
  pose proof (unchanged_trans _ _ _ Hun1 Hun2) as Hu. destruct r as [pvc|e]; cbn [snd fst].
  { split; [by apply Hsame|]. split; [|done]. split; [|done]. rewrite (proj1 Hun2), Hr. eauto. }
  destruct (IsNotFound e) eqn:Hnf; [|split; [by apply Hsame|done]].
  apply wp_sbind_lift, wp_bind, wp_call. intros c w3 [_ [Hsb Hc]].
  change (okey KPVC (BuildPVC sb tpl)) with k in Hsb, Hc.
  assert (same_but KPVC k w w3 ∧ ∀ pvc, view KPVC w k = Some pvc → view KPVC w3 k = Some pvc) as Hf.
  { split; [eapply same_but_trans; [by apply unchanged_same_but|done]|].
    intros pvc Hv. rewrite <- (proj1 Hun1), (Hr eq_refl) in Hv. done. }
  destruct c as [pvc|e']; simpl.
  - split; [done|]. split; [|done]. split; [|done]. destruct Hc as (_ & -> & _). eauto.
  - destruct (IsAlreadyExists e') eqn:Hae; (split; [done|]); [|done].
    split; [|done]. split; [|done]. by destruct (Hc eq_refl) as [? ->].
Qed.

Lemma wp_reconcileHome sb s w :
  named w → wp (reconcileHome sb s) (λ sr w', home_frame sb w w' ∧ home_outcome sb s w sr w') w.
Proof.
  intros Hn. destruct (decide (existingClaim sb = ""%string)) as [He|He];
    [by apply wp_reconcileHome_generated|].
  eapply wp_mono; [by apply wp_reconcileHome_existing|]. intros sr w' [Hun Ho]. split; [|done].
  unfold home_frame. by destruct (String.eqb_spec (existingClaim sb) "").
Qed.

(** ** The theorems *)

(** The tie-break orders sandboxes of different UIDs strictly and totally. *)
Theorem wins_strict_total_order :
  (∀ a, wins a a = false) ∧
  (∀ a b, wins a b = true → wins b a = false) ∧
  (∀ a b c, wins a b = true → wins b c = true → wins a c = true) ∧
  (∀ a b : Sandbox, UID a ≠ UID b → wins a b = true ∨ wins b a = true).
Proof.
  split; [apply wins_irrefl|]. split; [apply wins_asym|].
  split; [apply wins_trans|apply wins_total].
Qed.

(** The guard names a sandbox that shares the claim, is alive and not
    suspended and wins the tie-break, and passes only when there is none. *)
Theorem claimConflict_exact (env : Env W) `{!Conforms env} sb claim w name w' :
  claim ≠ ""%string →
  run env (claimConflict sb claim) w = (Ok name, w') →
  unchanged w w' ∧
  ((name = ""%string ∧ ∀ o, ¬ conflicting sb claim w o) ∨
   ∃ o, conflicting sb claim w o ∧ name = Name o).
Proof. intros Hne Hrun. exact (run_wp env _ _ _ _ _ Hrun (wp_claimConflict sb claim w Hne)). Qed.

(** A sandbox that holds, or waits for, the claim it names. *)
Definition claimant (w : W) (sb : Sandbox) : Prop :=
  view KSandbox w (okey KSandbox sb) = Some sb ∧
  ptr_IsZero (DeletionTimestamp sb) = true ∧
  ¬ (sp_DesiredState (sb_Spec sb) = DesiredStateStopped ∧
     st_Phase (sb_Status sb) = SandboxPhaseSuspended).

Lemma claimants_beat w (a b : Sandbox) :
  claimant w a → UID a ≠ UID b → Namespace a = Namespace b → existingClaim a = existingClaim b →
  wins a b = true → conflicting b (existingClaim b) w a.
Proof.
  intros (Va & La & Sa) Hu Hns Hc Hw. unfold conflicting, shares, nn. unfold okey, keyOf in Va. simpl in Va.
  rewrite blocks_true, <- Hns. auto 10.
Qed.

(** When the step came to a decision about an existing claim, it admitted the
    sandbox exactly if nothing that wins the tie-break shares the claim and the
    claim exists. *)
Lemma home_decision sb s w s' r w' :
  existingClaim sb ≠ ""%string → unchanged w w' → home_outcome sb s w (s', Ok r) w' →
  r = None ↔ (∀ o, ¬ conflicting sb (existingClaim sb) w o) ∧
             is_Some (view KPVC w (nn (Namespace sb) (existingClaim sb))).
Proof.
  intros Hne Hun Ho. unfold home_outcome in Ho. simpl in Ho. destruct r as [res|].
  - split; [done|]. intros [Hno [x Hx]]. destruct Ho as (_ & _ & [[o Hc]|Hn]); [by destruct (Hno o)|congruence].
  - split; [|done]. intros _. destruct Ho as [[Hv _] Hno]. split; [by apply Hno|].
    rewrite homeClaim_existing, (proj1 Hun) in Hv. by destruct (String.eqb_spec (existingClaim sb) "").
Qed.

Lemma conflicting_unchanged sb claim w w' o :
  unchanged w w' → conflicting sb claim w' o ↔ conflicting sb claim w o.
Proof. intros [Hv _]. unfold conflicting. by rewrite Hv. Qed.

(** C8. Exclusion at the door. Take two sandboxes of a namespace that name the
    same existing claim, neither being deleted nor both stopped by its user and
    suspended already, and reconcile the home of one and then of the other with nothing
    happening in between. If both steps come to a decision, at most one admits
    its sandbox, and it is not the one that loses the tie-break; and each admits
    its sandbox exactly when no sandbox that beats it shares the claim and the
    claim exists. This is about admission: a pod that is already running is not
    taken away when another sandbox wins the claim. *)
Theorem existing_claim_exclusive (env : Env W) `{!Conforms env} (a b : Sandbox) sa sb' s1 s2 w w1 r1 r2 w2 :
  named w → claimant w a → claimant w b → UID a ≠ UID b → Namespace a = Namespace b →
  existingClaim a = existingClaim b → existingClaim a ≠ ""%string →
  run env (reconcileHome a sa) w = ((s1, Ok r1), w1) →
  run env (reconcileHome b sb') w1 = ((s2, Ok r2), w2) →
  ¬ (r1 = None ∧ r2 = None) ∧
  (wins a b = true → r2 ≠ None) ∧ (wins b a = true → r1 ≠ None) ∧
  (r1 = None ↔ (∀ o, ¬ conflicting a (existingClaim a) w o) ∧
               is_Some (view KPVC w (nn (Namespace a) (existingClaim a)))) ∧
  (r2 = None ↔ (∀ o, ¬ conflicting b (existingClaim b) w o) ∧
               is_Some (view KPVC w (nn (Namespace b) (existingClaim b)))).
Proof.
  intros Hn Ha Hb Hu Hns Hc Hne H1 H2.
  destruct (run_wp env _ _ _ _ _ H1 (wp_reconcileHome_existing a sa w Hn Hne)) as [Hun Ho1].
  assert (named w1) as Hn1 by (intros ns o; rewrite (proj1 Hun); apply Hn).
  assert (existingClaim b ≠ ""%string) as Hneb by congruence.
  destruct (run_wp env _ _ _ _ _ H2 (wp_reconcileHome_existing b sb' w1 Hn1 Hneb)) as [Hun2 Ho2].
  pose proof (home_decision _ _ _ _ _ _ Hne Hun Ho1) as D1.
  pose proof (home_decision _ _ _ _ _ _ Hneb Hun2 Ho2) as D2.
  setoid_rewrite (conflicting_unchanged b (existingClaim b) w w1) in D2; [|done]. rewrite (proj1 Hun) in D2.
  assert (wins a b = true → r2 ≠ None) as Hab.
  { intros Hw E. apply D2 in E as [Hno _]. destruct (Hno a). by apply claimants_beat. }
  assert (wins b a = true → r1 ≠ None) as Hba.
  { intros Hw E. apply D1 in E as [Hno _]. destruct (Hno b). by apply claimants_beat. }
  split; [|done]. intros [E1 E2]. by destruct (wins_total a b Hu) as [Hw|Hw]; [apply Hab|apply Hba].
Qed.

(** A sandbox whose home step succeeds has, in its namespace, the claim its
    pod mounts, and records it; an existing claim was not written to, and a
    generated claim that was already there is still as it was. *)
Theorem reconcileHome_admits (env : Env W) `{!Conforms env} sb tpl opts s w s' w' :
  named w →
  run env (reconcileHome sb s) w = ((s', Ok None), w') →
  ∃ claim, VolumePVC claim ∈ vol_Source <$> ps_Volumes (pod_Spec (BuildPod sb tpl opts)) ∧
    is_Some (view KPVC w' (nn (Namespace sb) claim)) ∧ st_PVCName s' = claim ∧
    st_Phase s' = st_Phase s ∧ home_frame sb w w'.
Proof.
  intros Hn Hrun.
  destruct (run_wp env _ _ _ _ _ Hrun (wp_reconcileHome sb s w Hn)) as [Hf [[Hv Hs] _]].
  simpl in Hs. subst s'. exists (homeClaim sb). split; [left|]. done.
Qed.

End proofs.
