(* ===== verification/SandboxNet.v ===== *)
(** * Host key and network policy of a sandbox (internal/controller/sandbox_controller.go)

    [reconcileHostKey] creates the sandbox's SSH identity once;
    [reconcileNetworkPolicy] keeps its network policy equal to the one the
    template and the API server's addresses call for. *)

From S2P Require Import Prelude GoStrings KubeTypes ApiTypes Client Libs PodSpec SSHCA StatusMonad SandboxRBAC Bootstrap.
From Stdlib Require Import String.
From stdpp Require Import base gmap strings list.
From Stdlib Require Import ZArith Lia.
Local Open Scope Z_scope.

(** The fields of [SandboxReconciler] besides the client. [r_Now] is nil
    outside tests. *)
Record SandboxReconciler := {
  r_AgentImage : string;
  r_PriorityClassName : string;
  r_GatewayNamespace : string;
  r_Now : option (prog Time);
}.

Definition hostCertValidity : Duration := 10 * 365 * 24 * Hour.

Section net.
Context `{AM : ApiMachinery} `{SSH : SSHLib}.

(** ** Host key *)

Definition marshalCert (cert : Certificate) : string := MarshalAuthorizedKey (cert_as_key cert).

Definition hostKeyData (key : KeyPair) (cert : Certificate) (userCAPub : string) : gmap string string :=
  list_to_map [("ssh_host_ed25519_key"%string, PrivatePEM key);
               ("ssh_host_ed25519_key.pub"%string, PublicAuthorized key);
               ("ssh_host_ed25519_key-cert.pub"%string, marshalCert cert);
               ("user-ca.pub"%string, userCAPub)].

Definition hostKeySecret (sb : Sandbox) (key : KeyPair) (cert : Certificate) (userCAPub : string) : Secret :=
  {| sec_ObjectMeta := set_labels (Labels sb) (newMeta (Namespace sb) (HostKeyName (Name sb)));
     sec_Data := hostKeyData key cert userCAPub |}.

(** [fmt.Errorf(prefix + ": %w", err)] on a result. *)
Definition wrap {A} (prefix : string) (r : res A) : res A :=
  match r with Ok a => Ok a | Err e => Err (WrapError prefix e) end.

(** The part of [reconcileHostKey] after the secret was found missing. *)
Definition createHostKey (sb : Sandbox) : prog (res unit) :=
  ns ← OperatorNamespace;
  caSecret ←? EnsureCASecret ns;
  hostCA ←? Ret (wrap "parse host CA" (ParseSigner (data_at (sec_Data caSecret) KeyHostCAPrivate)));
  let userCAPub := data_at (sec_Data caSecret) KeyUserCAPublic in
  key ←? GenerateKeyPair ("kubepark-host-" +:+ Name sb);
  hostPub ←? Ret (ParsePublicKey (PublicAuthorized key));
  now ← call ENow;
  cert ←? SignHostCert hostCA hostPub (FQDNPrincipals sb) hostCertValidity now;
  ensureOwned KSecret sb (hostKeySecret sb key cert userCAPub).

Definition reconcileHostKey (sb : Sandbox) : prog (res unit) :=
  r ← call (EGet KSecret (nn (Namespace sb) (HostKeyName (Name sb))));
  match r with
  | Ok _ => Ret (Ok tt)
  | Err e => if negb (IsNotFound e) then Ret (Err e) else createHostKey sb
  end.

(** ** Network policy *)

Definition LabelServiceName : string := "kubernetes.io/service-name".

Definition apiServerSelector : ListOptions :=
  {| lo_Namespace := Some "default"%string;
     lo_Labels := [(LabelServiceName, "kubernetes"%string)]; lo_Field := None |}.

(** The loops of [apiServerEndpoints] over one endpoint and one slice. *)
Definition endpointAddresses (ports : list (option Z)) (ep : Endpoint) : list APIServerEndpoint :=
  if bool_decide (end_Ready ep = Some false) then []
  else ip ← end_Addresses ep;
       omap (λ port, match port with
                     | None => None
                     | Some p => Some {| ae_IP := ip; ae_Port := p |}
                     end) ports.

Definition sliceEndpoints (slice : EndpointSlice) : list APIServerEndpoint :=
  es_Endpoints slice ≫= endpointAddresses (es_Ports slice).

Definition apiServerEndpoints : prog (res (list APIServerEndpoint)) :=
  r ← call (EList KEndpointSlice apiServerSelector);
  match r with
  | Err e => Ret (Err (WrapError "resolve kubernetes.default endpoint slices" e))
  | Ok slices => Ret (Ok (slices ≫= sliceEndpoints))
  end.

Definition gatewayNamespace (r : SandboxReconciler) : prog string :=
  if negb (String.eqb (r_GatewayNamespace r) "") then Ret (r_GatewayNamespace r)
  else OperatorNamespace.

Definition with_np_spec (s : NetworkPolicySpec) (np : NetworkPolicy) : NetworkPolicy :=
  {| np_ObjectMeta := np_ObjectMeta np; np_Spec := s |}.

(** Bringing the stored policy in line with the desired one. *)
Definition applyNetworkPolicy (desired : NetworkPolicy) : prog (res unit) :=
  r ← call (EGet KNetPol (okey KNetPol desired));
  match r with
  | Err e =>
    if IsNotFound e then
      c ← call (ECreate KNetPol desired); Ret (IgnoreAlreadyExists (to_unit c))
    else Ret (Err e)
  | Ok existing =>
    if negb (SemanticDeepEqual (np_Spec existing) (np_Spec desired)) then
      u ← call (EUpdate KNetPol (with_np_spec (np_Spec desired) existing));
      Ret (to_unit u)
    else Ret (Ok tt)
  end.

Definition reconcileNetworkPolicy (r : SandboxReconciler) (sb : Sandbox) (tpl : SandboxTemplate)
  : prog (res unit) :=
  endpoints ←? apiServerEndpoints;
  gw ← gatewayNamespace r;
  let desired := BuildNetworkPolicy sb tpl
    {| no_GatewayNamespace := gw; no_APIServerEndpoints := endpoints |} in
  match SetControllerReference sb (np_ObjectMeta desired) with
  | Err e => Ret (Err e)
  | Ok m => applyNetworkPolicy {| np_ObjectMeta := m; np_Spec := np_Spec desired |}
  end.

End net.

(** ** Proofs *)

Section proofs.
Context `{AM : ApiMachinery} `{SSH : SSHLib} `{!ApiMachineryLaws AM} `{!SSHLaws SSH}.
Context {W : Type} `{World W}.

Definition operatorNS (w : W) : string :=
  if String.eqb (environ w "POD_NAMESPACE") "" then "kubepark-system" else environ w "POD_NAMESPACE".

Definition caKey (w : W) : NamespacedName := nn (operatorNS w) CASecretName.
Definition hostKeyKey (sb : Sandbox) : NamespacedName := nn (Namespace sb) (HostKeyName (Name sb)).

Lemma hostKeyKey_caKey sb w : hostKeyKey sb ≠ caKey w.
Proof. unfold hostKeyKey, caKey, nn, HostKeyName, CASecretName. by intros [= _ ?]. Qed.

(** The secrets that creating a host key may write. *)
Definition hostkey_targets (sb : Sandbox) (w : W) (t : tag) (k : NamespacedName) : Prop :=
  t = TSecret ∧ (k = hostKeyKey sb ∨ k = caKey w).

(** A freshly created host-key secret and where its parts come from. *)
Definition hostkey_created (sb : Sandbox) (w' : W) : Prop :=
  ∃ sec ca hostCA key pub cert now,
    view KSecret w' (hostKeyKey sb) = Some sec ∧ view KSecret w' (caKey w') = Some ca ∧
    sec_Data sec = hostKeyData key cert (data_at (sec_Data ca) KeyUserCAPublic) ∧
    OwnerReferences sec = [controllerRef sb] ∧
    ParseSigner (data_at (sec_Data ca) KeyHostCAPrivate) = Ok hostCA ∧
    ParsePublicKey (PublicAuthorized key) = Ok pub ∧
    issued hostCA HostCert pub (FQDNPrincipals sb) hostCertValidity now cert.

Lemma wp_ensureOwned_created sb key cert pub w :
  view KSecret w (hostKeyKey sb) = None →
  wp (ensureOwned KSecret sb (hostKeySecret sb key cert pub))
     (λ r w', same_but KSecret (hostKeyKey sb) w w' ∧
        match r with
        | Ok _ => ∃ sec, view KSecret w' (hostKeyKey sb) = Some sec ∧
            sec_Data sec = hostKeyData key cert pub ∧ OwnerReferences sec = [controllerRef sb]
        | Err _ => True
        end) w.
Proof.
  intros Hnone. eapply wp_mono; [by apply wp_ensureOwned_fresh|]. intros r w' [Hsb Hr].
  split; [done|]. destruct r as [[]|e]; [|done].
  destruct Hr as (sec & Hv & uid & gen & rv & t & ->). by eexists.
Qed.

Lemma caKey_environ w w' : environ w' = environ w → caKey w' = caKey w.
Proof. unfold caKey, operatorNS. by intros ->. Qed.

Lemma wp_createHostKey sb w :
  view KSecret w (hostKeyKey sb) = None →
  wp (createHostKey sb)
     (λ r w', frame (hostkey_targets sb w) w w' ∧
        (is_Some (view KSecret w (caKey w)) → view KSecret w' (caKey w) = view KSecret w (caKey w)) ∧
        match r with Ok _ => hostkey_created sb w' | Err _ => True end) w.
Proof.
  intros Hnone. apply wp_bind. eapply wp_mono; [apply wp_OperatorNamespace|].
  intros ns w1 [Hun1 ->]. fold (operatorNS w).
  apply wp_ebind. eapply wp_mono; [apply wp_EnsureCASecret|]. fold (caKey w).
  intros r w2 (Hsb2 & Hkeep & Hca).
  assert (frame (hostkey_targets sb w) w w2) as Hf2.
  { eapply frame_trans; [by apply frame_unchanged|]. eapply frame_same_but; [done|].
    split; [done|by right]. }
  assert (is_Some (view KSecret w (caKey w)) → view KSecret w2 (caKey w) = view KSecret w (caKey w)) as Hk2.
  { rewrite <- (proj1 Hun1 _ KSecret (caKey w)) at 1. intros Hs. rewrite (proj1 (Hkeep Hs)). by rewrite (proj1 Hun1). }
  assert (view KSecret w2 (hostKeyKey sb) = None) as Hnone2.
  { rewrite (same_but_key _ _ _ _ _ Hsb2) by apply hostKeyKey_caKey. by rewrite (proj1 Hun1). }
  destruct r as [ca|e]; [|done]. destruct Hca as (ca' & Hv2 & Hid). unfold id in Hid. subst ca'.
  apply wp_ebind. destruct (ParseSigner _) as [hostCA|e] eqn:Hps; [|done].
  apply wp_ebind. eapply wp_mono; [apply wp_GenerateKeyPair|]. intros r w3 Hun3.
  pose proof (unchanged_trans _ _ _ (unchanged_refl w2) Hun3) as Hu3.
  assert (∀ w', unchanged w2 w' → frame (hostkey_targets sb w) w w' ∧
            (is_Some (view KSecret w (caKey w)) → view KSecret w' (caKey w) = view KSecret w (caKey w))) as Hstep.
  { intros w' Hu. split; [eapply frame_trans; [done|by apply frame_unchanged]|].
    intros Hs. rewrite (proj1 Hu). auto. }
  destruct r as [key|e]; [|split; [by apply Hstep|]; split; [by apply Hstep|done]].
  apply wp_ebind. destruct (ParsePublicKey _) as [pub|e] eqn:Hpk;
    [|split; [by apply Hstep|]; split; [by apply Hstep|done]].
  intros now w4 [_ [Hun4 _]]. pose proof (unchanged_trans _ _ _ Hu3 Hun4) as Hu4.
  apply wp_ebind. eapply wp_mono; [apply wp_SignHostCert|]. intros r w5 [Hun5 Hc].
  pose proof (unchanged_trans _ _ _ Hu4 Hun5) as Hu5.
  destruct r as [cert|e]; [|split; [by apply Hstep|]; split; [by apply Hstep|done]].
  eapply wp_mono; [apply wp_ensureOwned_created; by rewrite (proj1 Hu5)|].
  intros r w6 [Hsb6 Hr]. destruct (Hstep _ Hu5) as [Hf5 Hk5].
  assert (view KSecret w6 (caKey w) = view KSecret w5 (caKey w)) as Hca6.
  { apply (same_but_key _ _ _ _ _ Hsb6). intros E. by apply (hostKeyKey_caKey sb w). }
  assert (frame (hostkey_targets sb w) w w6) as Hf6.
  { eapply frame_trans; [done|]. eapply frame_same_but; [done|]. split; [done|by left]. }
  split; [done|]. split; [by rewrite Hca6|]. destruct r as [[]|e]; [|done].
  destruct Hr as (sec & Hv & Hd & Ho). exists sec, ca, hostCA, key, pub, cert, now.
  rewrite (caKey_environ _ _ (proj2 Hf6)), Hca6, (proj1 Hu5). auto 10.
Qed.

Lemma wp_reconcileHostKey sb w :
  wp (reconcileHostKey sb)
     (λ r w', frame (hostkey_targets sb w) w w' ∧
        (is_Some (view KSecret w (caKey w)) → view KSecret w' (caKey w) = view KSecret w (caKey w)) ∧
        (is_Some (view KSecret w (hostKeyKey sb)) → unchanged w w') ∧
        match r with
        | Ok _ => is_Some (view KSecret w (hostKeyKey sb)) ∨ hostkey_created sb w'
        | Err _ => True
        end) w.
Proof.
  apply wp_bind, wp_call. intros [sec|e] w1 [_ [Hun Hr]]; cbn beta iota; fold (hostKeyKey sb) in Hr.
  { split; [by apply frame_unchanged|]. split; [by rewrite (proj1 Hun)|]. split; [done|].
    left. rewrite Hr. eauto. }
  destruct (IsNotFound e); cbn [negb]; [|split; [by apply frame_unchanged|]; by rewrite (proj1 Hun)].
  specialize (Hr eq_refl). eapply wp_mono; [apply wp_createHostKey; by rewrite (proj1 Hun)|].
  intros r w2 (Hf & Hk & Hc). rewrite (caKey_environ _ _ (proj2 Hun)), (proj1 Hun) in Hk.
  split; [|split; [done|split; [intros [? ?]; congruence|]]].
  - eapply frame_trans; [by apply frame_unchanged|]. eapply frame_mono; [done|].
    unfold hostkey_targets. by rewrite (caKey_environ _ _ (proj2 Hun)).
  - destruct r; [by right|done].
Qed.

(** *** Network policy *)

Lemma elem_endpointAddresses ports ep a :
  a ∈ endpointAddresses ports ep ↔
  end_Ready ep ≠ Some false ∧ ae_IP a ∈ end_Addresses ep ∧ Some (ae_Port a) ∈ ports.
Proof.
  unfold endpointAddresses. case_bool_decide as Hr.
  - split; [intros Hx; by apply not_elem_of_nil in Hx|]. by intros [? _].
  - rewrite list_elem_of_bind. split.
    + intros (ip & Ha & Hip). apply list_elem_of_omap in Ha as ([p|] & Hp & Heq); [|done].
      simplify_eq. auto.
    + intros (_ & Hip & Hp). exists (ae_IP a). split; [|done]. apply list_elem_of_omap.
      exists (Some (ae_Port a)). split; [done|]. by destruct a.
Qed.

(** The ready endpoints of the API server a world shows. *)
Definition api_server_at (w : W) (a : APIServerEndpoint) : Prop :=
  ∃ slice ep, view KEndpointSlice w (okey KEndpointSlice slice) = Some slice ∧
    Namespace slice = "default"%string ∧ mLabels slice !! LabelServiceName = Some "kubernetes"%string ∧
    ep ∈ es_Endpoints slice ∧ end_Ready ep ≠ Some false ∧
    ae_IP a ∈ end_Addresses ep ∧ Some (ae_Port a) ∈ es_Ports slice.

Lemma selected_apiServer (slice : EndpointSlice) :
  selected KEndpointSlice apiServerSelector slice = true ↔
  Namespace slice = "default"%string ∧ mLabels slice !! LabelServiceName = Some "kubernetes"%string.
Proof.
  unfold selected, has_label. simpl.
  by rewrite !andb_true_r, andb_true_iff, String.eqb_eq, bool_decide_eq_true.
Qed.

(** An answer to the request for the API server's endpoint slices. *)
Definition api_slices (w : W) (slices : list EndpointSlice) : Prop :=
  (∀ o, o ∈ slices ↔ view KEndpointSlice w (okey KEndpointSlice o) = Some o ∧
                     selected KEndpointSlice apiServerSelector o = true) ∧
  NoDup (okey KEndpointSlice <$> slices).

Lemma api_slices_elem w slices a :
  api_slices w slices → a ∈ slices ≫= sliceEndpoints ↔ api_server_at w a.
Proof.
  intros [Hl _]. rewrite list_elem_of_bind. split.
  - intros (slice & Ha & Hin). apply Hl in Hin as [Hv Hsel]. apply selected_apiServer in Hsel as [Hns Hlab].
    apply list_elem_of_bind in Ha as (ep & Ha & Hep). apply elem_endpointAddresses in Ha.
    exists slice, ep. naive_solver.
  - intros (slice & ep & Hv & Hns & Hlab & Hep & Ha). exists slice. split.
    + apply list_elem_of_bind. exists ep. split; [|done]. by apply elem_endpointAddresses.
    + apply Hl. split; [done|]. by apply selected_apiServer.
Qed.

Lemma wp_apiServerEndpoints w :
  wp apiServerEndpoints
     (λ r w', unchanged w w' ∧
        match r with
        | Ok l => ∃ slices, api_slices w slices ∧ l = slices ≫= sliceEndpoints
        | Err _ => True
        end) w.
Proof.
  apply wp_bind, wp_call. intros [l|e] w' [_ [Hun Hl]]; simpl; [|done].
  split; [done|]. by exists l.
Qed.

Lemma wp_applyNetworkPolicy d w :
  settled KNetPol w (okey KNetPol d) →
  wp (applyNetworkPolicy d)
     (λ r w', same_but KNetPol (okey KNetPol d) w w' ∧
        match r with
        | Ok _ => ∃ np, view KNetPol w' (okey KNetPol d) = Some np ∧ np_Spec np = np_Spec d
        | Err _ => True
        end) w.
Proof.
  intros Hset. apply wp_bind, wp_call. intros [np|e] w1 [_ [Hun Hr]]; cbn beta iota;
    pose proof (unchanged_same_but KNetPol (okey KNetPol d) _ _ Hun) as Hsb1.
  2:{ destruct (IsNotFound e) eqn:He; [|done]. apply wp_bind, wp_call.
      intros c w2 [_ [Hsb Hc]]. split; [by eapply same_but_trans|].
      destruct c as [o|e']; simpl.
      - destruct Hc as (_ & Hv & uid & gen & rv & t & ->). by eexists.
      - destruct (IsAlreadyExists e'); [|done]. destruct (Hc eq_refl) as [[o Ho] _].
        rewrite (proj1 Hun) in Ho. by rewrite (Hr eq_refl) in Ho. }
  pose proof (view_key _ _ _ _ _ Hr) as Hkey. destruct (Hset _ Hr) as [Hlive Hfin].
  destruct (SemanticDeepEqual (np_Spec np) (np_Spec d)) eqn:Heq; cbn [negb].
  - apply SemanticDeepEqual_spec in Heq. split; [done|]. exists np. by rewrite (proj1 Hun).
  - apply wp_bind, wp_call. intros u w2 [_ Hu].
    change (update_spec KNetPol (with_np_spec (np_Spec d) np) w1 u w2) in Hu.
    unfold update_spec in Hu.
    change (okey KNetPol (with_np_spec (np_Spec d) np)) with (okey KNetPol np) in Hu.
    rewrite Hkey in Hu. destruct Hu as [Hsb Hu]. split; [by eapply same_but_trans|].
    destruct u as [o|e]; [|done]. destruct Hu as (cur & Hcur & _ & (gen & rv & ->) & Hv').
    rewrite (proj1 Hun), Hr in Hcur. simplify_eq. simpl in Hlive, Hv'.
    rewrite bool_decide_eq_false_2 in Hv' by (rewrite Hlive; intros [[? ?] _]; done).
    eexists. split; [exact Hv'|]. done.
Qed.

Definition netPolKey (sb : Sandbox) : NamespacedName := nn (Namespace sb) (NetPolName (Name sb)).

Definition gatewayNS (r : SandboxReconciler) (w : W) : string :=
  if String.eqb (r_GatewayNamespace r) "" then operatorNS w else r_GatewayNamespace r.

Lemma wp_gatewayNamespace r w :
  wp (gatewayNamespace r) (λ ns w', unchanged w w' ∧ ns = gatewayNS r w) w.
Proof.
  unfold gatewayNamespace, gatewayNS. destruct (String.eqb (r_GatewayNamespace r) ""); simpl;
    [apply wp_OperatorNamespace|done].
Qed.

(** The stored policy is the one the code computes from the sandbox, the
    template, the gateway's namespace and the API server's endpoints. *)
Definition policy_in_place (r : SandboxReconciler) (sb : Sandbox) (tpl : SandboxTemplate) (w w' : W) : Prop :=
  ∃ np slices, view KNetPol w' (netPolKey sb) = Some np ∧ api_slices w slices ∧
    (∀ a, a ∈ slices ≫= sliceEndpoints ↔ api_server_at w a) ∧
    np_Spec np = np_Spec (BuildNetworkPolicy sb tpl
      {| no_GatewayNamespace := gatewayNS r w; no_APIServerEndpoints := slices ≫= sliceEndpoints |}).

Lemma wp_reconcileNetworkPolicy r sb tpl w :
  settled KNetPol w (netPolKey sb) →
  wp (reconcileNetworkPolicy r sb tpl)
     (λ x w', same_but KNetPol (netPolKey sb) w w' ∧
        match x with Ok _ => policy_in_place r sb tpl w w' | Err _ => True end) w.
Proof.
  intros Hset. apply wp_ebind. eapply wp_mono; [apply wp_apiServerEndpoints|].
  intros [eps|e] w1 [Hun1 Heps]; [|split; [by apply unchanged_same_but|done]].
  apply wp_bind. eapply wp_mono; [apply wp_gatewayNamespace|]. intros gw w2 [Hun2 ->].
  pose proof (unchanged_trans _ _ _ Hun1 Hun2) as Hu. simpl np_ObjectMeta.
  rewrite SetControllerReference_fresh by done.
  eapply wp_mono; [apply wp_applyNetworkPolicy|].
  { intros o. rewrite (proj1 Hu). apply Hset. }
  intros x w3 [Hsb Hx]. change (okey _ _) with (netPolKey sb) in Hsb, Hx.
  split; [eapply same_but_trans; [by apply unchanged_same_but|done]|].
  destruct x as [[]|e]; [|done]. destruct Hx as (np & Hv & Hs).
  destruct Heps as (slices & Hsl & ->). exists np, slices.
  split; [done|]. split; [done|]. split; [intros a; by apply api_slices_elem|]. rewrite Hs. simpl. unfold gatewayNS, operatorNS.
  by rewrite (proj2 Hun1).
Qed.

(** ** The theorems *)

(** A sandbox keeps its SSH identity: when the host-key secret exists nothing
    at all is written, and in any case nothing but that secret and the
    authority secret, and an existing authority secret never changes. *)
Theorem reconcileHostKey_stable (env : Env W) `{!Conforms env} sb w r w' :
  run env (reconcileHostKey sb) w = (r, w') →
  frame (hostkey_targets sb w) w w' ∧
  (is_Some (view KSecret w (caKey w)) → view KSecret w' (caKey w) = view KSecret w (caKey w)) ∧
  (is_Some (view KSecret w (hostKeyKey sb)) → unchanged w w').
Proof.
  intros Hrun. destruct (run_wp env _ _ _ _ _ Hrun (wp_reconcileHostKey sb w)) as (Hf & Hk & Hu & _).
  done.
Qed.

(** A host-key secret that was created holds a fresh key pair, a host
    certificate of the host authority for the sandbox's own name only, and the
    user authority's public key; neither authority's private key is in it. *)
Theorem reconcileHostKey_contents (env : Env W) `{!Conforms env} sb w w' :
  run env (reconcileHostKey sb) w = (Ok tt, w') →
  view KSecret w (hostKeyKey sb) = None →
  ∃ sec ca hostCA key pub cert now,
    view KSecret w' (hostKeyKey sb) = Some sec ∧ view KSecret w' (caKey w') = Some ca ∧
    sec_Data sec = hostKeyData key cert (data_at (sec_Data ca) KeyUserCAPublic) ∧
    dom (sec_Data sec) = list_to_set ["ssh_host_ed25519_key"; "ssh_host_ed25519_key.pub";
      "ssh_host_ed25519_key-cert.pub"; "user-ca.pub"]%string ∧
    ParseSigner (data_at (sec_Data ca) KeyHostCAPrivate) = Ok hostCA ∧
    ParsePublicKey (PublicAuthorized key) = Ok pub ∧
    issued hostCA HostCert pub [Name sb +:+ "." +:+ Namespace sb] hostCertValidity now cert.
Proof.
  intros Hrun Hnone.
  destruct (run_wp env _ _ _ _ _ Hrun (wp_reconcileHostKey sb w)) as (_ & _ & _ & [[? ?]|Hc]); [congruence|].
  destruct Hc as (sec & ca & hostCA & key & pub & cert & now & Hv & Hca & Hd & Ho & Hp & Hk & Hi).
  exists sec, ca, hostCA, key, pub, cert, now. split; [done|]. split; [done|]. split; [done|].
  split; [|done]. rewrite Hd. unfold hostKeyData. by rewrite dom_list_to_map_L.
Qed.

(** When the step succeeds the stored policy is exactly the one computed from
    the sandbox, its template and the ready endpoints of the API server, and
    no other object was written. *)
Theorem reconcileNetworkPolicy_in_sync (env : Env W) `{!Conforms env} r sb tpl w w' :
  settled KNetPol w (netPolKey sb) →
  run env (reconcileNetworkPolicy r sb tpl) w = (Ok tt, w') →
  same_but KNetPol (netPolKey sb) w w' ∧ policy_in_place r sb tpl w w'.
Proof.
  intros Hset Hrun. exact (run_wp env _ _ _ _ _ Hrun (wp_reconcileNetworkPolicy r sb tpl w Hset)).
Qed.

End proofs.
