(* ===== verification/SandboxRun.v ===== *)
(** * Running and suspending the executor pod (internal/controller/sandbox_controller.go)

    The idle decision and the two branches of the desired-state machine:
    [suspend] removes the pod, [run] creates it and reflects its state into
    the status. *)

From S2P Require Import Prelude GoStrings KubeTypes ApiTypes Client Libs PodSpec StatusMonad SandboxRBAC SandboxNet.
From Stdlib Require Import String.
From stdpp Require Import base gmap strings list.
From Stdlib Require Import ZArith Lia.
Local Open Scope Z_scope.

Section run.
Context `{AM : ApiMachinery}.

(** ** Sessions and idleness *)

Definition activeSession (sb : Sandbox) (s : SandboxSession) : bool :=
  String.eqb (ss_SandboxName (ses_Spec s)) (Name sb)
  && bool_decide (sst_State (ses_Status s) = SessionStateActive).

Definition activeSessionCount (sb : Sandbox) : prog (res Z) :=
  sessions ←? call (EList KSession (InNamespace (Namespace sb)));
  Ret (Ok (Z.of_nat (length (List.filter (activeSession sb) sessions)))).

Definition effectiveIdleTimeout (sb : Sandbox) (tpl : SandboxTemplate) : Duration :=
  match sp_IdleTimeout (sb_Spec sb) with
  | Some d => d
  | None => match ts_DefaultIdleTimeout (tpl_Spec tpl) with Some d => d | None => 0 end
  end.

Definition idleExpired (lastActivity : option Time) (timeout : Duration) : prog bool :=
  if timeout <=? 0 then Ret false
  else match lastActivity with
       | None => Ret false
       | Some t => now ← call ENow; Ret (timeout <? time_Sub now t)
       end.

Definition now (r : SandboxReconciler) : prog Time :=
  match r_Now r with Some f => f | None => call ENow end.

(** ** Suspending *)

Definition podKey (sb : Sandbox) : NamespacedName := nn (Namespace sb) (PodName (Name sb)).

(** Deleting the pod unless it is already on its way out. *)
Definition ensurePodGone (pod : Pod) : SM unit :=
  if ptr_IsZero (DeletionTimestamp pod)
  then lift (deleteIgnoringNotFound KPod (okey KPod pod)) else sret tt.

Definition suspend (sb : Sandbox) : SM Result :=
  modify (set_PodIP "") ;;!
  r ←! attempt (call (EGet KPod (podKey sb)));
  match r with
  | Err e =>
    if IsNotFound e then
      modify (set_Phase SandboxPhaseSuspended) ;;!
      modify (set_PodName "") ;;!
      setCondition sb ConditionPodReady ConditionFalse ReasonSuspended "sandbox is suspended" ;;!
      setCondition sb ConditionReady ConditionFalse ReasonSuspended "sandbox is suspended" ;;!
      sret noResult
    else sthrow e
  | Ok pod =>
    modify (set_Phase SandboxPhaseSuspending) ;;!
    ensurePodGone pod ;;!
    sret noResult
  end.

(** ** Running *)

Definition podReady (pod : Pod) : bool :=
  if negb (bool_decide (pst_Phase (pod_Status pod) = PodRunning)) then false
  else match find_first (λ c, bool_decide (pc_Type c = PodReady)) (pst_Conditions (pod_Status pod)) with
       | Some c => bool_decide (pc_Status c = ConditionTrue)
       | None => false
       end.

Definition podPendingMessage (pod : Pod) : string :=
  match find_first (λ c, bool_decide (pc_Type c = PodScheduled)
                         && negb (bool_decide (pc_Status c = ConditionTrue)))
                   (pst_Conditions (pod_Status pod)) with
  | Some c => "pod not scheduled: " +:+ pc_Message c
  | None => "waiting for sandbox pod to become ready"
  end.

Definition PodPhase_string (p : PodPhase) : string :=
  match p with
  | PodPhaseUnset => "" | PodPending => "Pending" | PodRunning => "Running"
  | PodSucceeded => "Succeeded" | PodFailed => "Failed" | PodUnknown => "Unknown"
  end.

Definition resumingPhase (p : SandboxPhase) : bool :=
  bool_decide (p = SandboxPhaseSuspended) || bool_decide (p = SandboxPhaseSuspending)
  || bool_decide (p = SandboxPhaseResuming).

Definition podOptions (r : SandboxReconciler) (serviceAccount : string) : Options :=
  {| o_AgentImage := r_AgentImage r; o_PriorityClassName := r_PriorityClassName r;
     o_ServiceAccountName := serviceAccount |}.

(** The pod is missing: create it from the current template. *)
Definition provision (r : SandboxReconciler) (sb : Sandbox) (tpl : SandboxTemplate)
    (currentHash serviceAccount : string) : SM Result :=
  s ←! getStatus;
  let resuming := resumingPhase (st_Phase s) in
  let desired := BuildPod sb tpl (podOptions r serviceAccount) in
  lift (ensureOwned KPod sb desired) ;;!
  modify (set_TemplateHash currentHash) ;;!
  modify (set_PodName (Name desired)) ;;!
  modify (set_Phase (if resuming then SandboxPhaseResuming else SandboxPhaseProvisioning)) ;;!
  setCondition sb ConditionPodReady ConditionFalse ReasonProvisioning "creating sandbox pod" ;;!
  setCondition sb ConditionReady ConditionFalse ReasonProvisioning "creating sandbox pod" ;;!
  sret noResult.

(** The pod has ended: delete it, the next pass makes a new one. *)
Definition recreate (sb : Sandbox) (pod : Pod) : SM Result :=
  ensurePodGone pod ;;!
  modify (set_Phase SandboxPhaseProvisioning) ;;!
  modify (set_PodIP "") ;;!
  setCondition sb ConditionPodReady ConditionFalse ReasonProvisioning
    ("pod " +:+ PodPhase_string (pst_Phase (pod_Status pod)) +:+ ", recreating") ;;!
  sret {| RequeueAfter := 10 * Second |}.

Definition startIdleClock : SM unit :=
  s ←! getStatus;
  match st_LastActivityTime s with
  | None => t ←! attempt (call ENow); modify (set_LastActivityTime (Some t))
  | Some _ => sret tt
  end.

(** The pod is ready: the sandbox is running. *)
Definition reflectReady (sb : Sandbox) (pod : Pod) : SM unit :=
  s ←! getStatus;
  (if negb (bool_decide (st_Phase s = SandboxPhaseRunning))
   then modify (set_Phase SandboxPhaseRunning) ;;! startIdleClock else sret tt) ;;!
  modify (set_PodIP (pst_PodIP (pod_Status pod))) ;;!
  setCondition sb ConditionPodReady ConditionTrue ReasonRunning "sandbox pod is ready" ;;!
  setCondition sb ConditionReady ConditionTrue ReasonRunning "sandbox is running".

Definition reflectPending (sb : Sandbox) (pod : Pod) : SM unit :=
  s ←! getStatus;
  (if negb (bool_decide (st_Phase s = SandboxPhaseResuming))
   then modify (set_Phase SandboxPhaseProvisioning) else sret tt) ;;!
  modify (set_PodIP "") ;;!
  setCondition sb ConditionPodReady ConditionFalse ReasonProvisioning (podPendingMessage pod) ;;!
  setCondition sb ConditionReady ConditionFalse ReasonProvisioning "waiting for sandbox pod".

(** Template drift is surfaced, never acted on while running. *)
Definition reflectDrift (sb : Sandbox) (currentHash : string) : SM unit :=
  s ←! getStatus;
  if negb (String.eqb (st_TemplateHash s) "") && negb (String.eqb (st_TemplateHash s) currentHash)
  then setCondition sb ConditionTemplateOutdated ConditionTrue ReasonOutdated
         "template changed; the new template applies on the next suspend/resume cycle"
  else setCondition sb ConditionTemplateOutdated ConditionFalse ReasonUpToDate
         "pod matches the template".

Definition deadPod (pod : Pod) : bool :=
  bool_decide (pst_Phase (pod_Status pod) = PodFailed)
  || bool_decide (pst_Phase (pod_Status pod) = PodSucceeded).

Definition run_sandbox (r : SandboxReconciler) (sb : Sandbox) (tpl : SandboxTemplate)
    (currentHash serviceAccount : string) : SM Result :=
  g ←! attempt (call (EGet KPod (podKey sb)));
  match g with
  | Err e =>
    if IsNotFound e then provision r sb tpl currentHash serviceAccount else sthrow e
  | Ok pod =>
    modify (set_PodName (Name pod)) ;;!
    if deadPod pod then recreate sb pod
    else
      (if podReady pod then reflectReady sb pod else reflectPending sb pod) ;;!
      reflectDrift sb currentHash ;;!
      sret noResult
  end.

End run.

(** ** Proofs *)

Section proofs.
Context `{AM : ApiMachinery} `{!ApiMachineryLaws AM} {W : Type} `{World W}.

(** The active sessions of a sandbox in a world. *)
Definition has_active_session (w : W) (sb : Sandbox) : Prop :=
  ∃ s, view KSession w (okey KSession s) = Some s ∧ Namespace s = Namespace sb ∧
    ss_SandboxName (ses_Spec s) = Name sb ∧ sst_State (ses_Status s) = SessionStateActive.

Lemma activeSession_true sb s :
  activeSession sb s = true ↔
  ss_SandboxName (ses_Spec s) = Name sb ∧ sst_State (ses_Status s) = SessionStateActive.
Proof. unfold activeSession. by rewrite andb_true_iff, String.eqb_eq, bool_decide_eq_true. Qed.

Lemma wp_activeSessionCount sb w :
  wp (activeSessionCount sb)
     (λ r w', unchanged w w' ∧
        match r with Ok n => 0 <= n ∧ (n = 0 ↔ ¬ has_active_session w sb) | Err _ => True end) w.
Proof.
  apply wp_ebind, wp_call. intros [l|e] w' [_ [Hun Hl]]; simpl; [|done].
  destruct Hl as [Hl _]. split; [done|]. split; [lia|].
  destruct (List.filter (activeSession sb) l) as [|s rest] eqn:Hf.
  - split; [|done]. intros _ (s & Hv & Hns & Hact).
    assert (s ∈ List.filter (activeSession sb) l) as Hin.
    { apply list_elem_of_In, List.filter_In. rewrite <- list_elem_of_In. split.
      - apply Hl. split; [done|]. by apply selected_namespace.
      - by apply activeSession_true. }
    rewrite Hf in Hin. by apply not_elem_of_nil in Hin.
  - split; [simpl; lia|]. intros Hno. exfalso. apply Hno. exists s.
    assert (s ∈ List.filter (activeSession sb) l) as Hin by (rewrite Hf; left).
    apply list_elem_of_In, List.filter_In in Hin as [Hin Hact].
    apply list_elem_of_In, Hl in Hin as [Hv Hsel]. apply selected_namespace in Hsel.
    by apply activeSession_true in Hact.
Qed.

(** The idle window has elapsed between two readings of the clock. *)
Definition idle_expired_at (last : option Time) (timeout : Duration) (t : Time) : Prop :=
  0 < timeout ∧ ∃ l, last = Some l ∧ timeout < t - l.

Lemma wp_idleExpired last timeout w :
  timeout < int64_max →
  wp (idleExpired last timeout)
     (λ b w', unchanged w w' ∧ (b = true ↔ idle_expired_at last timeout (clock w'))) w.
Proof.
  intros Hmax. unfold idleExpired, idle_expired_at. destruct (Z.leb_spec timeout 0) as [Hle|Hgt].
  { split; [done|]. split; [done|]. lia. }
  destruct last as [l|]; [|split; [done|]; naive_solver].
  intros t w' [_ [Hun ->]]. split; [done|]. rewrite Z.ltb_lt, time_Sub_gt.
  - split; [eauto|]. intros (_ & l' & [= <-] & ?). done.
  - unfold int64_min. lia.
Qed.

(** ** Suspending *)

Definition only_pod (sb : Sandbox) (t : tag) (k : NamespacedName) : Prop :=
  t = TPod ∧ k = podKey sb.

(** The status [suspend] leaves: the pod's address is gone, and the phase says
    whether the pod is. *)
Definition suspended_status (sb : Sandbox) (s s' : SandboxStatus) : Prop :=
  (st_Phase s' = SandboxPhaseSuspended ∧ st_PodName s' = ""%string ∧
   ∃ c, find_condition (st_Conditions s') ConditionReady = Some c ∧ c_Status c = ConditionFalse)
  ∨ s' = set_Phase SandboxPhaseSuspending (set_PodIP "" s).

Definition suspend_outcome (sb : Sandbox) (s : SandboxStatus) (w : W)
    (sr : SandboxStatus * res Result) (w' : W) : Prop :=
  st_PodIP sr.1 = ""%string ∧ st_PVCName sr.1 = st_PVCName s ∧
  st_LastActivityTime sr.1 = st_LastActivityTime s ∧
  match sr.2 with
  | Ok r => r = noResult ∧ suspended_status sb s sr.1 ∧
      (∀ pod, view KPod w' (podKey sb) = Some pod → ptr_IsZero (DeletionTimestamp pod) = false) ∧
      (st_Phase sr.1 = SandboxPhaseSuspended ↔ view KPod w (podKey sb) = None) ∧
      (view KPod w (podKey sb) = None → view KPod w' (podKey sb) = None)
  | Err _ => (st_Phase sr.1 = st_Phase s ∧ unchanged w w') ∨
      (st_Phase sr.1 = SandboxPhaseSuspending ∧ is_Some (view KPod w (podKey sb)))
  end.

Lemma wp_ensurePodGone pod s k w :
  view KPod w k = Some pod →
  wp (ensurePodGone pod s)
     (λ sr w', sr.1 = s ∧ same_but KPod k w w' ∧
        match sr.2 with Ok _ => not_live KPod w' k | Err _ => True end) w.
Proof.
  intros Hv. pose proof (view_key _ _ _ _ _ Hv) as <-. unfold ensurePodGone.
  destruct (ptr_IsZero (DeletionTimestamp pod)) eqn:Hz.
  - apply wp_lift. eapply wp_mono; [apply wp_deleteIgnoringNotFound|]. done.
  - split; [done|]. split; [apply unchanged_same_but, unchanged_refl|].
    intros o Ho. rewrite Hv in Ho. by simplify_eq.
Qed.

Lemma wp_suspend sb s w :
  wp (suspend sb s)
     (λ sr w', frame (only_pod sb) w w' ∧ suspend_outcome sb s w sr w') w.
Proof.
  apply wp_sbind_modify, wp_sbind_attempt, wp_call. intros r w1 [_ [Hun Hr]].
  destruct r as [pod|e].
  2:{ destruct (IsNotFound e) eqn:He;
        (split; [by apply frame_unchanged|]; split; [done|]; split; [done|]; split; [done|]); [|by left].
      specialize (Hr eq_refl). split; [done|]. split; [|split; [|by rewrite (proj1 Hun)]].
      - left. split; [done|]. split; [done|]. eexists. split; [apply SetStatusCondition_same|]. done.
      - intros pod. rewrite (proj1 Hun). simpl. congruence. }
  apply wp_sbind_modify, wp_sbind.
  eapply wp_mono; [apply (wp_ensurePodGone pod _ (podKey sb)); by rewrite (proj1 Hun)|].
  intros [s' r] w2 (Hs & Hsb & Hn). simpl in Hs. subst s'. cbn [snd fst] in *.
  assert (frame (only_pod sb) w w2) as Hf.
  { eapply frame_trans; [by apply frame_unchanged|]. by eapply frame_same_but. }
  destruct r as [[]|e]; (split; [done|]; split; [done|]; split; [done|]; split; [done|]).
  - split; [done|]. split; [by right|]. split; [done|]. simpl. split; [split; [done|]|]; intros; congruence.
  - right. simpl in Hr. split; [done|]. rewrite Hr. eauto.
Qed.

(** ** Running *)

(** [run_sandbox] does not touch these fields. *)
Definition run_keeps (s s' : SandboxStatus) : Prop :=
  st_PVCName s' = st_PVCName s ∧ st_ServiceAccountName s' = st_ServiceAccountName s ∧
  st_ActiveSessions s' = st_ActiveSessions s ∧ st_ObservedGeneration s' = st_ObservedGeneration s.

(** The idle clock starts when the sandbox first runs and is then left alone. *)
Definition idle_clock (s s' : SandboxStatus) (w w' : W) : Prop :=
  st_LastActivityTime s' = st_LastActivityTime s ∨
  (st_LastActivityTime s = None ∧
   ∃ t, st_LastActivityTime s' = Some t ∧ clock w <= t <= clock w').

Definition ready_is (s : SandboxStatus) (st : ConditionStatus) : Prop :=
  ∃ c, find_condition (st_Conditions s) ConditionReady = Some c ∧ c_Status c = st.

(** The phase while the pod is not ready yet. *)
Definition waitingPhase (p : SandboxPhase) : SandboxPhase :=
  if bool_decide (p = SandboxPhaseResuming) then SandboxPhaseResuming else SandboxPhaseProvisioning.

(** What a successful [run_sandbox] did, by the pod it found. *)
Definition run_result (r : SandboxReconciler) (sb : Sandbox) (tpl : SandboxTemplate)
    (currentHash serviceAccount : string) (s : SandboxStatus) (w : W)
    (s' : SandboxStatus) (res : Result) (w' : W) : Prop :=
  match view KPod w (podKey sb) with
  | None =>
    (∃ pod, view KPod w' (podKey sb) = Some pod ∧
       created_as KPod (owned_by KPod sb (BuildPod sb tpl (podOptions r serviceAccount))) pod) ∧
    st_TemplateHash s' = currentHash ∧ st_PodName s' = PodName (Name sb) ∧
    st_Phase s' = (if resumingPhase (st_Phase s) then SandboxPhaseResuming else SandboxPhaseProvisioning) ∧
    ready_is s' ConditionFalse ∧ res = noResult
  | Some pod =>
    if deadPod pod then
      not_live KPod w' (podKey sb) ∧ st_Phase s' = SandboxPhaseProvisioning ∧
      st_PodIP s' = ""%string ∧ res = {| RequeueAfter := 10 * Second |}
    else
      unchanged w w' ∧ st_TemplateHash s' = st_TemplateHash s ∧ res = noResult ∧
      if podReady pod then
        st_Phase s' = SandboxPhaseRunning ∧ st_PodIP s' = pst_PodIP (pod_Status pod) ∧
        ready_is s' ConditionTrue ∧
        (st_Phase s ≠ SandboxPhaseRunning → is_Some (st_LastActivityTime s'))
      else
        st_Phase s' = waitingPhase (st_Phase s) ∧
        st_PodIP s' = ""%string ∧ ready_is s' ConditionFalse
  end.

Definition run_outcome r sb tpl currentHash serviceAccount s (w : W)
    (sr : SandboxStatus * res Result) (w' : W) : Prop :=
  run_keeps s sr.1 ∧ idle_clock s sr.1 w w' ∧
  match sr.2 with
  | Ok res => run_result r sb tpl currentHash serviceAccount s w sr.1 res w'
  | Err _ => st_Phase sr.1 = st_Phase s ∧ st_PodIP sr.1 = st_PodIP s ∧
      ∀ pod, view KPod w (podKey sb) = Some pod → deadPod pod = false →
             view KPod w' (podKey sb) = Some pod
  end.

Lemma wp_provision r sb tpl h sa s w :
  view KPod w (podKey sb) = None →
  wp (provision r sb tpl h sa s)
     (λ sr w', frame (only_pod sb) w w' ∧ run_outcome r sb tpl h sa s w sr w') w.
Proof.
  intros Hnone. apply wp_sbind_get, wp_sbind_lift.
  eapply wp_mono; [by apply wp_ensureOwned_fresh|]. intros x w' [Hsb Hx].
  assert (frame (only_pod sb) w w') as Hf by by eapply frame_same_but.
  destruct x as [[]|e]; (split; [done|]; split; [done|]; split; [by left|]);
    [|split; [done|]; split; [done|]; by rewrite Hnone].
  unfold run_result. rewrite Hnone. split; [done|]. split; [done|]. split; [done|].
  split; [done|]. split; [|done]. eexists. split; [apply SetStatusCondition_same|]. done.
Qed.

Lemma wp_recreate r sb tpl h sa pod s w :
  view KPod w (podKey sb) = Some pod → deadPod pod = true →
  wp (recreate sb pod s)
     (λ sr w', frame (only_pod sb) w w' ∧ run_outcome r sb tpl h sa s w sr w') w.
Proof.
  intros Hv Hd. apply wp_sbind. eapply wp_mono; [by apply (wp_ensurePodGone pod s (podKey sb))|].
  intros [s' x] w' (Hs & Hsb & Hx). simpl in Hs. subst s'. cbn [fst snd] in *.
  assert (frame (only_pod sb) w w') as Hf by by eapply frame_same_but.
  destruct x as [[]|e]; (split; [done|]; split; [done|]; split; [by left|]).
  - unfold run_result. by rewrite Hv, Hd.
  - split; [done|]. split; [done|]. rewrite Hv. intros p [= <-]. congruence.
Qed.

Lemma ready_set sb s c : ready_is (set_Conditions (SetStatusCondition (st_Conditions s)
   (conditionOf sb ConditionReady c ReasonRunning "sandbox is running")) s) c.
Proof. eexists. split; [apply SetStatusCondition_same|]. done. Qed.

(** The drift condition is another one than Ready. *)
Lemma wp_drift_end sb h s (Q : SandboxStatus * res Result → W → Prop) w :
  (∀ c, c_Type c = ConditionTemplateOutdated →
     Q (set_Conditions (SetStatusCondition (st_Conditions s) c) s, Ok noResult) w) →
  wp ((reflectDrift sb h ;;! sret noResult) s) Q w.
Proof.
  intros HQ. apply wp_sbind, wp_sbind_get. destruct (negb _ && negb _); by apply HQ.
Qed.

Lemma ready_other s c st :
  c_Type c = ConditionTemplateOutdated → ready_is s st →
  ready_is (set_Conditions (SetStatusCondition (st_Conditions s) c) s) st.
Proof.
  intros Hty (d & Hd & Hst). exists d. split; [|done]. simpl.
  by rewrite SetStatusCondition_other by by rewrite Hty.
Qed.

Lemma wp_startIdleClock s w :
  wp (startIdleClock s)
     (λ sr w', unchanged w w' ∧ sr.2 = Ok tt ∧
        sr.1 = set_LastActivityTime (st_LastActivityTime sr.1) s ∧
        is_Some (st_LastActivityTime sr.1) ∧ idle_clock s sr.1 w w') w.
Proof.
  apply wp_sbind_get. destruct (st_LastActivityTime s) as [t|] eqn:Ht.
  - split; [done|]. split; [done|]. split; [by destruct s; simpl in *; subst|].
    split; [simpl; eauto|]. by left.
  - apply wp_sbind_attempt, wp_call. intros t w' [Hc [Hun ->]]. split; [done|].
    split; [done|]. split; [done|]. split; [done|]. right. split; [done|].
    eexists. split; [done|]. lia.
Qed.

Lemma wp_reflectReady sb pod s w :
  wp (reflectReady sb pod s)
     (λ sr w', unchanged w w' ∧ sr.2 = Ok tt ∧ run_keeps s sr.1 ∧ idle_clock s sr.1 w w' ∧
        st_TemplateHash sr.1 = st_TemplateHash s ∧ st_Phase sr.1 = SandboxPhaseRunning ∧
        st_PodIP sr.1 = pst_PodIP (pod_Status pod) ∧ ready_is sr.1 ConditionTrue ∧
        (st_Phase s ≠ SandboxPhaseRunning → is_Some (st_LastActivityTime sr.1))) w.
Proof.
  apply wp_sbind_get, wp_sbind. case_bool_decide as Hp; cbn [negb].
  - split; [done|]. split; [done|]. split; [done|]. split; [by left|].
    split; [done|]. split; [done|]. split; [done|]. split; [|done]. apply ready_set.
  - apply wp_sbind_modify. eapply wp_mono; [apply wp_startIdleClock|].
    intros [s' x] w' (Hun & Hx & Hs & Hla & Hi). simpl in Hx. subst x. simpl in Hs, Hla, Hi.
    simpl. split; [done|]. split; [done|]. rewrite Hs. split; [done|]. split; [exact Hi|].
    split; [done|]. split; [done|]. split; [done|]. split; [|done]. apply ready_set.
Qed.

Lemma wp_reflectPending sb pod s w :
  wp (reflectPending sb pod s)
     (λ sr w', w' = w ∧ sr.2 = Ok tt ∧ run_keeps s sr.1 ∧
        st_LastActivityTime sr.1 = st_LastActivityTime s ∧
        st_TemplateHash sr.1 = st_TemplateHash s ∧
        st_Phase sr.1 = waitingPhase (st_Phase s) ∧
        st_PodIP sr.1 = ""%string ∧ ready_is sr.1 ConditionFalse) w.
Proof.
  unfold waitingPhase. apply wp_sbind_get, wp_sbind. case_bool_decide as Hp; cbn [negb]; simpl;
    (split; [done|]; split; [done|]; split; [done|]; split; [done|]; split; [done|]; split; [done|];
     split; [done|]; eexists; split; [apply SetStatusCondition_same|done]).
Qed.

Lemma idle_clock_from s s' w w1 w' :
  clock w <= clock w1 → idle_clock s s' w1 w' → idle_clock s s' w w'.
Proof.
  intros Hc [?|(Hn & t & Ht & Hb)]; [by left|]. right. split; [done|]. exists t.
  split; [done|]. lia.
Qed.

Lemma wp_run_sandbox r sb tpl h sa s w :
  wp (run_sandbox r sb tpl h sa s)
     (λ sr w', frame (only_pod sb) w w' ∧ run_outcome r sb tpl h sa s w sr w') w.
Proof.
  apply wp_sbind_attempt, wp_call. intros g w1 [Hck [Hun Hg]].
  assert (∀ sr w', run_outcome r sb tpl h sa s w1 sr w' → run_outcome r sb tpl h sa s w sr w') as Hback.
  { intros sr w' (Hk & Hi & Hr). split; [done|]. split; [by eapply idle_clock_from|].
    destruct sr.2; [|by rewrite (proj1 Hun) in Hr]. unfold run_result in *. rewrite (proj1 Hun) in Hr.
    destruct (view KPod w (podKey sb)) as [pod|]; [|done]. destruct (deadPod pod); [done|].
    destruct Hr as [Hu Hr]. split; [by eapply unchanged_trans|done]. }
  destruct g as [pod|e].
  2:{ destruct (IsNotFound e) eqn:He.
      - eapply wp_mono; [apply wp_provision; by rewrite (proj1 Hun), Hg|]. intros sr w' [Hf Ho].
        split; [eapply frame_trans; [by apply frame_unchanged|done]|by apply Hback].
      - split; [by apply frame_unchanged|]. split; [done|]. split; [by left|].
        split; [done|]. split; [done|]. by rewrite (proj1 Hun). }
  assert (view KPod w1 (podKey sb) = Some pod) as Hv by by rewrite (proj1 Hun).
  apply wp_sbind_modify. destruct (deadPod pod) eqn:Hd.
  { eapply wp_mono; [by apply (wp_recreate r sb tpl h sa)|]. intros sr w' [Hf Ho].
    split; [eapply frame_trans; [by apply frame_unchanged|done]|]. apply Hback. exact Ho. }
  apply wp_sbind. destruct (podReady pod) eqn:Hp.
  - eapply wp_mono; [apply wp_reflectReady|].
    intros [s' x] w' (Hu & Hx & Hk & Hi & Hh & Hph & Hip & Hrd & Hla). simpl in Hx. subst x.
    cbn [fst snd] in *. apply wp_drift_end. intros c Hc.
    split; [apply frame_unchanged; by eapply unchanged_trans|]. apply Hback.
    split; [done|]. split; [exact Hi|]. unfold run_result. simpl. rewrite Hv, Hd, Hp.
    split; [done|]. split; [done|]. split; [done|]. split; [done|]. split; [done|].
    split; [by apply ready_other|done].
  - eapply wp_mono; [apply wp_reflectPending|].
    intros [s' x] w' (-> & Hx & Hk & Hla & Hh & Hph & Hip & Hrd). simpl in Hx. subst x.
    cbn [fst snd] in *. apply wp_drift_end. intros c Hc.
    split; [by apply frame_unchanged|]. apply Hback.
    split; [done|]. split; [by left|]. unfold run_result. simpl. rewrite Hv, Hd, Hp.
    split; [done|]. split; [done|]. split; [done|]. split; [done|]. split; [done|].
    by apply ready_other.
Qed.

End proofs.
