(* ===== verification/SandboxReconcile.v ===== *)
(** * The sandbox reconciler (internal/controller/sandbox_controller.go)

    [reconcileSandbox] puts the stages together: template, home, host key,
    network policy, RBAC, then the desired-state machine. The theorems are
    about the whole function: which objects it can write at all, that a
    sandbox with an open session keeps its pod, what is in place when it
    ends well, and when a sandbox is suspended. *)

From S2P Require Import Prelude GoStrings KubeTypes ApiTypes Client Libs PodSpec SSHCA StatusMonad.
From S2P Require Import SandboxRBAC Bootstrap SandboxHome SandboxNet SandboxRun.
From Stdlib Require Import String.
From stdpp Require Import base gmap strings list.
From Stdlib Require Import ZArith Lia.
Local Open Scope Z_scope.

Section reconcile.
Context `{AM : ApiMachinery} `{SSH : SSHLib}.

(** The sandbox waits: pending, not ready, and why. *)
Definition pendingReady (sb : Sandbox) (reason message : string) {A} (a : A) : SM A :=
  modify (set_Phase SandboxPhasePending) ;;!
  setCondition sb ConditionReady ConditionFalse reason message ;;!
  sret a.

(** The stages before the desired-state machine: [inl] ends the
    reconciliation with a result, [inr] goes on with the template and the
    service account. *)
Definition prepare (r : SandboxReconciler) (sb : Sandbox) : SM (Result + SandboxTemplate * string) :=
  t ←! attempt (call (EGet KTemplate (nn "" (sp_Template (sb_Spec sb)))));
  match t with
  | Err e =>
    if IsNotFound e then
      pendingReady sb ReasonInvalidRef
        ("SandboxTemplate " +:+ quote (sp_Template (sb_Spec sb)) +:+ " not found") (inl noResult)
    else sthrow e
  | Ok tpl =>
    requeue ←! reconcileHome sb;
    match requeue with
    | Some res => sret (inl res)
    | None =>
      lift (reconcileHostKey sb) ;;!
      lift (reconcileNetworkPolicy r sb tpl) ;;!
      rbac ←! reconcileRBAC sb;
      if negb (rr_Ready rbac) then
        pendingReady sb ReasonProvisioning "waiting on access profile" (inl noResult)
      else sret (inr (tpl, rr_ServiceAccount rbac))
    end
  end.

(** Requeue an idle-eligible running sandbox at its idle deadline. *)
Definition idleRequeue (r : SandboxReconciler) (active : Z) (timeout : Duration) (result : Result) : SM Result :=
  s ←! getStatus;
  match st_LastActivityTime s with
  | Some last =>
    if (RequeueAfter result =? 0) && (active =? 0) && (0 <? timeout)
       && bool_decide (st_Phase s = SandboxPhaseRunning) then
      t ←! attempt (now r);
      sret {| RequeueAfter := Z.max (dur_sub timeout (time_Sub t last)) Second |}
    else sret result
  | None => sret result
  end.

Definition desiredStateMachine (r : SandboxReconciler) (sb : Sandbox) (tpl : SandboxTemplate)
    (serviceAccount : string) : SM Result :=
  let currentHash := TemplateHash (tpl_Spec tpl) in
  if bool_decide (sp_DesiredState (sb_Spec sb) = DesiredStateStopped) then suspend sb
  else
    active ←! lift (activeSessionCount sb);
    modify (set_ActiveSessions (int32_wrap active)) ;;!
    s ←! getStatus;
    let timeout := effectiveIdleTimeout sb tpl in
    expired ←! (if active =? 0 then attempt (idleExpired (st_LastActivityTime s) timeout)
                else sret false);
    if (expired : bool) then suspend sb
    else
      result ←! run_sandbox r sb tpl currentHash serviceAccount;
      idleRequeue r active timeout result.

Definition reconcileSandbox (r : SandboxReconciler) (sb : Sandbox) : SM Result :=
  p ←! prepare r sb;
  match p with
  | inl res => sret res
  | inr (tpl, serviceAccount) => desiredStateMachine r sb tpl serviceAccount
  end.

End reconcile.

(** ** What the stages before the machine establish *)

Section proofs.
Context `{AM : ApiMachinery} `{SSH : SSHLib} `{!ApiMachineryLaws AM} `{!SSHLaws SSH}.
Context {W : Type} `{World W}.

(** The objects a sandbox's preparation may write. *)
Definition child (sb : Sandbox) (w : W) (t : tag) (k : NamespacedName) : Prop :=
  (t = TPVC ∧ k = nn (Namespace sb) (PVCName (Name sb))) ∨ hostkey_targets sb w t k
  ∨ (t = TNetPol ∧ k = netPolKey sb) ∨ rbac_target sb w t k.

(** Nothing the reconciler replaces is being deleted or held by a finalizer,
    and no sandbox has an empty name. *)
Definition quiet (sb : Sandbox) (w : W) : Prop :=
  named w ∧ (∀ ns, settled KRoleBinding w (bindingKey sb ns)) ∧ settled KNetPol w (netPolKey sb).

(** The credentials a pod gets: none without a profile, the profile's if it
    permits the namespace. *)
Definition credentials (sb : Sandbox) (sa : string) (w w' : W) : Prop :=
  if String.eqb (sp_AccessProfile (sb_Spec sb)) "" then sa = ""%string ∧ no_bindings sb w'
  else ∃ p, view KAccessProfile w (nn "" (sp_AccessProfile (sb_Spec sb))) = Some p ∧
       Namespace sb ∈ aps_AllowedNamespaces (ap_Spec p) ∧
       sa = saName (Name sb) ∧ granted sb p w'.

Definition prepared (r : SandboxReconciler) (sb : Sandbox) (tpl : SandboxTemplate) (sa : string) (w w' : W) : Prop :=
  view KTemplate w (nn "" (sp_Template (sb_Spec sb))) = Some tpl ∧
  is_Some (view KPVC w' (nn (Namespace sb) (homeClaim sb))) ∧
  is_Some (view KSecret w' (hostKeyKey sb)) ∧
  policy_in_place r sb tpl w w' ∧
  credentials sb sa w w'.

(** The status fields the preparation leaves alone. *)
Definition prepare_keeps (s s' : SandboxStatus) : Prop :=
  st_PodName s' = st_PodName s ∧ st_PodIP s' = st_PodIP s ∧
  st_TemplateHash s' = st_TemplateHash s ∧ st_LastActivityTime s' = st_LastActivityTime s ∧
  st_ObservedGeneration s' = st_ObservedGeneration s ∧ st_ActiveSessions s' = st_ActiveSessions s.

Definition prepare_outcome r sb (s : SandboxStatus) (w : W)
    (sr : SandboxStatus * res (Result + SandboxTemplate * string)) (w' : W) : Prop :=
  prepare_keeps s sr.1 ∧
  match sr.2 with
  | Err _ => st_Phase sr.1 = st_Phase s
  | Ok (inl _) => st_Phase sr.1 = SandboxPhasePending
  | Ok (inr (tpl, sa)) =>
    st_Phase sr.1 = st_Phase s ∧ st_PVCName sr.1 = homeClaim sb ∧
    st_ServiceAccountName sr.1 = sa ∧ prepared r sb tpl sa w w'
  end.

(** The kinds among them. *)
Lemma child_kind sb w t k :
  child sb w t k → t ∈ [TPVC; TSecret; TNetPol; TRoleBinding; TServiceAccount].
Proof. intros [[-> _]|[[-> _]|[[-> _]|Ht%rbac_target_kind]]]; set_solver. Qed.

Lemma child_view {T} (K : Kind T) sb w0 w w' k :
  frame (child sb w0) w w' → kind_tag K ∉ [TPVC; TSecret; TNetPol; TRoleBinding; TServiceAccount] →
  view K w' k = view K w k.
Proof. intros Hf HK. apply (frame_view K k _ _ _ Hf). by intros ?%child_kind. Qed.

Lemma home_frame_child sb w0 w w' : home_frame sb w w' → frame (child sb w0) w w'.
Proof.
  unfold home_frame. destruct (String.eqb _ _); [|apply frame_unchanged].
  intros [Hsb _]. eapply frame_same_but; [exact Hsb|]. by left.
Qed.

Lemma hostkey_frame_child sb w0 w w' :
  environ w = environ w0 → frame (hostkey_targets sb w) w w' → frame (child sb w0) w w'.
Proof.
  intros He Hf. eapply frame_mono; [exact Hf|]. intros t k Ht. right; left.
  unfold hostkey_targets in *. by rewrite <- (caKey_environ _ _ He).
Qed.

Lemma netpol_frame_child sb w0 w w' :
  same_but KNetPol (netPolKey sb) w w' → frame (child sb w0) w w'.
Proof. intros Hsb. eapply frame_same_but; [exact Hsb|]. by right; right; left. Qed.

Lemma rbac_frame_child sb w0 w w' :
  (∀ k, view KRoleBinding w k = view KRoleBinding w0 k) →
  frame (rbac_target sb w) w w' → frame (child sb w0) w w'.
Proof.
  intros Hv Hf. eapply frame_mono; [exact Hf|]. intros t k Ht. right; right; right.
  by eapply rbac_target_view.
Qed.

Lemma policy_in_place_from r sb tpl w w0 w' :
  (∀ k, view KEndpointSlice w k = view KEndpointSlice w0 k) → environ w = environ w0 →
  policy_in_place r sb tpl w w' → policy_in_place r sb tpl w0 w'.
Proof.
  intros Hv He (np & slices & Hnp & Hsl & Heps & Hs). exists np, slices. split; [done|].
  split; [|split].
  - unfold api_slices in *. by setoid_rewrite <- Hv.
  - intros a. rewrite Heps. unfold api_server_at. by setoid_rewrite Hv.
  - rewrite Hs. unfold gatewayNS, operatorNS. by rewrite He.
Qed.

Lemma policy_in_place_to r sb tpl w w0 w' :
  view KNetPol w' (netPolKey sb) = view KNetPol w0 (netPolKey sb) →
  policy_in_place r sb tpl w w0 → policy_in_place r sb tpl w w'.
Proof. intros Hv (np & slices & Hnp & Hsl). exists np, slices. by rewrite Hv. Qed.

(** The RBAC stage, seen from the world the reconciliation started in. *)
Lemma rbac_credentials sb s w0 w sr w' :
  view KAccessProfile w (nn "" (sp_AccessProfile (sb_Spec sb))) =
    view KAccessProfile w0 (nn "" (sp_AccessProfile (sb_Spec sb))) →
  rbac_outcome sb s w sr w' →
  ∀ r, sr.2 = Ok r →
    st_ServiceAccountName sr.1 = rr_ServiceAccount r ∧
    (∃ cs san, sr.1 = set_Conditions cs (set_ServiceAccountName san s)) ∧
    (rr_Ready r = true → credentials sb (rr_ServiceAccount r) w0 w').
Proof.
  intros Hv Ho r Hr. unfold rbac_outcome in Ho. rewrite Hr in Ho.
  destruct Ho as (Hsa & _ & Hform & Ho). split; [done|]. split; [done|]. intros Hready.
  unfold credentials. rewrite Hv in Ho. destruct (String.eqb _ _).
  - by destruct Ho as [-> ?].
  - destruct (view KAccessProfile w0 _) as [p|]; [|destruct Ho as [-> _]; done].
    destruct (contains _ _) eqn:Hc; [|destruct Ho as [-> _]; done].
    destruct Ho as [-> Hg]. exists p. apply contains_true in Hc. done.
Qed.

(** The last three stages, from a world where the home is in place. *)
Lemma wp_prepare_children r sb tpl s (w0 w : W) :
  frame (child sb w0) w0 w → quiet sb w → (∀ k, view KRoleBinding w k = view KRoleBinding w0 k) →
  view KTemplate w0 (nn "" (sp_Template (sb_Spec sb))) = Some tpl →
  is_Some (view KPVC w (nn (Namespace sb) (homeClaim sb))) →
  wp ((lift (reconcileHostKey sb) ;;!
       lift (reconcileNetworkPolicy r sb tpl) ;;!
       rbac ←! reconcileRBAC sb;
       if negb (rr_Ready rbac) then
         pendingReady sb ReasonProvisioning "waiting on access profile" (inl noResult)
       else sret (inr (tpl, rr_ServiceAccount rbac))) s)
     (λ sr w', frame (child sb w0) w0 w' ∧ prepare_keeps s sr.1 ∧ st_PVCName sr.1 = st_PVCName s ∧
        match sr.2 with
        | Err _ => st_Phase sr.1 = st_Phase s
        | Ok (inl _) => st_Phase sr.1 = SandboxPhasePending
        | Ok (inr (tpl', sa)) => st_Phase sr.1 = st_Phase s ∧
            st_ServiceAccountName sr.1 = sa ∧ tpl' = tpl ∧ prepared r sb tpl sa w0 w'
        end) w.
Proof.
  intros Hf (Hnamed & Hrb & Hnp) Hrbv Htpl Hpvc.
  apply wp_sbind_lift. eapply wp_mono; [apply wp_reconcileHostKey|].
  intros x w1 (Hf1 & _ & Hkeep & Hx).
  pose proof (hostkey_frame_child sb w0 _ _ (proj2 Hf) Hf1) as Hc1.
  pose proof (frame_trans _ _ _ _ Hf Hc1) as Hf01.
  destruct x as [[]|e]; [|done].
  assert (is_Some (view KSecret w1 (hostKeyKey sb))) as Hsec.
  { destruct Hx as [Hs|(sec & ca & _ & _ & _ & _ & _ & Hv & _)]; [|by rewrite Hv].
    by rewrite (proj1 (Hkeep Hs)). }
  assert (∀ T (K : Kind T) k, kind_tag K ≠ TSecret → view K w1 k = view K w k) as Hv1.
  { intros T K k HK. apply (frame_view K k _ _ _ Hf1). by intros [? _]. }
  apply wp_sbind_lift. eapply wp_mono; [apply wp_reconcileNetworkPolicy|].
  { intros o. rewrite Hv1 by done. apply Hnp. }
  intros x w2 [Hsb2 Hpol]. pose proof (netpol_frame_child sb w0 _ _ Hsb2) as Hc2.
  pose proof (frame_trans _ _ _ _ Hf01 Hc2) as Hf02.
  destruct x as [[]|e]; [|done].
  apply wp_sbind. eapply wp_mono; [apply wp_reconcileRBAC|].
  { intros k o. rewrite (same_but_view _ _ KRoleBinding _ _ _ Hsb2) by done.
    rewrite Hv1 by done. apply Hrb. }
  intros [s' x] w3 [Hf3 Ho]. assert (frame (child sb w0) w0 w3) as Hf03.
  { eapply frame_trans; [exact Hf02|]. eapply rbac_frame_child; [|exact Hf3]. intros k.
    rewrite (same_but_view _ _ KRoleBinding _ _ _ Hsb2) by done. by rewrite Hv1. }
  destruct x as [rb|e]; cbn [fst snd] in *; [|unfold rbac_outcome in Ho; simpl in Ho; by subst].
  destruct (rbac_credentials sb s w0 w2 (s', Ok rb) w3) with rb as (Hsa & (cs & san & Hs') & Hcred);
    [apply (child_view KAccessProfile _ _ _ _ _ Hf02); simpl; set_solver|done|done|].
  simpl in Hsa, Hs', Hcred. destruct (rr_Ready rb) eqn:Hready; cbn [negb];
    (split; [done|]); rewrite Hs'; (split; [done|]); (split; [done|]); [|done].
  rewrite Hs' in Hsa. split; [done|]. split; [done|]. split; [done|].
  assert (∀ T (K : Kind T) k, kind_tag K ∉ [TRoleBinding; TServiceAccount] →
            view K w3 k = view K w2 k) as Hv3.
  { intros T K k HK. apply (frame_view _ _ _ _ _ Hf3). intros Ht%rbac_target_kind. set_solver. }
  split; [done|]. split; [|split; [|split; [|by apply Hcred]]].
  - rewrite Hv3 by (simpl; set_solver). rewrite (same_but_view _ _ KPVC _ _ _ Hsb2) by done. by rewrite Hv1.
  - rewrite Hv3 by (simpl; set_solver). by rewrite (same_but_view _ _ KSecret _ _ _ Hsb2) by done.
  - eapply policy_in_place_to; [apply Hv3; simpl; set_solver|].
    eapply policy_in_place_from; [| |exact Hpol]; [|by rewrite (proj2 Hf01)].
    intros k. apply (child_view KEndpointSlice _ _ _ _ _ Hf01). simpl. set_solver.
Qed.

Lemma wp_prepare r sb s w :
  quiet sb w →
  wp (prepare r sb s) (λ sr w', frame (child sb w) w w' ∧ prepare_outcome r sb s w sr w') w.
Proof.
  intros (Hnamed & Hrb & Hnp). apply wp_sbind_attempt, wp_call. intros t w1 [_ [Hun Ht]].
  pose proof (frame_unchanged (child sb w) _ _ Hun) as Hf1. destruct t as [tpl|e].
  2:{ by destruct (IsNotFound e). }
  apply wp_sbind. eapply wp_mono; [apply wp_reconcileHome|].
  { intros ns o. rewrite (proj1 Hun). apply Hnamed. }
  intros [s1 x] w2 [Hf2 Ho].
  pose proof (frame_trans _ _ _ _ Hf1 (home_frame_child sb w _ _ Hf2)) as Hf02.
  destruct x as [[res|]|e]; cbn [fst snd] in *; unfold home_outcome in Ho; simpl in Ho.
  - destruct Ho as (_ & (reason & msg & ->) & _). done.
  - destruct Ho as [[Hpvc ->] _]. eapply wp_mono; [apply (wp_prepare_children _ _ _ _ w w2)|]; try done.
    + assert (∀ T (K : Kind T) k, kind_tag K ≠ TPVC → view K w2 k = view K w k) as Hv.
      { intros T K k HK. rewrite <- (proj1 Hun). unfold home_frame in Hf2.
        destruct (String.eqb _ _); [|apply Hf2]. apply (same_but_view _ _ _ _ _ _ (proj1 Hf2)). simpl. congruence. }
      split; [intros ns o; rewrite Hv by done; apply Hnamed|].
      split; [intros k o; rewrite Hv by done; apply Hrb|].
      intros o. rewrite Hv by done. apply Hnp.
    + intros k. rewrite <- (proj1 Hun). unfold home_frame in Hf2.
      destruct (String.eqb _ _); [|apply Hf2]. by apply (same_but_view _ _ _ _ _ _ (proj1 Hf2)).
    + intros [s2 x] w3 (Hf3 & Hk & Hpn & Hx). split; [done|]. split; [done|]. simpl in *.
      destruct x as [[res|[tpl' sa]]|e]; [done| |done].
      destruct Hx as (Hp & Hsa & -> & Hprep). done.
  - subst s1. done.
Qed.

(** ** The desired-state machine *)

(** Suspension is due at [t]: the user stopped the sandbox, or no session is
    open and the idle window has passed. *)
Definition suspend_due (sb : Sandbox) (tpl : SandboxTemplate) (last : option Time) (w : W) (t : Time) : Prop :=
  sp_DesiredState (sb_Spec sb) = DesiredStateStopped ∨
  (¬ has_active_session w sb ∧ idle_expired_at last (effectiveIdleTimeout sb tpl) t).

(** The statuses that differ in the session counter at most. *)
Definition counted (s s' : SandboxStatus) : Prop :=
  s' = set_ActiveSessions (st_ActiveSessions s') s.

(** The result of the run branch after [idleRequeue]. *)
Definition requeued (sb : Sandbox) (tpl : SandboxTemplate) (s : SandboxStatus) (w w' : W)
    (res0 res : Result) : Prop :=
  res = res0 ∨
  ∃ last t, st_LastActivityTime s = Some last ∧ st_Phase s = SandboxPhaseRunning ∧
    clock w <= t <= clock w' ∧
    RequeueAfter res = Z.max (dur_sub (effectiveIdleTimeout sb tpl) (time_Sub t last)) Second.

(** A running sandbox without a session and with an idle window is looked at
    again when the window ends. *)
Definition idle_eligible (sb : Sandbox) (tpl : SandboxTemplate) (w : W) (s : SandboxStatus) (res0 : Result) : Prop :=
  RequeueAfter res0 = 0 ∧ ¬ has_active_session w sb ∧ 0 < effectiveIdleTimeout sb tpl ∧
  st_Phase s = SandboxPhaseRunning ∧ is_Some (st_LastActivityTime s).

Definition machine_outcome r sb tpl sa (s : SandboxStatus) (w : W)
    (sr : SandboxStatus * res Result) (w' : W) : Prop :=
  (is_ok sr.2 = false ∧ unchanged w w' ∧ sr.1 = s) ∨
  ∃ s1 w1, unchanged w w1 ∧ clock w <= clock w1 ∧ clock w1 <= clock w' ∧ counted s s1 ∧
    ((suspend_due sb tpl (st_LastActivityTime s) w (clock w1) ∧ suspend_outcome sb s1 w1 sr w') ∨
     (¬ suspend_due sb tpl (st_LastActivityTime s) w (clock w1) ∧
      ∃ rr w2, run_outcome r sb tpl (TemplateHash (tpl_Spec tpl)) sa s1 w1 (sr.1, rr) w2 ∧
        unchanged w2 w' ∧
        match rr with
        | Err e => sr.2 = Err e
        | Ok res0 => ∃ res, sr.2 = Ok res ∧ requeued sb tpl sr.1 w w' res0 res ∧
            (idle_eligible sb tpl w sr.1 res0 → Second <= RequeueAfter res)
        end)).

Lemma wp_idleRequeue r sb tpl active result s w0 w :
  r_Now r = None → clock w0 <= clock w → (active = 0 ↔ ¬ has_active_session w0 sb) →
  wp (idleRequeue r active (effectiveIdleTimeout sb tpl) result s)
     (λ sr w', unchanged w w' ∧ clock w <= clock w' ∧ sr.1 = s ∧
        ∃ res, sr.2 = Ok res ∧ requeued sb tpl s w0 w' result res ∧
          (idle_eligible sb tpl w0 s result → Second <= RequeueAfter res)) w.
Proof.
  intros Hprod Hclk Hact. apply wp_sbind_get.
  destruct (st_LastActivityTime s) as [last|] eqn:Hl.
  2:{ split; [done|]. split; [simpl; lia|]. split; [done|]. eexists. split; [done|].
      split; [by left|]. intros (_ & _ & _ & _ & [? ?]). congruence. }
  destruct (_ && _ && _ && _) eqn:Hb.
  - rewrite !andb_true_iff, bool_decide_eq_true in Hb. destruct Hb as [[[Hr0 Ha] Ht] Hp].
    apply wp_sbind_attempt. unfold now. rewrite Hprod. apply wp_call.
    intros t w' [Hck [Hun ->]]. split; [done|]. split; [done|]. split; [done|].
    eexists. split; [done|]. split; [|intros _; simpl; lia].
    right. exists last, (clock w'). split; [done|]. split; [done|]. split; [lia|done].
  - split; [done|]. split; [simpl; lia|]. split; [done|]. eexists. split; [done|].
    split; [by left|]. intros (Hr0 & Hna & Ht & Hp & _). exfalso.
    apply Hact in Hna. rewrite Hr0, Hna, Hp in Hb. apply Z.ltb_lt in Ht. rewrite Ht in Hb.
    by rewrite bool_decide_eq_true_2 in Hb.
Qed.

(** The run branch with its requeue. *)
Lemma wp_run_branch r sb tpl sa active s w0 w :
  r_Now r = None → clock w0 <= clock w → (active = 0 ↔ ¬ has_active_session w0 sb) →
  wp ((result ←! run_sandbox r sb tpl (TemplateHash (tpl_Spec tpl)) sa;
       idleRequeue r active (effectiveIdleTimeout sb tpl) result) s)
     (λ sr w', frame (only_pod sb) w w' ∧ clock w <= clock w' ∧
        ∃ rr w2, run_outcome r sb tpl (TemplateHash (tpl_Spec tpl)) sa s w (sr.1, rr) w2 ∧
        unchanged w2 w' ∧
        match rr with
        | Err e => sr.2 = Err e
        | Ok res0 => ∃ res, sr.2 = Ok res ∧ requeued sb tpl sr.1 w0 w' res0 res ∧
            (idle_eligible sb tpl w0 sr.1 res0 → Second <= RequeueAfter res)
        end) w.
Proof.
  intros Hprod Hclk Hact. apply wp_sbind.
  eapply wp_mono; [apply wp_and; [apply wp_run_sandbox|apply wp_clock]|].
  intros [s2 x] w2 [[Hf Ho] Hck2]. cbn [fst snd]. destruct x as [res0|e].
  - eapply wp_mono; [apply (wp_idleRequeue r sb tpl active res0 s2 w0 w2); [done|lia|done]|].
    intros [s3 y] w3 (Hun & Hck3 & Hs & Hy). simpl in Hs. subst s3.
    split; [eapply frame_trans; [done|by apply frame_unchanged]|]. split; [lia|].
    exists (Ok res0), w2. done.
  - split; [done|]. split; [lia|]. exists (Err e), w2. done.
Qed.

Lemma wp_desiredStateMachine r sb tpl sa s w :
  r_Now r = None → effectiveIdleTimeout sb tpl < int64_max →
  wp (desiredStateMachine r sb tpl sa s)
     (λ sr w', frame (only_pod sb) w w' ∧ machine_outcome r sb tpl sa s w sr w') w.
Proof.
  intros Hprod Hmax. unfold desiredStateMachine. case_bool_decide as Hstop.
  { eapply wp_mono; [apply wp_and; [apply wp_suspend|apply wp_clock]|].
    intros sr w' [[Hf Ho] Hck]. split; [done|]. right. exists s, w.
    split; [done|]. split; [lia|]. split; [done|]. split; [by destruct s|]. left. split; [by left|done]. }
  apply wp_sbind_lift. eapply wp_mono; [apply wp_and; [apply wp_activeSessionCount|apply wp_clock]|].
  intros [active|e] w1 [[Hun Ha] Hck]; [|split; [by apply frame_unchanged|by left]].
  destruct Ha as [_ Ha]. apply wp_sbind_modify, wp_sbind_get.
  set (s1 := set_ActiveSessions (int32_wrap active) s).
  assert (counted s s1) as Hs1 by done.
  assert (∀ b w2, unchanged w1 w2 → clock w1 <= clock w2 →
            (b = true ↔ suspend_due sb tpl (st_LastActivityTime s) w (clock w2)) →
            wp ((if (b : bool) then suspend sb
                 else result ←! run_sandbox r sb tpl (TemplateHash (tpl_Spec tpl)) sa;
                      idleRequeue r active (effectiveIdleTimeout sb tpl) result) s1)
               (λ sr w', frame (only_pod sb) w w' ∧ machine_outcome r sb tpl sa s w sr w') w2) as Hgo.
  { intros b w2 Hun2 Hck2 Hb. pose proof (unchanged_trans _ _ _ Hun Hun2) as Hu.
    destruct b.
    - eapply wp_mono; [apply wp_and; [apply wp_suspend|apply wp_clock]|].
      intros sr w' [[Hf Ho] Hck3]. split; [eapply frame_trans; [by apply frame_unchanged|done]|].
      right. exists s1, w2. split; [done|]. split; [lia|]. split; [done|]. split; [done|].
      left. split; [by apply Hb|done].
    - eapply wp_mono; [apply (wp_run_branch r sb tpl sa active s1 w w2); [done|lia|done]|].
      intros sr w' (Hf & Hck3 & Ho). split; [eapply frame_trans; [by apply frame_unchanged|done]|].
      right. exists s1, w2. split; [done|]. split; [lia|]. split; [done|]. split; [done|].
      right. split; [|done]. intros Hd. by apply Hb in Hd. }
  apply wp_sbind. destruct (Z.eqb_spec active 0) as [Ha0|Ha0].
  - apply wp_attempt. eapply wp_mono; [apply wp_and; [by apply wp_idleExpired|apply wp_clock]|].
    intros b w2 [[Hun2 Hb] Hck2]. cbn [snd fst]. apply Hgo; [done|done|].
    rewrite Hb. unfold suspend_due. split.
    + intros Hi. right. split; [by apply Ha|done].
    + intros [?|[_ Hi]]; [done|exact Hi].
  - cbn [snd fst]. apply Hgo; [apply unchanged_refl|lia|]. split; [done|].
    intros [?|[Hno _]]; [done|]. by apply Ha in Hno.
Qed.

(** ** The whole reconciliation *)

Definition reconcile_outcome r sb (s : SandboxStatus) (w : W)
    (sr : SandboxStatus * res Result) (w' : W) : Prop :=
  (view KPod w' (podKey sb) = view KPod w (podKey sb) ∧ prepare_keeps s sr.1 ∧
   (st_Phase sr.1 = SandboxPhasePending ∨ (st_Phase sr.1 = st_Phase s ∧ is_ok sr.2 = false)))
  ∨ ∃ tpl sa s1 w1, frame (child sb w) w w1 ∧ frame (only_pod sb) w1 w' ∧ clock w <= clock w1 ∧ prepare_keeps s s1 ∧
      st_Phase s1 = st_Phase s ∧ prepared r sb tpl sa w w1 ∧
      machine_outcome r sb tpl sa s1 w1 sr w'.

Definition sandbox_writes (sb : Sandbox) (w : W) (t : tag) (k : NamespacedName) : Prop :=
  child sb w t k ∨ only_pod sb t k.

(** No idle window of a sandbox or template is the largest duration there is. *)
Definition timeouts_bounded (sb : Sandbox) (w : W) : Prop :=
  ∀ tpl, view KTemplate w (nn "" (sp_Template (sb_Spec sb))) = Some tpl →
    effectiveIdleTimeout sb tpl < int64_max.

Lemma child_not_pod sb w k : ¬ child sb w TPod k.
Proof. intros Hc%child_kind. set_solver. Qed.

Lemma wp_reconcileSandbox r sb s w :
  quiet sb w → r_Now r = None → timeouts_bounded sb w →
  wp (reconcileSandbox r sb s)
     (λ sr w', frame (sandbox_writes sb w) w w' ∧ reconcile_outcome r sb s w sr w') w.
Proof.
  intros Hq Hprod Hto. apply wp_sbind.
  eapply wp_mono; [apply wp_and; [by apply (wp_prepare r)|apply wp_clock]|].
  intros [s1 x] w1 [[Hf [Hk Hx]] Hck]. cbn [fst snd] in *.
  assert (frame (sandbox_writes sb w) w w1) as Hf' by (eapply frame_mono; [exact Hf|]; by left).
  assert (view KPod w1 (podKey sb) = view KPod w (podKey sb)) as Hpod.
  { apply (frame_view KPod _ _ _ _ Hf). apply child_not_pod. }
  destruct x as [[res|[tpl sa]]|e].
  - split; [done|]. left. auto.
  - destruct Hx as (Hp & _ & _ & Hprep). eapply wp_mono; [apply wp_desiredStateMachine; [done|]|].
    + apply Hto, Hprep.
    + intros sr w' [Hf2 Ho]. split.
      * eapply frame_trans; [done|]. eapply frame_mono; [exact Hf2|]. by right.
      * right. exists tpl, sa, s1, w1. auto 10.
  - split; [done|]. left. auto.
Qed.

(** ** The theorems *)

(** Reconciling a sandbox writes its own home claim, host key, network policy
    and pod, role bindings and service accounts, and the authority secret, and
    nothing else: no sandbox, template, profile, session, namespace or role. *)
Theorem reconcileSandbox_writes (env : Env W) `{!Conforms env} r sb s w sr w' :
  quiet sb w → r_Now r = None → timeouts_bounded sb w →
  run env (reconcileSandbox r sb s) w = (sr, w') →
  frame (sandbox_writes sb w) w w'.
Proof.
  intros Hq Hp Ht Hrun.
  exact (proj1 (run_wp env _ _ _ _ _ Hrun (wp_reconcileSandbox r sb s w Hq Hp Ht))).
Qed.

Lemma has_active_frame sb P w w' :
  frame P w w' → (∀ k, ¬ P TSession k) → has_active_session w sb → has_active_session w' sb.
Proof.
  intros Hf HP (x & Hv & Hx). exists x. split; [|done].
  by rewrite (frame_view KSession _ _ _ _ Hf) by apply HP.
Qed.

(** C5. While a session is open and the user did not stop the sandbox, its pod
    survives every reconciliation, whatever fails on the way, unless the pod
    itself has ended. *)
Theorem active_session_keeps_pod (env : Env W) `{!Conforms env} r sb s w sr w' pod :
  quiet sb w → r_Now r = None → timeouts_bounded sb w →
  sp_DesiredState (sb_Spec sb) ≠ DesiredStateStopped → has_active_session w sb →
  view KPod w (podKey sb) = Some pod → deadPod pod = false →
  run env (reconcileSandbox r sb s) w = (sr, w') →
  view KPod w' (podKey sb) = Some pod.
Proof.
  intros Hq Hp Ht Hds Hact Hpod Hdead Hrun.
  destruct (run_wp env _ _ _ _ _ Hrun (wp_reconcileSandbox r sb s w Hq Hp Ht)) as [_ Ho].
  destruct Ho as [[Hv _]|(tpl & sa & s1 & w1 & Hf & _ & _ & _ & _ & _ & Hm)]; [congruence|].
  assert (view KPod w1 (podKey sb) = Some pod) as Hpod1.
  { by rewrite (frame_view KPod _ _ _ _ Hf) by apply child_not_pod. }
  destruct Hm as [(_ & Hun & _)|(s2 & w2 & Hun & _ & _ & _ & Hm)]; [by rewrite (proj1 Hun)|].
  assert (view KPod w2 (podKey sb) = Some pod) as Hpod2 by by rewrite (proj1 Hun).
  destruct Hm as [[[?|[Hno _]] _]|[_ (rr & w3 & (_ & _ & Hr) & Hun3 & Hrr)]]; [done| |].
  - exfalso. apply Hno. eapply has_active_frame; [exact Hf| |exact Hact].
    intros k Hc%child_kind. set_solver.
  - rewrite (proj1 Hun3). destruct rr as [res|e]; simpl in Hr.
    + unfold run_result in Hr. rewrite Hpod2, Hdead in Hr. by rewrite (proj1 (proj1 Hr)).
    + by apply Hr.
Qed.

(** *** The machine seen from the start of the reconciliation *)

Lemma has_active_child sb w w1 :
  frame (child sb w) w w1 → has_active_session w1 sb ↔ has_active_session w sb.
Proof.
  intros Hf. unfold has_active_session.
  assert (∀ k, view KSession w1 k = view KSession w k) as Hv.
  { intros k. apply (child_view KSession _ _ _ _ _ Hf). simpl. set_solver. }
  by setoid_rewrite Hv.
Qed.

Lemma suspend_due_child sb tpl last w w1 t :
  frame (child sb w) w w1 → suspend_due sb tpl last w1 t ↔ suspend_due sb tpl last w t.
Proof. intros Hf. unfold suspend_due. by rewrite (has_active_child sb w w1 Hf). Qed.

(** What was prepared stays so while only the pod changes. *)
Lemma prepared_frame r sb tpl sa w w1 w2 :
  frame (only_pod sb) w1 w2 → prepared r sb tpl sa w w1 → prepared r sb tpl sa w w2.
Proof.
  intros Hf (H1 & H2 & H3 & H4 & H5).
  assert (∀ T (K : Kind T) k, kind_tag K ≠ TPod → view K w2 k = view K w1 k) as Hv.
  { intros T K k HK. apply (frame_view K k _ _ _ Hf). by intros [? _]. }
  split; [done|]. split; [by rewrite Hv|]. split; [by rewrite Hv|]. split.
  - eapply policy_in_place_to; [|exact H4]. by rewrite Hv.
  - unfold credentials in *. destruct (String.eqb _ _).
    + destruct H5 as [-> Hnb]. split; [done|]. intros k rb. rewrite Hv by done. apply Hnb.
    + destruct H5 as (p & Hpv & Hin & -> & G1 & G2 & G3). exists p. split; [done|].
      split; [done|]. split; [done|]. split; [by rewrite Hv|]. split.
      * intros ns Hns. eapply bound_as_view; [by apply Hv|]. by apply G2.
      * intros k rb. rewrite Hv by done. apply G3.
Qed.

(** A successful reconciliation that reached the machine: what it saw, when it
    decided, and which branch it took. *)
Definition decided r sb (s : SandboxStatus) (w : W) (s' : SandboxStatus) (res : Result) (w' : W)
    (tpl : SandboxTemplate) (sa : string) (t : Time) : Prop :=
  ∃ s1 w1, frame (child sb w) w w1 ∧ frame (only_pod sb) w1 w' ∧ prepared r sb tpl sa w w1 ∧
    clock w <= t ∧ t <= clock w' ∧ st_Phase s1 = st_Phase s ∧
    st_LastActivityTime s1 = st_LastActivityTime s ∧
    ((suspend_due sb tpl (st_LastActivityTime s) w t ∧ suspend_outcome sb s1 w1 (s', Ok res) w') ∨
     (¬ suspend_due sb tpl (st_LastActivityTime s) w t ∧
      ∃ res0 w2, run_outcome r sb tpl (TemplateHash (tpl_Spec tpl)) sa s1 w1 (s', Ok res0) w2 ∧
        unchanged w2 w' ∧ requeued sb tpl s' w w' res0 res ∧
        (idle_eligible sb tpl w s' res0 → Second <= RequeueAfter res))).

Lemma reconcile_decided r sb s w s' res w' :
  reconcile_outcome r sb s w (s', Ok res) w' → st_Phase s' ≠ SandboxPhasePending →
  ∃ tpl sa t, decided r sb s w s' res w' tpl sa t.
Proof.
  intros [(_ & _ & [?|[_ ?]])|(tpl & sa & s1 & w1 & Hf & Hfp & Hck & Hk & Hp & Hprep & Hm)] Hne; [done|done|].
  destruct Hm as [[? _]|(s2 & w2 & Hun & Hc1 & Hc2 & Hcnt & Hm)]; [done|].
  exists tpl, sa, (clock w2), s2, w2.
  assert (frame (child sb w) w w2) as Hf2.
  { eapply frame_trans; [exact Hf|]. by apply frame_unchanged. }
  destruct Hk as (_ & _ & _ & Hla & _).
  split; [done|]. split; [|split; [|split; [lia|split; [lia|]]]].
  { destruct Hfp as [Hv He]. split; [|by rewrite He, (proj2 Hun)].
    intros T K k HK. by rewrite Hv, (proj1 Hun). }
  { eapply prepared_frame; [|exact Hprep]. by apply frame_unchanged. }
  rewrite Hcnt. simpl. rewrite <- Hcnt. split; [done|]. split; [done|].
  rewrite !Hla, !(suspend_due_child sb tpl _ w w1 _ Hf) in Hm.
  destruct Hm as [Hm|(Hnd & rr & w3 & Hro & Hun3 & Hrr)]; [by left|]. right. split; [done|].
  destruct rr as [res0|e]; [|done]. destruct Hrr as (res1 & [= <-] & Hrq & Hie).
  exists res0, w3. split; [done|]. split; [done|]. split.
  - destruct Hrq as [?|(last & t & ? & ? & Hb & ?)]; [by left|]. right. exists last, t.
    split; [done|]. split; [done|]. split; [lia|done].
  - intros (E1 & E2 & E3). apply Hie. split; [done|]. split; [|done].
    by rewrite (has_active_child sb w w1 Hf).
Qed.

Context (env : Env W) `{!Conforms env}.

Lemma run_decided r sb s w s' res w' :
  quiet sb w → r_Now r = None → timeouts_bounded sb w →
  run env (reconcileSandbox r sb s) w = ((s', Ok res), w') → st_Phase s' ≠ SandboxPhasePending →
  frame (sandbox_writes sb w) w w' ∧ ∃ tpl sa t, decided r sb s w s' res w' tpl sa t.
Proof.
  intros Hq Hp Ht Hrun Hne.
  destruct (run_wp env _ _ _ _ _ Hrun (wp_reconcileSandbox r sb s w Hq Hp Ht)) as [Hf Ho].
  split; [done|]. by apply reconcile_decided.
Qed.

(** The phases each branch can leave. *)
Lemma suspend_phase sb s w s' res w' :
  suspend_outcome sb s w (s', Ok res) w' →
  st_Phase s' = SandboxPhaseSuspended ∨ st_Phase s' = SandboxPhaseSuspending.
Proof. intros (_ & _ & _ & _ & Hs & _). destruct Hs as [(Hs & _)|Hs]; simpl in Hs; [by left|right; by rewrite Hs]. Qed.

Lemma run_phase r sb tpl h sa s w s' res w' :
  run_outcome r sb tpl h sa s w (s', Ok res) w' →
  st_Phase s' = SandboxPhaseProvisioning ∨ st_Phase s' = SandboxPhaseResuming ∨
  (st_Phase s' = SandboxPhaseRunning ∧ unchanged w w' ∧
   ∃ pod, view KPod w (podKey sb) = Some pod ∧ podReady pod = true ∧
     st_PodIP s' = pst_PodIP (pod_Status pod)).
Proof.
  intros (_ & _ & Hr). simpl in Hr. unfold run_result in Hr.
  destruct (view KPod w (podKey sb)) as [pod|].
  - destruct (deadPod pod); [by left; apply Hr|]. destruct Hr as (Hun & _ & _ & Hr).
    destruct (podReady pod) eqn:Hp; [|destruct Hr as [-> _]; unfold waitingPhase; case_bool_decide; auto].
    destruct Hr as (H1 & H2 & _). eauto 10.
  - destruct Hr as (_ & _ & _ & -> & _). destruct (resumingPhase _); auto.
Qed.

Lemma run_running_noResult r sb tpl h sa s w s' res w' :
  run_outcome r sb tpl h sa s w (s', Ok res) w' → st_Phase s' = SandboxPhaseRunning →
  RequeueAfter res = 0.
Proof.
  intros (_ & _ & Hr) Hph. simpl in Hr. unfold run_result in Hr.
  destruct (view KPod w (podKey sb)) as [pod|].
  - destruct (deadPod pod); [destruct Hr as (_ & E & _); congruence|]. by destruct Hr as (_ & _ & -> & _).
  - by destruct Hr as (_ & _ & _ & _ & _ & ->).
Qed.

(** A pod that a successful reconciliation brought up. *)
Lemma brought_up r sb s w s' res w' pod :
  quiet sb w → r_Now r = None → timeouts_bounded sb w →
  view KPod w (podKey sb) = None →
  run env (reconcileSandbox r sb s) w = ((s', Ok res), w') →
  view KPod w' (podKey sb) = Some pod →
  ∃ tpl sa, prepared r sb tpl sa w w' ∧
    created_as KPod (owned_by KPod sb (BuildPod sb tpl (podOptions r sa))) pod.
Proof.
  intros Hq Hp Ht Hnone Hrun Hpod.
  destruct (run_wp env _ _ _ _ _ Hrun (wp_reconcileSandbox r sb s w Hq Hp Ht)) as [_ Ho].
  destruct (decide (st_Phase s' = SandboxPhasePending)) as [Hpend|Hne].
  { destruct Ho as [[Hv _]|(tpl & sa & s1 & w1 & Hf & _ & _ & _ & _ & _ & Hm)]; [congruence|].
    destruct Hm as [[? _]|(s2 & w2 & _ & _ & _ & _ & Hm)]; [done|].
    destruct Hm as [[_ Hs]|(_ & rr & w3 & Hr & _ & Hrr)].
    - apply suspend_phase in Hs. rewrite Hpend in Hs. by destruct Hs.
    - destruct rr as [res0|e]; [|done]. apply run_phase in Hr. simpl in Hr. rewrite Hpend in Hr.
      by destruct Hr as [|[|[? _]]]. }
  apply reconcile_decided in Ho as (tpl & sa & t & s1 & w1 & Hf & Hfp & Hprep & _ & _ & _ & _ & Hm); [|done].
  assert (view KPod w1 (podKey sb) = None) as Hnone1.
  { by rewrite (frame_view KPod _ _ _ _ Hf) by apply child_not_pod. }
  exists tpl, sa. split; [by eapply prepared_frame|].
  destruct Hm as [[_ (_ & _ & _ & _ & _ & _ & _ & Hgone)]|(_ & res0 & w2 & (_ & _ & Hr) & Hun2 & _)].
  - rewrite (Hgone Hnone1) in Hpod. done.
  - simpl in Hr. unfold run_result in Hr. rewrite Hnone1 in Hr. rewrite (proj1 Hun2) in Hpod.
    destruct Hr as [(pod' & Hpod' & Hc) _]. by simplify_eq.
Qed.

(** C6. A successful reconciliation past the preparation suspends the sandbox
    exactly when that was due: the user stopped it, or no session was open and
    the idle window had passed at an instant during the reconciliation. A
    suspended sandbox has no address and no live pod. *)
Theorem suspension_exact r sb s w s' res w' :
  quiet sb w → r_Now r = None → timeouts_bounded sb w →
  run env (reconcileSandbox r sb s) w = ((s', Ok res), w') → st_Phase s' ≠ SandboxPhasePending →
  ∃ tpl t, view KTemplate w (nn "" (sp_Template (sb_Spec sb))) = Some tpl ∧ clock w <= t <= clock w' ∧
    ((st_Phase s' = SandboxPhaseSuspended ∨ st_Phase s' = SandboxPhaseSuspending) ↔
     suspend_due sb tpl (st_LastActivityTime s) w t) ∧
    (suspend_due sb tpl (st_LastActivityTime s) w t →
     st_PodIP s' = ""%string ∧ not_live KPod w' (podKey sb)).
Proof.
  intros Hq Hp Ht Hrun Hne. destruct (run_decided _ _ _ _ _ _ _ Hq Hp Ht Hrun Hne) as [_ Hd].
  destruct Hd as (tpl & sa & t & s1 & w1 & _ & _ & Hprep & H1 & H2 & _ & _ & Hm).
  exists tpl, t. split; [apply Hprep|]. split; [lia|].
  destruct Hm as [[Hdue Hs]|(Hnd & res0 & w2 & Hr & _)].
  - pose proof (suspend_phase _ _ _ _ _ _ Hs) as Hph. split; [done|]. intros _.
    destruct Hs as (Hip & _ & _ & _ & _ & Hn & _). done.
  - apply run_phase in Hr. split; [|done]. split; [|done].
    intros [E|E]; rewrite E in Hr; by destruct Hr as [|[|[? _]]].
Qed.

(** C22. When a successful reconciliation says the sandbox is running, a ready pod
    is there and the published address is that pod's. *)
Theorem running_has_ready_pod r sb s w s' res w' :
  quiet sb w → r_Now r = None → timeouts_bounded sb w →
  run env (reconcileSandbox r sb s) w = ((s', Ok res), w') → st_Phase s' = SandboxPhaseRunning →
  ∃ pod, view KPod w' (podKey sb) = Some pod ∧ podReady pod = true ∧
    st_PodIP s' = pst_PodIP (pod_Status pod).
Proof.
  intros Hq Hp Ht Hrun Hph.
  destruct (run_decided _ _ _ _ _ _ _ Hq Hp Ht Hrun) as [_ Hd]; [by rewrite Hph|].
  destruct Hd as (tpl & sa & t & s1 & w1 & _ & _ & _ & _ & _ & _ & _ & Hm).
  destruct Hm as [[_ Hs]|(_ & res0 & w2 & Hr & Hun2 & _)].
  - apply suspend_phase in Hs. rewrite Hph in Hs. by destruct Hs.
  - apply run_phase in Hr. rewrite Hph in Hr. destruct Hr as [?|[?|(_ & Hun & pod & Hv & Hpr & Hip)]];
      [done|done|]. exists pod. by rewrite (proj1 Hun2), (proj1 Hun).
Qed.

(** C23. A running sandbox with an idle window and no session is reconciled again
    when the window ends, or in a second when it already has: nothing else
    needs to happen for it to be suspended. *)
Theorem idle_deadline_scheduled r sb s w s' res w' tpl last :
  quiet sb w → r_Now r = None → timeouts_bounded sb w →
  run env (reconcileSandbox r sb s) w = ((s', Ok res), w') → st_Phase s' = SandboxPhaseRunning →
  view KTemplate w (nn "" (sp_Template (sb_Spec sb))) = Some tpl →
  ¬ has_active_session w sb → 0 < effectiveIdleTimeout sb tpl →
  st_LastActivityTime s' = Some last → 0 <= clock w - last → clock w' - last < int64_max →
  ∃ t, clock w <= t <= clock w' ∧
    RequeueAfter res = Z.max (effectiveIdleTimeout sb tpl - (t - last)) Second.
Proof.
  intros Hq Hp Ht Hrun Hph Htpl Hno Hpos Hla Hlo Hhi. pose proof (Ht _ Htpl) as Hmax.
  destruct (run_decided _ _ _ _ _ _ _ Hq Hp Ht Hrun) as [_ Hd]; [by rewrite Hph|].
  destruct Hd as (tpl' & sa & t & s1 & w1 & _ & _ & Hprep & _ & _ & _ & _ & Hm).
  destruct Hprep as (Htpl' & _). rewrite Htpl in Htpl'. simplify_eq.
  destruct Hm as [[_ Hs]|(_ & res0 & w2 & Hr & _ & Hrq & Hie)].
  { apply suspend_phase in Hs. rewrite Hph in Hs. by destruct Hs. }
  assert (RequeueAfter res0 = 0) as Hr0 by (by eapply run_running_noResult).
  destruct Hrq as [->|(last' & t' & Hl & _ & Hb & Heq)].
  - exfalso. assert (Second <= RequeueAfter res0); [|unfold Second in *; lia].
    apply Hie. split; [done|]. split; [done|]. split; [done|]. split; [done|]. rewrite Hla. eauto.
  - rewrite Hla in Hl. simplify_eq. exists t'. split; [lia|]. rewrite Heq. f_equal.
    unfold dur_sub. rewrite time_Sub_exact by (unfold int64_range, int64_min, int64_max in *; lia).
    apply int64_wrap_id. unfold int64_range, int64_min, int64_max in *. lia.
Qed.

End proofs.
