(* ===== verification/PodStart.v ===== *)
(** * A pod starts behind its policy, home, identity and credentials

    The order of a reconciliation. [SandboxReconcile] says what a pass leaves;
    here the moment of each call counts: in every run of [reconcileSandbox],
    whether it ends well, with an error or half-way, the one call that creates
    a pod is issued in a world where everything the pod relies on is in place
    already. *)

From S2P Require Import Prelude GoStrings KubeTypes ApiTypes Client Libs PodSpec SSHCA StatusMonad.
From S2P Require Import SandboxRBAC Bootstrap SandboxHome SandboxNet SandboxRun SandboxReconcile.
From Stdlib Require Import String.
From stdpp Require Import base gmap strings list.
From Stdlib Require Import ZArith Lia.
Local Open Scope Z_scope.

(** The pod a call asks the API server to create. *)
Definition created_pod (e : some_event) : option Pod :=
  match e with
  | SomeEvent (ECreate K o) => match K in Kind T return T → option Pod with KPod => Some | _ => λ _, None end o
  | SomeEvent _ => None
  end.

Definition podless {X} (e : event X) : Prop := created_pod (SomeEvent e) = None.

(** ** Everything but [provision] creates no pod *)

Section podless.
Context `{AM : ApiMachinery} `{SSH : SSHLib}.
Abbreviation no_pod p := (calls (@podless) p).

Lemma podless_create {T} (K : Kind T) (o : T) : kind_tag K ≠ TPod → podless (ECreate K o).
Proof. by destruct K. Qed.

Lemma podless_ensureOwned {T} (K : Kind T) sb (o : T) : kind_tag K ≠ TPod → no_pod (ensureOwned K sb o).
Proof. intros HK. pose proof (λ o', podless_create K o' HK). unfold ensureOwned, createIgnoringExisting. leaves. Qed.

Lemma podless_gcRBAC sb keep : no_pod (gcRBAC sb keep).
Proof. unfold gcRBAC, gcLabelled, deleteIgnoringNotFound. leaves. Qed.

Lemma podless_applyRoleBinding rb : no_pod (applyRoleBinding rb).
Proof. unfold applyRoleBinding, createIgnoringExisting. leaves. Qed.
#[local] Hint Resolve podless_gcRBAC podless_applyRoleBinding : leaves.

Lemma podless_reconcileRBAC sb s : no_pod (reconcileRBAC sb s).
Proof. pose proof (λ o, podless_ensureOwned KServiceAccount sb o ltac:(done)). unfold reconcileRBAC, refuseRBAC. leaves. Qed.

Lemma podless_reconcileHome sb s : no_pod (reconcileHome sb s).
Proof.
  pose proof (λ o, podless_ensureOwned KPVC sb o ltac:(done)).
  unfold reconcileHome, homeBlocked, homeReady, claimConflict, generatedClaimOwner. leaves.
Qed.

Lemma podless_reconcileHostKey sb : no_pod (reconcileHostKey sb).
Proof.
  pose proof (λ o, podless_ensureOwned KSecret sb o ltac:(done)).
  unfold reconcileHostKey, createHostKey, GenerateKeyPair, EnsureCASecret, createOrFetch, SignHostCert, signCert, NewSerial.
  leaves.
Qed.

Lemma podless_reconcileNetworkPolicy r sb tpl : no_pod (reconcileNetworkPolicy r sb tpl).
Proof. unfold reconcileNetworkPolicy, apiServerEndpoints, gatewayNamespace, applyNetworkPolicy. leaves. Qed.
#[local] Hint Resolve podless_reconcileRBAC podless_reconcileHome podless_reconcileHostKey
  podless_reconcileNetworkPolicy : leaves.

Lemma podless_prepare r sb s : no_pod (prepare r sb s).
Proof. unfold prepare, pendingReady. leaves. Qed.

Lemma podless_suspend sb s : no_pod (suspend sb s).
Proof. unfold suspend, ensurePodGone, deleteIgnoringNotFound. leaves. Qed.

Lemma podless_idleRequeue r active timeout result s :
  r_Now r = None → no_pod (idleRequeue r active timeout result s).
Proof. intros Hn. unfold idleRequeue, now. rewrite Hn. leaves. Qed.

Lemma podless_activeSessionCount sb : no_pod (activeSessionCount sb).
Proof. unfold activeSessionCount. leaves. Qed.

Lemma podless_idleExpired last timeout : no_pod (idleExpired last timeout).
Proof. unfold idleExpired. leaves. Qed.

(** What an existing pod is reflected by. *)
Lemma podless_recreate sb pod s : no_pod (recreate sb pod s).
Proof. unfold recreate, ensurePodGone, deleteIgnoringNotFound. leaves. Qed.

Lemma podless_reflect sb pod h s :
  no_pod (((if podReady pod then reflectReady sb pod else reflectPending sb pod) ;;!
           reflectDrift sb h ;;! sret noResult) s).
Proof. unfold reflectReady, reflectPending, reflectDrift, startIdleClock. leaves. Qed.

End podless.

(** ** The moment of creation *)

Section proofs.
Context `{AM : ApiMachinery} `{SSH : SSHLib} `{!ApiMachineryLaws AM} `{!SSHLaws SSH}.
Context {W : Type} `{World W}.

(** A call that creates a pod finds the sandbox without one and everything
    prepared, and asks for the pod [BuildPod] describes. *)
Definition pod_ready_to_start r (sb : Sandbox) (w : W) (e : some_event) (v : W) : Prop :=
  ∀ o, created_pod e = Some o →
    view KPod v (podKey sb) = None ∧
    ∃ tpl sa, prepared r sb tpl sa w v ∧ o = owned_by KPod sb (BuildPod sb tpl (podOptions r sa)).

Abbreviation orderly r sb w p := (wpc (pod_ready_to_start r sb w) p).

Lemma orderly_podless {A} r sb w0 (p : prog A) Q w :
  calls (@podless) p → wp p Q w → orderly r sb w0 p Q w.
Proof.
  intros Hc Hw. apply wpc_calls; [|done]. eapply calls_mono; [exact Hc|].
  intros X e He v o Ho. unfold podless in He. congruence.
Qed.

Lemma orderly_end {A} r sb w0 (p : prog A) w :
  calls (@podless) p → orderly r sb w0 p (λ _ _, True) w.
Proof. intros Hc. apply orderly_podless; [done|]. eapply wp_mono; [apply wp_clock|]. done. Qed.

Lemma wpc_sbind {A B} P (m : SM A) (f : A → SM B) s (Q : SandboxStatus * res B → W → Prop) w :
  wpc P (m s) (λ sr w', match sr.2 with Ok a => wpc P (f a sr.1) Q w' | Err e => Q (sr.1, Err e) w' end) w →
  wpc P (sbind m f s) Q w.
Proof. intros Hw. apply wpc_bind. eapply wpc_mono; [exact Hw|]. by intros [s' [a|e]] w' Hr. Qed.

Lemma prepared_unchanged r sb tpl sa w v v' :
  unchanged v v' → prepared r sb tpl sa w v → prepared r sb tpl sa w v'.
Proof. intros Hu. apply prepared_frame. by apply frame_unchanged. Qed.

Lemma orderly_provision r sb tpl h sa s w v :
  prepared r sb tpl sa w v → view KPod v (podKey sb) = None →
  orderly r sb w (provision r sb tpl h sa s) (λ _ _, True) v.
Proof.
  intros Hp Hn. apply wpc_sbind. cbn [wpc getStatus fst snd]. apply wpc_sbind, wpc_bind.
  unfold ensureOwned. rewrite SetControllerReference_fresh by done. split.
  - intros o [= <-]. split; [done|]. by exists tpl, sa.
  - intros x v' _. by destruct (IgnoreAlreadyExists (to_unit x)) as [[]|e] eqn:E; simpl; rewrite E.
Qed.

Lemma orderly_run_sandbox r sb tpl h sa s w v :
  prepared r sb tpl sa w v → orderly r sb w (run_sandbox r sb tpl h sa s) (λ _ _, True) v.
Proof.
  intros Hp. apply wpc_sbind, wpc_bind. split; [done|]. intros g v1 [_ [Hu Hg]]. cbn [wpc fst snd].
  destruct g as [pod|e].
  - apply orderly_end. apply calls_sbind; [done|]. intros _ s1. destruct (deadPod pod); [apply podless_recreate|apply podless_reflect].
  - destruct (IsNotFound e) eqn:He; [|done]. apply orderly_provision; [by eapply prepared_unchanged|].
    by rewrite (proj1 Hu), Hg.
Qed.

Lemma wp_idleExpired_reads last timeout (w : W) : wp (idleExpired last timeout) (λ _ w', unchanged w w') w.
Proof. unfold idleExpired. destruct (_ <=? _); [done|]. destruct last; [|done]. by intros x w' [_ [Hu _]]. Qed.

Lemma orderly_machine r sb tpl sa s w v :
  r_Now r = None → prepared r sb tpl sa w v →
  orderly r sb w (desiredStateMachine r sb tpl sa s) (λ _ _, True) v.
Proof.
  intros Hn Hp. unfold desiredStateMachine. case_bool_decide; [apply orderly_end, podless_suspend|].
  apply wpc_sbind, orderly_podless; [apply calls_lift, podless_activeSessionCount|].
  apply wp_lift. eapply wp_mono; [apply wp_activeSessionCount|]. intros [active|e] v1 [Hu _]; [|done]. cbn [fst snd].
  apply wpc_sbind. cbn [wpc modify fst snd]. apply wpc_sbind. cbn [wpc getStatus fst snd].
  set (s1 := set_ActiveSessions _ s).
  apply wpc_sbind, orderly_podless; [destruct (active =? 0); [apply calls_attempt, podless_idleExpired|done]|].
  assert (∀ (b : bool) v2, unchanged v1 v2 →
    orderly r sb w ((if b then suspend sb
       else result ←! run_sandbox r sb tpl (TemplateHash (tpl_Spec tpl)) sa;
            idleRequeue r active (effectiveIdleTimeout sb tpl) result) s1) (λ _ _, True) v2) as Hgo.
  { intros [] v2 Hu2; [apply orderly_end, podless_suspend|]. apply wpc_sbind.
    eapply wpc_mono; [apply orderly_run_sandbox|].
    - eapply prepared_unchanged; [|exact Hp]. by eapply unchanged_trans.
    - intros [s2 [res|e]] v3 _; [|done]. by apply orderly_end, podless_idleRequeue. }
  destruct (active =? 0); [|by apply Hgo]. apply wp_attempt. eapply wp_mono; [apply wp_idleExpired_reads|].
  intros b v2 Hu2. by apply Hgo.
Qed.

Lemma orderly_reconcileSandbox r sb s w :
  quiet sb w → r_Now r = None → orderly r sb w (reconcileSandbox r sb s) (λ _ _, True) w.
Proof.
  intros Hq Hn. apply wpc_sbind, orderly_podless; [apply podless_prepare|].
  eapply wp_mono; [by apply (wp_prepare r)|]. intros [s1 [[res|[tpl sa]]|e]] v [_ [_ Hx]]; cbn [fst snd] in *; [done| |done].
  apply orderly_machine; [done|]. apply Hx.
Qed.

(** C7. A pod starts only behind its policy, home, identity and credentials.
    Whatever becomes of the reconciliation, at the moment it asks for a pod the
    sandbox has none, its home claim and host key exist, its network policy is
    in place and its credentials are exactly those its profile grants: no
    service account without a profile, and with one only a profile that permits
    the namespace, bound as it grants. The pod asked for is the one [BuildPod]
    describes for the current template and that service account. And a pod that
    a successful reconciliation brought up is that one, with everything still in
    place when the reconciliation ends. *)
Theorem pod_starts_prepared (env : Env W) `{!Conforms env} r sb s w :
  quiet sb w → r_Now r = None → timeouts_bounded sb w →
  (∀ e v o, (e, v) ∈ moments env (reconcileSandbox r sb s) w → created_pod e = Some o →
     view KPod v (podKey sb) = None ∧
     ∃ tpl sa, prepared r sb tpl sa w v ∧ o = owned_by KPod sb (BuildPod sb tpl (podOptions r sa))) ∧
  (∀ s' res w' pod, run env (reconcileSandbox r sb s) w = ((s', Ok res), w') →
     view KPod w (podKey sb) = None → view KPod w' (podKey sb) = Some pod →
     ∃ tpl sa, prepared r sb tpl sa w w' ∧
       created_as KPod (owned_by KPod sb (BuildPod sb tpl (podOptions r sa))) pod).
Proof.
  intros Hq Hn Ht. split.
  - intros e v o Hin. exact (wpc_moments _ env _ _ _ _ _ (orderly_reconcileSandbox r sb s w Hq Hn) Hin o).
  - intros s' res w' pod Hrun Hnone. by apply (brought_up env r sb s w s' res w' pod Hq Hn Ht Hnone Hrun).
Qed.

End proofs.
