(* ===== verification/Settled.v ===== *)
(** * A settled sandbox is left alone (internal/controller/sandbox_controller.go)

    A controller that writes on every pass wakes itself up for ever: the sandbox
    controller owns what it writes, so each write queues another
    reconciliation. Here: once a reconciliation got through, the children of the
    sandbox are in place, and a later one that succeeds writes nothing but the
    pod, as long as what it depends on (templates, profiles, policies, claims,
    secrets, accounts, bindings, endpoint slices) was left alone in between, while
    pods, sessions and the sandbox objects may have changed.

    There is one more condition, on the API server's endpoint slices: the policy lists
    their addresses in the order in which the server returned the slices, which
    is not fixed when there are several ([slice_order_matters]). *)

From S2P Require Import Prelude GoStrings KubeTypes ApiTypes Client Libs PodSpec SSHCA StatusMonad.
From S2P Require Import SandboxRBAC Bootstrap SandboxHome SandboxNet SandboxRun SandboxReconcile.
From Stdlib Require Import String.
From stdpp Require Import base gmap strings list.
From Stdlib Require Import ZArith Lia.
Local Open Scope Z_scope.

(** ** Worlds that show the same objects

    Equality of what is stored, as an equivalence that predicates on worlds
    respect. *)
Section same_objects.
Context {W : Type} `{World W}.

#[export] Instance unchanged_equivalence : Equivalence (unchanged (W := W)).
Proof.
  split.
  - intros w. apply unchanged_refl.
  - intros w w' [Hv He]. split; [|done]. intros. by rewrite Hv.
  - intros w1 w2 w3. apply unchanged_trans.
Qed.

#[export] Instance frame_proper P : Proper (unchanged ==> unchanged ==> iff) (frame (W := W) P).
Proof.
  intros w1 w1' [H1 E1] w2 w2' [H2 E2]. unfold frame. rewrite E1, E2.
  split; intros [Hf He]; (split; [|done]); intros T K k HP.
  - by rewrite H1, H2, Hf.
  - by rewrite <- H1, <- H2, Hf.
Qed.

#[export] Instance settled_proper {T} (K : Kind T) :
  Proper (unchanged ==> eq ==> iff) (settled (W := W) K).
Proof. intros w w' [Hv _] k _ <-. unfold settled. by rewrite Hv. Qed.

#[export] Instance api_slices_proper : Proper (unchanged ==> eq ==> iff) (api_slices (W := W)).
Proof. intros w w' [Hv _] l _ <-. unfold api_slices. by setoid_rewrite Hv. Qed.

#[export] Instance bound_as_proper d : Proper (unchanged ==> iff) (bound_as (W := W) d).
Proof. intros w w' [Hv _]. unfold bound_as. by rewrite Hv. Qed.
End same_objects.

Section settled.
Context `{AM : ApiMachinery} `{SSH : SSHLib} `{!ApiMachineryLaws AM} `{!SSHLaws SSH}.
Context {W : Type} `{World W}.

(** Success without a write. *)
Definition still {A} (w : W) (r : res A) (w' : W) : Prop :=
  match r with Ok _ => unchanged w w' | Err _ => True end.

(** ** What is in place *)

(** The API server's addresses are in one slice at most. *)
Definition one_slice (w : W) : Prop :=
  ∀ l, api_slices w l → (length l <= 1)%nat.

(** No profile and no binding, or the profile's service account and bindings
    and no others. *)
Definition rbac_in_place (sb : Sandbox) (w : W) : Prop :=
  if String.eqb (sp_AccessProfile (sb_Spec sb)) ""
  then ∀ k rb, view KRoleBinding w k = Some rb → ¬ labelled sb rb
  else ∃ p, view KAccessProfile w (nn "" (sp_AccessProfile (sb_Spec sb))) = Some p ∧
       Namespace sb ∈ aps_AllowedNamespaces (ap_Spec p) ∧
       is_Some (view KServiceAccount w (nn (Namespace sb) (saName (Name sb)))) ∧
       (∀ ns, ns ∈ grantNamespaces p → bound_as (sandboxRoleBinding sb p ns) w) ∧
       (∀ k rb, view KRoleBinding w k = Some rb → labelled sb rb → nn_Namespace k ∈ grantNamespaces p).

Definition in_place (r : SandboxReconciler) (sb : Sandbox) (w : W) : Prop :=
  (∃ tpl, view KTemplate w (nn "" (sp_Template (sb_Spec sb))) = Some tpl ∧
          policy_in_place r sb tpl w w) ∧
  is_Some (view KPVC w (nn (Namespace sb) (homeClaim sb))) ∧
  is_Some (view KSecret w (hostKeyKey sb)) ∧
  rbac_in_place sb w.

(** Two answers to the request for the slices are the same list. *)
Lemma api_slices_unique w l1 l2 : one_slice w → api_slices w l1 → api_slices w l2 → l1 = l2.
Proof.
  intros Hone H1 H2. pose proof (Hone _ H1) as L1. pose proof (Hone _ H2) as L2.
  destruct H1 as [H1 _], H2 as [H2 _].
  assert (∀ o, o ∈ l1 ↔ o ∈ l2) as Heq by (intros o; by rewrite H1, H2).
  destruct l1 as [|x [|]], l2 as [|y [|]]; simpl in *; try lia; [done| | |].
  - pose proof (proj2 (Heq y) (list_elem_of_here _ _)) as Hx. by apply not_elem_of_nil in Hx.
  - pose proof (proj1 (Heq x) (list_elem_of_here _ _)) as Hx. by apply not_elem_of_nil in Hx.
  - pose proof (proj1 (Heq x) (list_elem_of_here _ _)) as Hx. apply list_elem_of_singleton in Hx. by subst.
Qed.

(** ** The stages, with their child in place *)

Lemma home_still (sb : Sandbox) w w' :
  is_Some (view KPVC w (nn (Namespace sb) (homeClaim sb))) → home_frame sb w w' → unchanged w w'.
Proof.
  unfold home_frame. rewrite homeClaim_existing. destruct (String.eqb _ _); [|done].
  intros [pvc Hpvc] [[Hsb He] Hkeep]. split; [|done]. intros T K k.
  destruct (decide (kind_tag K = TPVC ∧ k = nn (Namespace sb) (PVCName (Name sb)))) as [[HK ->]|Hne].
  - destruct K; try done. rewrite Hpvc. by apply Hkeep.
  - apply Hsb. intros [= ? ?]. by apply Hne.
Qed.

Lemma wp_netpol_still r (sb : Sandbox) tpl w :
  one_slice w → policy_in_place r sb tpl w w → wp (reconcileNetworkPolicy r sb tpl) (still w) w.
Proof.
  intros Hone (np & slices & Hnp & Hsl & _ & Hspec). apply wp_ebind.
  eapply wp_mono; [apply wp_apiServerEndpoints|].
  intros [eps|e] w1 [Hun1 Heps]; [|done]. destruct Heps as (slices' & Hsl' & ->).
  rewrite (api_slices_unique w slices' slices) by done.
  apply wp_bind. eapply wp_mono; [apply wp_gatewayNamespace|]. intros gw w2 [Hun2 ->].
  assert (unchanged w w2) as Hu by (by rewrite Hun1). simpl np_ObjectMeta. rewrite SetControllerReference_fresh by done.
  apply wp_bind, wp_call. intros [np'|e] w3 [_ [Hun3 Hr]]; cbn beta iota.
  - change (okey _ _) with (netPolKey sb) in Hr. rewrite (proj1 Hu), Hnp in Hr. injection Hr as <-.
    assert (gatewayNS r w1 = gatewayNS r w) as Hgw.
    { unfold gatewayNS, operatorNS. by rewrite (proj2 Hun1). }
    rewrite Hgw, (proj2 (SemanticDeepEqual_spec _ _ _ _) Hspec). simpl. by etrans.
  - destruct (IsNotFound e); [|done]. change (okey _ _) with (netPolKey sb) in Hr.
    rewrite (proj1 Hu), Hnp in Hr. by specialize (Hr eq_refl).
Qed.

Lemma wp_applyRoleBinding_still d w : bound_as d w → wp (applyRoleBinding d) (still w) w.
Proof.
  intros (rb & Hv & _ & Href & Hsub). apply wp_bind, wp_call.
  intros [rb'|e] w1 [_ [Hun Hr]]; cbn beta iota.
  - rewrite Hv in Hr. injection Hr as <-. rewrite bool_decide_eq_true_2 by done. simpl.
    by rewrite (proj2 (SemanticDeepEqual_spec _ _ _ _) Hsub).
  - destruct (IsNotFound e); [|done]. rewrite Hv in Hr. by specialize (Hr eq_refl).
Qed.

Lemma wp_gcRBAC_still (sb : Sandbox) keep w :
  (∀ k rb, view KRoleBinding w k = Some rb → labelled sb rb → nn_Namespace k ∈ keep) →
  wp (gcRBAC sb keep) (still w) w.
Proof.
  intros Hkeep. apply wp_ebind, wp_call. intros [l|e] w1 [_ [Hun Hl]]; [|done].
  destruct Hl as [Hl _]. cbn beta iota.
  eapply wp_mono; [apply (wp_for_each (λ rest w', unchanged w w' ∧ ∀ x, x ∈ rest → x ∈ l) (λ _ _, True))|].
  - done.
  - intros x rest w2 [Hun2 Hsub]. assert (x ∈ l) as Hx by (apply Hsub; left).
    apply Hl in Hx as [Hx Hsel]. apply selected_labels in Hsel.
    assert (contains keep (Namespace (meta KRoleBinding x)) = true) as ->.
    { apply contains_true. exact (Hkeep _ _ Hx Hsel). }
    split; [done|]. intros y Hy. apply Hsub. by right.
  - intros [[]|e] w2; [|done]. by intros [? _].
Qed.

(** Creating what exists changes nothing. *)
Lemma wp_ensureOwned_still {T} (K : Kind T) (sb : Sandbox) o w :
  OwnerReferences (meta K o) = [] → Namespace (meta K o) = Namespace sb →
  is_Some (view K w (okey K o)) → wp (ensureOwned K sb o) (still w) w.
Proof.
  intros Ho Hns [x Hx]. unfold ensureOwned. rewrite SetControllerReference_fresh by done.
  apply wp_bind, wp_call. intros r w' [_ Hc].
  change (create_spec K (owned_by K sb o) w r w') in Hc. unfold create_spec in Hc.
  rewrite okey_owned_by in Hc. destruct Hc as [[Hsb He] Hr]. destruct r as [o'|e]; simpl.
  - destruct Hr as [Hn _]. congruence.
  - destruct (IsAlreadyExists e); [|done]. destruct (Hr eq_refl) as [_ Hv]. split; [|done].
    intros T' K' k. destruct (decide (kind_tag K' = kind_tag K ∧ k = okey K o)) as [[HK ->]|Hne].
    + destruct K, K'; by try discriminate.
    + apply Hsb. intros [= ? ?]. by apply Hne.
Qed.

Lemma rbac_in_place_view (sb : Sandbox) w w' :
  (∀ k, view KRoleBinding w' k = view KRoleBinding w k) →
  (∀ k, view KServiceAccount w' k = view KServiceAccount w k) →
  (∀ k, view KAccessProfile w' k = view KAccessProfile w k) →
  rbac_in_place sb w → rbac_in_place sb w'.
Proof.
  intros H1 H2 H3. unfold rbac_in_place, bound_as. destruct (String.eqb _ _).
  - by setoid_rewrite H1.
  - intros (p & Hp & Hin & Hsa & Hb & Hk). exists p. rewrite H2, H3.
    split; [done|]. split; [done|]. split; [done|]. split; [|by setoid_rewrite H1].
    intros ns Hns. destruct (Hb ns Hns) as (rb & Hrb). exists rb. by rewrite H1.
Qed.

#[local] Instance rbac_in_place_proper (sb : Sandbox) : Proper (unchanged ==> iff) (rbac_in_place sb).
Proof.
  intros w w' [Hv _]. split; intros Hr; (eapply rbac_in_place_view; [..|exact Hr]); intros; by rewrite Hv.
Qed.

Lemma wp_grant_still (sb : Sandbox) p w nss :
  (∀ ns, ns ∈ nss → bound_as (sandboxRoleBinding sb p ns) w) →
  wp (for_each nss (λ ns, applyRoleBinding (sandboxRoleBinding sb p ns))) (still w) w.
Proof.
  intros Hb.
  eapply wp_mono; [apply (wp_for_each (λ rest w', unchanged w w' ∧ ∀ x, x ∈ rest → x ∈ nss) (λ _ _, True))|].
  - done.
  - intros ns rest w1 [Hun Hsub]. eapply wp_mono.
    + apply wp_applyRoleBinding_still. rewrite <- Hun. apply Hb, Hsub. left.
    + intros [[]|e] w2 Hr; [|done]. split; [by etrans|]. intros x Hx. apply Hsub. by right.
  - intros [[]|e] w2; [|done]. by intros [? _].
Qed.

Lemma wp_rbac_still (sb : Sandbox) s w :
  rbac_in_place sb w → wp (reconcileRBAC sb s) (λ sr, still w sr.2) w.
Proof.
  unfold rbac_in_place, reconcileRBAC. destruct (String.eqb _ _) eqn:Hnone.
  - intros Hno. apply wp_sbind_lift. eapply wp_mono; [apply wp_gcRBAC_still|].
    { intros k rb Hv Hl. by destruct (Hno k rb Hv). }
    intros [[]|e] w1 Hs; [|done]. exact Hs.
  - intros (p & Hp & Hin & Hsa & Hb & Hk). apply wp_sbind_attempt, wp_call.
    intros r w1 [_ [Hun Hr]]. destruct r as [p'|e].
    2:{ destruct (IsNotFound e); [|done]. rewrite Hp in Hr. by specialize (Hr eq_refl). }
    rewrite Hp in Hr. injection Hr as <-. rewrite (proj2 (contains_true _ _) Hin). cbn [negb].
    apply wp_sbind_lift. eapply wp_mono; [apply wp_ensureOwned_still|]; [done|done|by rewrite (proj1 Hun)|].
    intros [[]|e] w2 Hs2; [|done]. simpl in Hs2.
    apply wp_sbind_lift. eapply wp_mono; [apply wp_grant_still|].
    { intros ns Hns. rewrite <- Hs2, <- Hun. by apply Hb. }
    intros [[]|e] w3 Hs3; [|done]. simpl in Hs3.
    apply wp_sbind_lift. eapply wp_mono; [apply wp_gcRBAC_still|].
    { intros k rb. rewrite (proj1 Hs3), (proj1 Hs2), (proj1 Hun). apply Hk. }
    intros [[]|e] w4 Hs4; [|done]. simpl in *. by rewrite Hun, Hs2, Hs3.
Qed.

(** ** The whole reconciliation *)

Lemma policy_in_place_unchanged r (sb : Sandbox) tpl w w' :
  unchanged w w' → policy_in_place r sb tpl w w → policy_in_place r sb tpl w' w'.
Proof.
  intros Hun Hp. eapply policy_in_place_from; [| |eapply policy_in_place_to; [|exact Hp]].
  - intros k. symmetry. apply Hun.
  - symmetry. apply Hun.
  - apply Hun.
Qed.

Lemma one_slice_unchanged w w' : unchanged w w' → one_slice w → one_slice w'.
Proof. intros Hun Ho l. rewrite <- Hun. apply Ho. Qed.

Lemma wp_prepare_still r (sb : Sandbox) s w :
  named w → one_slice w → in_place r sb w → wp (prepare r sb s) (λ sr, still w sr.2) w.
Proof.
  intros Hn Hone ((tpl & Htpl & Hpol) & Hpvc & Hkey & Hrbac).
  apply wp_sbind_attempt, wp_call. intros t w1 [_ [Hun1 Ht]]. destruct t as [tpl'|e].
  2:{ destruct (IsNotFound e); done. }
  rewrite Htpl in Ht. injection Ht as <-.
  apply wp_sbind. eapply wp_mono; [apply wp_reconcileHome|].
  { intros ns o. rewrite (proj1 Hun1). apply Hn. }
  intros [s2 x] w2 [Hf2 _]. cbn [fst snd].
  assert (unchanged w1 w2) as Hun2 by (eapply home_still; [|exact Hf2]; by rewrite (proj1 Hun1)).
  rewrite <- Hun1 in Hun2. destruct x as [[res|]|e]; [exact Hun2| |done].
  apply wp_sbind_lift. eapply wp_mono; [apply wp_reconcileHostKey|].
  intros x w3 (_ & _ & Hk3 & _). destruct x as [[]|e]; [|done].
  assert (unchanged w w3) as Hun3.
  { rewrite Hun2. apply Hk3. by rewrite (proj1 Hun2). }
  apply wp_sbind_lift. eapply wp_mono.
  { apply (wp_netpol_still r sb tpl w3); [by eapply one_slice_unchanged|by eapply policy_in_place_unchanged]. }
  intros [[]|e] w4 Hs4; [|done]. simpl in Hs4. rewrite <- Hun3 in Hs4.
  apply wp_sbind. eapply wp_mono; [apply wp_rbac_still; by rewrite <- Hs4|].
  intros [s5 [rb|e]] w5 Hs5; [|done]. simpl in *. rewrite <- Hs4 in Hs5. by destruct (rr_Ready rb).
Qed.

Lemma wp_reconcile_still r (sb : Sandbox) s w :
  r_Now r = None → timeouts_bounded sb w → named w → one_slice w → in_place r sb w →
  (∀ k, settled KRoleBinding w (bindingKey sb k)) → settled KNetPol w (netPolKey sb) →
  wp (reconcileSandbox r sb s)
     (λ sr w', match sr.2 with Ok _ => frame (only_pod sb) w w' | Err _ => True end) w.
Proof.
  intros Hp Hto Hn Hone Hin Hrb Hnp. apply wp_sbind.
  eapply wp_mono; [apply wp_and; [by apply wp_prepare_still|by apply (wp_prepare r)]|].
  intros [s1 x] w1 [Hs [_ [_ Hx]]]. cbn [fst snd] in *.
  destruct x as [[res|[tpl sa]]|e]; [by apply frame_unchanged| |done].
  eapply wp_mono; [apply wp_desiredStateMachine; [done|apply Hto, Hx]|].
  intros [s2 [res|e]] w2 [Hf _]; [|done]. simpl in *. by rewrite Hs.
Qed.

(** What may have happened since: pods, sessions, sandboxes, namespaces and
    roles may have changed, and the bindings of the sandbox that were being
    deleted are gone. *)
Definition later (sb : Sandbox) (w w' : W) : Prop :=
  (∀ T (K : Kind T) k, kind_tag K ∉ [TPod; TSession; TSandbox; TNamespace; TRole] →
     view K w' k = view K w k) ∧
  environ w' = environ w ∧
  (∀ k rb, view KRoleBinding w' k = Some rb → labelled sb rb → DeletionTimestamp rb = None).

Lemma credentials_in_place (sb : Sandbox) sa w w1 w2 :
  view KAccessProfile w1 (nn "" (sp_AccessProfile (sb_Spec sb))) =
    view KAccessProfile w (nn "" (sp_AccessProfile (sb_Spec sb))) →
  credentials sb sa w w1 → later sb w1 w2 → rbac_in_place sb w2.
Proof.
  intros Hprof Hc (Hv & _ & Hlive). unfold credentials in Hc. unfold rbac_in_place.
  assert (∀ k, view KRoleBinding w2 k = view KRoleBinding w1 k) as Hvb
    by (intros; apply Hv; simpl; set_solver).
  destruct (String.eqb _ _).
  - destruct Hc as [_ Hno]. intros k rb Hrb Hl. pose proof (Hlive _ _ Hrb Hl) as Hd.
    rewrite Hvb in Hrb. destruct (Hno _ _ Hrb Hl). congruence.
  - destruct Hc as (p & Hp & Hin & _ & Hsa & Hb & Hk). exists p.
    rewrite !Hv by (simpl; set_solver). rewrite Hprof. split; [done|]. split; [done|].
    split; [done|]. split.
    + intros ns Hns. eapply bound_as_view; [|by apply Hb]. apply Hvb.
    + intros k rb Hrb Hl. pose proof (Hlive _ _ Hrb Hl). rewrite Hvb in Hrb. eauto.
Qed.

Lemma sandbox_writes_view {T} (K : Kind T) (sb : Sandbox) w w' k :
  frame (sandbox_writes sb w) w w' →
  kind_tag K ∈ [TTemplate; TAccessProfile; TEndpointSlice] → view K w' k = view K w k.
Proof.
  intros Hf HK. apply (frame_view K k _ _ _ Hf). intros [Hc%child_kind|[Hp _]];
    rewrite ?elem_of_cons, elem_of_nil in *; intuition congruence.
Qed.

Lemma sandbox_writes_named (sb : Sandbox) w w' :
  frame (sandbox_writes sb w) w w' → named w → named w'.
Proof.
  intros Hf Hn ns o. rewrite (frame_view KSandbox _ _ _ _ Hf); [apply Hn|].
  intros [Hc%child_kind|[Hp _]]; [|done]. rewrite !elem_of_cons, elem_of_nil in Hc. simpl in Hc. intuition discriminate.
Qed.

(** After a reconciliation that got through, everything is in place. *)
Lemma reconciled_in_place (env : Env W) `{!Conforms env} r (sb : Sandbox) s w s1 res w1 w2 :
  quiet sb w → r_Now r = None → timeouts_bounded sb w →
  run env (reconcileSandbox r sb s) w = ((s1, Ok res), w1) → st_Phase s1 ≠ SandboxPhasePending →
  later sb w1 w2 → in_place r sb w2 ∧ timeouts_bounded sb w2.
Proof.
  intros Hq Hp Hto Hrun Hph Hl.
  destruct (run_wp env _ _ _ _ _ Hrun (wp_reconcileSandbox r sb s w Hq Hp Hto)) as [Hf Ho].
  destruct (reconcile_decided _ _ _ _ _ _ _ Ho Hph) as (tpl & sa & t & s' & w' & _ & Hfp & Hprep & _).
  pose proof (prepared_frame _ _ _ _ _ _ _ Hfp Hprep) as (Htpl & Hpvc & Hkey & Hpol & Hcred).
  pose proof Hl as (Hv & He & _).
  assert (view KTemplate w2 (nn "" (sp_Template (sb_Spec sb))) = Some tpl) as Htpl2.
  { rewrite Hv by (simpl; set_solver).
    rewrite (sandbox_writes_view KTemplate _ _ _ _ Hf); [done|simpl; set_solver]. }
  split.
  - split; [|split; [|split]].
    + exists tpl. split; [done|].
      eapply policy_in_place_to; [apply Hv; simpl; set_solver|].
      eapply policy_in_place_from; [| |exact Hpol].
      * intros k. rewrite Hv by (simpl; set_solver).
        rewrite (sandbox_writes_view KEndpointSlice _ _ _ _ Hf); [done|simpl; set_solver].
      * rewrite He. symmetry. apply Hf.
    + by rewrite Hv by (simpl; set_solver).
    + by rewrite Hv by (simpl; set_solver).
    + eapply credentials_in_place; [|exact Hcred|exact Hl].
      apply (sandbox_writes_view KAccessProfile _ _ _ _ Hf). simpl. set_solver.
  - intros tpl'. rewrite Htpl2. intros [= <-]. apply Hto. exact Htpl.
Qed.


End settled.

(** Two slices returned in another order give another policy, so with several
    slices a policy can be rewritten by every reconciliation. *)
Example slice_order_matters (sb : Sandbox) (tpl : SandboxTemplate) (a b : APIServerEndpoint) gw :
  a ≠ b →
  np_Spec (BuildNetworkPolicy sb tpl {| no_GatewayNamespace := gw; no_APIServerEndpoints := [a; b] |}) ≠
  np_Spec (BuildNetworkPolicy sb tpl {| no_GatewayNamespace := gw; no_APIServerEndpoints := [b; a] |}).
Proof.
  intros Hab Heq. apply (f_equal nps_Egress) in Heq. simpl in Heq.
  injection Heq as Hip Hport. apply Hab.
  destruct a as [ip p], b as [ip' p']; simpl in *. f_equal; [by eapply append_inj_r|done].
Qed.
