(* ===== verification/Defects.v ===== *)
(** * Where the sandbox controller does not keep its promises

    Three consequences of the code that its comments rule out: a home claim can
    end up mounted by two running pods, a sandbox can lose its credentials to one
    of the same name in another namespace, and the gateway can be told to dial a
    pod that is being deleted. *)

From S2P Require Import Prelude GoStrings KubeTypes ApiTypes Client Libs PodSpec SSHCA StatusMonad.
From S2P Require Import SandboxRBAC Bootstrap SandboxHome SandboxNet SandboxRun SandboxReconcile.
From Stdlib Require Import String.
From stdpp Require Import base gmap strings list.
From Stdlib Require Import ZArith Lia.
Local Open Scope Z_scope.

Section defects.
Context `{AM : ApiMachinery} `{SSH : SSHLib} `{!ApiMachineryLaws AM} `{!SSHLaws SSH}.
Context {W : Type} `{World W} (env : Env W) `{!Conforms env}.

(** ** The loser of a claim keeps its pod

    A sandbox that loses the claim it runs on, because an older sandbox that
    names the same claim was started again, waits for it in phase Pending. Its
    pod goes on running: nothing at all is written. The older one does not look
    at it, since it wins the tie-break, and starts a pod on the same claim. *)
Theorem loser_keeps_pod r (sb o : Sandbox) s w s' res w' :
  named w → existingClaim sb ≠ ""%string → conflicting sb (existingClaim sb) w o →
  is_Some (view KTemplate w (nn "" (sp_Template (sb_Spec sb)))) →
  run env (reconcileSandbox r sb s) w = ((s', Ok res), w') →
  unchanged w w' ∧ st_Phase s' = SandboxPhasePending.
Proof using Conforms0.
  intros Hn Hne Hc [tpl Htpl] Hrun.
  refine (run_wp env _ (λ sr w', match sr.2 with
    | Ok _ => unchanged w w' ∧ st_Phase sr.1 = SandboxPhasePending | Err _ => True end) _ _ _ Hrun _).
  apply wp_sbind, wp_sbind_attempt, wp_call. intros t w1 [_ [Hun Ht]].
  destruct t as [tpl'|e]; [|destruct (IsNotFound e); [|done]; rewrite Htpl in Ht; by specialize (Ht eq_refl)].
  assert (named w1) as Hn1 by (intros ns x; rewrite (proj1 Hun); apply Hn).
  apply wp_sbind. eapply wp_mono; [by apply wp_reconcileHome_existing|].
  intros [s2 x] w2 [Hun2 Ho]. unfold home_outcome in Ho.
  destruct x as [[y|]|e]; cbn [fst snd] in *; [| |done].
  - destruct Ho as (_ & (reason & msg & ->) & _). split; [by eapply unchanged_trans|done].
  - destruct Ho as [_ Hno]. exfalso. apply (Hno Hne o). destruct Hc as (Hv & Hs).
    split; [by rewrite (proj1 Hun)|done].
Qed.

(** ** A binding is taken over by a namesake

    Role bindings in a grant namespace are named after the sandbox alone. When
    a sandbox of the same name in another namespace is given the same profile,
    its reconciliation replaces the subject: the first one's account is not
    bound there any more. *)
Theorem same_name_binding_taken (a b : Sandbox) s w s' r w' p ns :
  Name a = Name b → Namespace a ≠ Namespace b →
  (∀ ns, settled KRoleBinding w (bindingKey b ns)) →
  sp_AccessProfile (sb_Spec b) ≠ ""%string →
  view KAccessProfile w (nn "" (sp_AccessProfile (sb_Spec b))) = Some p →
  Namespace b ∈ aps_AllowedNamespaces (ap_Spec p) → ns ∈ grantNamespaces p →
  run env (reconcileRBAC b s) w = ((s', Ok r), w') →
  ∃ rb, view KRoleBinding w' (bindingKey a ns) = Some rb ∧ rb_Subjects rb = [sandboxSubject b] ∧
        sandboxSubject a ∉ rb_Subjects rb.
Proof using ApiMachineryLaws0 Conforms0.
  intros Hname Hns Hset Hne Hp Hin Hg Hrun.
  destruct (run_reconcileRBAC env _ _ _ _ _ _ Hset Hrun) as [_ (_ & _ & _ & Ho)]. simpl in Ho.
  rewrite Hp in Ho. destruct (String.eqb_spec (sp_AccessProfile (sb_Spec b)) "") as [?|_]; [done|].
  apply contains_true in Hin. rewrite Hin in Ho. destruct Ho as [_ (_ & Hb & _)].
  destruct (Hb ns Hg) as (rb & Hv & _ & _ & Hsub). exists rb. unfold bindingKey. rewrite Hname.
  split; [done|]. split; [done|]. rewrite Hsub. simpl. rewrite list_elem_of_singleton.
  unfold sandboxSubject. congruence.
Qed.

(** ** A terminating pod is reported as running

    [suspend] clears the pod's address before it deletes the pod, so that the
    gateway never dials a pod on its way out. When somebody connects while that
    pod is still terminating, the next reconciliation finds it ready, does not
    look at its deletion timestamp, and publishes the address again. *)
Theorem terminating_pod_published r (sb : Sandbox) s w s' res w' pod :
  quiet sb w → r_Now r = None → timeouts_bounded sb w →
  sp_DesiredState (sb_Spec sb) ≠ DesiredStateStopped → has_active_session w sb →
  view KPod w (podKey sb) = Some pod → podReady pod = true → deadPod pod = false →
  is_Some (DeletionTimestamp pod) →
  run env (reconcileSandbox r sb s) w = ((s', Ok res), w') → st_Phase s' ≠ SandboxPhasePending →
  st_Phase s' = SandboxPhaseRunning ∧ st_PodIP s' = pst_PodIP (pod_Status pod) ∧
  view KPod w' (podKey sb) = Some pod.
Proof using ApiMachineryLaws0 SSHLaws0 Conforms0.
  intros Hq Hp Ht Hds Hact Hpod Hready Hdead _ Hrun Hph.
  destruct (run_wp env _ _ _ _ _ Hrun (wp_reconcileSandbox r sb s w Hq Hp Ht)) as [_ Ho].
  destruct (reconcile_decided _ _ _ _ _ _ _ Ho Hph)
    as (tpl & sa & t & s1 & w1 & Hf & _ & _ & _ & _ & _ & _ & [[[?|[Hno _]] _]|[_ Hm]]); [done|done|].
  destruct Hm as (res0 & w2 & (_ & _ & Hr) & Hun & _). simpl in Hr. unfold run_result in Hr.
  rewrite (frame_view KPod _ _ _ _ Hf), Hpod, Hdead, Hready in Hr by apply child_not_pod.
  destruct Hr as (Hun1 & _ & _ & Hph' & Hip & _). split; [done|]. split; [done|].
  rewrite (proj1 Hun), (proj1 Hun1), (frame_view KPod _ _ _ _ Hf) by apply child_not_pod. done.
Qed.
End defects.
