(* ===== verification/StatusShape.v ===== *)
(** * The shape of a sandbox's status

    The conditions of a status are a list keyed by type (the markers
    [listType=map] and [listMapKey=type] of sandbox_types.go): the server
    refuses a status that names a type twice. Whatever the calls of a
    reconciliation answer, even outside of what the server's documentation
    promises, the status it computes has that shape and names no type but the
    declared ones. *)

From S2P Require Import Prelude GoStrings KubeTypes ApiTypes Client Libs SSHCA StatusMonad SandboxRBAC Bootstrap.
From S2P Require Import SandboxHome SandboxNet SandboxRun SandboxReconcile.
From Stdlib Require Import String.
From stdpp Require Import base gmap strings list.
From Stdlib Require Import ZArith.
Local Open Scope Z_scope.

(** ** Results whatever the answers *)

(** [ends Q p]: whatever its calls answer, [p] ends with a result in [Q]. *)
Fixpoint ends {A} (Q : A → Prop) (p : prog A) : Prop :=
  match p with
  | Ret a => Q a
  | Call e k => ∀ x, ends Q (k x)
  end.

Lemma ends_run {W A} (env : Env W) (Q : A → Prop) (p : prog A) w : ends Q p → Q (run env p w).1.
Proof.
  revert w. induction p as [a|X e k IH]; intros w Hp; [done|]. simpl. destruct (env X e w) as [x w']. by apply IH.
Qed.

Lemma ends_bind {A B} (Q : A → Prop) (R : B → Prop) (p : prog A) (f : A → prog B) :
  ends Q p → (∀ a, Q a → ends R (f a)) → ends R (p ≫= f).
Proof. induction p as [a|X e k IH]; intros Hp Hf; [by apply Hf|]. intros x. apply IH; [apply Hp|done]. Qed.

Lemma ends_true {A} (p : prog A) : ends (λ _, True) p.
Proof. induction p as [a|X e k IH]; [done|]. exact IH. Qed.

(** ** Conditions *)

Definition conditionTypes : list string :=
  [ConditionReady; ConditionPodReady; ConditionHomeReady; ConditionRBACReady; ConditionTemplateOutdated].

Definition conditions_keyed (s : SandboxStatus) : Prop :=
  NoDup (c_Type <$> st_Conditions s) ∧ ∀ ty, ty ∈ c_Type <$> st_Conditions s → ty ∈ conditionTypes.

Section shape.
Context `{AM : ApiMachinery} `{!ApiMachineryLaws AM} `{SSH : SSHLib}.

(** A method that keeps the shape, whether it fails or not. *)
Definition keeps {A} (m : SM A) : Prop := ∀ s, conditions_keyed s → ends (λ sr, conditions_keyed sr.1) (m s).

Lemma keeps_sret {A} (a : A) : keeps (sret a).
Proof. by intros s Hs. Qed.

Lemma keeps_sthrow {A} e : keeps (sthrow (A := A) e).
Proof. by intros s Hs. Qed.

Lemma keeps_sbind {A B} (m : SM A) (f : A → SM B) : keeps m → (∀ a, keeps (f a)) → keeps (sbind m f).
Proof.
  intros Hm Hf s Hs. eapply ends_bind; [by apply Hm|]. intros [s' [a|e]] Hs'; [by apply Hf|done].
Qed.

Lemma keeps_lift {A} (p : prog (res A)) : keeps (lift p).
Proof. intros s Hs. eapply ends_bind; [apply ends_true|]. by intros a _. Qed.

Lemma keeps_attempt {A} (p : prog A) : keeps (attempt p).
Proof. intros s Hs. eapply ends_bind; [apply ends_true|]. by intros a _. Qed.

Lemma keeps_get : keeps getStatus.
Proof. by intros s Hs. Qed.

Lemma keeps_modify f : (∀ s, st_Conditions (f s) = st_Conditions s) → keeps (modify f).
Proof. intros Hf s Hs. unfold modify, conditions_keyed. simpl. by rewrite Hf. Qed.

Lemma keeps_setCondition sb ty st reason msg : ty ∈ conditionTypes → keeps (setCondition sb ty st reason msg).
Proof.
  intros Hty s [Hn Hin]. unfold setCondition, modify, conditions_keyed. cbn [ends fst st_Conditions set_Conditions].
  rewrite SetStatusCondition_types. cbn [c_Type conditionOf]. destruct (contains _ _) eqn:Hc; [done|].
  apply contains_false in Hc. split.
  - apply NoDup_app. split; [done|]. split; [by intros x Hx ->%list_elem_of_singleton|]. apply NoDup_singleton.
  - intros x [Hx| ->%list_elem_of_singleton]%elem_of_app; [by apply Hin|done].
Qed.

Ltac known := unfold conditionTypes; apply list_elem_of_In; simpl; tauto.

Ltac shape :=
  repeat first
    [ apply keeps_sbind; [|intros ?] | apply keeps_sret | apply keeps_sthrow | apply keeps_lift | apply keeps_attempt
    | apply keeps_get | apply keeps_setCondition; known | apply keeps_modify; reflexivity | case_match ].

Lemma keeps_ensurePodGone pod : keeps (ensurePodGone pod).
Proof. unfold ensurePodGone. shape. Qed.

Lemma keeps_prepare r sb : keeps (prepare r sb).
Proof. unfold prepare, reconcileHome, reconcileRBAC, refuseRBAC, homeReady, homeBlocked, pendingReady. shape. Qed.

Lemma keeps_reconcileSandbox r sb : keeps (reconcileSandbox r sb).
Proof.
  apply keeps_sbind; [apply keeps_prepare|]. intros [res|[tpl sa]]; [apply keeps_sret|].
  unfold desiredStateMachine, idleRequeue, now. pose proof keeps_ensurePodGone. shape; auto.
Qed.

(** C39. The status a reconciliation computes is one the server accepts: from a
    status whose conditions have different, declared types it makes another
    such one, whatever its calls answered and whether or not it failed. *)
Theorem status_conditions_keyed {W} (env : Env W) r sb s w :
  conditions_keyed s → conditions_keyed (run env (reconcileSandbox r sb s) w).1.1.
Proof. intros Hs. by apply (ends_run env (λ sr, conditions_keyed sr.1)), keeps_reconcileSandbox. Qed.

End shape.
