(* ===== verification/SandboxFinalize.v ===== *)
(** * Deleting a sandbox (internal/controller/sandbox_controller.go)

    [finalize] removes what a deleted sandbox owns, closes its sessions,
    applies the retain policy of its home and only then releases the sandbox.
    The theorems: a finalization that succeeds left nothing behind; whatever
    fails, the finalizer is not released before the cleanup is complete; and a
    home the sandbox did not create is never touched. *)

From S2P Require Import Prelude GoStrings KubeTypes ApiTypes Client Libs PodSpec StatusMonad.
From S2P Require Import SandboxRBAC SandboxHome SandboxNet SandboxRun.
From Stdlib Require Import String.
From stdpp Require Import base gmap strings list.
From Stdlib Require Import ZArith Lia.
Local Open Scope Z_scope.

Definition SandboxFinalizer : string := "kubepark.dev/finalizer".
Definition LabelOrphanedHome : string := "kubepark.dev/orphaned-home".

Section finalize.
Context `{AM : ApiMachinery}.

(** ** Sessions *)

Definition closedByDeletion (now : Time) (s : SandboxSession) : SandboxSession :=
  with_ses_status
    {| sst_State := SessionStateClosed; sst_StartTime := sst_StartTime (ses_Status s);
       sst_LastActivityTime := sst_LastActivityTime (ses_Status s);
       sst_EndTime := Some now; sst_ExitReason := ExitReasonSandboxDeleted |} s.

Definition closeSessions (sb : Sandbox) : prog (res unit) :=
  sessions ←? call (EList KSession (InNamespace (Namespace sb)));
  now ← call ENow;
  for_each sessions (λ s,
    if negb (String.eqb (ss_SandboxName (ses_Spec s)) (Name sb))
       || negb (bool_decide (sst_State (ses_Status s) = SessionStateActive)) then Ret (Ok tt)
    else
      r ← call (EStatusUpdate KSession (closedByDeletion now s));
      Ret (IgnoreNotFound (to_unit r))).

(** ** The home *)

Definition with_pvc_label (l v : string) (pvc : PersistentVolumeClaim) : PersistentVolumeClaim :=
  {| pvc_ObjectMeta := set_labels (<[l := v]> (mLabels pvc)) pvc; pvc_Spec := pvc_Spec pvc |}.

Definition retainDelete (sb : Sandbox) : bool :=
  match sp_Home (sb_Spec sb) with
  | Some h => bool_decide (h_RetainPolicy h = RetainPolicyDelete)
  | None => false
  end.

Definition applyHomeRetainPolicy (sb : Sandbox) : prog (res unit) :=
  if negb (String.eqb (existingClaim sb) "") then Ret (Ok tt)
  else
    r ← call (EGet KPVC (nn (Namespace sb) (PVCName (Name sb))));
    match r with
    | Err e => if IsNotFound e then Ret (Ok tt) else Ret (Err e)
    | Ok pvc =>
      if retainDelete sb then deleteIgnoringNotFound KPVC (okey KPVC pvc)
      else
        u ← call (EUpdate KPVC (with_pvc_label LabelOrphanedHome "true" pvc));
        Ret (IgnoreNotFound (to_unit u))
    end.

(** ** The whole cleanup *)

(** The terminating phase is published first; the object that comes back is
    the one the last step updates. *)
Definition markTerminating (sb : Sandbox) : prog (res Sandbox) :=
  if negb (bool_decide (st_Phase (sb_Status sb) = SandboxPhaseTerminating)) then
    let sb' := with_sb_status (set_Phase SandboxPhaseTerminating (sb_Status sb)) sb in
    r ← call (EStatusUpdate KSandbox sb');
    match r with
    | Ok stored => Ret (Ok stored)
    | Err e => if negb (IsNotFound e) then Ret (Err e) else Ret (Ok sb')
    end
  else Ret (Ok sb).

Definition deleteChildren (sb : Sandbox) : prog (res unit) :=
  deleteIgnoringNotFound KPod (nn (Namespace sb) (PodName (Name sb))) ;;?
  deleteIgnoringNotFound KSecret (nn (Namespace sb) (HostKeyName (Name sb))) ;;?
  deleteIgnoringNotFound KNetPol (nn (Namespace sb) (NetPolName (Name sb))) ;;?
  deleteIgnoringNotFound KServiceAccount (nn (Namespace sb) (saName (Name sb))).

Definition cleanup (sb : Sandbox) : prog (res unit) :=
  deleteChildren sb ;;? gcRBAC sb [] ;;? closeSessions sb ;;? applyHomeRetainPolicy sb.

Definition withoutFinalizer (sb : Sandbox) : Sandbox :=
  with_sb_meta (set_finalizers (RemoveFinalizer (Finalizers sb) SandboxFinalizer) sb) sb.

Definition finalize (sb : Sandbox) : prog (res Result) :=
  if negb (ContainsFinalizer (Finalizers sb) SandboxFinalizer) then Ret (Ok noResult)
  else
    sb ←? markTerminating sb;
    cleanup sb ;;?
    u ← call (EUpdate KSandbox (withoutFinalizer sb));
    match u with Ok _ => Ret (Ok noResult) | Err e => Ret (Err e) end.

End finalize.

(** ** Proofs *)

Section proofs.
Context `{AM : ApiMachinery} `{!ApiMachineryLaws AM} {W : Type} `{World W}.

(** The open sessions of a sandbox, as keys of a world. *)
Definition own_sessions (sb : Sandbox) (w : W) (t : tag) (k : NamespacedName) : Prop :=
  t = TSession ∧ ∃ x, view KSession w k = Some x ∧ Namespace x = Namespace sb ∧
    ss_SandboxName (ses_Spec x) = Name sb ∧ sst_State (ses_Status x) = SessionStateActive.

Lemma wp_closeOne now (s : SandboxSession) w :
  wp (r ← call (EStatusUpdate KSession (closedByDeletion now s)); Ret (IgnoreNotFound (to_unit r)))
     (λ r w', same_but KSession (okey KSession s) w w' ∧
        match r with
        | Ok _ => ∀ x, view KSession w' (okey KSession s) = Some x →
                       sst_State (ses_Status x) = SessionStateClosed
        | Err _ => True
        end) w.
Proof.
  intros r w' [_ (Hsb & _ & Hr)]. split; [done|]. destruct r as [o|e]; simpl.
  - destruct Hr as (cur & _ & _ & (gen & rv & ->) & Hv). intros x. simpl.
    change (okey KSession (closedByDeletion now s)) with (okey KSession s) in Hv.
    rewrite Hv. by intros [= <-].
  - destruct (IsNotFound e); [|done]. intros x Hx. destruct (Hr eq_refl) as [_ Hn].
    change (okey KSession (closedByDeletion now s)) with (okey KSession s) in Hn. congruence.
Qed.

Lemma wp_closeSessions sb w :
  wp (closeSessions sb)
     (λ r w', frame (own_sessions sb w) w w' ∧
        match r with Ok _ => ¬ has_active_session w' sb | Err _ => True end) w.
Proof.
  apply wp_ebind, wp_call. intros [l|e] w1 [_ [Hun Hl]]; [|by split; [apply frame_unchanged|]].
  destruct Hl as [Hl _]. cbn beta iota. apply wp_bind, wp_call. intros now w2 [_ [Hun2 _]].
  pose proof (unchanged_trans _ _ _ Hun Hun2) as Hu.
  set (I := λ (rest : list SandboxSession) w3,
    frame (own_sessions sb w) w w3 ∧ (∀ x, x ∈ rest → x ∈ l) ∧
    ∀ x, view KSession w3 (okey KSession x) = Some x → Namespace x = Namespace sb →
      activeSession sb x = true → okey KSession x ∈ okey KSession <$> rest).
  eapply wp_mono; [eapply (wp_for_each I (λ _ w3, frame (own_sessions sb w) w w3))|].
  - split; [by apply frame_unchanged|]. split; [done|]. intros x Hv Hns _.
    rewrite (proj1 Hu) in Hv. apply list_elem_of_fmap. exists x. split; [done|].
    apply Hl. split; [done|]. by apply selected_namespace.
  - intros x rest w3 (Hfr & Hsub & HI). assert (x ∈ l) as Hx by (apply Hsub; left).
    apply Hl in Hx as [Hx Hsel]. apply selected_namespace in Hsel.
    replace (_ || _) with (negb (activeSession sb x)) by (unfold activeSession; apply negb_andb).
    destruct (activeSession sb x) eqn:Ha; cbn [negb].
    + eapply wp_mono; [apply wp_closeOne|]. intros r w4 [Hsb Hr].
      assert (frame (own_sessions sb w) w w4) as Hfr4.
      { eapply frame_trans; [exact Hfr|]. eapply frame_same_but; [exact Hsb|]. split; [done|].
        exists x. apply activeSession_true in Ha. done. }
      destruct r as [[]|e]; [|done]. split; [done|].
      split; [intros y Hy; apply Hsub; by right|]. intros y Hv Hns Hay.
      destruct (decide (okey KSession y = okey KSession x)) as [Heq|Hne].
      { rewrite Heq in Hv. specialize (Hr _ Hv). apply activeSession_true in Hay as [_ Hay]. congruence. }
      rewrite (same_but_key _ _ _ _ _ Hsb Hne) in Hv.
      specialize (HI y Hv Hns Hay). apply elem_of_cons in HI as [?|?]; done.
    + split; [done|]. split; [intros y Hy; apply Hsub; by right|]. intros y Hv Hns Hay.
      specialize (HI y Hv Hns Hay). apply elem_of_cons in HI as [Heq|?]; [|done].
      rewrite Heq in Hv. rewrite (frame_view KSession _ _ _ _ Hfr) in Hv; [simpl in *; congruence|].
      intros (_ & z & Hz & _ & Hz'). apply activeSession_true in Hz'.
      simpl in Hz, Hx. rewrite Hx in Hz. injection Hz as <-. congruence.
  - intros [[]|e] w3; [|done]. intros (Hfr & _ & HI). split; [done|].
    intros (x & Hv & Hns & Hact). specialize (HI x Hv Hns). apply activeSession_true in Hact.
    specialize (HI Hact). by apply not_elem_of_nil in HI.
Qed.

(** *** The home *)

Definition generatedKey (sb : Sandbox) : NamespacedName := nn (Namespace sb) (PVCName (Name sb)).

(** A claim the sandbox created is deleted when asked for, else kept, with
    its spec, under the orphan label. *)
Definition home_retained (sb : Sandbox) (w w' : W) : Prop :=
  existingClaim sb ≠ ""%string ∨
  (retainDelete sb = true ∧ not_live KPVC w' (generatedKey sb)) ∨
  (retainDelete sb = false ∧
   ∀ pvc, view KPVC w (generatedKey sb) = Some pvc → DeletionTimestamp pvc = None →
     ∃ pvc', view KPVC w' (generatedKey sb) = Some pvc' ∧ pvc_Spec pvc' = pvc_Spec pvc ∧
       mLabels pvc' !! LabelOrphanedHome = Some "true"%string).

Definition home_target (sb : Sandbox) (t : tag) (k : NamespacedName) : Prop :=
  existingClaim sb = ""%string ∧ t = TPVC ∧ k = generatedKey sb.

Lemma wp_applyHomeRetainPolicy sb w :
  wp (applyHomeRetainPolicy sb)
     (λ r w', frame (home_target sb) w w' ∧
        match r with Ok _ => home_retained sb w w' | Err _ => True end) w.
Proof.
  unfold applyHomeRetainPolicy, home_retained.
  destruct (String.eqb_spec (existingClaim sb) "") as [He|He]; cbn [negb];
    [|split; [apply frame_refl|by left]].
  fold (generatedKey sb). apply wp_bind, wp_call. intros [pvc|e] w1 [_ [Hun Hr]]; cbn beta iota;
    pose proof (frame_unchanged (home_target sb) _ _ Hun) as Hf1.
  2:{ destruct (IsNotFound e); [|done]. split; [done|]. right. specialize (Hr eq_refl).
      destruct (retainDelete sb); [left|right]; (split; [done|]).
      - intros o. rewrite (proj1 Hun). congruence.
      - intros pvc. congruence. }
  pose proof (view_key _ _ _ _ _ Hr) as Hk.
  assert (∀ w2, same_but KPVC (generatedKey sb) w1 w2 → frame (home_target sb) w w2) as Hf2.
  { intros w2 Hsb. eapply frame_trans; [exact Hf1|]. by eapply frame_same_but. }
  destruct (retainDelete sb) eqn:Hd.
  - rewrite Hk. eapply wp_mono; [apply wp_deleteIgnoringNotFound|]. intros r w2 [Hsb Hn].
    split; [by apply Hf2|]. destruct r as [[]|e]; [|done]. right. left. done.
  - apply wp_bind, wp_call. intros u w2 [_ Hu].
    change (update_spec KPVC (with_pvc_label LabelOrphanedHome "true" pvc) w1 u w2) in Hu.
    unfold update_spec in Hu.
    change (okey KPVC (with_pvc_label LabelOrphanedHome "true" pvc)) with (okey KPVC pvc) in Hu.
    rewrite Hk in Hu. destruct Hu as [Hsb Hu]. split; [by apply Hf2|].
    destruct u as [o|e]; simpl.
    + right. right. split; [done|]. intros p Hp Hlive. simplify_eq.
      destruct Hu as (cur & Hcur & _ & (gen & rv & ->) & Hv). rewrite (proj1 Hun), Hr in Hcur.
      simplify_eq. simpl in Hv. rewrite bool_decide_eq_false_2 in Hv
        by (simpl in Hlive; rewrite Hlive; intros [[? ?] _]; done).
      eexists. split; [exact Hv|]. split; [done|]. simpl. by rewrite lookup_insert_eq.
    + destruct (IsNotFound e); [|done]. destruct (Hu eq_refl) as [Hn _].
      rewrite (proj1 Hun) in Hn. congruence.
Qed.

(** *** The cleanup *)

Definition saKey (sb : Sandbox) : NamespacedName := nn (Namespace sb) (saName (Name sb)).

Definition child_keys (sb : Sandbox) (t : tag) (k : NamespacedName) : Prop :=
  (t = TPod ∧ k = podKey sb) ∨ (t = TSecret ∧ k = hostKeyKey sb) ∨
  (t = TNetPol ∧ k = netPolKey sb) ∨ (t = TServiceAccount ∧ k = saKey sb).

Definition children_gone (sb : Sandbox) (w : W) : Prop :=
  not_live KPod w (podKey sb) ∧ not_live KSecret w (hostKeyKey sb) ∧
  not_live KNetPol w (netPolKey sb) ∧ not_live KServiceAccount w (saKey sb).

Lemma wp_deleteChildren sb w :
  wp (deleteChildren sb)
     (λ r w', frame (child_keys sb) w w' ∧
        match r with Ok _ => children_gone sb w' | Err _ => True end) w.
Proof.
  apply wp_ebind. eapply wp_mono; [apply wp_deleteIgnoringNotFound|]. intros r w1 [Hs1 Hr1].
  assert (frame (child_keys sb) w w1) as Hf1 by (eapply frame_same_but; [exact Hs1|by left]).
  destruct r as [[]|e]; [|done].
  apply wp_ebind. eapply wp_mono; [apply wp_deleteIgnoringNotFound|]. intros r w2 [Hs2 Hr2].
  assert (frame (child_keys sb) w w2) as Hf2.
  { eapply frame_trans; [exact Hf1|]. eapply frame_same_but; [exact Hs2|by right; left]. }
  destruct r as [[]|e]; [|done].
  apply wp_ebind. eapply wp_mono; [apply wp_deleteIgnoringNotFound|]. intros r w3 [Hs3 Hr3].
  assert (frame (child_keys sb) w w3) as Hf3.
  { eapply frame_trans; [exact Hf2|]. eapply frame_same_but; [exact Hs3|by right; right; left]. }
  destruct r as [[]|e]; [|done].
  eapply wp_mono; [apply wp_deleteIgnoringNotFound|]. intros r w4 [Hs4 Hr4].
  split. { eapply frame_trans; [exact Hf3|]. eapply frame_same_but; [exact Hs4|by right; right; right]. }
  destruct r as [[]|e]; [|done].
  split; [|split; [|split]]; [| | |exact Hr4]; eapply not_live_view; [|exact Hr1| |exact Hr2| |exact Hr3].
  - rewrite (same_but_view _ _ _ _ _ _ Hs4), (same_but_view _ _ _ _ _ _ Hs3) by done.
    by apply (same_but_view _ _ _ _ _ _ Hs2).
  - rewrite (same_but_view _ _ _ _ _ _ Hs4) by done. by apply (same_but_view _ _ _ _ _ _ Hs3).
  - by apply (same_but_view _ _ _ _ _ _ Hs4).
Qed.

(** What a deleted sandbox may be the reason for writing. *)
Definition own_object (sb : Sandbox) (w : W) (t : tag) (k : NamespacedName) : Prop :=
  child_keys sb t k ∨ gc_targets sb [] w t k ∨ own_sessions sb w t k ∨ home_target sb t k.

(** Nothing of the sandbox is left. *)
Definition cleaned (sb : Sandbox) (w w' : W) : Prop :=
  children_gone sb w' ∧ no_bindings sb w' ∧ ¬ has_active_session w' sb ∧ home_retained sb w w'.

Lemma frame_not (P : tag → NamespacedName → Prop) {T} (K : Kind T) w w' :
  frame P w w' → (∀ k, ¬ P (kind_tag K) k) → ∀ k, view K w' k = view K w k.
Proof. intros Hf HP k. by apply (frame_view K k _ _ _ Hf). Qed.

Lemma children_gone_frame sb (P : tag → NamespacedName → Prop) w w' :
  frame P w w' → (∀ t k, P t k → t = TRoleBinding ∨ t = TSession ∨ t = TPVC ∨ t = TSandbox) →
  children_gone sb w → children_gone sb w'.
Proof.
  intros Hf HP (H1 & H2 & H3 & H4).
  assert (∀ T (K : Kind T) k, kind_tag K ∉ [TRoleBinding; TSession; TPVC; TSandbox] →
            view K w' k = view K w k) as Hv.
  { intros T K k HK. apply (frame_view K k _ _ _ Hf). intros Hp. apply HK.
    apply HP in Hp. set_solver. }
  split; [|split; [|split]]; (eapply (not_live_view _ w); [apply Hv; simpl; set_solver|done]).
Qed.

Lemma home_retained_from sb w0 w w' :
  view KPVC w (generatedKey sb) = view KPVC w0 (generatedKey sb) →
  home_retained sb w w' → home_retained sb w0 w'.
Proof.
  intros Hv [?|[?|[Hd Hr]]]; [by left|by right; left|]. right; right. split; [done|].
  intros pvc. rewrite <- Hv. apply Hr.
Qed.

Lemma wp_cleanup sb w :
  wp (cleanup sb)
     (λ r w', frame (own_object sb w) w w' ∧
        match r with Ok _ => cleaned sb w w' | Err _ => True end) w.
Proof.
  apply wp_ebind. eapply wp_mono; [apply wp_deleteChildren|]. intros r w1 [Hf1 Hr1].
  assert (frame (own_object sb w) w w1) as Hg1 by (eapply frame_mono; [exact Hf1|]; by left).
  destruct r as [[]|e]; [|done].
  assert (∀ T (K : Kind T) k, kind_tag K ∉ [TPod; TSecret; TNetPol; TServiceAccount] →
            view K w1 k = view K w k) as Hv1.
  { intros T K k HK. apply (frame_view K k _ _ _ Hf1). intros Hc. apply HK.
    unfold child_keys in Hc. set_solver. }
  apply wp_ebind. eapply wp_mono; [apply wp_gcRBAC|]. intros r w2 [Hf2 Hr2].
  assert (frame (own_object sb w) w1 w2) as Hg2.
  { eapply frame_mono; [exact Hf2|]. intros t k (-> & rb & Hv & Hx). right; left. split; [done|].
    exists rb. rewrite <- Hv1; [done|simpl; set_solver]. }
  pose proof (frame_trans _ _ _ _ Hg1 Hg2) as Hg02. destruct r as [[]|e]; [|done].
  assert (∀ T (K : Kind T) k, kind_tag K ≠ TRoleBinding → view K w2 k = view K w1 k) as Hv2.
  { intros T K k HK. apply (frame_view K k _ _ _ Hf2). by intros [? _]. }
  apply wp_ebind. eapply wp_mono; [apply wp_closeSessions|]. intros r w3 [Hf3 Hr3].
  assert (frame (own_object sb w) w2 w3) as Hg3.
  { eapply frame_mono; [exact Hf3|]. intros t k (-> & x & Hv & Hx). right; right; left. split; [done|].
    exists x. rewrite <- Hv1, <- Hv2; [done|done|simpl; set_solver]. }
  pose proof (frame_trans _ _ _ _ Hg02 Hg3) as Hg03. destruct r as [[]|e]; [|done].
  eapply wp_mono; [apply wp_applyHomeRetainPolicy|]. intros r w4 [Hf4 Hr4].
  assert (frame (own_object sb w) w3 w4) as Hg4.
  { eapply frame_mono; [exact Hf4|]. intros t k Hx. by right; right; right. }
  split; [by eapply frame_trans|]. destruct r as [[]|e]; [|done].
  assert (∀ T (K : Kind T) k, kind_tag K ≠ TPVC → view K w4 k = view K w3 k) as Hv4.
  { intros T K k HK. apply (frame_view K k _ _ _ Hf4). by intros (_ & ? & _). }
  assert (∀ T (K : Kind T) k, kind_tag K ≠ TSession → view K w3 k = view K w2 k) as Hv3.
  { intros T K k HK. apply (frame_view K k _ _ _ Hf3). by intros [? _]. }
  split; [|split; [|split]].
  - eapply children_gone_frame; [exact Hf4|intros t k (_ & -> & _); auto|].
    eapply children_gone_frame; [exact Hf3|intros t k [-> _]; auto|].
    eapply children_gone_frame; [exact Hf2|intros t k [-> _]; auto|done].
  - intros k rb. rewrite Hv4, Hv3 by done. apply (bindings_within_nil sb w2 Hr2).
  - intros (x & Hv & Hx). apply Hr3. exists x. rewrite Hv4 in Hv by done. done.
  - eapply home_retained_from; [|exact Hr4]. rewrite Hv3, Hv2, Hv1; [done| |done|done].
    simpl. set_solver.
Qed.

(** *** Around the cleanup *)

(** The fields of a sandbox the cleanup reads. *)
Definition same_identity (sb sb' : Sandbox) : Prop :=
  Name sb' = Name sb ∧ Namespace sb' = Namespace sb ∧ UID sb' = UID sb ∧
  sb_Spec sb' = sb_Spec sb ∧ Finalizers sb' = Finalizers sb.

Lemma cleanup_identity sb sb' : same_identity sb sb' → cleanup sb' = cleanup sb.
Proof.
  intros (Hn & Hns & Hu & Hs & _).
  unfold cleanup, deleteChildren, gcRBAC, closeSessions, applyHomeRetainPolicy, existingClaim, retainDelete.
  by rewrite Hn, Hns, Hu, Hs.
Qed.

Definition sandboxKey (sb : Sandbox) : NamespacedName := okey KSandbox sb.

Lemma wp_markTerminating sb w :
  view KSandbox w (sandboxKey sb) = Some sb →
  wp (markTerminating sb)
     (λ r w', same_but KSandbox (sandboxKey sb) w w' ∧
        (∃ o, view KSandbox w' (sandboxKey sb) = Some o ∧ Finalizers o = Finalizers sb) ∧
        match r with Ok sb' => same_identity sb sb' | Err _ => True end) w.
Proof.
  intros Hv. unfold markTerminating. case_bool_decide as Hp; cbn [negb].
  { split; [apply unchanged_same_but, unchanged_refl|]. split; [by exists sb|]. done. }
  set (sb' := with_sb_status _ sb). apply wp_bind, wp_call. intros r w1 [_ (Hsb & Hso & Hr)].
  change (okey KSandbox sb') with (sandboxKey sb) in Hsb, Hso, Hr.
  unfold status_only in Hso. rewrite Hv in Hso. destruct Hso as (s & o & Ho & gen & rv & Hst).
  assert (∃ o, view KSandbox w1 (sandboxKey sb) = Some o ∧ Finalizers o = Finalizers sb) as Hfin.
  { exists o. split; [done|]. by rewrite Hst. }
  destruct r as [o'|e]; cbn beta iota.
  - split; [done|]. split; [done|]. destruct Hr as (cur & Hcur & _ & (gen' & rv' & ->) & _).
    rewrite Hv in Hcur. injection Hcur as <-. done.
  - destruct (IsNotFound e) eqn:He; cbn [negb]; [|done]. split; [done|]. by split.
Qed.

Lemma cleaned_same_but sb w w1 w2 k :
  same_but KSandbox k w1 w2 → cleaned sb w w1 → cleaned sb w w2.
Proof.
  intros Hsb (H1 & H2 & H3 & H4).
  assert (∀ T (K : Kind T) k', kind_tag K ≠ TSandbox → view K w2 k' = view K w1 k') as Hv.
  { intros T K k' HK. apply (same_but_view _ _ _ _ _ _ Hsb). simpl. congruence. }
  split; [|split; [|split]].
  - eapply (children_gone_frame sb (λ t _, t = TSandbox)); [|auto|exact H1].
    by eapply frame_same_but.
  - intros k' rb. rewrite Hv by done. apply H2.
  - intros (x & Hx & Hx'). apply H3. exists x. rewrite Hv in Hx by done. done.
  - destruct H4 as [?|[[? Hn]|[? Hn]]]; [by left| |]; right; [left|right]; (split; [done|]).
    + eapply not_live_view; [|exact Hn]. by apply Hv.
    + rewrite Hv by done. exact Hn.
Qed.

(** The sandbox itself or one of its own objects. *)
Definition finalize_writes (sb : Sandbox) (w : W) (t : tag) (k : NamespacedName) : Prop :=
  own_object sb w t k ∨ (t = TSandbox ∧ k = sandboxKey sb).

Definition finalize_outcome (sb : Sandbox) (w : W) (r : res Result) (w' : W) : Prop :=
  frame (finalize_writes sb w) w w' ∧
  (cleaned sb w w' ∨
   ∃ o, view KSandbox w' (sandboxKey sb) = Some o ∧ SandboxFinalizer ∈ Finalizers o) ∧
  (is_ok r = true → cleaned sb w w' ∧
   ∀ o, view KSandbox w' (sandboxKey sb) = Some o → SandboxFinalizer ∉ Finalizers o).

Lemma own_object_from sb w w1 k0 t k :
  same_but KSandbox k0 w w1 → own_object sb w1 t k → own_object sb w t k.
Proof.
  intros Hsb.
  assert (∀ T (K : Kind T) k', kind_tag K ≠ TSandbox → view K w1 k' = view K w k') as Hv.
  { intros T K k' HK. apply (same_but_view _ _ _ _ _ _ Hsb). simpl. congruence. }
  unfold own_object, gc_targets, own_sessions. intros [?|[(-> & rb & Hrb & ?)|[(-> & x & Hx & ?)|?]]]; auto.
  - right; left. split; [done|]. exists rb. by rewrite <- Hv.
  - right; right; left. split; [done|]. exists x. by rewrite <- Hv.
Qed.

Lemma own_object_not_sandbox sb w k : ¬ own_object sb w TSandbox k.
Proof. unfold own_object, child_keys, gc_targets, own_sessions, home_target. naive_solver. Qed.

Lemma wp_release sb sb' w0 w :
  same_identity sb sb' → cleaned sb w0 w →
  wp (u ← call (EUpdate KSandbox (withoutFinalizer sb'));
      match u with Ok _ => Ret (Ok noResult) | Err e => Ret (Err e) end)
     (λ r w', same_but KSandbox (sandboxKey sb) w w' ∧ cleaned sb w0 w' ∧
        (is_ok r = true → ∀ o, view KSandbox w' (sandboxKey sb) = Some o →
           SandboxFinalizer ∉ Finalizers o)) w.
Proof.
  intros (Hn & Hns & _) Hc. apply wp_bind, wp_call. intros u w' [_ Hu].
  change (update_spec KSandbox (withoutFinalizer sb') w u w') in Hu. unfold update_spec in Hu.
  assert (okey KSandbox (withoutFinalizer sb') = sandboxKey sb) as Hk.
  { unfold sandboxKey, okey, keyOf. simpl. by rewrite Hn, Hns. }
  rewrite Hk in Hu. destruct Hu as [Hsb Hu].
  assert (cleaned sb w0 w') as Hc' by by eapply cleaned_same_but.
  destruct u as [o'|e]; cbn beta iota; (split; [done|]); (split; [done|]); [|done].
  intros _ o Ho. destruct Hu as (cur & _ & _ & (gen & rv & ->) & Hv'). rewrite Ho in Hv'.
  destruct (bool_decide _); [done|]. injection Hv' as ->. simpl.
  intros Hin. by apply RemoveFinalizer_spec in Hin as [? _].
Qed.

Lemma wp_finalize sb w :
  view KSandbox w (sandboxKey sb) = Some sb → SandboxFinalizer ∈ Finalizers sb →
  wp (finalize sb) (λ r w', finalize_outcome sb w r w') w.
Proof.
  intros Hv Hfin. unfold finalize. apply ContainsFinalizer_spec in Hfin as Hc. rewrite Hc. cbn [negb].
  apply wp_ebind. eapply wp_mono; [by apply wp_markTerminating|].
  intros r w1 (Hsb1 & (o & Ho & Hof) & Hid). rewrite <- Hof in Hfin.
  assert (∀ w', same_but KSandbox (sandboxKey sb) w w' → frame (finalize_writes sb w) w w') as Hfr.
  { intros w' Hs. eapply frame_same_but; [exact Hs|]. by right. }
  destruct r as [sb'|e]; [|split; [auto|]; split; [right; eauto|done]].
  rewrite (cleanup_identity _ _ Hid). apply wp_ebind. eapply wp_mono; [apply wp_cleanup|].
  intros r w2 [Hf2 Hr2].
  assert (frame (finalize_writes sb w) w w2) as Hfr2.
  { eapply frame_trans; [by apply Hfr|]. eapply frame_mono; [exact Hf2|]. intros t k Hx.
    left. by eapply own_object_from. }
  assert (view KSandbox w2 (sandboxKey sb) = Some o) as Ho2.
  { by rewrite (frame_view KSandbox _ _ _ _ Hf2) by apply own_object_not_sandbox. }
  destruct r as [[]|e]; [|split; [done|]; split; [right; eauto|done]].
  assert (cleaned sb w w2) as Hcl.
  { destruct Hr2 as (G1 & G2 & G3 & G4). split; [done|]. split; [done|]. split; [done|].
    eapply home_retained_from; [|exact G4]. apply (same_but_view _ _ KPVC _ _ _ Hsb1). done. }
  eapply wp_mono; [by apply (wp_release sb)|]. intros r w3 (Hsb3 & Hc3 & Hr3).
  split; [|split; [by left|auto]]. eapply frame_trans; [exact Hfr2|].
  eapply frame_same_but; [exact Hsb3|]. by right.
Qed.

(** ** The theorems *)

(** C3. A finalization that reports success has left nothing of the sandbox: pod,
    host key, network policy and service account are gone or going, no live
    role binding carries its UID, no session of it is open, its home was dealt
    with as the retain policy says, and the finalizer is off. *)
Theorem finalize_complete (env : Env W) `{!Conforms env} sb w res w' :
  view KSandbox w (sandboxKey sb) = Some sb → SandboxFinalizer ∈ Finalizers sb →
  run env (finalize sb) w = (Ok res, w') →
  cleaned sb w w' ∧
  ∀ o, view KSandbox w' (sandboxKey sb) = Some o → SandboxFinalizer ∉ Finalizers o.
Proof.
  intros Hv Hf Hrun. destruct (run_wp env _ _ _ _ _ Hrun (wp_finalize sb w Hv Hf)) as (_ & _ & Hok).
  by apply Hok.
Qed.

(** C4. Whatever call fails, the sandbox still carries the finalizer or the
    cleanup was complete: it cannot disappear with objects left behind. *)
Theorem finalizer_guards_cleanup (env : Env W) `{!Conforms env} sb w r w' :
  view KSandbox w (sandboxKey sb) = Some sb → SandboxFinalizer ∈ Finalizers sb →
  run env (finalize sb) w = (r, w') →
  cleaned sb w w' ∨
  ∃ o, view KSandbox w' (sandboxKey sb) = Some o ∧ SandboxFinalizer ∈ Finalizers o.
Proof.
  intros Hv Hf Hrun. by destruct (run_wp env _ _ _ _ _ Hrun (wp_finalize sb w Hv Hf)) as (_ & Hg & _).
Qed.

(** Deleting a sandbox touches its own children, the role bindings with its
    UID, its own open sessions and the sandbox; and among claims only the one
    generated for it, never one named in [home.existingClaim]. *)
Theorem finalize_writes_only_own (env : Env W) `{!Conforms env} sb w r w' :
  view KSandbox w (sandboxKey sb) = Some sb → SandboxFinalizer ∈ Finalizers sb →
  run env (finalize sb) w = (r, w') →
  frame (finalize_writes sb w) w w' ∧
  (existingClaim sb ≠ ""%string → ∀ k, view KPVC w' k = view KPVC w k).
Proof.
  intros Hv Hf Hrun. destruct (run_wp env _ _ _ _ _ Hrun (wp_finalize sb w Hv Hf)) as (Hfr & _ & _).
  split; [done|]. intros He k. apply (frame_view KPVC _ _ _ _ Hfr).
  unfold finalize_writes, own_object, child_keys, gc_targets, own_sessions, home_target. naive_solver.
Qed.

End proofs.
