(* ===== verification/SandboxController.v ===== *)
(** * The sandbox controller's entry points (internal/controller/sandbox_controller.go)

    [Reconcile] dispatches between finalization and reconciliation and
    persists the computed status; the map functions turn changes of other
    objects into requests. The theorems: the finalizer is stored before
    anything is created for the sandbox, the computed status is what ends up
    stored, and a changed template or profile queues exactly the sandboxes
    that refer to it. *)

From S2P Require Import Prelude GoStrings KubeTypes ApiTypes Client Libs PodSpec SSHCA StatusMonad.
From S2P Require Import SandboxRBAC SandboxHome SandboxNet SandboxRun SandboxReconcile SandboxFinalize.
From Stdlib Require Import String.
From stdpp Require Import base gmap strings list.
From Stdlib Require Import ZArith Lia.
Local Open Scope Z_scope.

Section controller.
Context `{AM : ApiMachinery} `{SSH : SSHLib}.

Definition patchStatus (sb : Sandbox) (status : SandboxStatus) : prog (res unit) :=
  if SemanticDeepEqual (sb_Status sb) status then Ret (Ok tt)
  else
    r ← call (EStatusUpdate KSandbox (with_sb_status status sb));
    Ret (IgnoreNotFound (to_unit r)).

Definition withFinalizer (sb : Sandbox) : Sandbox :=
  with_sb_meta (set_finalizers (AddFinalizer (Finalizers sb) SandboxFinalizer) sb) sb.

Definition ensureFinalizer (sb : Sandbox) : prog (res Sandbox) :=
  if negb (ContainsFinalizer (Finalizers sb) SandboxFinalizer)
  then call (EUpdate KSandbox (withFinalizer sb)) else Ret (Ok sb).

(** The first error of the two, or the result. *)
Definition finish (r : res Result) (upd : res unit) : res Result :=
  match r with
  | Err e => Err e
  | Ok res => match upd with Err e => Err e | Ok _ => Ok res end
  end.

Definition reconcileLive (r : SandboxReconciler) (sb : Sandbox) : prog (res Result) :=
  sr ← reconcileSandbox r sb (set_ObservedGeneration (Generation sb) (sb_Status sb));
  upd ← patchStatus sb sr.1;
  Ret (finish sr.2 upd).

Definition Reconcile (r : SandboxReconciler) (req : NamespacedName) : prog (res Result) :=
  g ← call (EGet KSandbox req);
  match g with
  | Err e => Ret (if IsNotFound e then Ok noResult else Err e)
  | Ok sb =>
    if negb (ptr_IsZero (DeletionTimestamp (sb_ObjectMeta sb))) then finalize sb
    else sb ←? ensureFinalizer sb; reconcileLive r sb
  end.

(** ** Watches *)

Definition toRequests (items : list Sandbox) : list NamespacedName := okey KSandbox <$> items.

(** A list whose error means no request. *)
Definition listRequests (lo : ListOptions) : prog (list NamespacedName) :=
  r ← call (EList KSandbox lo);
  match r with Err _ => Ret [] | Ok l => Ret (toRequests l) end.

Definition sandboxesForTemplate (obj : ObjectMeta) : prog (list NamespacedName) :=
  listRequests (MatchingFields indexSandboxTemplate (Name obj)).

Definition sandboxesForAccessProfile (obj : ObjectMeta) : prog (list NamespacedName) :=
  listRequests (MatchingFields indexSandboxAccessProfile (Name obj)).

Definition sandboxForSession (session : SandboxSession) : list NamespacedName :=
  if String.eqb (ss_SandboxName (ses_Spec session)) "" then []
  else [nn (Namespace session) (ss_SandboxName (ses_Spec session))].

Definition everything : ListOptions := {| lo_Namespace := None; lo_Labels := []; lo_Field := None |}.

Definition sandboxesForAPIServerEndpoints (obj : ObjectMeta) : prog (list NamespacedName) :=
  if negb (String.eqb (Namespace obj) "default")
     || negb (String.eqb (default "" (mLabels obj !! LabelServiceName)) "kubernetes") then Ret []
  else listRequests everything.

End controller.

(** ** Proofs *)

Section proofs.
Context `{AM : ApiMachinery} `{SSH : SSHLib} `{!ApiMachineryLaws AM} `{!SSHLaws SSH}.
Context {W : Type} `{World W}.

Lemma wp_ensureFinalizer sb w :
  view KSandbox w (sandboxKey sb) = Some sb →
  wp (ensureFinalizer sb)
     (λ r w', same_but KSandbox (sandboxKey sb) w w' ∧
        match r with
        | Ok sb' => view KSandbox w' (sandboxKey sb) = Some sb' ∧ SandboxFinalizer ∈ Finalizers sb' ∧
            sb_Spec sb' = sb_Spec sb ∧ sb_Status sb' = sb_Status sb ∧
            Name sb' = Name sb ∧ Namespace sb' = Namespace sb ∧ UID sb' = UID sb
        | Err _ => True
        end) w.
Proof.
  intros Hv. unfold ensureFinalizer.
  destruct (ContainsFinalizer (Finalizers sb) SandboxFinalizer) eqn:Hc; cbn [negb].
  { apply ContainsFinalizer_spec in Hc. split; [apply unchanged_same_but, unchanged_refl|]. done. }
  intros r w' [_ Hu]. change (update_spec KSandbox (withFinalizer sb) w r w') in Hu.
  unfold update_spec in Hu. change (okey KSandbox (withFinalizer sb)) with (sandboxKey sb) in Hu.
  destruct Hu as [Hsb Hu]. split; [done|]. destruct r as [o|e]; [|done].
  destruct Hu as (cur & Hcur & _ & (gen & rv & ->) & Hv'). rewrite Hv in Hcur. injection Hcur as <-.
  assert (SandboxFinalizer ∈ AddFinalizer (Finalizers sb) SandboxFinalizer) as Hin.
  { apply AddFinalizer_spec. by left. }
  rewrite bool_decide_eq_false_2 in Hv'
    by (intros [_ Hnil]; simpl in Hnil; rewrite Hnil in Hin; by apply not_elem_of_nil in Hin).
  split; [exact Hv'|]. split; [exact Hin|]. done.
Qed.

Lemma wp_patchStatus sb s w :
  view KSandbox w (sandboxKey sb) = Some sb →
  wp (patchStatus sb s)
     (λ r w', same_but KSandbox (sandboxKey sb) w w' ∧
        match r with
        | Ok _ => ∃ o, view KSandbox w' (sandboxKey sb) = Some o ∧ sb_Status o = s ∧
                       Finalizers o = Finalizers sb
        | Err _ => True
        end) w.
Proof.
  intros Hv. unfold patchStatus. destruct (SemanticDeepEqual (sb_Status sb) s) eqn:He.
  { apply SemanticDeepEqual_spec in He. split; [apply unchanged_same_but, unchanged_refl|]. by exists sb. }
  apply wp_bind, wp_call. intros r w' [_ (Hsb & _ & Hr)].
  change (okey KSandbox (with_sb_status s sb)) with (sandboxKey sb) in Hsb, Hr.
  split; [done|]. destruct r as [o|e]; simpl.
  - destruct Hr as (cur & Hcur & _ & (gen & rv & ->) & Hv'). rewrite Hv in Hcur. injection Hcur as <-.
    by eexists.
  - destruct (IsNotFound e) eqn:Hn; [|done]. destruct (Hr eq_refl). congruence.
Qed.

Lemma sandbox_writes_not_sandbox sb w k : ¬ sandbox_writes sb w TSandbox k.
Proof. intros [Hc%child_kind|[? _]]; [set_solver|done]. Qed.

(** [quiet] and [timeouts_bounded] depend on the identity and spec only. *)
Lemma quiet_same (sb sb' : Sandbox) w w' k :
  same_but KSandbox k w w' → nn_Name k ≠ ""%string →
  Name sb' = Name sb → Namespace sb' = Namespace sb → quiet sb w → quiet sb' w'.
Proof.
  intros Hsb Hk Hn Hns (Hnamed & Hrb & Hnp).
  assert (∀ T (K : Kind T) k', kind_tag K ≠ TSandbox → view K w' k' = view K w k') as Hv.
  { intros T K k' HK. apply (same_but_view _ _ _ _ _ _ Hsb). simpl. congruence. }
  split; [|split].
  - intros ns o. rewrite (same_but_key _ _ _ _ _ Hsb); [apply Hnamed|]. by intros <-.
  - intros ns o. rewrite Hv by done. unfold bindingKey. rewrite Hn. apply Hrb.
  - intros o. rewrite Hv by done. unfold netPolKey. rewrite Hn, Hns. apply Hnp.
Qed.

Lemma timeouts_same sb sb' w w' k :
  same_but KSandbox k w w' → sb_Spec sb' = sb_Spec sb →
  timeouts_bounded sb w → timeouts_bounded sb' w'.
Proof.
  intros Hsb Hs Ht tpl. rewrite (same_but_view _ _ KTemplate _ _ _ Hsb) by done.
  unfold effectiveIdleTimeout. rewrite Hs. apply Ht.
Qed.

Lemma run_listRequests (env : Env W) `{!Conforms env} lo w :
  match (run env (call (EList KSandbox lo)) w).1 with
  | Err _ => (run env (listRequests lo) w).1 = []
  | Ok _ => ∀ k, k ∈ (run env (listRequests lo) w).1 ↔
              ∃ sb, view KSandbox w k = Some sb ∧ selected KSandbox lo sb = true
  end.
Proof.
  unfold listRequests. rewrite run_bind.
  assert (list_spec KSandbox lo w (run env (call (EList KSandbox lo)) w).1
            (run env (call (EList KSandbox lo)) w).2) as [_ Hl].
  { apply (wp_run env (call (EList KSandbox lo)) (list_spec KSandbox lo w)). by intros x w' [_ Hx]. }
  destruct (run env (call (EList KSandbox lo)) w).1 as [l|e]; [|done]. destruct Hl as [Hl _].
  intros k. simpl. unfold toRequests. rewrite list_elem_of_fmap. split.
  - intros (sb & -> & Hsb). exists sb. by apply Hl.
  - intros (sb & Hv & Hs). pose proof (view_key _ _ _ _ _ Hv) as <-. exists sb.
    split; [done|]. by apply Hl.
Qed.

(** ** The theorems *)

Context (env : Env W) `{!Conforms env}.

(** C17. A live sandbox: before its objects are touched the finalizer is stored
    with it, then [reconcileSandbox] runs, and the status that computes is the
    one stored in the end. *)
Theorem Reconcile_live r k w res w' (sb : Sandbox) :
  quiet sb w → r_Now r = None → timeouts_bounded sb w →
  view KSandbox w k = Some sb → ptr_IsZero (DeletionTimestamp sb) = true →
  run env (Reconcile r k) w = (Ok res, w') →
  ∃ (sb1 : Sandbox) w1 s' w2 (o : Sandbox),
    same_but KSandbox k w w1 ∧ view KSandbox w1 k = Some sb1 ∧
    SandboxFinalizer ∈ Finalizers sb1 ∧ sb_Spec sb1 = sb_Spec sb ∧ UID sb1 = UID sb ∧
    run env (reconcileSandbox r sb1 (set_ObservedGeneration (Generation sb1) (sb_Status sb1))) w1
      = ((s', Ok res), w2) ∧
    same_but KSandbox k w2 w' ∧
    view KSandbox w' k = Some o ∧ sb_Status o = s' ∧ SandboxFinalizer ∈ Finalizers o.
Proof.
  intros Hq Hprod Hto Hv Hlive Hrun. pose proof (view_key _ _ _ _ _ Hv) as <-.
  unfold Reconcile in Hrun. rewrite run_bind in Hrun.
  destruct (run env (call (EGet KSandbox (okey KSandbox sb))) w) as [g w0] eqn:Hg.
  destruct (run_wp env _ (λ r w', get_spec KSandbox (okey KSandbox sb) w r w') _ _ _ Hg) as [Hun Hget];
    [by intros x wx [_ Hx]|]. cbn [fst snd] in Hrun.
  destruct g as [sb0|e]; [|rewrite Hv in Hget; by destruct (IsNotFound e); [specialize (Hget eq_refl)|]].
  rewrite Hv in Hget. injection Hget as <-. rewrite Hlive in Hrun. cbn [negb] in Hrun.
  unfold ebind in Hrun. rewrite run_bind in Hrun.
  destruct (run env (ensureFinalizer sb) w0) as [f w1] eqn:Hf. cbn [fst snd] in Hrun.
  destruct (run_wp env _ _ _ _ _ Hf (wp_ensureFinalizer sb w0 ltac:(by rewrite (proj1 Hun)))) as [Hsb1 Hfin].
  destruct f as [sb1|e]; [|done].
  destruct Hfin as (Hv1 & Hin & Hspec & Hst & Hname & Hns & Huid).
  assert (same_but KSandbox (okey KSandbox sb) w w1) as Hw1.
  { eapply same_but_trans; [by apply unchanged_same_but|done]. }
  assert (sandboxKey sb1 = sandboxKey sb) as Hkey.
  { unfold sandboxKey, okey, keyOf. simpl. by rewrite Hname, Hns. }
  assert (Name sb ≠ ""%string) as Hnn.
  { intros E. apply (proj1 Hq (Namespace sb) sb). unfold nn. rewrite <- E. exact Hv. }
  unfold reconcileLive in Hrun. rewrite run_bind in Hrun.
  destruct (run env (reconcileSandbox _ _ _) w1) as [[s' rr] w2] eqn:Hrec. cbn [fst snd] in Hrun.
  destruct (run_wp env _ _ _ _ _ Hrec (wp_reconcileSandbox r sb1 _ w1
    ltac:(by eapply quiet_same) Hprod ltac:(by eapply timeouts_same))) as [Hfr _].
  assert (view KSandbox w2 (sandboxKey sb1) = Some sb1) as Hv2.
  { rewrite (frame_view KSandbox _ _ _ _ Hfr) by apply sandbox_writes_not_sandbox. by rewrite Hkey. }
  rewrite run_bind in Hrun.
  destruct (run env (patchStatus sb1 s') w2) as [upd w3] eqn:Hpatch. cbn [fst snd] in Hrun.
  destruct (run_wp env _ _ _ _ _ Hpatch (wp_patchStatus sb1 s' w2 Hv2)) as [Hsb3 Hp].
  simpl in Hrun. injection Hrun as Hres <-. unfold finish in Hres.
  destruct rr as [res'|e]; [|done]. destruct upd as [[]|e]; [|done]. injection Hres as ->.
  destruct Hp as (o & Ho & Hos & Hof). rewrite Hkey in Ho, Hsb3.
  exists sb1, w1, s', w2, o. split; [done|]. split; [done|]. split; [done|]. split; [done|].
  split; [done|]. split; [done|]. split; [done|]. split; [done|]. split; [done|]. by rewrite Hof.
Qed.

(** The sandboxes a change of a template or of an access profile queues: none
    when listing them fails, else exactly those that name it. *)
Theorem watched_change_requeues_users (obj : ObjectMeta) w :
  Name obj ≠ ""%string →
  let queued p field (names : Sandbox → string) :=
    match (run env (call (EList KSandbox (MatchingFields field (Name obj)))) w).1 with
    | Err _ => (run env p w).1 = []
    | Ok _ => ∀ k, k ∈ (run env p w).1 ↔ ∃ sb, view KSandbox w k = Some sb ∧ names sb = Name obj
    end in
  queued (sandboxesForTemplate obj) indexSandboxTemplate (λ sb, sp_Template (sb_Spec sb)) ∧
  queued (sandboxesForAccessProfile obj) indexSandboxAccessProfile (λ sb, sp_AccessProfile (sb_Spec sb)).
Proof.
  intros Hn queued. subst queued. cbv beta. split.
  - unfold sandboxesForTemplate.
    pose proof (run_listRequests env (MatchingFields indexSandboxTemplate (Name obj)) w) as Hl.
    destruct (run env (call _) w).1 as [l|e]; [|done]. intros k. rewrite Hl. apply exist_proper. intros sb.
    rewrite selected_field. unfold field_values, sandboxIndex.
    rewrite String.eqb_refl, list_elem_of_singleton. naive_solver.
  - unfold sandboxesForAccessProfile.
    pose proof (run_listRequests env (MatchingFields indexSandboxAccessProfile (Name obj)) w) as Hl.
    destruct (run env (call _) w).1 as [l|e]; [|done]. intros k. rewrite Hl. apply exist_proper. intros sb.
    rewrite selected_field. unfold field_values, sandboxIndex. simpl.
    destruct (String.eqb_spec (sp_AccessProfile (sb_Spec sb)) "") as [E|E].
    + rewrite elem_of_nil, E. naive_solver.
    + rewrite list_elem_of_singleton. naive_solver.
Qed.

End proofs.
