(* ===== verification/Lifecycle.v ===== *)
(** * The phases of a sandbox as a state machine (internal/controller/sandbox_controller.go)

    The documented life of a sandbox is a diagram of phases. Here it is a
    transition system of its own, over the phase in the stored status and what
    can be seen of the pod. [life_step] is a pass of the controller that
    succeeds, [pass_step] any pass, failed ones included, and [pod_step] what
    happens to the pod meanwhile. A pass computes a status and then writes it;
    the write may be refused or lost ([patchStatus] fails, or the operator dies
    before it), so a [system_step] may also carry out a pass and keep the old
    phase. [reconcile_refines_life] shows that [reconcileLive], which is a pass
    with its status write, is a step of this system whatever its outcome; the
    invariants are proved on the small system, by induction on its steps. *)

From S2P Require Import Prelude GoStrings KubeTypes ApiTypes Client Libs PodSpec SSHCA StatusMonad.
From S2P Require Import SandboxRBAC Bootstrap SandboxHome SandboxNet SandboxRun SandboxReconcile SandboxFinalize.
From S2P Require Import StatusShape SandboxController.
From Stdlib Require Import String.
From stdpp Require Import base gmap strings list relations.
From Stdlib Require Import ZArith Lia.
Local Open Scope Z_scope.

(** ** The machine *)

(** What the controller looks at: whether the pod has ended, is ready or not
    yet, and whether it is being deleted. *)
Inductive Condition3 := PodDead | PodIsReady | PodNotReady.
Inductive PodView :=
  | NoPod
  | APod (c : Condition3) (terminating : bool).

#[export] Instance Condition3_eq_dec : EqDecision Condition3.
Proof. solve_decision. Defined.
#[export] Instance PodView_eq_dec : EqDecision PodView.
Proof. solve_decision. Defined.

Definition Life : Type := SandboxPhase * PodView.

(** Gone or going. *)
Definition leaving (v : PodView) : Prop :=
  match v with NoPod => True | APod _ t => t = true end.

(** The phase of a sandbox whose pod was just created: it resumes if it was
    suspended, or was becoming so, and starts otherwise. *)
Definition startingPhase (p : SandboxPhase) : SandboxPhase :=
  match p with
  | SandboxPhaseSuspended | SandboxPhaseSuspending | SandboxPhaseResuming => SandboxPhaseResuming
  | _ => SandboxPhaseProvisioning
  end.

(** A pass of the controller that succeeds: the sandbox is not prepared and waits; it is due
    to be suspended, without a pod or with one; or it is to run, and the pod is
    missing, has ended, is ready or is not ready yet. *)
Inductive life_step : Life → Life → Prop :=
  | life_wait p v : life_step (p, v) (SandboxPhasePending, v)
  | life_suspended p : life_step (p, NoPod) (SandboxPhaseSuspended, NoPod)
  | life_suspend p c t v : leaving v → life_step (p, APod c t) (SandboxPhaseSuspending, v)
  | life_create p : life_step (p, NoPod) (startingPhase p, APod PodNotReady false)
  | life_recreate p t v : leaving v → life_step (p, APod PodDead t) (SandboxPhaseProvisioning, v)
  | life_run p t : life_step (p, APod PodIsReady t) (SandboxPhaseRunning, APod PodIsReady t)
  | life_start p t : life_step (p, APod PodNotReady t) (waitingPhase p, APod PodNotReady t).

(** What happens to a pod by itself: it becomes ready or not, ends for good, is
    marked for deletion and disappears. It does not come into being. *)
Inductive pod_step : PodView → PodView → Prop :=
  | pod_ready t : pod_step (APod PodNotReady t) (APod PodIsReady t)
  | pod_unready t : pod_step (APod PodIsReady t) (APod PodNotReady t)
  | pod_ends c t : pod_step (APod c t) (APod PodDead t)
  | pod_marked c t : pod_step (APod c t) (APod c true)
  | pod_gone c t : pod_step (APod c t) NoPod.

(** What a failed pass may have done to the pod: nothing, unless it was creating
    one or removing one that had ended; the answer to that call is not known to
    be the truth. *)
Definition uncertain (v : PodView) : Prop := v = NoPod ∨ ∃ t, v = APod PodDead t.

(** A pass with the phase it computes, which for a failed one is the old phase,
    or Suspending if it failed while removing the pod. *)
Inductive pass_step : Life → Life → Prop :=
  | pass_succeeds a b : life_step a b → pass_step a b
  | pass_fails p v v' : v' = v ∨ uncertain v → pass_step (p, v) (p, v')
  | pass_fails_suspending p c t v' : pass_step (p, APod c t) (SandboxPhaseSuspending, v').

(** A pass whose status is stored; a pass whose status is not; the cluster. *)
Inductive system_step : Life → Life → Prop :=
  | recorded a b : pass_step a b → system_step a b
  | unrecorded p v q v' : pass_step (p, v) (q, v') → system_step (p, v) (p, v')
  | by_cluster p v v' : pod_step v v' → system_step (p, v) (p, v').

(** A new sandbox: no phase, no pod. *)
Definition newborn : Life := (SandboxPhaseUnset, NoPod).

(** ** The edges *)

(** The phases a reconciliation writes; Terminating is left to the finalization. *)
Definition used (p : SandboxPhase) : bool :=
  match p with SandboxPhaseFailed | SandboxPhaseTerminating => false | _ => true end.

(** The changes of the stored phase: any phase may give way to Pending,
    Provisioning, Running, Suspending and Suspended, but only a sandbox that is
    suspended or suspending becomes Resuming, and nothing goes back to having no
    phase or on to Failed or Terminating. *)
Definition edge (p q : SandboxPhase) : bool :=
  bool_decide (p = q) ||
  match q with
  | SandboxPhasePending | SandboxPhaseProvisioning | SandboxPhaseRunning
  | SandboxPhaseSuspending | SandboxPhaseSuspended => true
  | SandboxPhaseResuming => bool_decide (p = SandboxPhaseSuspended) || bool_decide (p = SandboxPhaseSuspending)
  | _ => false
  end.

Lemma edge_refl p : edge p p = true.
Proof. unfold edge. by rewrite bool_decide_eq_true_2. Qed.

Lemma edge_starting p : edge p (startingPhase p) = true.
Proof. by destruct p. Qed.

Lemma edge_waiting p : edge p (waitingPhase p) = true.
Proof. by destruct p. Qed.

(** The code decides it by [resumingPhase]. *)
Lemma startingPhase_code p :
  (if resumingPhase p then SandboxPhaseResuming else SandboxPhaseProvisioning) = startingPhase p.
Proof. by destruct p. Qed.

Lemma edge_to p q : q ∈ [SandboxPhasePending; SandboxPhaseProvisioning; SandboxPhaseRunning;
  SandboxPhaseSuspending; SandboxPhaseSuspended] → edge p q = true.
Proof.
  rewrite !elem_of_cons, elem_of_nil. unfold edge.
  intros [->|[->|[->|[->|[->|[]]]]]]; apply orb_true_r.
Qed.

Lemma pass_edge a b : pass_step a b → edge a.1 b.1 = true.
Proof.
  destruct 1 as [a b Hab| |]; [destruct Hab|..]; simpl;
    first [apply edge_starting | apply edge_waiting | apply edge_refl | apply edge_to; set_solver].
Qed.

(** *** Every history *)

(** The pod of a sandbox in a used phase may be anything, whatever the phase:
    it can be lost at any time, and be created by a pass that was not recorded. *)
Lemma reach_any_pod p v0 : rtc system_step newborn (p, v0) → ∀ v, rtc system_step newborn (p, v).
Proof.
  intros Hr. assert (rtc system_step newborn (p, NoPod)) as Hnone.
  { destruct v0 as [|c t]; [done|]. eapply rtc_r; [exact Hr|]. apply by_cluster, pod_gone. }
  assert (rtc system_step newborn (p, APod PodNotReady false)) as Hnew.
  { eapply rtc_r; [exact Hnone|]. eapply unrecorded, pass_succeeds, life_create. }
  assert (∀ c, rtc system_step newborn (p, APod c false)) as Hc.
  { intros [| |]; [| |done]; (eapply rtc_r; [exact Hnew|]); apply by_cluster; constructor. }
  intros [|c [|]]; [done| |done]. eapply rtc_r; [apply (Hc c)|]. apply by_cluster, pod_marked.
Qed.

(** The first pass over a new sandbox can compute any phase but Resuming. *)
Lemma reach_all p v : used p = true → rtc system_step newborn (p, v).
Proof.
  intros Hu. assert (∀ v, rtc system_step newborn (SandboxPhaseUnset, v)) as Hnew.
  { apply (reach_any_pod _ NoPod), rtc_refl. }
  assert (∀ q w w', life_step (SandboxPhaseUnset, w) (q, w') → rtc system_step newborn (q, v)) as Hq.
  { intros q w w' Hs. apply (reach_any_pod q w'). eapply rtc_r; [apply (Hnew w)|]. by apply recorded, pass_succeeds. }
  destruct p; try discriminate Hu.
  - apply Hnew.
  - apply (Hq _ NoPod NoPod), life_wait.
  - exact (Hq _ _ _ (life_create SandboxPhaseUnset)).
  - apply (Hq _ _ _ (life_run _ false)).
  - apply (Hq _ _ _ (life_suspend _ PodNotReady false NoPod I)).
  - apply (Hq _ _ _ (life_suspended _)).
  - apply (reach_any_pod _ (APod PodNotReady false)).
    eapply rtc_r; [|exact (recorded _ _ (pass_succeeds _ _ (life_create SandboxPhaseSuspended)))].
    eapply rtc_r; [apply (Hnew NoPod)|]. apply recorded, pass_succeeds, life_suspended.
Qed.

(** In every history of a new sandbox, failed passes and lost writes included,
    a pass stores a different phase along the edges only, and along each of
    them from each phase in some history. In particular none writes the phases
    Failed or Terminating (the latter is written by the finalization only), and
    only a suspended or suspending sandbox is ever seen to resume. *)
Theorem phase_changes_exact p q :
  used p = true → p ≠ q →
  edge p q = true ↔
  ∃ v v', rtc system_step newborn (p, v) ∧ pass_step (p, v) (q, v').
Proof.
  intros Hu Hpq. split; [|intros (v & v' & _ & Hs); exact (pass_edge _ _ Hs)].
  unfold edge. rewrite bool_decide_eq_false_2 by done. simpl orb. intros He.
  assert (∀ v v', life_step (p, v) (q, v') →
    ∃ v v', rtc system_step newborn (p, v) ∧ pass_step (p, v) (q, v')) as Hgo.
  { intros v v' Hs. exists v, v'. split; [by apply reach_all|by apply pass_succeeds]. }
  destruct q; try discriminate He.
  - exact (Hgo _ _ (life_wait p NoPod)).
  - exact (Hgo _ _ (life_recreate p true NoPod I)).
  - exact (Hgo _ _ (life_run p true)).
  - exact (Hgo _ _ (life_suspend p PodIsReady false NoPod I)).
  - exact (Hgo _ _ (life_suspended p)).
  - destruct p; try discriminate He; eapply Hgo; exact (life_create _).
Qed.

(** ** Undisturbed histories

    When every pass succeeds and every status is stored, the phase says more:
    a suspended sandbox, for instance, has no pod. *)
Inductive smooth_step : Life → Life → Prop :=
  | smooth_pass a b : life_step a b → smooth_step a b
  | smooth_cluster p v v' : pod_step v v' → smooth_step (p, v) (p, v').

Lemma smooth_system a b : smooth_step a b → system_step a b.
Proof. destruct 1; [by apply recorded, pass_succeeds|by apply by_cluster]. Qed.

(** Suspended sandboxes, and those that were never looked at, have no pod. *)
Definition at_rest (l : Life) : Prop :=
  l.1 = SandboxPhaseSuspended ∨ l.1 = SandboxPhaseUnset → l.2 = NoPod.

Lemma startingPhase_cases p :
  startingPhase p = SandboxPhaseResuming ∨ startingPhase p = SandboxPhaseProvisioning.
Proof. destruct p; auto. Qed.

Lemma waitingPhase_cases p :
  waitingPhase p = SandboxPhaseResuming ∨ waitingPhase p = SandboxPhaseProvisioning.
Proof. unfold waitingPhase. case_bool_decide; auto. Qed.

Lemma smooth_at_rest_step a b : at_rest a → smooth_step a b → at_rest b.
Proof.
  intros Ha Hab. destruct Hab as [a b Hab|p v v' Hv].
  - destruct Hab as [| | |p| | |p t]; intros Hb; simpl in *; try done; try (by destruct Hb).
    + exfalso. destruct (startingPhase_cases p), Hb; congruence.
    + exfalso. destruct (waitingPhase_cases p), Hb; congruence.
  - intros Hb. specialize (Ha Hb). simpl in Ha. subst v. inversion Hv.
Qed.

Lemma smooth_at_rest_reachable l : rtc smooth_step newborn l → at_rest l.
Proof.
  intros Hr. apply (rtc_ind_r at_rest newborn) in Hr; [done|done|].
  intros a b _ Hab Ha. by eapply smooth_at_rest_step.
Qed.

(** The phase changes a pass can make. The first list is the documented
    diagram, the second what the code does besides. *)
Definition documented : list (SandboxPhase * SandboxPhase) :=
  [(SandboxPhaseUnset, SandboxPhasePending); (SandboxPhasePending, SandboxPhaseProvisioning);
   (SandboxPhaseProvisioning, SandboxPhaseRunning); (SandboxPhaseRunning, SandboxPhaseSuspending);
   (SandboxPhaseSuspending, SandboxPhaseSuspended); (SandboxPhaseSuspended, SandboxPhaseResuming);
   (SandboxPhaseResuming, SandboxPhaseRunning)].

Definition undocumented : list (SandboxPhase * SandboxPhase) :=
  [ (* a sandbox that is ready to start at once, or stopped from the beginning *)
   (SandboxPhaseUnset, SandboxPhaseProvisioning); (SandboxPhaseUnset, SandboxPhaseSuspended);
   (SandboxPhasePending, SandboxPhaseSuspending); (SandboxPhasePending, SandboxPhaseSuspended);
   (* a prepared sandbox loses its template, claim or profile, and gets it back *)
   (SandboxPhaseProvisioning, SandboxPhasePending); (SandboxPhaseRunning, SandboxPhasePending);
   (SandboxPhaseSuspending, SandboxPhasePending); (SandboxPhaseSuspended, SandboxPhasePending);
   (SandboxPhaseResuming, SandboxPhasePending); (SandboxPhasePending, SandboxPhaseRunning);
   (* the pod is lost, ends or stops being ready *)
   (SandboxPhaseRunning, SandboxPhaseProvisioning); (SandboxPhaseResuming, SandboxPhaseProvisioning);
   (SandboxPhaseSuspending, SandboxPhaseProvisioning);
   (* suspension before the pod is ready, or without a pod; a change of mind *)
   (SandboxPhaseProvisioning, SandboxPhaseSuspending); (SandboxPhaseResuming, SandboxPhaseSuspending);
   (SandboxPhaseProvisioning, SandboxPhaseSuspended); (SandboxPhaseResuming, SandboxPhaseSuspended);
   (SandboxPhaseRunning, SandboxPhaseSuspended);
   (SandboxPhaseSuspending, SandboxPhaseResuming); (SandboxPhaseSuspending, SandboxPhaseRunning)].

Definition smooth_edge (p q : SandboxPhase) : bool :=
  bool_decide (p = q) || existsb (λ e, bool_decide (e = (p, q))) (documented ++ undocumented).

Lemma smooth_used_reachable l : rtc smooth_step newborn l → used l.1 = true.
Proof.
  intros Hr. apply (rtc_ind_r (λ l, used l.1 = true) newborn) in Hr; [done|done|].
  intros a b _ Hab Ha. destruct Hab as [a b Hab|p v v' _]; [|done].
  destruct Hab as [| | |p| | |p t]; try done; simpl.
  - by destruct (startingPhase_cases p) as [-> | ->].
  - by destruct (waitingPhase_cases p) as [-> | ->].
Qed.

(** Along every history, a pass changes the phase along these edges only. *)
Lemma smooth_life_edges a b : rtc smooth_step newborn a → life_step a b → smooth_edge a.1 b.1 = true.
Proof.
  intros Hr Hab. pose proof (smooth_at_rest_reachable _ Hr) as Hrest.
  pose proof (smooth_used_reachable _ Hr) as Hu. destruct a as [p v], b as [q v']. unfold at_rest in Hrest.
  simpl in *. inversion Hab; subst; destruct p; try done; try reflexivity;
    (discriminate Hrest; auto).
Qed.

(** Every one of them happens: the lists are exact. *)
Lemma smooth_reach_pods p c : rtc smooth_step newborn (p, APod c false) →
  c ≠ PodDead → ∀ v, rtc smooth_step newborn (p, v).
Proof.
  intros Hr Hc. assert (∀ d t, rtc smooth_step newborn (p, APod d t)) as Hall.
  { assert (∀ d, rtc smooth_step newborn (p, APod d false)) as Hd.
    { intros [| |].
      - eapply rtc_r; [exact Hr|]. apply smooth_cluster, pod_ends.
      - destruct c; [done|exact Hr|]. eapply rtc_r; [exact Hr|]. apply smooth_cluster, pod_ready.
      - destruct c; [done| |exact Hr]. eapply rtc_r; [exact Hr|]. apply smooth_cluster, pod_unready. }
    intros d [|]; [|apply Hd]. eapply rtc_r; [apply (Hd d)|]. apply smooth_cluster, pod_marked. }
  intros [|d t]; [|apply Hall]. eapply rtc_r; [apply (Hall PodIsReady false)|]. apply smooth_cluster, pod_gone.
Qed.

Lemma smooth_reach_active p v :
  p ∈ [SandboxPhaseProvisioning; SandboxPhasePending; SandboxPhaseRunning; SandboxPhaseResuming] →
  rtc smooth_step newborn (p, v).
Proof.
  assert (∀ v, rtc smooth_step newborn (SandboxPhaseProvisioning, v)) as Hprov.
  { apply (smooth_reach_pods _ PodNotReady); [|done].
    eapply rtc_r; [apply rtc_refl|]. exact (smooth_pass _ _ (life_create SandboxPhaseUnset)). }
  assert (rtc smooth_step newborn (SandboxPhaseSuspended, NoPod)) as Hsus.
  { eapply rtc_r; [apply rtc_refl|]. apply smooth_pass, life_suspended. }
  rewrite !elem_of_cons, elem_of_nil. intros [->|[->|[->|[->|[]]]]]; [done|..]; revert v.
  - intros v. eapply rtc_r; [apply (Hprov v)|]. apply smooth_pass, life_wait.
  - apply (smooth_reach_pods _ PodIsReady); [|done].
    eapply rtc_r; [apply (Hprov (APod PodIsReady false))|]. apply smooth_pass, life_run.
  - apply (smooth_reach_pods _ PodNotReady); [|done].
    eapply rtc_r; [exact Hsus|]. exact (smooth_pass _ _ (life_create SandboxPhaseSuspended)).
Qed.

Lemma smooth_reach_suspending v : leaving v → rtc smooth_step newborn (SandboxPhaseSuspending, v).
Proof.
  intros Hv. eapply rtc_r; [apply (smooth_reach_active SandboxPhaseRunning (APod PodIsReady false)); set_solver|].
  by apply smooth_pass, life_suspend.
Qed.

Lemma smooth_reach_suspended : rtc smooth_step newborn (SandboxPhaseSuspended, NoPod).
Proof. eapply rtc_r; [apply rtc_refl|]. apply smooth_pass, life_suspended. Qed.

(** The pass that takes the phase [p] to [q], if there is one. *)
Ltac pass :=
  first
    [ exact (life_create _) | exact (life_wait _ NoPod) | exact (life_suspended _)
    | exact (life_suspend _ PodIsReady false NoPod I) | exact (life_recreate _ true NoPod I)
    | apply (life_run _ true) ].
Ltac listed := repeat first [apply list_elem_of_here | apply list_elem_of_further].

(** In every undisturbed history that starts with a new sandbox, the controller
    changes the phase along the edges of the two lists, and along each of them in
    some history. In particular no pass takes a suspended sandbox to Running at
    once. *)
Theorem undisturbed_changes_exact p q :
  p ≠ q →
  smooth_edge p q = true ↔
  ∃ v v', rtc smooth_step newborn (p, v) ∧ life_step (p, v) (q, v').
Proof.
  intros Hpq. split; [|intros (v & v' & Hr & Hs); exact (smooth_life_edges _ _ Hr Hs)].
  unfold smooth_edge. rewrite bool_decide_eq_false_2 by done. simpl orb. intros He.
  assert (∀ v v', p ∈ [SandboxPhaseProvisioning; SandboxPhasePending; SandboxPhaseRunning; SandboxPhaseResuming] →
    life_step (p, v) (q, v') →
    ∃ v v', rtc smooth_step newborn (p, v) ∧ life_step (p, v) (q, v')) as Hgo.
  { intros v v' Hp Hs. exists v, v'. split; [by apply smooth_reach_active|done]. }
  destruct p; destruct q; try discriminate He; clear He Hpq;
    first
      [ eapply Hgo; [solve [listed]|pass]
      | eexists _, _; split; [apply rtc_refl|pass]
      | eexists _, _; split; [apply smooth_reach_suspended|pass]
      | eexists _, _; split; [apply (smooth_reach_suspending NoPod); exact I|pass]
      | eexists _, _; split; [apply (smooth_reach_suspending (APod PodIsReady true)); reflexivity|pass]
      | eexists _, _; split; [apply (smooth_reach_suspending (APod PodDead true)); reflexivity|pass] ].
Qed.

(** ** The computed phase, whatever the calls answer

    [tri P m Q E]: from a status whose phase satisfies [P], and whatever is
    answered, [m] ends with a result and a phase in [Q], or with an error and a
    phase in [E]. *)
Section phases.
Context `{AM : ApiMachinery} `{SSH : SSHLib}.

Definition tri {A} (P : SandboxPhase → Prop) (m : SM A) (Q : A → SandboxPhase → Prop) (E : SandboxPhase → Prop) : Prop :=
  ∀ s, P (st_Phase s) →
    ends (λ sr, match sr.2 with Ok a => Q a (st_Phase sr.1) | Err _ => E (st_Phase sr.1) end) (m s).

Lemma ends_mono {A} (Q R : A → Prop) (p : prog A) : ends Q p → (∀ a, Q a → R a) → ends R p.
Proof. induction p as [a|X e k IH]; simpl; auto. Qed.

Lemma tri_bind {A B} P (m : SM A) (f : A → SM B) Q R (E : SandboxPhase → Prop) :
  tri P m Q E → (∀ a, tri (Q a) (f a) R E) → tri P (sbind m f) R E.
Proof. intros Hm Hf s Hs. eapply ends_bind; [by apply Hm|]. intros [s' [a|e]] Hs'; [by apply Hf|done]. Qed.

Lemma tri_weaken {A} (P P' : SandboxPhase → Prop) (m : SM A) (Q Q' : A → SandboxPhase → Prop) (E E' : SandboxPhase → Prop) :
  tri P m Q E → (∀ p, P' p → P p) → (∀ a p, Q a p → Q' a p) → (∀ p, E p → E' p) → tri P' m Q' E'.
Proof. intros Hm HP HQ HE s Hs. eapply ends_mono; [apply Hm; auto|]. intros [s' [a|e]]; simpl; auto. Qed.

(** A method that keeps a property of the phase. *)
Definition holds {A} (P : SandboxPhase → Prop) (m : SM A) : Prop := tri P m (λ _, P) P.

Lemma holds_bind {A B} P (m : SM A) (f : A → SM B) : holds P m → (∀ a, holds P (f a)) → holds P (sbind m f).
Proof. apply tri_bind. Qed.

Lemma holds_sret {A} P (a : A) : holds P (sret a).
Proof. by intros s Hs. Qed.

Lemma holds_sthrow {A} P e : holds P (sthrow (A := A) e).
Proof. by intros s Hs. Qed.

Lemma holds_lift {A} P (p : prog (res A)) : holds P (lift p).
Proof. intros s Hs. eapply ends_bind; [apply ends_true|]. by intros [a|e] _. Qed.

Lemma holds_attempt {A} P (p : prog A) : holds P (attempt p).
Proof. intros s Hs. eapply ends_bind; [apply ends_true|]. by intros a _. Qed.

Lemma holds_get P : holds P getStatus.
Proof. by intros s Hs. Qed.

Lemma holds_modify P f : (∀ s, P (st_Phase s) → P (st_Phase (f s))) → holds P (modify f).
Proof. intros Hf s Hs. by apply Hf. Qed.

Ltac steady :=
  repeat first
    [ done | apply holds_bind; [|intros ?] | apply holds_sret | apply holds_sthrow | apply holds_lift | apply holds_attempt
    | apply holds_get | apply holds_modify; intros ? ?; solve [done | apply edge_to; set_solver] | case_match ].

(** From the phase [p], every end is along an edge. *)
Definition edgy (p q : SandboxPhase) : Prop := edge p q = true.
Definition moves {A} (p : SandboxPhase) (m : SM A) : Prop := tri (eq p) m (λ _, edgy p) (edgy p).

Lemma holds_moves {A} p (m : SM A) : holds (edgy p) m → moves p m.
Proof. intros Hm. eapply tri_weaken; [exact Hm|..]; [|done..]. intros q <-. apply edge_refl. Qed.

(** First steps that keep the phase, or read it; then a step that moves. *)
Lemma tri_after {A B} p (m : SM A) (f : A → SM B) Q :
  holds (eq p) m → (∀ a, tri (eq p) (f a) Q (edgy p)) → tri (eq p) (sbind m f) Q (edgy p).
Proof.
  intros Hm Hf. eapply (tri_bind _ _ _ (λ _, eq p)); [|exact Hf]. eapply tri_weaken; [exact Hm|done|done|].
  intros q <-. apply edge_refl.
Qed.

Lemma moves_then {A B} p (m : SM A) (f : A → SM B) : moves p m → (∀ a, holds (edgy p) (f a)) → moves p (sbind m f).
Proof. apply tri_bind. Qed.

Lemma moves_get {B} p (f : SandboxStatus → SM B) : (∀ s, st_Phase s = p → moves p (f s)) → moves p (sbind getStatus f).
Proof. intros Hf s Hs. exact (Hf s (eq_sym Hs) s Hs). Qed.

Lemma moves_provision r sb tpl h sa p : moves p (provision r sb tpl h sa).
Proof.
  apply moves_get. intros s Hs. apply tri_after; [apply holds_lift|]. intros _. rewrite Hs, startingPhase_code.
  repeat (apply tri_after; [by apply holds_modify|]; intros _). apply moves_then; [|intros _; steady].
  intros s' _. apply edge_starting.
Qed.

Lemma holds_ensurePodGone P pod : holds P (ensurePodGone pod).
Proof. unfold ensurePodGone. steady. Qed.

Lemma moves_reflectPending sb pod p : moves p (reflectPending sb pod).
Proof.
  apply moves_get. intros s Hs. apply moves_then; [|intros _; steady].
  case_bool_decide; cbn [negb]; apply holds_moves; steady.
Qed.

Lemma moves_run_sandbox r sb tpl h sa p : moves p (run_sandbox r sb tpl h sa).
Proof.
  apply tri_after; [apply holds_attempt|]. intros [pod|e].
  - apply tri_after; [by apply holds_modify|]. intros _. destruct (deadPod pod).
    + apply holds_moves. pose proof (λ P, holds_ensurePodGone P pod). unfold recreate. steady.
    + apply moves_then; [|intros _; unfold reflectDrift; steady].
      destruct (podReady pod); [|apply moves_reflectPending]. apply holds_moves. unfold reflectReady, startIdleClock. steady.
  - destruct (IsNotFound e); [apply moves_provision|]. apply holds_moves. steady.
Qed.

Lemma moves_suspend sb p : moves p (suspend sb).
Proof. apply holds_moves. unfold suspend. pose proof (holds_ensurePodGone (edgy p)). steady. Qed.

Lemma moves_desiredStateMachine r sb tpl sa p : moves p (desiredStateMachine r sb tpl sa).
Proof.
  unfold desiredStateMachine. case_bool_decide; [apply moves_suspend|].
  apply tri_after; [apply holds_lift|]. intros active. apply tri_after; [by apply holds_modify|]. intros _.
  apply tri_after; [apply holds_get|]. intros s.
  apply tri_after; [destruct (active =? 0); [apply holds_attempt|apply holds_sret]|].
  intros [|]; [apply moves_suspend|]. apply moves_then; [apply moves_run_sandbox|]. intros res. unfold idleRequeue. steady.
Qed.

(** The stages before the machine keep the phase or make it Pending, and keep
    it when the machine is entered. *)
Lemma tri_reconcileHome sb p :
  tri (eq p) (reconcileHome sb) (λ a q, match a with Some _ => edgy p q | None => p = q end) (edgy p).
Proof.
  assert (∀ reason msg r, tri (eq p) (homeBlocked sb reason msg r)
    (λ a q, match a with Some _ => edgy p q | None => p = q end) (edgy p)) as Hblocked.
  { intros reason msg r s Hs. apply edge_to. set_solver. }
  assert (∀ claim, tri (eq p) (homeReady sb claim)
    (λ a q, match a with Some _ => edgy p q | None => p = q end) (edgy p)) as Hready.
  { by intros claim s Hs. }
  assert (∀ e, tri (eq p) (sthrow e)
    (λ (a : option Result) q, match a with Some _ => edgy p q | None => p = q end) (edgy p)) as Hthrow.
  { intros e s ->. apply edge_refl. }
  unfold reconcileHome. destruct (negb _).
  - apply tri_after; [apply holds_lift|]. intros conflict. destruct (negb _); [apply Hblocked|].
    apply tri_after; [apply holds_attempt|]. intros [pvc|e]; [apply Hready|]. destruct (IsNotFound e); auto.
  - apply tri_after; [apply holds_lift|]. intros tpl. apply tri_after; [apply holds_attempt|].
    intros [pvc|e]; [apply Hready|]. destruct (IsNotFound e); [|apply Hthrow].
    apply tri_after; [apply holds_lift|]. intros _. apply Hready.
Qed.

Lemma holds_reconcileRBAC P sb : holds P (reconcileRBAC sb).
Proof. unfold reconcileRBAC, refuseRBAC. steady. Qed.

Lemma tri_prepare r sb p :
  tri (eq p) (prepare r sb) (λ a q, match a with inl _ => edgy p q | inr _ => p = q end) (edgy p).
Proof.
  assert (∀ reason msg res, tri (eq p) (pendingReady sb reason msg (inl res))
    (λ (a : Result + SandboxTemplate * string) q, match a with inl _ => edgy p q | inr _ => p = q end) (edgy p)) as Hwait.
  { intros reason msg res s Hs. apply edge_to. set_solver. }
  apply tri_after; [apply holds_attempt|]. intros [tpl|e].
  2:{ destruct (IsNotFound e); [apply Hwait|]. intros s ->. apply edge_refl. }
  eapply tri_bind; [apply tri_reconcileHome|]. intros [res|]; [by intros s Hs|].
  apply tri_after; [apply holds_lift|]. intros _. apply tri_after; [apply holds_lift|]. intros _.
  apply tri_after; [apply holds_reconcileRBAC|]. intros rbac. destruct (negb _); [apply Hwait|]. by intros s Hs.
Qed.

(** Whatever its calls answer, and whether it fails or not, a reconciliation
    computes a phase along an edge. No promise of the API server is needed. *)
Lemma phase_along_edge {W} (env : Env W) r sb s w :
  edge (st_Phase s) (st_Phase (run env (reconcileSandbox r sb s) w).1.1) = true.
Proof.
  assert (moves (st_Phase s) (reconcileSandbox r sb)) as Hm.
  { eapply tri_bind; [apply tri_prepare|]. intros [res|[tpl sa]]; [by intros s' Hs|apply moves_desiredStateMachine]. }
  pose proof (ends_run env _ _ w (Hm s eq_refl)) as Hr.
  by destruct (run env (reconcileSandbox r sb s) w) as [[s' [a|e]] w'].
Qed.

End phases.

Section refinement.
Context `{AM : ApiMachinery} `{SSH : SSHLib} `{!ApiMachineryLaws AM} `{!SSHLaws SSH}.
Context {W : Type} `{World W} (env : Env W) `{!Conforms env}.

(** ** What the machine sees of the cluster *)

Definition podView (pod : Pod) : PodView :=
  APod (if deadPod pod then PodDead else if podReady pod then PodIsReady else PodNotReady)
       (negb (ptr_IsZero (DeletionTimestamp pod))).

Definition viewPod (sb : Sandbox) (w : W) : PodView :=
  match view KPod w (podKey sb) with Some pod => podView pod | None => NoPod end.

Definition life_of (sb : Sandbox) (s : SandboxStatus) (w : W) : Life := (st_Phase s, viewPod sb w).

Lemma viewPod_view (sb : Sandbox) w w' :
  view KPod w' (podKey sb) = view KPod w (podKey sb) → viewPod sb w' = viewPod sb w.
Proof. unfold viewPod. by intros ->. Qed.

Lemma not_live_leaving (sb : Sandbox) w : not_live KPod w (podKey sb) → leaving (viewPod sb w).
Proof.
  unfold viewPod. destruct (view KPod w (podKey sb)) as [pod|] eqn:Hv; [|done].
  intros Hn. specialize (Hn _ Hv). simpl in Hn. simpl. by rewrite Hn.
Qed.

(** A pod that was just created has not started. *)
Lemma created_podView (sb : Sandbox) o pod :
  created_as KPod (owned_by KPod sb o) pod → podView pod = APod PodNotReady false.
Proof. by intros (uid & gen & rv & t & ->). Qed.

Lemma suspend_life (sb : Sandbox) s w s' res w' p :
  suspend_outcome sb s w (s', Ok res) w' → life_step (p, viewPod sb w) (life_of sb s' w').
Proof.
  intros (_ & _ & _ & _ & Hst & Hgone & Hiff & Hnone). simpl in *. unfold life_of.
  destruct (view KPod w (podKey sb)) as [pod|] eqn:Hv.
  - assert (viewPod sb w = podView pod) as -> by (unfold viewPod; by rewrite Hv).
    destruct Hst as [[Hs _]| ->]; [by apply Hiff in Hs|]. apply life_suspend.
    apply not_live_leaving. exact Hgone.
  - assert (viewPod sb w = NoPod) as -> by (unfold viewPod; by rewrite Hv).
    rewrite (proj2 Hiff eq_refl). unfold viewPod. rewrite (Hnone eq_refl). apply life_suspended.
Qed.

Lemma run_life r (sb : Sandbox) tpl h sa s w s' res w' :
  run_outcome r sb tpl h sa s w (s', Ok res) w' → life_step (life_of sb s w) (life_of sb s' w').
Proof.
  intros (_ & _ & Hr). simpl in Hr. unfold run_result in Hr. unfold life_of, viewPod.
  destruct (view KPod w (podKey sb)) as [pod|] eqn:Hv.
  - destruct (deadPod pod) eqn:Hd.
    + destruct Hr as (Hn & -> & _). unfold podView. rewrite Hd. apply life_recreate.
      by apply (not_live_leaving sb).
    + destruct Hr as (Hun & _ & _ & Hr). rewrite (proj1 Hun), Hv. unfold podView. rewrite Hd.
      destruct (podReady pod); destruct Hr as (-> & _); constructor.
  - destruct Hr as ((pod & Hpod & Hc) & _ & _ & -> & _). rewrite Hpod, (created_podView _ _ _ Hc), startingPhase_code.
    apply life_create.
Qed.

(** A pass that succeeds. *)
Lemma reconcile_life r (sb : Sandbox) s w s' res w' :
  quiet sb w → r_Now r = None → timeouts_bounded sb w →
  run env (reconcileSandbox r sb s) w = ((s', Ok res), w') →
  life_step (life_of sb s w) (life_of sb s' w').
Proof using Conforms0 ApiMachineryLaws0 SSHLaws0.
  intros Hq Hp Ht Hrun.
  destruct (run_wp env _ _ _ _ _ Hrun (wp_reconcileSandbox r sb s w Hq Hp Ht)) as [_ Ho].
  destruct (decide (st_Phase s' = SandboxPhasePending)) as [Hph|Hph].
  - destruct Ho as [(Hv & _)|(tpl & sa & s1 & w1 & _ & _ & _ & _ & _ & _ & Hm)].
    + unfold life_of. rewrite Hph, (viewPod_view _ _ _ Hv). apply life_wait.
    + exfalso. destruct Hm as [[? _]|(s2 & w2 & _ & _ & _ & _ & Hm)]; [done|].
      destruct Hm as [[_ Hs]|[_ (rr & w3 & Hr & _ & Hrr)]].
      * destruct (suspend_phase _ _ _ _ _ _ Hs); congruence.
      * destruct rr as [res0|e]; [|done].
        destruct (run_phase _ _ _ _ _ _ _ _ _ _ Hr) as [?|[?|[? _]]]; simpl in *; congruence.
  - destruct (reconcile_decided _ _ _ _ _ _ _ Ho Hph)
      as (tpl & sa & t & s1 & w1 & Hf & _ & _ & _ & _ & Hp1 & _ & Hm).
    assert (life_of sb s w = life_of sb s1 w1) as ->.
    { unfold life_of. rewrite Hp1. f_equal. symmetry. apply viewPod_view.
      apply (frame_view KPod _ _ _ _ Hf). apply child_not_pod. }
    destruct Hm as [[_ Hs]|[_ (res0 & w2 & Hr & Hun & _)]].
    + by eapply suspend_life.
    + unfold life_of at 2. rewrite (viewPod_view sb w2 w') by apply Hun.
      exact (run_life _ _ _ _ _ _ _ _ _ _ Hr).
Qed.


(** A pass that fails. *)
Lemma reconcile_fails r (sb : Sandbox) s w s' e w' :
  quiet sb w → r_Now r = None → timeouts_bounded sb w →
  run env (reconcileSandbox r sb s) w = ((s', Err e), w') →
  pass_step (life_of sb s w) (life_of sb s' w').
Proof using Conforms0 ApiMachineryLaws0 SSHLaws0.
  intros Hq Hp Ht Hrun.
  destruct (run_wp env _ _ _ _ _ Hrun (wp_reconcileSandbox r sb s w Hq Hp Ht)) as [_ Ho].
  destruct Ho as [(Hv & _ & Hph)|(tpl & sa & s1 & w1 & Hf & _ & _ & _ & Hp1 & _ & Hm)].
  { unfold life_of. rewrite (viewPod_view _ _ _ Hv). simpl in Hph.
    destruct Hph as [-> |[-> _]]; [apply pass_succeeds, life_wait|apply pass_fails; by left]. }
  assert (life_of sb s w = life_of sb s1 w1) as ->.
  { unfold life_of. rewrite Hp1. f_equal. symmetry. apply viewPod_view.
    apply (frame_view KPod _ _ _ _ Hf). apply child_not_pod. }
  destruct Hm as [(_ & Hun & Hs)|(s2 & w2 & Hun & _ & _ & Hcnt & Hm)].
  { simpl in Hs. subst s'. unfold life_of. rewrite (viewPod_view sb w1 w') by apply Hun. apply pass_fails. by left. }
  assert (life_of sb s1 w1 = life_of sb s2 w2) as ->.
  { unfold life_of. rewrite Hcnt, (viewPod_view sb w1 w2) by apply Hun. done. }
  destruct Hm as [[_ Hs]|[_ (rr & w3 & Hr & Hun3 & Hrr)]].
  - destruct Hs as (_ & _ & _ & [[Hph Hun3]|[Hph Hpod]]); simpl in *; unfold life_of; rewrite Hph.
    + rewrite (viewPod_view sb w2 w') by apply Hun3. apply pass_fails. by left.
    + unfold viewPod at 1. destruct Hpod as [pod ->]. apply pass_fails_suspending.
  - unfold life_of at 2. rewrite (viewPod_view sb w3 w') by apply Hun3.
    destruct rr as [res0|e']; [by destruct Hrr as (res & Hx & _)|].
    destruct Hr as (_ & _ & (Hph & _ & Hkeep)). simpl in *. rewrite Hph. apply pass_fails.
    unfold viewPod, uncertain. destruct (view KPod w2 (podKey sb)) as [pod|] eqn:Hv; [|by right; left].
    destruct (deadPod pod) eqn:Hd; [|left; by rewrite (Hkeep pod eq_refl Hd)].
    right; right. unfold podView. rewrite Hd. by eexists.
Qed.

(** A pass, whatever its outcome. *)
Lemma reconcile_pass r (sb : Sandbox) s w s' rr w' :
  quiet sb w → r_Now r = None → timeouts_bounded sb w →
  run env (reconcileSandbox r sb s) w = ((s', rr), w') →
  pass_step (life_of sb s w) (life_of sb s' w').
Proof using Conforms0 ApiMachineryLaws0 SSHLaws0.
  intros Hq Hp Ht Hrun. destruct rr as [res|e]; [|by eapply reconcile_fails].
  by eapply pass_succeeds, reconcile_life.
Qed.

(** ** A pass with its status write *)

(** A status write that is answered with an error either did not happen or did:
    the API server stores an object in one transaction. *)
Definition status_atomic : Prop := ∀ (o : Sandbox) w cur e w',
  env _ (EStatusUpdate KSandbox o) w = (Err e, w') → view KSandbox w (okey KSandbox o) = Some cur →
  ∃ o', view KSandbox w' (okey KSandbox o) = Some o' ∧ (sb_Status o' = sb_Status cur ∨ sb_Status o' = sb_Status o).

(** What is stored after [patchStatus]: the new status if it reports success,
    and otherwise the new one or the old one. *)
Lemma patched_status (sb : Sandbox) s w r w' :
  status_atomic → view KSandbox w (okey KSandbox sb) = Some sb → run env (patchStatus sb s) w = (r, w') →
  same_but KSandbox (okey KSandbox sb) w w' ∧
  ∃ o, view KSandbox w' (okey KSandbox sb) = Some o ∧
       (sb_Status o = s ∨ (is_ok r = false ∧ sb_Status o = sb_Status sb)).
Proof using Conforms0 ApiMachineryLaws0.
  intros Hat Hv Hrun. pose proof (run_wp env _ _ _ _ _ Hrun (wp_patchStatus sb s w Hv)) as [Hsb Hr]. split; [done|].
  destruct r as [[]|e]; [destruct Hr as (o & Ho & Hs & _); exists o; auto|].
  unfold patchStatus in Hrun. destruct (SemanticDeepEqual (sb_Status sb) s); [done|].
  rewrite run_bind in Hrun. cbn [run call] in Hrun.
  destruct (env _ (EStatusUpdate KSandbox (with_sb_status s sb)) w) as [[o|e'] w1] eqn:He; [done|].
  cbn in Hrun. assert (w1 = w') as -> by (destruct (IsNotFound e'); congruence).
  destruct (Hat _ _ _ _ _ He Hv) as (o' & Ho' & Hs). exists o'. split; [exact Ho'|]. destruct Hs as [Hs|Hs]; [right|left]; auto.
Qed.

(** The stored phase of a sandbox and its pod. *)
Definition stored_life (sb : Sandbox) (w : W) : Life := life_of sb (sb_Status sb) w.


End refinement.
