(* ===== verification/Steady.v ===== *)
(** * A running sandbox at rest (internal/controller/sandbox_controller.go)

    Settled.v shows that the children of a sandbox are not written twice. Here
    is the rest: the status a reconciliation computes for a running sandbox is a
    fixed point, so that the next one, with the same pod and sessions, computes
    the same status, compares it with the stored one and writes nothing at all.

    The status is given exactly ([running_status]): the conditions are set in the
    order of the code, each with its message. *)

From S2P Require Import Prelude GoStrings KubeTypes ApiTypes Client Libs PodSpec SSHCA StatusMonad.
From S2P Require Import SandboxRBAC Bootstrap SandboxHome SandboxNet SandboxRun SandboxReconcile Settled.
From S2P Require Import StatusShape SandboxFinalize SandboxController.
From Stdlib Require Import String.
From stdpp Require Import base gmap strings list pretty.
From Stdlib Require Import ZArith Lia.
Local Open Scope Z_scope.

(** ** Setting conditions again *)

Section conditions.
Context `{AM : ApiMachinery} `{!ApiMachineryLaws AM}.

Definition keyed (cs : list Condition) : Prop := NoDup (c_Type <$> cs).

Lemma keyed_set cs c : keyed cs → keyed (SetStatusCondition cs c).
Proof.
  unfold keyed. intros Hn. rewrite SetStatusCondition_types. destruct (contains _ _) eqn:Hc; [done|].
  apply contains_false in Hc. apply NoDup_app. split; [done|].
  split; [by intros x Hx ->%list_elem_of_singleton|apply NoDup_singleton].
Qed.

Lemma find_condition_elem cs c : keyed cs → c ∈ cs → find_condition cs (c_Type c) = Some c.
Proof.
  unfold keyed, find_condition. induction cs as [|d cs IH]; [intros _ Hx; by apply not_elem_of_nil in Hx|].
  cbn [fmap list_fmap find_first]. intros [Hd Hn]%NoDup_cons [->|Hc]%elem_of_cons.
  - by rewrite String.eqb_refl.
  - destruct (String.eqb_spec (c_Type d) (c_Type c)) as [E|_]; [|by apply IH].
    exfalso. apply Hd. rewrite E. by apply list_elem_of_fmap_2.
Qed.

Lemma find_condition_type cs ty c : find_condition cs ty = Some c → c ∈ cs ∧ c_Type c = ty.
Proof. intros [Hc ?%String.eqb_eq]%find_first_Some. done. Qed.

(** Keyed lists with the same types in the same order and the same condition of
    each type are equal. *)
Lemma keyed_ext cs ds :
  keyed cs → c_Type <$> cs = c_Type <$> ds →
  (∀ ty, find_condition cs ty = find_condition ds ty) → cs = ds.
Proof.
  intros Hk Ht Hf. assert (keyed ds) as Hk' by (unfold keyed; by rewrite <- Ht).
  apply list_eq_same_length with (length cs); [apply (f_equal length) in Ht; by rewrite !length_fmap in Ht|done|].
  intros i c d _ Hc Hd.
  assert (c_Type c = c_Type d) as E.
  { assert ((c_Type <$> cs) !! i = Some (c_Type c)) as H1 by by rewrite list_lookup_fmap, Hc.
    rewrite Ht, list_lookup_fmap, Hd in H1. simpl in H1. congruence. }
  pose proof (find_condition_elem cs c Hk (list_elem_of_lookup_2 _ _ _ Hc)) as H1.
  pose proof (find_condition_elem ds d Hk' (list_elem_of_lookup_2 _ _ _ Hd)) as H2.
  rewrite Hf, E in H1. congruence.
Qed.

(** Setting the condition that is there changes nothing. *)
Lemma set_again cs c : keyed cs → find_condition cs (c_Type c) = Some c → SetStatusCondition cs c = cs.
Proof.
  intros Hk Hf. symmetry. apply keyed_ext; [done| |].
  - rewrite SetStatusCondition_types. destruct (find_condition_type _ _ _ Hf) as [Hin _].
    by rewrite (proj2 (contains_true _ _) (list_elem_of_fmap_2 c_Type _ _ Hin)).
  - intros ty. destruct (decide (ty = c_Type c)) as [->|Hne].
    + by rewrite Hf, SetStatusCondition_same.
    + by rewrite SetStatusCondition_other.
Qed.

Definition setAll (cs l : list Condition) : list Condition := foldl SetStatusCondition cs l.

Lemma setAll_keyed cs l : keyed cs → keyed (setAll cs l).
Proof. revert cs. induction l as [|c l IH]; intros cs Hk; [done|]. by apply IH, keyed_set. Qed.

Lemma setAll_other cs l ty : ty ∉ c_Type <$> l → find_condition (setAll cs l) ty = find_condition cs ty.
Proof.
  revert cs. induction l as [|c l IH]; intros cs; [done|]. intros [Hne Hni]%not_elem_of_cons.
  change (find_condition (setAll (SetStatusCondition cs c) l) ty = find_condition cs ty).
  rewrite IH by done. by rewrite SetStatusCondition_other.
Qed.

Lemma setAll_same cs l c : NoDup (c_Type <$> l) → c ∈ l → find_condition (setAll cs l) (c_Type c) = Some c.
Proof.
  revert cs. induction l as [|d l IH]; intros cs; [intros _ Hx; by apply not_elem_of_nil in Hx|].
  intros [Hd Hn]%NoDup_cons [->|Hc]%elem_of_cons; [|by apply IH].
  change (find_condition (setAll (SetStatusCondition cs d) l) (c_Type d) = Some d).
  rewrite setAll_other by done. apply SetStatusCondition_same.
Qed.

(** Setting a series of conditions twice is setting it once. *)
Lemma setAll_again cs l : keyed cs → NoDup (c_Type <$> l) → setAll (setAll cs l) l = setAll cs l.
Proof.
  intros Hk Hn. assert (∀ l', (∀ c, c ∈ l' → c ∈ l) → setAll (setAll cs l) l' = setAll cs l) as Hgo.
  { induction l' as [|c l' IH]; intros Hsub; [done|].
    change (setAll (SetStatusCondition (setAll cs l) c) l' = setAll cs l).
    rewrite set_again; [|by apply setAll_keyed|apply setAll_same; [done|apply Hsub; left]].
    apply IH. intros d Hd. apply Hsub. by right. }
  by apply Hgo.
Qed.
End conditions.

Section steady.
Context `{AM : ApiMachinery} `{SSH : SSHLib} `{!ApiMachineryLaws AM} `{!SSHLaws SSH}.
Context {W : Type} `{World W}.

(** ** The status of a running sandbox *)

Definition homeCondition (sb : Sandbox) : Condition :=
  conditionOf sb ConditionHomeReady ConditionTrue ReasonProvisioning "home volume ready".

Definition rbacCondition (sb : Sandbox) (p : option AccessProfile) : Condition :=
  conditionOf sb ConditionRBACReady ConditionTrue ReasonRunning
    match p with
    | None => "no access profile; sandbox has no cluster credentials"
    | Some p => "bound to AccessProfile " +:+ quote (Name p) +:+ " in "
                +:+ pretty (Z.of_nat (length (grantNamespaces p))) +:+ " namespace(s)"
    end.

Definition driftCondition (sb : Sandbox) (hash currentHash : string) : Condition :=
  if negb (String.eqb hash "") && negb (String.eqb hash currentHash)
  then conditionOf sb ConditionTemplateOutdated ConditionTrue ReasonOutdated
         "template changed; the new template applies on the next suspend/resume cycle"
  else conditionOf sb ConditionTemplateOutdated ConditionFalse ReasonUpToDate "pod matches the template".

Definition preparedConditions (sb : Sandbox) (p : option AccessProfile) : list Condition :=
  [homeCondition sb; rbacCondition sb p].

Definition runningConditions (sb : Sandbox) (hash currentHash : string) : list Condition :=
  [conditionOf sb ConditionPodReady ConditionTrue ReasonRunning "sandbox pod is ready";
   conditionOf sb ConditionReady ConditionTrue ReasonRunning "sandbox is running";
   driftCondition sb hash currentHash].

Definition accountOf (sb : Sandbox) (p : option AccessProfile) : string :=
  match p with None => "" | Some _ => saName (Name sb) end.

Definition prepared_status (sb : Sandbox) (p : option AccessProfile) (s : SandboxStatus) : SandboxStatus :=
  set_Conditions (setAll (st_Conditions s) (preparedConditions sb p))
    (set_ServiceAccountName (accountOf sb p) (set_PVCName (homeClaim sb) s)).

Definition ready_status (sb : Sandbox) (currentHash : string) (pod : Pod) (last : option Time)
    (s : SandboxStatus) : SandboxStatus :=
  set_Conditions (setAll (st_Conditions s) (runningConditions sb (st_TemplateHash s) currentHash))
    (set_LastActivityTime last (set_PodIP (pst_PodIP (pod_Status pod))
      (set_Phase SandboxPhaseRunning (set_PodName (Name pod) s)))).

Definition running_status (sb : Sandbox) (tpl : SandboxTemplate) (p : option AccessProfile) (pod : Pod)
    (n : Z) (last : option Time) (s : SandboxStatus) : SandboxStatus :=
  ready_status sb (TemplateHash (tpl_Spec tpl)) pod last
    (set_ActiveSessions (int32_wrap n) (prepared_status sb p s)).

(** The profile a sandbox refers to, and the number of its open sessions, as a
    world shows them. *)
Definition profileIn (sb : Sandbox) (w : W) : option AccessProfile :=
  if String.eqb (sp_AccessProfile (sb_Spec sb)) "" then None
  else view KAccessProfile w (nn "" (sp_AccessProfile (sb_Spec sb))).

Definition openSessions (sb : Sandbox) (w : W) (n : Z) : Prop :=
  ∃ l, (∀ o, o ∈ l ↔ view KSession w (okey KSession o) = Some o ∧
                     selected KSession (InNamespace (Namespace sb)) o = true) ∧
       NoDup (okey KSession <$> l) ∧ n = Z.of_nat (length (List.filter (activeSession sb) l)).

(** Two answers of the server count the same. *)
Lemma openSessions_unique (sb : Sandbox) w n m : openSessions sb w n → openSessions sb w m → n = m.
Proof.
  intros (l & Hl & Hn & ->) (k & Hk & Hm & ->). f_equal. apply Permutation_length.
  assert (l ≡ₚ k) as Hp.
  { apply NoDup_Permutation; [by eapply NoDup_fmap_1|by eapply NoDup_fmap_1|].
    intros o. by rewrite Hl, Hk. }
  clear -Hp. induction Hp as [|x l k _ IH|x y l|l k j _ IH1 _ IH2]; simpl; [done| | |by etrans].
  - destruct (activeSession sb x); [by constructor|done].
  - destruct (activeSession sb x), (activeSession sb y); try done. constructor.
Qed.

Lemma openSessions_view (sb : Sandbox) w w' n :
  (∀ k, view KSession w' k = view KSession w k) → openSessions sb w n → openSessions sb w' n.
Proof. intros Hv (l & Hl & Hn). exists l. split; [|done]. intros o. by rewrite Hv. Qed.

(** ** The stages, exactly *)

Lemma wp_any {A} (p : prog A) w : wp p (λ _ _, True) w.
Proof. revert w. induction p as [a|X e k IH]; intros w; simpl; eauto. Qed.

Lemma wp_rbac_exact (sb : Sandbox) s w :
  wp (reconcileRBAC sb s)
     (λ sr _, match sr.2 with
              | Ok r => rr_Ready r = true →
                  sr.1 = set_Conditions (SetStatusCondition (st_Conditions s) (rbacCondition sb (profileIn sb w)))
                           (set_ServiceAccountName (accountOf sb (profileIn sb w)) s)
              | Err _ => True
              end) w.
Proof.
  unfold reconcileRBAC, profileIn. destruct (String.eqb _ _).
  { apply wp_sbind_lift. eapply wp_mono; [apply wp_any|]. by intros [[]|e] w1 _. }
  apply wp_sbind_attempt, wp_call. intros r w1 [_ [Hun Hr]]. destruct r as [p|e].
  2:{ destruct (IsNotFound e); [|done]. apply wp_sbind_lift. eapply wp_mono; [apply wp_any|].
      by intros [[]|e'] w2 _. }
  rewrite Hr. destruct (contains _ _); cbn [negb].
  2:{ apply wp_sbind_lift. eapply wp_mono; [apply wp_any|]. by intros [[]|e'] w2 _. }
  apply wp_sbind_lift. eapply wp_mono; [apply wp_any|]. intros [[]|e] w2 _; [|done].
  apply wp_sbind_lift. eapply wp_mono; [apply wp_any|]. intros [[]|e] w3 _; [|done].
  apply wp_sbind_lift. eapply wp_mono; [apply wp_any|]. by intros [[]|e] w4 _.
Qed.

Lemma wp_prepare_exact r (sb : Sandbox) s w :
  named w → settled KNetPol w (netPolKey sb) →
  wp (prepare r sb s)
     (λ sr _, match sr.2 with
              | Ok (inr (tpl, sa)) =>
                  view KTemplate w (nn "" (sp_Template (sb_Spec sb))) = Some tpl ∧
                  sr.1 = prepared_status sb (profileIn sb w) s
              | _ => True
              end) w.
Proof.
  intros Hn Hnp. apply wp_sbind_attempt, wp_call. intros t w1 [_ [Hun1 Ht]]. destruct t as [tpl|e].
  2:{ by destruct (IsNotFound e). }
  apply wp_sbind. eapply wp_mono; [apply wp_reconcileHome|].
  { intros ns o. rewrite (proj1 Hun1). apply Hn. }
  intros [s2 x] w2 [Hf2 Ho]. cbn [fst snd]. unfold home_outcome in Ho. simpl in Ho.
  destruct x as [[res|]|e]; [done| |done]. destruct Ho as [[_ ->] _].
  assert (∀ T (K : Kind T) k, kind_tag K ∉ [TPVC] → view K w2 k = view K w k) as Hv2.
  { intros T K k HK. rewrite <- (proj1 Hun1). unfold home_frame in Hf2.
    destruct (String.eqb _ _); [|apply Hf2]. apply (same_but_view _ _ _ _ _ _ (proj1 Hf2)).
    simpl. set_solver. }
  apply wp_sbind_lift. eapply wp_mono; [apply wp_reconcileHostKey|].
  intros x w3 (Hf3 & _). destruct x as [[]|e]; [|done].
  assert (∀ T (K : Kind T) k, kind_tag K ∉ [TPVC; TSecret] → view K w3 k = view K w k) as Hv3.
  { intros T K k HK. rewrite <- Hv2 by set_solver. apply (frame_view _ _ _ _ _ Hf3). intros [? _]. set_solver. }
  apply wp_sbind_lift. eapply wp_mono; [apply wp_reconcileNetworkPolicy|].
  { intros o. rewrite Hv3 by (simpl; set_solver). apply Hnp. }
  intros x w4 [Hsb4 _]. destruct x as [[]|e]; [|done].
  assert (profileIn sb w4 = profileIn sb w) as Hp.
  { unfold profileIn. destruct (String.eqb _ _); [done|].
    rewrite (same_but_view _ _ KAccessProfile _ _ _ Hsb4) by done. apply Hv3. simpl. set_solver. }
  apply wp_sbind. eapply wp_mono; [apply wp_rbac_exact|].
  intros [s5 [rb|e]] w5 Hs5; [|done]. simpl in *. destruct (rr_Ready rb); [|done].
  simpl. split; [done|]. rewrite (Hs5 eq_refl), Hp. done.
Qed.

(** The idle clock after a pass that found the sandbox running. *)
Definition idle_start (s : SandboxStatus) (last : option Time) : Prop :=
  st_Phase s = SandboxPhaseRunning → last = st_LastActivityTime s.

Definition ready_exact (sb : Sandbox) (h : string) (s : SandboxStatus) (w : W) (s' : SandboxStatus) : Prop :=
  st_Phase s' = SandboxPhaseRunning →
  ∃ pod last, view KPod w (podKey sb) = Some pod ∧ idle_start s last ∧ s' = ready_status sb h pod last s.

Lemma wp_reflectReady_exact (sb : Sandbox) pod s w :
  wp (reflectReady sb pod s)
     (λ sr _, ∃ last, idle_start s last ∧ sr.2 = Ok tt ∧
        sr.1 = set_Conditions (setAll (st_Conditions s)
                 (take 2 (runningConditions sb (st_TemplateHash s) "")))
                 (set_LastActivityTime last (set_PodIP (pst_PodIP (pod_Status pod)) (set_Phase SandboxPhaseRunning s)))) w.
Proof.
  apply wp_sbind_get, wp_sbind. case_bool_decide as Hp; cbn [negb].
  - exists (st_LastActivityTime s). split; [done|]. split; [done|]. by destruct s; simpl in *; subst.
  - apply wp_sbind_modify, wp_sbind_get. cbn [st_LastActivityTime set_Phase].
    destruct (st_LastActivityTime s) as [t|] eqn:Ht.
    + exists (Some t). split; [by intros _|]. split; [done|]. destruct s; simpl in *; by subst.
    + apply wp_sbind_attempt, wp_call. intros t w' _. exists (Some t). split; [by intros ?|done].
Qed.

Lemma wp_run_exact r (sb : Sandbox) tpl h sa s w :
  wp (run_sandbox r sb tpl h sa s)
     (λ sr _, match sr.2 with Ok _ => ready_exact sb h s w sr.1 | Err _ => True end) w.
Proof.
  apply wp_sbind_attempt, wp_call. intros g w1 [_ [Hun Hg]]. destruct g as [pod|e].
  2:{ destruct (IsNotFound e); [|done]. apply wp_sbind_get, wp_sbind_lift.
      eapply wp_mono; [apply wp_any|]. intros [[]|e'] w2 _; [|done].
      intros Hp. simpl in Hp. by destruct (resumingPhase _). }
  apply wp_sbind_modify. destruct (deadPod pod).
  { apply wp_sbind. eapply wp_mono; [apply wp_any|]. by intros [s2 [[]|e]] w2 _. }
  apply wp_sbind. destruct (podReady pod).
  - eapply wp_mono; [apply wp_reflectReady_exact|].
    intros [s2 x] w2 (last & Hi & Hx & ->). simpl in Hx. subst x. cbn [fst snd].
    apply wp_sbind, wp_sbind_get. simpl. unfold ready_exact, ready_status, runningConditions, driftCondition.
    destruct (negb _ && negb _); simpl; intros _; by exists pod, last.
  - eapply wp_mono; [apply wp_reflectPending|].
    intros [s2 x] w2 (-> & Hx & _ & _ & _ & Hph & _). simpl in Hx. subst x. cbn [fst snd] in *.
    apply wp_drift_end. intros c _ Hp. simpl in Hp. rewrite Hph in Hp. unfold waitingPhase in Hp.
    by case_bool_decide.
Qed.

Definition running_exact (sb : Sandbox) (s : SandboxStatus) (w : W) (s' : SandboxStatus) : Prop :=
  st_Phase s' = SandboxPhaseRunning →
  ∃ tpl pod n last, view KTemplate w (nn "" (sp_Template (sb_Spec sb))) = Some tpl ∧
    view KPod w (podKey sb) = Some pod ∧ openSessions sb w n ∧ idle_start s last ∧
    s' = running_status sb tpl (profileIn sb w) pod n last s.

Lemma wp_machine_exact r (sb : Sandbox) tpl sa s w :
  wp (desiredStateMachine r sb tpl sa s)
     (λ sr _, match sr.2 with
              | Ok _ => st_Phase sr.1 = SandboxPhaseRunning →
                  ∃ n, openSessions sb w n ∧
                    ready_exact sb (TemplateHash (tpl_Spec tpl)) (set_ActiveSessions (int32_wrap n) s) w sr.1
              | Err _ => True
              end) w.
Proof.
  assert (∀ s w, wp (suspend sb s) (λ sr _, match sr.2 with
    | Ok _ => st_Phase sr.1 ≠ SandboxPhaseRunning | Err _ => True end) w) as Hsus.
  { intros s0 w0. eapply wp_mono; [apply wp_suspend|]. intros [s1 [res|e]] w1 [_ Ho]; [|done].
    simpl. destruct (suspend_phase _ _ _ _ _ _ Ho); congruence. }
  unfold desiredStateMachine. case_bool_decide as Hstop.
  { eapply wp_mono; [apply Hsus|]. intros [s1 [res|e]] w1 Hs; [|done]. simpl in *. done. }
  apply wp_sbind_lift, wp_ebind, wp_call. intros [l|e] w1 [_ [Hun1 Hl]]; [|done]. destruct Hl as [Hl Hnd].
  cbn beta iota. simpl wp. apply wp_sbind_modify, wp_sbind_get.
  set (n := Z.of_nat (length (List.filter (activeSession sb) l))).
  assert (openSessions sb w n) as Hopen by (exists l; done).
  apply wp_sbind. eapply (wp_mono _ (λ sr w', sr.1 = set_ActiveSessions (int32_wrap n) s ∧ unchanged w w')).
  { destruct (n =? 0); [|done]. apply wp_attempt. unfold idleExpired. destruct (_ <=? _); [done|].
    cbn [st_LastActivityTime set_ActiveSessions]. destruct (st_LastActivityTime s); [|done].
    apply wp_bind, wp_call. intros tn w2 [_ [Hun2 _]]. split; [done|]. by etrans. }
  intros [s2 [b|e]] w2 [Hs2 Hun2]; [|done]. cbn [fst snd] in *. subst s2. destruct b.
  { eapply wp_mono; [apply Hsus|]. intros [s3 [res|e]] w3 Hs; [|done]. simpl in *. done. }
  apply wp_sbind. eapply wp_mono; [apply wp_run_exact|].
  intros [s3 [res|e]] w3 Hs3; [|done]. cbn [fst snd] in *.
  apply wp_sbind_get.
  assert (st_Phase s3 = SandboxPhaseRunning → ∃ n, openSessions sb w n ∧
    ready_exact sb (TemplateHash (tpl_Spec tpl)) (set_ActiveSessions (int32_wrap n) s) w s3) as Hdone.
  { intros Hp. exists n. split; [done|]. intros _. destruct (Hs3 Hp) as (pod & last & Hpod & Hrest).
    exists pod, last. by rewrite <- (proj1 Hun2). }
  destruct (st_LastActivityTime s3); [|done]. destruct (_ && _ && _ && _); [|done].
  apply wp_sbind_attempt. eapply wp_mono; [apply wp_any|]. done.
Qed.

Lemma wp_reconcile_exact r (sb : Sandbox) s w :
  quiet sb w →
  wp (reconcileSandbox r sb s)
     (λ sr _, match sr.2 with Ok _ => running_exact sb s w sr.1 | Err _ => True end) w.
Proof.
  intros Hq. apply wp_sbind.
  eapply wp_mono; [apply wp_and; [apply wp_prepare_exact; apply Hq|by apply (wp_prepare r)]|].
  intros [s1 x] w1 [Hx [Hf [_ Hph]]]. cbn [fst snd] in *. destruct x as [[res|[tpl sa]]|e]; [|..].
  - intros Hp. simpl in Hp. congruence.
  - destruct Hx as [Htpl ->]. eapply wp_mono; [apply wp_machine_exact|].
    intros [s2 [res|e]] w2 Hs2; [|done]. intros Hp. cbn [fst snd] in *.
    destruct (Hs2 Hp) as (n & Hn & Hr). destruct (Hr Hp) as (pod & last & Hpod & Hi & ->).
    exists tpl, pod, n, last. split; [done|]. split.
    { by rewrite <- (frame_view KPod _ _ _ _ Hf) by apply child_not_pod. }
    split; [|done]. eapply openSessions_view; [|exact Hn].
    intros k. symmetry. apply (child_view KSession _ _ _ _ _ Hf). simpl. set_solver.
  - done.
Qed.

(** ** The fixed point *)

Lemma types_distinct (sb : Sandbox) p h h' :
  NoDup (c_Type <$> (preparedConditions sb p ++ runningConditions sb h h')).
Proof.
  unfold runningConditions, driftCondition, preparedConditions.
  destruct (negb _ && negb _); simpl; apply (bool_decide_unpack _); vm_compute; exact I.
Qed.

(** The conditions of the sandbox as a whole: those of its preparation, then
    those of its pod. *)
Lemma running_conditions (sb : Sandbox) tpl p pod n last s :
  st_Conditions (running_status sb tpl p pod n last s) =
  setAll (st_Conditions s) (preparedConditions sb p ++
    runningConditions sb (st_TemplateHash s) (TemplateHash (tpl_Spec tpl))).
Proof. unfold setAll. rewrite foldl_app. done. Qed.

Lemma running_again (sb : Sandbox) tpl p pod n last s :
  keyed (st_Conditions s) →
  let s1 := running_status sb tpl p pod n last s in
  running_status sb tpl p pod n last s1 = s1.
Proof.
  intros Hk s1.
  assert (st_Conditions (running_status sb tpl p pod n last s1) = st_Conditions s1) as Hc.
  { rewrite running_conditions. unfold s1 at 1 3. rewrite running_conditions.
    change (st_TemplateHash s1) with (st_TemplateHash s). apply setAll_again; [done|apply types_distinct]. }
  transitivity (set_Conditions (st_Conditions s1) s1); [|done]. rewrite <- Hc at 1. done.
Qed.

(** Nothing the status is computed from depends on the object but for its
    identity, specification and generation. *)
Lemma running_status_same (sb sb' : Sandbox) tpl p pod n last s :
  Name sb' = Name sb → Generation sb' = Generation sb → sb_Spec sb' = sb_Spec sb →
  running_status sb' tpl p pod n last s = running_status sb tpl p pod n last s.
Proof.
  intros Hn Hg Hsp.
  assert (homeClaim sb' = homeClaim sb) as Hh by (unfold homeClaim; by rewrite Hsp, Hn).
  unfold running_status, ready_status, prepared_status, preparedConditions, runningConditions,
    driftCondition, homeCondition, rbacCondition, accountOf, conditionOf.
  by rewrite Hn, Hg, Hh.
Qed.

(** A pass that finds the sandbox running leaves its pod as it is. *)
Lemma running_keeps_pod (env : Env W) `{!Conforms env} r (sb : Sandbox) s w s1 res w1 :
  quiet sb w → r_Now r = None → timeouts_bounded sb w →
  run env (reconcileSandbox r sb s) w = ((s1, Ok res), w1) → st_Phase s1 = SandboxPhaseRunning →
  frame (sandbox_writes sb w) w w1 ∧ view KPod w1 (podKey sb) = view KPod w (podKey sb).
Proof.
  intros Hq Hp Hto Hrun Hph.
  destruct (run_decided env _ _ _ _ _ _ _ Hq Hp Hto Hrun ltac:(by rewrite Hph)) as
    [Hf (tpl & sa & t & s2 & w2 & Hfc & _ & _ & _ & _ & _ & _ & Hm)].
  split; [done|]. destruct Hm as [[_ Hs]|[_ (res0 & w3 & Hr & Hun & _)]].
  - destruct (suspend_phase _ _ _ _ _ _ Hs); congruence.
  - destruct (run_phase _ _ _ _ _ _ _ _ _ _ Hr) as [?|[?|(_ & Hun2 & _)]]; [congruence|congruence|].
    rewrite (proj1 Hun), (proj1 Hun2). apply (frame_view KPod _ _ _ _ Hfc). apply child_not_pod.
Qed.

(** A pass over the stored result of a pass that found the sandbox running, with
    the children in place and the same template, profile, pod and sessions:
    the same status, and nothing is written. *)
Lemma running_again_still (env : Env W) `{!Conforms env} r (sb : Sandbox) s w w2 s2 res2 w3 tpl pod n last :
  quiet sb w2 → one_slice w2 → r_Now r = None → timeouts_bounded sb w2 → in_place r sb w2 →
  keyed (st_Conditions s) →
  let s1 := running_status sb tpl (profileIn sb w) pod n last s in
  view KTemplate w2 (nn "" (sp_Template (sb_Spec sb))) = Some tpl → profileIn sb w2 = profileIn sb w →
  view KPod w2 (podKey sb) = Some pod → openSessions sb w2 n →
  run env (reconcileSandbox r sb s1) w2 = ((s2, Ok res2), w3) → st_Phase s2 = SandboxPhaseRunning →
  s2 = s1 ∧ unchanged w2 w3.
Proof.
  intros Hq Hone Hp Hto Hin Hk s1 Htpl Hprof Hpod Hn Hrun Hph. split.
  - destruct (run_wp env _ _ _ _ _ Hrun (wp_reconcile_exact r sb s1 w2 Hq) Hph)
      as (tpl' & pod' & n' & last' & Htpl' & Hpod' & Hn' & Hi & Hs2). simpl in Hs2. subst s2.
    rewrite Htpl in Htpl'. injection Htpl' as <-. rewrite Hpod in Hpod'. injection Hpod' as <-.
    rewrite (openSessions_unique sb w2 n' n) by done. rewrite Hprof, (Hi eq_refl).
    by apply running_again.
  - destruct (running_keeps_pod env r sb s1 w2 s2 res2 w3 Hq Hp Hto Hrun Hph) as [_ Hkeep].
    destruct Hq as (Hnm & Hrb & Hnp).
    destruct (run_wp env _ _ _ _ _ Hrun (wp_reconcile_still r sb s1 w2 Hp Hto Hnm Hone Hin Hrb Hnp)) as [Hf He].
    split; [|done]. intros T K k. destruct (decide (only_pod sb (kind_tag K) k)) as [[HK ->]|Hne]; [|by apply Hf].
    by destruct K.
Qed.

End steady.
