(* ===== verification/SessionController.v ===== *)
(** * The session controller (internal/controller/sandboxsession_controller.go)

    Reaps sessions whose gateway stopped sending heartbeats, moves the idle
    clock of a sandbox when a session ends, and deletes old sessions. The
    theorems: a session is reaped exactly when three heartbeat intervals have
    passed, its end is dated at the last heartbeat; the idle clock becomes the
    later of its value and the session's end; a session never goes back to an
    earlier state and is deleted only when closed for a week. *)

From S2P Require Import Prelude KubeTypes ApiTypes Client StatusMonad SandboxRBAC.
From Stdlib Require Import String.
From stdpp Require Import base gmap strings list.
From Stdlib Require Import ZArith Lia.
Local Open Scope Z_scope.

Definition defaultHeartbeatInterval : Duration := 60 * Second.
Definition staleHeartbeatFactor : Z := 3.
Definition closedSessionRetention : Duration := 168 * Hour.

(** [Now] is nil outside tests. *)
Record SandboxSessionReconciler := { ssr_Now : option (prog Time) }.

Definition session_now (r : SandboxSessionReconciler) : prog Time :=
  match ssr_Now r with Some f => f | None => call ENow end.

Definition lastSeen (session : SandboxSession) : Time :=
  match sst_LastActivityTime (ses_Status session) with
  | Some t => t
  | None => match sst_StartTime (ses_Status session) with
            | Some t => t
            | None => CreationTimestamp session
            end
  end.

Definition sessionInterval (session : SandboxSession) : Duration :=
  match ss_HeartbeatInterval (ses_Spec session) with
  | Some d => if 0 <? d then d else defaultHeartbeatInterval
  | None => defaultHeartbeatInterval
  end.

Definition closedStale (last : Time) (s : SandboxSession) : SandboxSession :=
  with_ses_status
    {| sst_State := SessionStateClosed; sst_StartTime := sst_StartTime (ses_Status s);
       sst_LastActivityTime := sst_LastActivityTime (ses_Status s);
       sst_EndTime := Some last; sst_ExitReason := ExitReasonStaleHeartbeat |} s.

(** [return ctrl.Result{}, client.IgnoreNotFound(err)]. *)
Definition doneIgnoringNotFound {A} (r : res A) : res Result :=
  match IgnoreNotFound (to_unit r) with Ok _ => Ok noResult | Err e => Err e end.

Definition reconcileActive (r : SandboxSessionReconciler) (session : SandboxSession) : prog (res Result) :=
  let deadline := dur_mul staleHeartbeatFactor (sessionInterval session) in
  let last := lastSeen session in
  if time_IsZero last then Ret (Ok {| RequeueAfter := deadline |})
  else
    now ← session_now r;
    let elapsed := time_Sub now last in
    if elapsed <=? deadline then Ret (Ok {| RequeueAfter := dur_sub deadline elapsed |})
    else
      u ← call (EStatusUpdate KSession (closedStale last session));
      Ret (doneIgnoringNotFound u).

Definition bumpTo (t : Time) (sb : Sandbox) : Sandbox :=
  with_sb_status (set_LastActivityTime (Some t) (sb_Status sb)) sb.

Definition bumpSandboxActivity (session : SandboxSession) (fin : Time) : prog (res unit) :=
  g ← call (EGet KSandbox (nn (Namespace session) (ss_SandboxName (ses_Spec session))));
  match g with
  | Err e => Ret (if IsNotFound e then Ok tt else Err e)
  | Ok sb =>
    if match st_LastActivityTime (sb_Status sb) with
       | Some t => negb (time_After fin t)
       | None => false
       end
    then Ret (Ok tt)
    else
      p ← call (EStatusPatch KSandbox (okey KSandbox sb) (bumpTo fin));
      Ret (IgnoreNotFound (to_unit p))
  end.

Definition reconcileClosed (r : SandboxSessionReconciler) (session : SandboxSession) : prog (res Result) :=
  match sst_EndTime (ses_Status session) with
  | Some fin =>
    bumpSandboxActivity session fin ;;?
    now ← session_now r;
    let age := time_Sub now fin in
    if closedSessionRetention <=? age then
      d ← call (EDelete KSession (okey KSession session));
      Ret (doneIgnoringNotFound d)
    else Ret (Ok {| RequeueAfter := dur_sub closedSessionRetention age |})
  | None => Ret (Ok noResult)
  end.

Definition session_Reconcile (r : SandboxSessionReconciler) (req : NamespacedName) : prog (res Result) :=
  g ← call (EGet KSession req);
  match g with
  | Err e => Ret (if IsNotFound e then Ok noResult else Err e)
  | Ok session =>
    match sst_State (ses_Status session) with
    | SessionStateActive => reconcileActive r session
    | SessionStateClosed => reconcileClosed r session
    | SessionStateUnset => Ret (Ok noResult)
    end
  end.

(** ** Proofs *)

Section proofs.
Context {W : Type} `{World W}.

(** The reaper's deadline when three intervals fit a duration. *)
Lemma deadline_exact s :
  3 * sessionInterval s <= int64_max →
  0 < sessionInterval s ∧ dur_mul staleHeartbeatFactor (sessionInterval s) = 3 * sessionInterval s.
Proof.
  intros Hmax. assert (0 < sessionInterval s) as Hpos.
  { unfold sessionInterval. destruct (ss_HeartbeatInterval (ses_Spec s)) as [d|];
      [destruct (Z.ltb_spec 0 d)|]; unfold defaultHeartbeatInterval, Second; lia. }
  split; [done|]. apply int64_wrap_id. unfold int64_range, int64_min, staleHeartbeatFactor. lia.
Qed.

(** The session was closed as of its last sign of life. *)
Definition reaped (s s' : SandboxSession) : Prop :=
  sst_State (ses_Status s') = SessionStateClosed ∧
  sst_EndTime (ses_Status s') = Some (lastSeen s) ∧
  sst_ExitReason (ses_Status s') = ExitReasonStaleHeartbeat ∧
  ses_Spec s' = ses_Spec s.

Definition active_outcome (s : SandboxSession) (w : W) (r : res Result) (w' : W) : Prop :=
  same_but KSession (okey KSession s) w w' ∧
  match r with
  | Ok res =>
    if time_IsZero (lastSeen s) then unchanged w w'
    else ∃ t, clock w <= t <= clock w' ∧
      if t - lastSeen s <=? 3 * sessionInterval s
      then unchanged w w' ∧
           (0 <= t - lastSeen s → RequeueAfter res = lastSeen s + 3 * sessionInterval s - t)
      else ∃ s', view KSession w' (okey KSession s) = Some s' ∧ reaped s s'
  | Err _ => True
  end.

Lemma wp_reconcileActive r s w :
  ssr_Now r = None → 3 * sessionInterval s < int64_max →
  view KSession w (okey KSession s) = Some s →
  wp (reconcileActive r s) (active_outcome s w) w.
Proof.
  intros Hprod Hmax Hv. destruct (deadline_exact s) as [Hpos Hdl]; [lia|].
  unfold reconcileActive, active_outcome. rewrite Hdl. cbv zeta.
  destruct (time_IsZero (lastSeen s)) eqn:Hz; [split; [apply unchanged_same_but|]; apply unchanged_refl|].
  unfold session_now. rewrite Hprod. apply wp_bind, wp_call. intros t w1 [Hck [Hun ->]]. cbv beta zeta.
  assert (int64_min <= 3 * sessionInterval s < int64_max) as Hr by (unfold int64_min; lia).
  destruct (Z.leb_spec (time_Sub (clock w1) (lastSeen s)) (3 * sessionInterval s)) as [Hle|Hgt].
  - split; [by apply unchanged_same_but|]. exists (clock w1). split; [lia|].
    apply time_Sub_le in Hle as Hle'; [|done]. destruct (Z.leb_spec (clock w1 - lastSeen s) (3 * sessionInterval s)); [|lia].
    split; [done|]. intros Hnn. simpl. rewrite time_Sub_exact by (unfold int64_range, int64_min in *; lia).
    unfold dur_sub. rewrite int64_wrap_id by (unfold int64_range, int64_min in *; lia). lia.
  - apply wp_bind, wp_call. intros u w2 [Hck2 (Hsb & _ & Hu)].
    change (okey KSession (closedStale (lastSeen s) s)) with (okey KSession s) in Hsb, Hu.
    split; [eapply same_but_trans; [by apply unchanged_same_but|done]|].
    apply time_Sub_gt in Hgt as Hgt'; [|done]. unfold doneIgnoringNotFound.
    destruct u as [o|e]; simpl.
    + exists (clock w1). split; [lia|].
      destruct (Z.leb_spec (clock w1 - lastSeen s) (3 * sessionInterval s)); [lia|].
      destruct Hu as (cur & Hcur & _ & (gen & rv & ->) & Hv'). rewrite (proj1 Hun), Hv in Hcur.
      injection Hcur as <-. eexists. split; [exact Hv'|]. done.
    + destruct (IsNotFound e); [|done]. destruct (Hu eq_refl) as [Hn _].
      rewrite (proj1 Hun) in Hn. congruence.
Qed.

(** The later of the idle clock and an instant. *)
Definition later (last : option Time) (t : Time) : option Time :=
  match last with Some l => Some (Z.max l t) | None => Some t end.

Definition sessionSandbox (s : SandboxSession) : NamespacedName :=
  nn (Namespace s) (ss_SandboxName (ses_Spec s)).

(** The idle clock of the sandbox at [k] moved to [t] at least, and nothing
    else of it changed. *)
Definition clock_moved (k : NamespacedName) (t : Time) (w w' : W) : Prop :=
  ∀ sb, view KSandbox w k = Some sb →
    ∃ sb', view KSandbox w' k = Some sb' ∧ sb_Spec sb' = sb_Spec sb ∧
      sb_Status sb' = set_LastActivityTime (later (st_LastActivityTime (sb_Status sb)) t) (sb_Status sb).

Lemma wp_bumpSandboxActivity s t w :
  wp (bumpSandboxActivity s t)
     (λ r w', same_but KSandbox (sessionSandbox s) w w' ∧
        match r with Ok _ => clock_moved (sessionSandbox s) t w w' | Err _ => True end) w.
Proof.
  unfold bumpSandboxActivity. fold (sessionSandbox s).
  apply wp_bind, wp_call. intros [sb|e] w1 [_ [Hun Hg]]; cbn beta iota.
  2:{ destruct (IsNotFound e); (split; [by apply unchanged_same_but|]); [|done].
      intros sb Hv. rewrite (Hg eq_refl) in Hv. done. }
  pose proof (view_key _ _ _ _ _ Hg) as Hk.
  destruct (match st_LastActivityTime (sb_Status sb) with Some l => negb (time_After t l) | None => false end) eqn:Hb.
  - split; [by apply unchanged_same_but|]. intros sb0 Hv. rewrite Hg in Hv. injection Hv as <-.
    exists sb. rewrite (proj1 Hun). split; [done|]. split; [done|].
    destruct (st_LastActivityTime (sb_Status sb)) as [l|] eqn:Hl; [|done].
    apply negb_true_iff, Z.ltb_ge in Hb. simpl. rewrite Z.max_l by lia.
    destruct (sb_Status sb). simpl in *. by subst.
  - apply wp_bind, wp_call. intros p w2 [_ Hp].
    change (status_patch_spec KSandbox (okey KSandbox sb) (bumpTo t) w1 p w2) in Hp.
    rewrite Hk in Hp. destruct Hp as (Hsb & _ & Hp).
    split; [eapply same_but_trans; [by apply unchanged_same_but|done]|].
    destruct p as [o|e]; simpl.
    + intros sb0 Hv. rewrite Hg in Hv. injection Hv as <-.
      destruct Hp as (cur & Hcur & (gen & rv & ->) & Hv'). rewrite (proj1 Hun), Hg in Hcur.
      injection Hcur as <-. eexists. split; [exact Hv'|]. split; [done|]. simpl.
      destruct (st_LastActivityTime (sb_Status sb)) as [l|]; [|done].
      apply negb_false_iff, Z.ltb_lt in Hb. simpl. by rewrite Z.max_r by lia.
    + destruct (IsNotFound e); [|done]. destruct (Hp eq_refl) as [Hn _].
      rewrite (proj1 Hun) in Hn. congruence.
Qed.

(** Closed for a week at an instant. *)
Definition aged_out (s : SandboxSession) (t : Time) : Prop :=
  ∃ fin, sst_EndTime (ses_Status s) = Some fin ∧ closedSessionRetention <= t - fin.

Definition closed_writes (s : SandboxSession) (t : tag) (k : NamespacedName) : Prop :=
  (t = TSandbox ∧ k = sessionSandbox s) ∨ (t = TSession ∧ k = okey KSession s).

Definition closed_outcome (s : SandboxSession) (w : W) (r : res Result) (w' : W) : Prop :=
  frame (closed_writes s) w w' ∧
  (view KSession w' (okey KSession s) = view KSession w (okey KSession s) ∨ aged_out s (clock w')) ∧
  match r with
  | Ok _ => (∀ fin, sst_EndTime (ses_Status s) = Some fin → clock_moved (sessionSandbox s) fin w w') ∧
      (view KSession w (okey KSession s) = Some s →
       ∀ s', view KSession w' (okey KSession s) = Some s' → ses_Status s' = ses_Status s)
  | Err _ => True
  end.

Lemma wp_reconcileClosed r s w :
  ssr_Now r = None → wp (reconcileClosed r s) (closed_outcome s w) w.
Proof.
  intros Hprod. unfold reconcileClosed. destruct (sst_EndTime (ses_Status s)) as [fin|] eqn:Hend.
  2:{ split; [apply frame_refl|]. split; [by left|]. rewrite Hend. split; [done|]. intros; congruence. }
  apply wp_ebind. eapply wp_mono; [apply wp_bumpSandboxActivity|]. intros x w1 [Hsb Hx].
  assert (frame (closed_writes s) w w1) as Hf1 by (eapply frame_same_but; [exact Hsb|by left]).
  assert (view KSession w1 (okey KSession s) = view KSession w (okey KSession s)) as Hv1.
  { by apply (same_but_view _ _ _ _ _ _ Hsb). }
  destruct x as [[]|e]; [|split; [done|]; split; [by left|done]].
  unfold session_now. rewrite Hprod. apply wp_bind, wp_call. intros t w2 [_ [Hun ->]]. cbv beta zeta.
  assert (∀ w3, frame (closed_writes s) w2 w3 → view KSandbox w3 (sessionSandbox s) = view KSandbox w2 (sessionSandbox s) →
            frame (closed_writes s) w w3 ∧
            ∀ f, sst_EndTime (ses_Status s) = Some f → clock_moved (sessionSandbox s) f w w3) as Hfin.
  { intros w3 Hf3 Hv3. split.
    - eapply frame_trans; [exact Hf1|]. eapply frame_trans; [by apply frame_unchanged|exact Hf3].
    - intros f Hf. rewrite Hend in Hf. injection Hf as <-. intros sb Hsbv.
      rewrite Hv3, (proj1 Hun). by apply Hx. }
  destruct (Z.leb_spec closedSessionRetention (time_Sub (clock w2) fin)) as [Hage|Hage].
  - apply wp_bind, wp_call. intros d w3 [Hck3 [Hsb3 Hd3]].
    assert (aged_out s (clock w3)) as Hold.
    { exists fin. split; [done|]. unfold time_Sub, closedSessionRetention, int64_max, int64_min, Hour, Minute, Second in *. lia. }
    destruct (Hfin w3) as [Hf Hc]; [eapply frame_same_but; [exact Hsb3|by right]| |].
    { by apply (same_but_view _ _ KSandbox _ _ _ Hsb3). }
    split; [done|]. split; [by right|]. unfold doneIgnoringNotFound.
    destruct d as [u|e]; simpl.
    + split; [done|]. intros Hv s' Hs'. destruct Hd3 as (cur & Hcur & Hdel & _).
      rewrite (proj1 Hun), Hv1, Hv in Hcur. injection Hcur as <-.
      destruct Hdel as [?|(o & Ho & gen & rv & t & _ & ->)]; [congruence|].
      rewrite Hs' in Ho. by injection Ho as ->.
    + destruct (IsNotFound e); [|done]. split; [done|]. intros _ s' Hs'.
      destruct (Hd3 eq_refl). congruence.
  - destruct (Hfin w2) as [Hf Hc]; [apply frame_refl|done|]. split; [done|].
    split; [left; by rewrite (proj1 Hun)|]. split; [done|]. intros Hv s'.
    rewrite (proj1 Hun), Hv1, Hv. by intros [= <-].
Qed.

(** ** The theorems *)

Context (env : Env W) `{!Conforms env}.

(** C27. A session counts as dead exactly when no heartbeat was seen for three of
    its intervals: before that nothing is written and the next look is at the
    deadline, after it the session is closed as of the last heartbeat. *)
Theorem stale_session_reaped r s w res w' :
  ssr_Now r = None → 3 * sessionInterval s < int64_max →
  view KSession w (okey KSession s) = Some s → time_IsZero (lastSeen s) = false →
  run env (reconcileActive r s) w = (Ok res, w') →
  ∃ t, clock w <= t <= clock w' ∧
    if t - lastSeen s <=? 3 * sessionInterval s
    then unchanged w w' ∧
         (0 <= t - lastSeen s → RequeueAfter res = lastSeen s + 3 * sessionInterval s - t)
    else ∃ s', view KSession w' (okey KSession s) = Some s' ∧ reaped s s'.
Proof.
  intros Hp Hm Hv Hz Hrun.
  destruct (run_wp env _ _ _ _ _ Hrun (wp_reconcileActive r s w Hp Hm Hv)) as [_ Ho].
  simpl in Ho. by rewrite Hz in Ho.
Qed.

(** When a closed session has been reconciled, its sandbox's idle clock shows
    the later of its old value and the session's end, and nothing else of the
    sandbox changed: the clock never runs backwards. *)
Theorem idle_clock_advances r s w res w' fin sb :
  ssr_Now r = None → sst_EndTime (ses_Status s) = Some fin →
  view KSandbox w (sessionSandbox s) = Some sb →
  run env (reconcileClosed r s) w = (Ok res, w') →
  ∃ sb', view KSandbox w' (sessionSandbox s) = Some sb' ∧ sb_Spec sb' = sb_Spec sb ∧
    sb_Status sb' = set_LastActivityTime (later (st_LastActivityTime (sb_Status sb)) fin) (sb_Status sb).
Proof.
  intros Hp He Hv Hrun.
  destruct (run_wp env _ _ _ _ _ Hrun (wp_reconcileClosed r s w Hp)) as (_ & _ & Ho & _).
  by apply Ho.
Qed.

(** The order of session states. *)
Definition state_rank (st : SessionState) : nat :=
  match st with SessionStateUnset => 0 | SessionStateActive => 1 | SessionStateClosed => 2 end.

(** Reconciling a session that succeeds never takes it back to an earlier
    state, closes no other session, and removes it only when it has been
    closed for a week. *)
Theorem session_state_monotone r k s w res w' :
  ssr_Now r = None → 3 * sessionInterval s < int64_max →
  view KSession w k = Some s →
  run env (session_Reconcile r k) w = (Ok res, w') →
  (∀ k', k' ≠ k → view KSession w' k' = view KSession w k') ∧
  match view KSession w' k with
  | Some s' => (state_rank (sst_State (ses_Status s)) <= state_rank (sst_State (ses_Status s')))%nat
  | None => sst_State (ses_Status s) = SessionStateClosed ∧ aged_out s (clock w')
  end.
Proof.
  intros Hp Hm Hv Hrun. pose proof (view_key _ _ _ _ _ Hv) as <-.
  assert (wp (session_Reconcile r (okey KSession s)) (λ x w', is_ok x = true →
    (∀ k', k' ≠ okey KSession s → view KSession w' k' = view KSession w k') ∧
    match view KSession w' (okey KSession s) with
    | Some s' => (state_rank (sst_State (ses_Status s)) <= state_rank (sst_State (ses_Status s')))%nat
    | None => sst_State (ses_Status s) = SessionStateClosed ∧ aged_out s (clock w')
    end) w) as Hwp; [|by apply (run_wp env _ _ _ _ _ Hrun Hwp)].
  assert (∀ w', unchanged w w' → (∀ k', k' ≠ okey KSession s → view KSession w' k' = view KSession w k') ∧
    match view KSession w' (okey KSession s) with
    | Some s' => (state_rank (sst_State (ses_Status s)) <= state_rank (sst_State (ses_Status s')))%nat
    | None => sst_State (ses_Status s) = SessionStateClosed ∧ aged_out s (clock w')
    end) as Hsame.
  { intros v Hun. split; [intros; apply (proj1 Hun)|]. by rewrite (proj1 Hun), Hv. }
  apply wp_bind, wp_call. intros g w1 [_ [Hun Hg]]. destruct g as [s1|e]; cbn beta iota.
  2:{ intros _. by apply Hsame. }
  rewrite Hv in Hg. injection Hg as <-. assert (view KSession w1 (okey KSession s) = Some s) as Hv1.
  { by rewrite (proj1 Hun). }
  destruct (sst_State (ses_Status s)) eqn:Hst.
  - intros _. by apply Hsame.
  - eapply wp_mono; [by apply wp_reconcileActive|]. intros x w2 [Hsb Hx] Hok. split.
    { intros k' Hne. rewrite (same_but_key _ _ _ _ _ Hsb Hne). apply (proj1 Hun). }
    destruct x as [res'|]; [|done]. destruct (time_IsZero _).
    { rewrite (proj1 Hx), Hv1. by rewrite Hst. }
    destruct Hx as (t & _ & Hx). destruct (_ <=? _).
    + rewrite (proj1 (proj1 Hx)), Hv1. by rewrite Hst.
    + destruct Hx as (s' & -> & Hr & _). rewrite Hr. simpl. lia.
  - eapply wp_mono; [by apply wp_reconcileClosed|]. intros x w2 (Hf & Hx & Ho) Hok. split.
    { intros k' Hne. rewrite (frame_view KSession _ _ _ _ Hf); [apply (proj1 Hun)|].
      intros [[? _]|[_ ?]]; done. }
    destruct x as [res'|]; [|done]. destruct Ho as [_ Ho].
    destruct (view KSession w2 (okey KSession s)) as [s2|] eqn:Hv2.
    + rewrite (Ho Hv1 _ eq_refl), Hst. done.
    + destruct Hx as [Hx|Hx]; [congruence|done].
Qed.

End proofs.
