(* ===== verification/AccessProfileController.v ===== *)
(** * The access profile controller (internal/controller/accessprofile_controller.go)

    One shared Role per grant namespace of a profile. Go iterates over the map
    of rules in an unspecified order; [iter] is that order, and the theorems
    hold for every one. They show that a successful sync leaves in each
    existing grant namespace a role with exactly the union of the rules granted
    there, reports exactly the missing namespaces, and leaves no role of the
    profile anywhere else; and that a deleted profile keeps its finalizer until
    its roles are gone. *)

From S2P Require Import Prelude GoStrings KubeTypes ApiTypes Client Libs PodSpec StatusMonad SandboxRBAC.
From Stdlib Require Import String.
From stdpp Require Import base gmap strings list pretty sorting.
From Stdlib Require Import ZArith Lia.
Local Open Scope Z_scope.

(** ** Rules by namespace *)

(** A Go map from namespace to rules, as an association list. *)
Abbreviation RuleMap := (list (string * list PolicyRule)).

(** [rulesByNS[ns] = append(rulesByNS[ns], rules...)]. *)
Fixpoint addRules (ns : string) (rules : list PolicyRule) (m : RuleMap) : RuleMap :=
  match m with
  | [] => [(ns, rules)]
  | (ns', rs) :: m' => if String.eqb ns' ns then (ns', rs ++ rules) :: m'
                       else (ns', rs) :: addRules ns rules m'
  end.

Definition addGrant (m : RuleMap) (g : NamespacedGrant) : RuleMap :=
  foldl (λ m ns, addRules ns (gr_Rules g) m) m (gr_Namespaces g).

Definition rulesByNS (profile : AccessProfile) : RuleMap :=
  foldl addGrant [] (aps_Grants (ap_Spec profile)).

(** [slices.Sort] on strings. *)
Fixpoint insert_sorted (s : string) (l : list string) : list string :=
  match l with
  | [] => [s]
  | x :: l' => if String.ltb s x then s :: l else x :: insert_sorted s l'
  end.

Definition sort_strings (l : list string) : list string := foldr insert_sorted [] l.

Section profile.
Context `{AM : ApiMachinery}.
Context (iter : RuleMap → RuleMap).

Definition namespaceExists (name : string) : prog (res bool) :=
  r ← call (EGet KNamespace (nn "" name));
  match r with
  | Ok _ => Ret (Ok true)
  | Err e => Ret (if IsNotFound e then Ok false else Err e)
  end.

Definition roleKey (profile : AccessProfile) (ns : string) : NamespacedName :=
  nn ns (profileRoleName (Name profile)).

Definition roleLabels (profile : AccessProfile) : gmap string string :=
  list_to_map [(LabelProfile, Name profile); (LabelManagedBy, ManagedByValue)].

Definition desiredRole (profile : AccessProfile) (ns : string) (rules : list PolicyRule) : Role :=
  {| role_ObjectMeta := set_labels (roleLabels profile) (newMeta ns (profileRoleName (Name profile)));
     role_Rules := rules |}.

(** The stored role with the new rules, and with labels if it has none. *)
Definition with_rules (desired existing : Role) : Role :=
  {| role_ObjectMeta := if bool_decide (mLabels existing = ∅)
                        then set_labels (mLabels desired) existing else role_ObjectMeta existing;
     role_Rules := role_Rules desired |}.

Definition applyRole (profile : AccessProfile) (ns : string) (rules : list PolicyRule) : prog (res unit) :=
  let desired := desiredRole profile ns rules in
  r ← call (EGet KRole (roleKey profile ns));
  match r with
  | Err e =>
    if IsNotFound e then
      c ← call (ECreate KRole desired); Ret (IgnoreAlreadyExists (to_unit c))
    else Ret (Err e)
  | Ok existing =>
    if negb (SemanticDeepEqual (role_Rules existing) (role_Rules desired)) then
      u ← call (EUpdate KRole (with_rules desired existing)); Ret (to_unit u)
    else Ret (Ok tt)
  end.

(** The loop over the map: the namespaces missing and those applied. *)
Fixpoint applyRoles (profile : AccessProfile) (l : RuleMap) (missing applied : list string)
  : prog (res (list string * list string)) :=
  match l with
  | [] => Ret (Ok (missing, applied))
  | (ns, rules) :: l' =>
    exists_ ←? namespaceExists ns;
    if negb (exists_ : bool) then applyRoles profile l' (missing ++ [ns]) applied
    else applyRole profile ns rules ;;? applyRoles profile l' missing (applied ++ [ns])
  end.

(** Deleting the profile's roles outside [keep]. *)
Definition gcRoles (profile : AccessProfile) (keep : list string) : prog (res unit) :=
  gcLabelled KRole LabelProfile (Name profile) keep.

Definition syncRoles (profile : AccessProfile) : prog (res (list string)) :=
  ma ←? applyRoles profile (iter (rulesByNS profile)) [] [];
  gcRoles profile ma.2 ;;?
  Ret (Ok (sort_strings ma.1)).

(** ** Nudging sandboxes *)

Definition annotationProfileGeneration : string := "kubepark.dev/profile-generation".

Definition nudge (generation : Z) (profile : string) (sb : Sandbox) : Sandbox :=
  with_sb_meta (set_annotations
    (<[annotationProfileGeneration := pretty generation +:+ "-" +:+ profile]> (mAnnotations sb)) sb) sb.

Fixpoint nudgeAll (profile : string) (l : list Sandbox) : prog unit :=
  match l with
  | [] => Ret tt
  | sb :: l' =>
    _ ← call (EPatch KSandbox (okey KSandbox sb) (nudge (Generation sb) profile));
    nudgeAll profile l'
  end.

Definition requeueSandboxes (profile : string) : prog unit :=
  r ← call (EList KSandbox (MatchingFields indexSandboxAccessProfile profile));
  match r with Err _ => Ret tt | Ok l => nudgeAll profile l end.

(** ** Reconciliation *)

Definition profileCondition (profile : AccessProfile) (missing : list string) : Condition :=
  match missing with
  | [] => {| c_Type := ConditionValid; c_Status := ConditionTrue; c_Reason := ReasonValid;
             c_Message := "all grant namespaces exist"; c_ObservedGeneration := Generation profile |}
  | _ => {| c_Type := ConditionValid; c_Status := ConditionFalse; c_Reason := ReasonMissingNamespace;
            c_Message := "missing namespaces: " +:+ GoStrings.Join missing ", " +:+ " (other grants applied)";
            c_ObservedGeneration := Generation profile |}
  end.

Definition profileStatus (profile : AccessProfile) (missing : list string) : AccessProfileStatus :=
  {| apst_Conditions := SetStatusCondition (apst_Conditions (ap_Status profile))
                          (profileCondition profile missing);
     apst_ObservedGeneration := Generation profile |}.

Definition withoutProfileFinalizer (p : AccessProfile) : AccessProfile :=
  with_ap_meta (set_finalizers (RemoveFinalizer (Finalizers p) AccessProfileFinalizer) p) p.
Definition withProfileFinalizer (p : AccessProfile) : AccessProfile :=
  with_ap_meta (set_finalizers (AddFinalizer (Finalizers p) AccessProfileFinalizer) p) p.

Definition finalizeProfile (profile : AccessProfile) : prog (res Result) :=
  if negb (ContainsFinalizer (Finalizers profile) AccessProfileFinalizer) then Ret (Ok noResult)
  else
    gcRoles profile [] ;;?
    _ ← requeueSandboxes (Name profile);
    u ← call (EUpdate KAccessProfile (withoutProfileFinalizer profile));
    match u with Ok _ => Ret (Ok noResult) | Err e => Ret (Err e) end.

Definition profile_Reconcile (req : NamespacedName) : prog (res Result) :=
  g ← call (EGet KAccessProfile req);
  match g with
  | Err e => Ret (if IsNotFound e then Ok noResult else Err e)
  | Ok profile =>
    if negb (ptr_IsZero (DeletionTimestamp (ap_ObjectMeta profile))) then finalizeProfile profile
    else
      profile ←? (if negb (ContainsFinalizer (Finalizers profile) AccessProfileFinalizer)
                  then call (EUpdate KAccessProfile (withProfileFinalizer profile))
                  else Ret (Ok profile));
      missing ←? syncRoles profile;
      _ ← requeueSandboxes (Name profile);
      u ← call (EStatusUpdate KAccessProfile (with_ap_status (profileStatus profile missing) profile));
      Ret match IgnoreNotFound (to_unit u) with Ok _ => Ok noResult | Err e => Err e end
  end.

Definition profilesForNamespace (ns : string) : prog (list NamespacedName) :=
  r ← call (EList KAccessProfile {| lo_Namespace := None; lo_Labels := []; lo_Field := None |});
  match r with
  | Err _ => Ret []
  | Ok l => Ret ((λ p, nn "" (Name (ap_ObjectMeta p))) <$>
                 List.filter (λ p, contains (grantNamespaces p) ns) l)
  end.

End profile.

(** ** The map of rules *)

(** The rules a profile grants in a namespace: those of each grant, once for
    each time the grant names it. *)
Definition rulesOf (gs : list NamespacedGrant) (ns : string) : list PolicyRule :=
  List.flat_map (λ g, List.flat_map (λ ns', if String.eqb ns' ns then gr_Rules g else [])
                                    (gr_Namespaces g)) gs.

Definition rule_at (m : RuleMap) (ns : string) : option (list PolicyRule) :=
  match find_first (λ e, String.eqb e.1 ns) m with Some e => Some e.2 | None => None end.

Lemma rule_at_addRules ns rules m ns' :
  rule_at (addRules ns rules m) ns' =
  if String.eqb ns ns' then Some (default [] (rule_at m ns') ++ rules) else rule_at m ns'.
Proof.
  unfold rule_at. induction m as [|[n rs] m IH]; simpl.
  - by destruct (String.eqb ns ns').
  - destruct (String.eqb_spec n ns) as [->|Hn]; simpl.
    + by destruct (String.eqb ns ns').
    + destruct (String.eqb_spec n ns') as [->|Hn']; simpl; [|exact IH].
      by destruct (String.eqb_spec ns ns') as [->|].
Qed.

Lemma elem_of_addRules ns rules m x :
  x ∈ (addRules ns rules m).*1 ↔ x = ns ∨ x ∈ m.*1.
Proof.
  induction m as [|[n rs] m IH]; simpl; [rewrite list_elem_of_singleton, elem_of_nil; tauto|].
  destruct (String.eqb_spec n ns) as [->|Hne]; simpl; rewrite !elem_of_cons; [tauto|].
  rewrite IH. tauto.
Qed.

Lemma addRules_keys ns rules m : NoDup m.*1 → NoDup (addRules ns rules m).*1.
Proof.
  induction m as [|[n rs] m IH]; simpl; intros Hnd; [apply NoDup_singleton|].
  apply NoDup_cons in Hnd as [Hn Hnd]. destruct (String.eqb_spec n ns) as [->|Hne]; simpl.
  - by constructor.
  - constructor; [|by apply IH]. rewrite elem_of_addRules. by intros [|].
Qed.

Lemma rulesByNS_keys p : NoDup (rulesByNS p).*1.
Proof.
  unfold rulesByNS. assert (∀ gs m, NoDup m.*1 → NoDup (foldl addGrant m gs).*1) as Hgs;
    [|apply Hgs; constructor].
  induction gs as [|g gs IH]; intros m Hm; simpl; [done|]. apply IH.
  unfold addGrant. revert m Hm. induction (gr_Namespaces g) as [|ns l IHl]; intros m Hm; simpl; [done|].
  by apply IHl, addRules_keys.
Qed.

Lemma contains_cons x l s : contains (x :: l) s = String.eqb x s || contains l s.
Proof.
  apply eq_true_iff_eq. rewrite orb_true_iff, !contains_true, String.eqb_eq, elem_of_cons. naive_solver.
Qed.

Lemma rule_at_namespaces rules l m ns :
  rule_at (foldl (λ m ns, addRules ns rules m) m l) ns =
  if contains l ns
  then Some (default [] (rule_at m ns) ++ List.flat_map (λ n, if String.eqb n ns then rules else []) l)
  else rule_at m ns.
Proof.
  revert m. induction l as [|n l IH]; intros m; simpl; [done|].
  rewrite IH, rule_at_addRules, contains_cons. destruct (String.eqb n ns); simpl; [|done].
  destruct (contains l ns) eqn:Hc; simpl; [by rewrite app_assoc|].
  assert (List.flat_map (λ n, if String.eqb n ns then rules else []) l = []) as ->; [|by rewrite app_nil_r].
  clear IH. induction l as [|x l IH]; [done|]. rewrite contains_cons, orb_false_iff in Hc.
  destruct Hc as [Hx Hc]. simpl. by rewrite Hx, IH.
Qed.

Lemma rulesOf_one_none g ns :
  contains (gr_Namespaces g) ns = false →
  List.flat_map (λ ns', if String.eqb ns' ns then gr_Rules g else []) (gr_Namespaces g) = [].
Proof.
  induction (gr_Namespaces g) as [|x l IH]; [done|]. rewrite contains_cons, orb_false_iff.
  intros [Hx Hl]. simpl. by rewrite Hx, IH.
Qed.

Lemma rulesOf_none gs ns :
  existsb (λ g, contains (gr_Namespaces g) ns) gs = false → rulesOf gs ns = [].
Proof.
  induction gs as [|g gs IH]; simpl; [done|]. rewrite orb_false_iff. intros [Hg Hgs].
  unfold rulesOf in *. simpl. by rewrite rulesOf_one_none, IH.
Qed.

Lemma rule_at_grants gs m ns :
  rule_at (foldl addGrant m gs) ns =
  if existsb (λ g, contains (gr_Namespaces g) ns) gs
  then Some (default [] (rule_at m ns) ++ rulesOf gs ns) else rule_at m ns.
Proof.
  revert m. induction gs as [|g gs IH]; intros m; simpl; [done|].
  rewrite IH. unfold addGrant at 1 2. rewrite rule_at_namespaces. unfold rulesOf. simpl.
  destruct (contains (gr_Namespaces g) ns) eqn:Hc; simpl.
  - destruct (existsb _ gs) eqn:He; [by rewrite app_assoc|].
    fold (rulesOf gs ns). by rewrite (rulesOf_none gs ns He), app_nil_r.
  - assert (List.flat_map (λ ns', if String.eqb ns' ns then gr_Rules g else []) (gr_Namespaces g) = []) as ->; [|done].
    by apply rulesOf_one_none.
Qed.

Lemma rule_at_elem m ns rules : NoDup m.*1 → (ns, rules) ∈ m ↔ rule_at m ns = Some rules.
Proof.
  unfold rule_at. induction m as [|[n rs] m IH]; simpl; intros Hnd; [by rewrite elem_of_nil|].
  apply NoDup_cons in Hnd as [Hn Hnd]. rewrite elem_of_cons. destruct (String.eqb_spec n ns) as [->|Hne].
  - split; [|intros [= <-]; by left]. intros [[= <-]|Hin]; [done|]. destruct Hn.
    apply list_elem_of_fmap. by exists (ns, rules).
  - rewrite IH by done. split; [by intros [[= -> _]|]|by right].
Qed.

(** What the map holds: for each namespace of a grant, the union of its rules. *)
Lemma elem_rulesByNS p ns rules :
  (ns, rules) ∈ rulesByNS p ↔
  ns ∈ grantNamespaces p ∧ rules = rulesOf (aps_Grants (ap_Spec p)) ns.
Proof.
  rewrite (rule_at_elem _ _ _ (rulesByNS_keys p)). unfold rulesByNS. rewrite rule_at_grants. simpl.
  rewrite elem_of_grantNamespaces. destruct (existsb _ _) eqn:He.
  - apply existsb_exists in He as (g & Hg & Hns). apply contains_true in Hns.
    apply list_elem_of_In in Hg. naive_solver.
  - split; [done|]. intros [(g & Hg & Hns) _]. assert (existsb (λ g, contains (gr_Namespaces g) ns)
      (aps_Grants (ap_Spec p)) = true) as Ht; [|congruence].
    apply existsb_exists. exists g. split; [by apply list_elem_of_In|]. by apply contains_true.
Qed.

(** ** Sorting *)

Lemma insert_sorted_perm x l : insert_sorted x l ≡ₚ x :: l.
Proof.
  induction l as [|y l IH]; simpl; [done|]. destruct (String.ltb x y); [done|].
  rewrite IH. apply Permutation_swap.
Qed.

Lemma sort_strings_perm l : sort_strings l ≡ₚ l.
Proof. induction l as [|x l IH]; simpl; [done|]. by rewrite insert_sorted_perm, IH. Qed.

(** In byte order. *)
Definition in_order (a b : string) : Prop := String.ltb b a = false.

Lemma insert_sorted_sorted x l : Sorted in_order l → Sorted in_order (insert_sorted x l).
Proof.
  induction 1 as [|y l Hl IH Hy]; simpl; [by constructor|].
  destruct (String.ltb x y) eqn:E.
  - constructor; [by constructor|]. constructor. by apply ltb_asym.
  - constructor; [exact IH|]. destruct l as [|z l]; simpl; [by constructor|].
    destruct (String.ltb x z); constructor; [done|]. by inversion Hy.
Qed.

Lemma sort_strings_sorted l : Sorted in_order (sort_strings l).
Proof. induction l; simpl; [constructor|]. by apply insert_sorted_sorted. Qed.

(** ** Roles *)

Section proofs.
Context `{AM : ApiMachinery} `{!ApiMachineryLaws AM} {W : Type} `{World W}.

Definition namespace_exists (w : W) (ns : string) : Prop := is_Some (view KNamespace w (nn "" ns)).

Lemma wp_namespaceExists name w :
  wp (namespaceExists name)
     (λ r w', unchanged w w' ∧
        match r with Ok b => b = true ↔ namespace_exists w name | Err _ => True end) w.
Proof.
  apply wp_bind, wp_call. intros [o|e] w' [_ [Hun Hr]]; simpl; unfold namespace_exists.
  - split; [done|]. rewrite Hr. split; eauto.
  - split; [done|]. destruct (IsNotFound e); [|done]. rewrite (Hr eq_refl).
    split; [done|]. by intros [? ?].
Qed.

(** A live role of the profile in the namespace with exactly these rules. *)
Definition role_is (p : AccessProfile) (ns : string) (rules : list PolicyRule) (w : W) : Prop :=
  ∃ role, view KRole w (roleKey p ns) = Some role ∧ role_Rules role = rules ∧
    DeletionTimestamp role = None.

Lemma wp_applyRole p ns rules w :
  settled KRole w (roleKey p ns) →
  wp (applyRole p ns rules)
     (λ r w', same_but KRole (roleKey p ns) w w' ∧
        match r with Ok _ => role_is p ns rules w' | Err _ => True end) w.
Proof.
  intros Hset. apply wp_bind, wp_call. intros [role|e] w1 [_ [Hun Hr]]; cbn beta iota;
    pose proof (unchanged_same_but KRole (roleKey p ns) _ _ Hun) as Hsb1.
  2:{ destruct (IsNotFound e); [|done]. apply wp_bind, wp_call. intros c w2 [_ [Hsb Hc]].
      change (okey KRole (desiredRole p ns rules)) with (roleKey p ns) in Hsb, Hc.
      split; [by eapply same_but_trans|]. destruct c as [o|e']; simpl.
      - destruct Hc as (_ & Hv & uid & gen & rv & t & ->). by eexists.
      - destruct (IsAlreadyExists e'); [|done]. destruct (Hc eq_refl) as [[o Ho] _].
        rewrite (proj1 Hun) in Ho. by rewrite (Hr eq_refl) in Ho. }
  pose proof (view_key _ _ _ _ _ Hr) as Hkey. destruct (Hset _ Hr) as [Hlive _].
  destruct (SemanticDeepEqual _ _) eqn:Heq; cbn [negb].
  - apply SemanticDeepEqual_spec in Heq. split; [done|]. exists role. by rewrite (proj1 Hun).
  - apply wp_bind, wp_call. intros u w2 [_ Hu]. set (new := with_rules _ role) in *.
    change (update_spec KRole new w1 u w2) in Hu. unfold update_spec in Hu.
    assert (okey KRole new = roleKey p ns) as Hk.
    { rewrite <- Hkey. unfold new, with_rules, okey. simpl. by case_bool_decide. }
    rewrite Hk in Hu. destruct Hu as [Hsb Hu]. split; [by eapply same_but_trans|].
    destruct u as [o|e]; [|done]. destruct Hu as (cur & Hcur & _ & (gen & rv & ->) & Hv').
    rewrite (proj1 Hun), Hr in Hcur. injection Hcur as <-. simpl in Hlive.
    rewrite bool_decide_eq_false_2 in Hv' by (simpl; rewrite Hlive; intros [[? ?] _]; done).
    eexists. split; [exact Hv'|]. split; [done|]. simpl. unfold new, with_rules. simpl.
    by case_bool_decide.
Qed.

Lemma role_is_view p ns rules w w' :
  view KRole w' (roleKey p ns) = view KRole w (roleKey p ns) →
  role_is p ns rules w → role_is p ns rules w'.
Proof. unfold role_is. by intros ->. Qed.

Definition role_targets (p : AccessProfile) (t : tag) (k : NamespacedName) : Prop :=
  t = TRole ∧ nn_Name k = profileRoleName (Name p).

(** What the loop over [l] establishes. *)
Definition roles_applied (p : AccessProfile) (l : RuleMap) (w w' : W) : Prop :=
  ∀ ns rules, (ns, rules) ∈ l → namespace_exists w ns → role_is p ns rules w'.

Lemma wp_applyRoles p l missing applied w :
  NoDup l.*1 → (∀ ns, ns ∈ l.*1 → settled KRole w (roleKey p ns)) →
  wp (applyRoles p l missing applied)
     (λ r w', frame (role_targets p) w w' ∧
        match r with
        | Ok (m, a) =>
          (∀ ns, ns ∈ m ↔ ns ∈ missing ∨ (ns ∈ l.*1 ∧ ¬ namespace_exists w ns)) ∧
          (∀ ns, ns ∈ a ↔ ns ∈ applied ∨ (ns ∈ l.*1 ∧ namespace_exists w ns)) ∧
          roles_applied p l w w' ∧
          (∀ ns, ns ∉ l.*1 → view KRole w' (roleKey p ns) = view KRole w (roleKey p ns))
        | Err _ => True
        end) w.
Proof.
  revert missing applied w. induction l as [|[ns rules] l IH]; intros missing applied w Hnd Hset.
  { split; [apply frame_refl|]. split; [set_solver|]. split; [set_solver|]. split; [|done].
    intros ns rules Hin. by apply not_elem_of_nil in Hin. }
  apply NoDup_cons in Hnd as [Hns Hnd]. cbn [fst] in Hns. simpl applyRoles.
  apply wp_ebind. eapply wp_mono; [apply wp_namespaceExists|].
  intros [b|e] w1 [Hun1 Hb]; [|split; [by apply frame_unchanged|done]].
  assert (∀ n, namespace_exists w1 n ↔ namespace_exists w n) as Hne1.
  { intros n. unfold namespace_exists. by rewrite (proj1 Hun1). }
  assert (∀ n, n ∈ ns :: l.*1 → settled KRole w1 (roleKey p n)) as Hset1.
  { intros n Hn o. rewrite (proj1 Hun1). by apply Hset. }
  destruct b; cbn [negb].
  - assert (namespace_exists w ns) as Hex by by apply Hb.
    apply wp_ebind. eapply wp_mono; [apply wp_applyRole, Hset1; left|]. intros r w2 [Hsb2 Hr2].
    assert (frame (role_targets p) w w2) as Hf2.
    { eapply frame_trans; [by apply frame_unchanged|]. by eapply frame_same_but. }
    destruct r as [[]|e]; [|done].
    assert (∀ n, n ≠ ns → view KRole w2 (roleKey p n) = view KRole w (roleKey p n)) as Hv2.
    { intros n Hn. rewrite <- (proj1 Hun1). apply (same_but_key _ _ _ _ _ Hsb2). unfold roleKey, nn. congruence. }
    assert (∀ n, namespace_exists w2 n ↔ namespace_exists w n) as Hne2.
    { intros n. unfold namespace_exists. by rewrite (frame_view KNamespace _ _ _ _ Hf2) by by intros [? _]. }
    eapply wp_mono; [apply IH; [done|]|].
    + intros n Hn o. rewrite Hv2 by (intros ->; done). apply Hset. by right.
    + intros r w3 [Hf3 Hr3]. split; [by eapply frame_trans|]. destruct r as [[m a]|e]; [|done].
      destruct Hr3 as (Hm & Ha & Hroles & Hsame). simpl.
      split; [intros n; rewrite Hm, Hne2, elem_of_cons; naive_solver|].
      split; [intros n; rewrite Ha, Hne2, elem_of_app, !elem_of_cons, elem_of_nil; naive_solver|].
      split.
      * intros n rs [[= -> ->]|Hin]%elem_of_cons Hn.
        -- eapply role_is_view; [|exact Hr2]. by apply Hsame.
        -- apply Hroles; [done|]. by apply Hne2.
      * intros n [Hn Hnl]%not_elem_of_cons. rewrite Hsame by done. by apply Hv2.
  - assert (¬ namespace_exists w ns) as Hex by (intros Hx; by apply Hb in Hx).
    eapply wp_mono; [apply IH; [done|]|].
    + intros n Hn. apply Hset1. by right.
    + intros r w3 [Hf3 Hr3]. split; [eapply frame_trans; [by apply frame_unchanged|done]|].
      destruct r as [[m a]|e]; [|done]. destruct Hr3 as (Hm & Ha & Hroles & Hsame). simpl.
      split; [intros n; rewrite Hm, Hne1, elem_of_app, !elem_of_cons, elem_of_nil; naive_solver|].
      split; [intros n; rewrite Ha, Hne1, elem_of_cons; naive_solver|].
      split.
      * intros n rs [[= -> ->]|Hin]%elem_of_cons Hn; [done|]. apply Hroles; [done|]. by apply Hne1.
      * intros n [Hn Hnl]%not_elem_of_cons. rewrite Hsame by done. apply (proj1 Hun1).
Qed.

(** ** The sync *)

(** Nothing but roles of the profile's name and roles that carry its label. *)
Definition sync_targets (p : AccessProfile) (w : W) (t : tag) (k : NamespacedName) : Prop :=
  t = TRole ∧ (nn_Name k = profileRoleName (Name p) ∨
    ∃ role, view KRole w k = Some role ∧ mLabels role !! LabelProfile = Some (Name p)).

Definition synced (p : AccessProfile) (w : W) (missing : list string) (w' : W) : Prop :=
  (∀ ns, ns ∈ missing ↔ ns ∈ grantNamespaces p ∧ ¬ namespace_exists w ns) ∧
  Sorted in_order missing ∧
  (∀ ns, ns ∈ grantNamespaces p → namespace_exists w ns →
     role_is p ns (rulesOf (aps_Grants (ap_Spec p)) ns) w') ∧
  (∀ k role, view KRole w' k = Some role → mLabels role !! LabelProfile = Some (Name p) →
     DeletionTimestamp role = None →
     nn_Namespace k ∈ grantNamespaces p ∧ namespace_exists w (nn_Namespace k)).

Lemma wp_syncRoles iter p w :
  (∀ m, iter m ≡ₚ m) → (∀ ns, settled KRole w (roleKey p ns)) →
  wp (syncRoles iter p)
     (λ r w', frame (sync_targets p w) w w' ∧
        match r with Ok missing => synced p w missing w' | Err _ => True end) w.
Proof.
  intros Hiter Hset. set (l := iter (rulesByNS p)).
  assert (∀ ns rules, (ns, rules) ∈ l ↔
            ns ∈ grantNamespaces p ∧ rules = rulesOf (aps_Grants (ap_Spec p)) ns) as Hl.
  { intros ns rules. unfold l. rewrite Hiter. apply elem_rulesByNS. }
  assert (∀ ns, ns ∈ l.*1 ↔ ns ∈ grantNamespaces p) as Hkeys.
  { intros ns. rewrite list_elem_of_fmap. split.
    - intros ([n rs] & -> & Hin). by apply Hl in Hin as [? _].
    - intros Hns. exists (ns, rulesOf (aps_Grants (ap_Spec p)) ns). split; [done|]. by apply Hl. }
  apply wp_ebind. eapply wp_mono; [apply (wp_applyRoles p l)|].
  { unfold l. rewrite Hiter. apply rulesByNS_keys. }
  { auto. }
  intros r w1 [Hf1 Hr1]. assert (frame (sync_targets p w) w w1) as Hg1.
  { eapply frame_mono; [exact Hf1|]. intros t k [-> Hn]. split; [done|by left]. }
  destruct r as [[m a]|e]; [|done]. destruct Hr1 as (Hm & Ha & Hroles & Hsame). cbn [fst snd].
  apply wp_ebind. eapply wp_mono; [apply wp_gcLabelled|]. intros r w2 [Hf2 Hr2].
  assert (frame (sync_targets p w) w w2) as Hg2.
  { eapply frame_trans; [exact Hg1|]. eapply frame_mono; [exact Hf2|].
    intros t k (-> & role & Hv & Hlab & _). split; [done|].
    destruct (decide (nn_Name k = profileRoleName (Name p))) as [|Hne]; [by left|]. right.
    exists role. split; [|done]. by rewrite <- (frame_view KRole _ _ _ _ Hf1) by by intros [_ ?]. }
  destruct r as [[]|e]; [|done]. split; [done|]. split; [|split; [|split]].
  - intros ns. rewrite sort_strings_perm, Hm, Hkeys. split; [|by right].
    intros [Hx|?]; [by apply not_elem_of_nil in Hx|done].
  - apply sort_strings_sorted.
  - intros ns Hns Hex. eapply role_is_view; [|apply Hroles; [by apply Hl|done]].
    apply (frame_view KRole _ _ _ _ Hf2). intros (_ & _ & _ & _ & Hnin). apply Hnin. simpl.
    apply Ha. right. split; [by apply Hkeys|done].
  - intros k role Hv Hlab Hd. specialize (Hr2 k role Hv Hlab Hd). apply Ha in Hr2 as [Hx|[Hx Hex]];
      [by apply not_elem_of_nil in Hx|]. split; [by apply Hkeys|done].
Qed.

(** ** Nudging and finalization *)

Definition sandbox_kind (t : tag) (k : NamespacedName) : Prop := t = TSandbox.

Lemma wp_requeueSandboxes profile w :
  wp (requeueSandboxes profile) (λ _ w', frame sandbox_kind w w') w.
Proof.
  apply wp_bind, wp_call. intros [l|e] w1 [_ [Hun _]]; cbn beta iota; [|by apply frame_unchanged].
  assert (∀ l w1, wp (nudgeAll profile l) (λ _ w2, frame sandbox_kind w1 w2) w1) as Hl.
  { intros l'. induction l' as [|sb l' IH]; intros v; simpl; [apply frame_refl|].
    intros r w2 [_ [Hsb _]]. eapply wp_mono; [apply IH|]. intros [] w3 Hf.
    eapply frame_trans; [by eapply frame_same_but|done]. }
  eapply wp_mono; [apply Hl|]. intros [] w2 Hf. eapply frame_trans; [by apply frame_unchanged|done].
Qed.

(** No live role carries the profile's label. *)
Definition no_roles (p : AccessProfile) (w : W) : Prop :=
  ∀ k role, view KRole w k = Some role → mLabels role !! LabelProfile = Some (Name p) →
    is_Some (DeletionTimestamp role).

Lemma no_roles_view p w w' :
  (∀ k, view KRole w' k = view KRole w k) → no_roles p w → no_roles p w'.
Proof. intros Hv Hn k role. rewrite Hv. apply Hn. Qed.

Definition profileKey (p : AccessProfile) : NamespacedName := okey KAccessProfile p.

Lemma wp_finalizeProfile p w :
  view KAccessProfile w (profileKey p) = Some p → AccessProfileFinalizer ∈ Finalizers p →
  wp (finalizeProfile p)
     (λ r w',
        (no_roles p w' ∨
         ∃ o, view KAccessProfile w' (profileKey p) = Some o ∧ AccessProfileFinalizer ∈ Finalizers o) ∧
        (is_ok r = true → no_roles p w' ∧
         ∀ o, view KAccessProfile w' (profileKey p) = Some o → AccessProfileFinalizer ∉ Finalizers o)) w.
Proof.
  intros Hv Hfin. unfold finalizeProfile. apply ContainsFinalizer_spec in Hfin as Hc. rewrite Hc. cbn [negb].
  apply wp_ebind. eapply wp_mono; [apply wp_gcLabelled|]. intros r w1 [Hf1 Hr1].
  assert (view KAccessProfile w1 (profileKey p) = Some p) as Hv1.
  { by rewrite (frame_view KAccessProfile _ _ _ _ Hf1) by by intros [? _]. }
  destruct r as [[]|e]; [|split; [right; eauto|done]].
  assert (no_roles p w1) as Hn1.
  { intros k role Hr Hl. destruct (DeletionTimestamp role) eqn:Hd; [eauto|].
    specialize (Hr1 k role Hr Hl Hd). by apply not_elem_of_nil in Hr1. }
  apply wp_bind. eapply wp_mono; [apply wp_requeueSandboxes|]. intros [] w2 Hf2.
  assert (no_roles p w2) as Hn2.
  { eapply no_roles_view; [|exact Hn1]. intros k. by apply (frame_view KRole _ _ _ _ Hf2). }
  apply wp_bind, wp_call. intros u w3 [_ Hu].
  change (update_spec KAccessProfile (withoutProfileFinalizer p) w2 u w3) in Hu. unfold update_spec in Hu.
  change (okey KAccessProfile (withoutProfileFinalizer p)) with (profileKey p) in Hu.
  destruct Hu as [Hsb Hu]. assert (no_roles p w3) as Hn3.
  { eapply no_roles_view; [|exact Hn2]. intros k. by apply (same_but_view _ _ KRole _ _ _ Hsb). }
  destruct u as [o'|e]; cbn beta iota; (split; [by left|]); [|done]. intros _. split; [done|].
  intros o Ho. destruct Hu as (cur & _ & _ & (gen & rv & ->) & Hv'). rewrite Ho in Hv'.
  destruct (bool_decide _); [done|]. injection Hv' as ->. simpl.
  intros Hin. by apply RemoveFinalizer_spec in Hin as [? _].
Qed.

(** A nudge that was applied once changes nothing the next time: its value is
    made of the sandbox's generation, which an annotation does not move. *)
Lemma nudge_repeat g profile sb : nudge g profile (nudge g profile sb) = nudge g profile sb.
Proof. unfold nudge. simpl. by rewrite insert_insert_eq. Qed.

(** ** The theorems *)

Context (env : Env W) `{!Conforms env}.

(** C34. Whatever order the rules are visited in, a sync that succeeds leaves in
    every existing grant namespace a live role with exactly the rules the
    grants give there, leaves no live role with the profile's label anywhere
    else, and returns exactly the grant namespaces that do not exist, sorted. *)
Theorem syncRoles_exact iter p w missing w' :
  (∀ m, iter m ≡ₚ m) → (∀ ns, settled KRole w (roleKey p ns)) →
  run env (syncRoles iter p) w = (Ok missing, w') →
  frame (sync_targets p w) w w' ∧ synced p w missing w'.
Proof.
  intros Hi Hs Hrun. exact (run_wp env _ _ _ _ _ Hrun (wp_syncRoles iter p w Hi Hs)).
Qed.

(** A deleted profile keeps its finalizer until no live role carries its
    label, whatever fails; when finalization succeeds both are gone. *)
Theorem profile_finalizer_guards_roles p w r w' :
  view KAccessProfile w (profileKey p) = Some p → AccessProfileFinalizer ∈ Finalizers p →
  run env (finalizeProfile p) w = (r, w') →
  (no_roles p w' ∨
   ∃ o, view KAccessProfile w' (profileKey p) = Some o ∧ AccessProfileFinalizer ∈ Finalizers o) ∧
  (is_ok r = true → no_roles p w' ∧
   ∀ o, view KAccessProfile w' (profileKey p) = Some o → AccessProfileFinalizer ∉ Finalizers o).
Proof. intros Hv Hf Hrun. exact (run_wp env _ _ _ _ _ Hrun (wp_finalizeProfile p w Hv Hf)). Qed.

End proofs.
