(* ===== verification/Watches.v ===== *)
(** * What a change requeues (SetupWithManager)

    The registrations of the three controllers as functions: an object of some
    kind was created, changed or deleted, and these reconciliations are queued.
    The theorems: a change of a child the sandbox controller made requeues its
    sandbox; nothing is queued when a home claim appears that a sandbox waits
    for. *)

From S2P Require Import Prelude GoStrings KubeTypes ApiTypes Client Libs PodSpec SSHCA StatusMonad SandboxRBAC Bootstrap.
From S2P Require Import SandboxHome SandboxNet SandboxRun SandboxReconcile SandboxFinalize SandboxController.
From S2P Require Import SessionController AccessProfileController.
From Stdlib Require Import String.
From stdpp Require Import base gmap strings list.
From Stdlib Require Import ZArith.
Local Open Scope Z_scope.

(** [Owns]: the sandbox that controls the object, in the object's namespace. *)
Definition ownerRequests (m : ObjectMeta) : list NamespacedName :=
  match find_first or_Controller (OwnerReferences m) with
  | Some ref => if String.eqb (or_Kind ref) "Sandbox" then [nn (Namespace m) (or_Name ref)] else []
  | None => []
  end.

(** [SandboxReconciler.SetupWithManager]. *)
Definition sandboxRequests {T} (K : Kind T) : T → prog (list NamespacedName) :=
  match K in Kind T return T → prog (list NamespacedName) with
  | KSandbox => λ sb, Ret [okey KSandbox sb]
  | KPod => λ o, Ret (ownerRequests (meta KPod o))
  | KNetPol => λ o, Ret (ownerRequests (meta KNetPol o))
  | KSecret => λ o, Ret (ownerRequests (meta KSecret o))
  | KServiceAccount => λ o, Ret (ownerRequests (meta KServiceAccount o))
  | KTemplate => λ o, sandboxesForTemplate (meta KTemplate o)
  | KAccessProfile => λ o, sandboxesForAccessProfile (meta KAccessProfile o)
  | KSession => λ s, Ret (sandboxForSession s)
  | KEndpointSlice => λ o, sandboxesForAPIServerEndpoints (meta KEndpointSlice o)
  | KPVC | KRoleBinding | KRole | KNamespace => λ _, Ret []
  end.

(** [SandboxSessionReconciler.SetupWithManager]. *)
Definition sessionRequests {T} (K : Kind T) (o : T) : prog (list NamespacedName) :=
  match K with KSession => Ret [okey K o] | _ => Ret [] end.

(** [AccessProfileReconciler.SetupWithManager]. *)
Definition profileRequests {T} (K : Kind T) (o : T) : prog (list NamespacedName) :=
  match K with
  | KAccessProfile => Ret [okey K o]
  | KNamespace => profilesForNamespace (Name (meta K o))
  | _ => Ret []
  end.

Section proofs.
Context `{AM : ApiMachinery} `{SSH : SSHLib} `{!ApiMachineryLaws AM}.
Context {W : Type} `{World W}.

(** The kinds of children that carry an owner reference. *)
Definition owned_kind {T} (K : Kind T) : Prop := kind_tag K ∈ [TPod; TNetPol; TSecret; TServiceAccount].

(** A child the controller made, as the server stored it, requeues its
    sandbox when it changes. *)
Lemma child_change_requeues {T} (K : Kind T) (sb : Sandbox) (o o' : T) :
  owned_kind K → Namespace (meta K o) = Namespace sb → created_as K (owned_by K sb o) o' →
  sandboxRequests K o' = Ret [okey KSandbox sb].
Proof.
  intros HK Hns (uid & gen & rv & t & ->). set (o' := with_meta _ _ _).
  assert (ownerRequests (meta K o') = [okey KSandbox sb]) as Ho.
  { unfold o', owned_by. rewrite !meta_with_meta. unfold ownerRequests. cbn. unfold okey, nn. cbn. by rewrite Hns. }
  clearbody o'. unfold owned_kind in HK. destruct K; cbn [kind_tag] in HK; try (by rewrite <- Ho).
  all: exfalso; revert HK; rewrite !elem_of_cons, elem_of_nil; naive_solver.
Qed.

Lemma wp_missing_claim r sb s w :
  existingClaim sb ≠ ""%string → (∀ o, ¬ conflicting sb (existingClaim sb) w o) →
  is_Some (view KTemplate w (nn "" (sp_Template (sb_Spec sb)))) →
  view KPVC w (nn (Namespace sb) (existingClaim sb)) = None →
  wp (reconcileSandbox r sb s) (λ sr w', unchanged w w' ∧
    ∀ res, sr.2 = Ok res → res = noResult ∧ st_Phase sr.1 = SandboxPhasePending) w.
Proof.
  intros Hne Hfree [tpl Htpl] Hpvc. apply wp_sbind, wp_sbind_attempt, wp_call. intros t w1 [_ [Hun Ht]].
  destruct t as [tpl'|e]; [|destruct (IsNotFound e); [specialize (Ht eq_refl); congruence|by split]].
  apply wp_sbind. unfold reconcileHome. destruct (String.eqb_spec (existingClaim sb) "") as [|_]; [done|]. cbn [negb].
  apply wp_sbind_lift. eapply wp_mono; [by apply wp_claimConflict|].
  intros x w2 [Hun2 Hc]. pose proof (unchanged_trans _ _ _ Hun Hun2) as Hu2. destruct x as [name|e]; [|by split].
  assert (name = ""%string) as ->.
  { destruct Hc as [[-> _]|(o & [Hv Ho] & ->)]; [done|]. exfalso. apply (Hfree o). split; [|done].
    by rewrite <- (proj1 Hun). }
  cbn [String.eqb negb]. apply wp_sbind_attempt, wp_call. intros p w3 [_ [Hun3 Hp]].
  pose proof (unchanged_trans _ _ _ Hu2 Hun3) as Hu3. destruct p as [pvc|e].
  - rewrite (proj1 Hu2), Hpvc in Hp. done.
  - destruct (IsNotFound e); [|by split]. cbn. split; [done|]. by intros res [= <-].
Qed.

(** A sandbox that waits for an existing claim to appear is not looked at
    again when it does: the reconciliation that found it missing changes
    nothing, reports Pending and asks for no requeue, and claims are not
    watched by any controller. *)
Theorem missing_claim_unnoticed (env : Env W) `{!Conforms env} r sb s w s' res w' :
  existingClaim sb ≠ ""%string → (∀ o, ¬ conflicting sb (existingClaim sb) w o) →
  is_Some (view KTemplate w (nn "" (sp_Template (sb_Spec sb)))) →
  view KPVC w (nn (Namespace sb) (existingClaim sb)) = None →
  run env (reconcileSandbox r sb s) w = ((s', Ok res), w') →
  st_Phase s' = SandboxPhasePending ∧ res = noResult ∧ unchanged w w' ∧
  ∀ pvc, sandboxRequests KPVC pvc = Ret [] ∧ sessionRequests KPVC pvc = Ret [] ∧ profileRequests KPVC pvc = Ret [].
Proof.
  intros Hne Hfree Htpl Hpvc Hrun.
  pose proof (run_wp env _ _ _ _ _ Hrun (wp_missing_claim r sb s w Hne Hfree Htpl Hpvc)) as [Hu Hr].
  destruct (Hr res eq_refl) as [-> Hp]. done.
Qed.

End proofs.
