(* ===== verification/Routing.v ===== *)
(** * Routing names (internal/gateway/routing.go, httproute.go)

    The gateway finds the sandbox a connection is for by parsing the host name
    it was asked for. The theorems: parsing an SSH target or an HTTP host that
    names a sandbox gives that sandbox back, when it fits in a label, an accepted name is exactly the
    rendering of the target it was parsed to, so no other name reaches it, and
    the final ambiguity check of [ParseHTTPHost] can never fail. *)

From Stdlib Require Import String Ascii.
From stdpp Require Import base strings list pretty.
From Stdlib Require Import ZArith Lia.
From S2P Require Import Prelude GoStrings.
Local Open Scope string_scope.

#[local] Arguments String.append !_ _ / : simpl nomatch.
#[local] Arguments String.eqb : simpl never.
#[local] Arguments Ascii.eqb : simpl never.

(** ** SSH targets *)

Record SSHTarget := {
  t_Sandbox : string;
  t_Namespace : string;
}.

Definition ParseSSHTarget (host0 defaultNamespace : string) : res SSHTarget :=
  let host := TrimSpace host0 in
  if String.eqb host "" then Err (TextError "empty ssh target")
  else match Cut host "." with
       | None =>
         if String.eqb defaultNamespace "" then
           Err (TextError ("target " +:+ quote host +:+ " has no namespace and no default is set"))
         else Ok {| t_Sandbox := host; t_Namespace := defaultNamespace |}
       | Some (sandbox, namespace) =>
         if String.eqb sandbox "" || String.eqb namespace "" then
           Err (TextError ("invalid ssh target " +:+ quote host))
         else Ok {| t_Sandbox := sandbox; t_Namespace := namespace |}
       end.

(** ** HTTP hosts *)

Record HTTPTarget := {
  ht_Port : string;
  ht_Sandbox : string;
  ht_Namespace : string;
}.

Definition maxLabelLen : nat := 63.

(** The host in lower case, without surrounding space and without a port. *)
Definition normalizeHost (host : string) : string :=
  let host := ToLower (TrimSpace host) in
  match Cut host ":" with Some (h, _) => h | None => host end.

(** The routing label: what precedes the base domain. *)
Definition routingLabel (host baseDomain : string) : res string :=
  if negb (String.eqb baseDomain "") then
    let suffix := "." +:+ TrimPrefix baseDomain "." in
    if negb (HasSuffix host suffix) then
      Err (TextError ("host " +:+ quote host +:+ " is not under base domain " +:+ quote baseDomain))
    else Ok (TrimSuffix host suffix)
  else Ok match Cut host "." with Some (h, _) => h | None => host end.

Definition formatLabel (t : HTTPTarget) : string :=
  ht_Port t +:+ "--" +:+ ht_Sandbox t +:+ "--" +:+ ht_Namespace t.

Definition parseLabel (label : string) : res HTTPTarget :=
  if (maxLabelLen <? String.length label)%nat then
    Err (TextError ("routing label " +:+ quote label +:+ " exceeds 63 characters"))
  else match Cut label "--" with
  | None => Err (TextError ("host label " +:+ quote label +:+ " missing separators"))
  | Some (port, rest) =>
    match Cut rest "--" with
    | None => Err (TextError ("host label " +:+ quote label +:+ " missing namespace"))
    | Some (sandbox, namespace) =>
      if String.eqb port "" || String.eqb sandbox "" || String.eqb namespace "" then
        Err (TextError ("host label " +:+ quote label +:+ " has an empty component"))
      else
        let target := {| ht_Port := port; ht_Sandbox := sandbox; ht_Namespace := namespace |} in
        if negb (String.eqb (formatLabel target) label) then
          Err (TextError ("host label " +:+ quote label +:+ " is ambiguous"))
        else Ok target
    end
  end.

Definition ParseHTTPHost (host0 baseDomain : string) : res HTTPTarget :=
  let host := normalizeHost host0 in
  match routingLabel host baseDomain with
  | Err e => Err e
  | Ok label => parseLabel label
  end.

(** ** Characters *)

(** Visible ASCII. *)
Definition visible (c : ascii) : bool := (33 <=? nat_of_ascii c)%nat && (nat_of_ascii c <=? 126)%nat.

(** The characters of lower-case host names without a port. *)
Definition host_char (c : ascii) : bool :=
  visible c && negb ((65 <=? nat_of_ascii c)%nat && (nat_of_ascii c <=? 90)%nat)
  && negb (Ascii.eqb c ":").

Lemma strip_prefix_visible p s :
  all_chars visible p = false → all_chars visible s = true → strip_prefix p s = None.
Proof.
  intros Hp Hs. destruct (strip_prefix p s) as [r|] eqn:E; [|done].
  apply strip_prefix_Some in E as ->. rewrite all_chars_append, Hp in Hs. done.
Qed.

Lemma strip_suffix_visible p s :
  all_chars visible p = false → all_chars visible s = true → strip_suffix p s = None.
Proof.
  intros Hp Hs. destruct (strip_suffix p s) as [r|] eqn:E; [|done].
  apply strip_suffix_Some in E as ->. rewrite all_chars_append, Hp, andb_false_r in Hs. done.
Qed.

Lemma spaces_invisible : Forall (λ p, all_chars visible p = false) spaces.
Proof. repeat constructor. Qed.

Lemma omap_none {A B} (f : A → option B) l : Forall (λ x, f x = None) l → omap f l = [].
Proof. induction 1 as [|x l Hx _ IH]; simpl; [done|]. by rewrite Hx. Qed.

Lemma TrimSpace_visible s : all_chars visible s = true → TrimSpace s = s.
Proof.
  intros Hs. unfold TrimSpace.
  assert (strip_space s = None) as Hl.
  { unfold strip_space. rewrite omap_none; [done|]. eapply Forall_impl; [apply spaces_invisible|].
    intros p Hp. by apply strip_prefix_visible. }
  assert (strip_space_right s = None) as Hr.
  { unfold strip_space_right. rewrite omap_none; [done|]. eapply Forall_impl; [apply spaces_invisible|].
    intros p Hp. by apply strip_suffix_visible. }
  assert (trim_left (String.length s) s = s) as ->.
  { destruct (String.length s); simpl; [done|]. by rewrite Hl. }
  destruct (String.length s); simpl; [done|]. by rewrite Hr.
Qed.

Lemma ToLower_host s : all_chars host_char s = true → ToLower s = s.
Proof.
  induction s as [|c s IH]; simpl; [done|]. rewrite andb_true_iff. intros [Hc Hs].
  rewrite (IH Hs). f_equal. unfold ascii_lower. unfold host_char in Hc.
  destruct ((65 <=? nat_of_ascii c)%nat && (nat_of_ascii c <=? 90)%nat) eqn:E; [|done].
  by rewrite andb_false_r in Hc.
Qed.

(** A character that does not occur is not found. *)
Lemma Cut_absent c s : all_chars (λ d, negb (Ascii.eqb d c)) s = true → Cut s (String c "") = None.
Proof.
  induction s as [|d s IH]; simpl; [done|]. rewrite andb_true_iff, negb_true_iff. intros [Hd Hs].
  rewrite (IH Hs). rewrite Ascii.eqb_sym in Hd. by rewrite Hd.
Qed.

Lemma Cut_char c b a :
  all_chars (λ d, negb (Ascii.eqb d c)) b = true →
  Cut (b +:+ String c a) (String c "") = Some (b, a).
Proof.
  induction b as [|d b IH]; simpl.
  - intros _. rewrite Ascii.eqb_refl. by destruct a.
  - rewrite andb_true_iff, negb_true_iff. intros [Hd Hs].
    rewrite (IH Hs). rewrite Ascii.eqb_sym in Hd. by rewrite Hd.
Qed.

(** The text before the first occurrence of a character does not have it. *)
Lemma Cut_char_before c s b a :
  Cut s (String c "") = Some (b, a) → all_chars (λ d, negb (Ascii.eqb d c)) b = true.
Proof.
  revert b. induction s as [|d s IH]; intros b; simpl; [done|].
  destruct (Ascii.eqb c d) eqn:E.
  - by intros [= <- _].
  - destruct (Cut s (String c "")) as [[b' a']|]; [|done]. intros [= <- <-]. simpl.
    rewrite Ascii.eqb_sym in E. rewrite E. simpl. by apply IH.
Qed.

Lemma Cut_char_none c s : Cut s (String c "") = None → all_chars (λ d, negb (Ascii.eqb d c)) s = true.
Proof.
  induction s as [|d s IH]; simpl; [done|]. destruct (Ascii.eqb c d) eqn:E; [done|].
  destruct (Cut s (String c "")) as [[]|]; [done|]. intros _. rewrite Ascii.eqb_sym in E.
  by rewrite E, IH.
Qed.

(** *** Double dashes *)

Definition dash : ascii := "-"%char.

(** Every dash is followed by another character than a dash: the text has no
    double dash and does not end in a dash, as no DNS label does. *)
Fixpoint no_dashes (s : string) : bool :=
  match s with
  | EmptyString => true
  | String c s' =>
    negb (Ascii.eqb c dash
          && match s' with EmptyString => true | String d _ => Ascii.eqb d dash end)
    && no_dashes s'
  end.

Lemma Cut_dashes p r : no_dashes p = true → Cut (p +:+ String "-" (String "-" r)) "--" = Some (p, r).
Proof.
  induction p as [|c p IH]; simpl; [by destruct r|]. rewrite andb_true_iff, negb_true_iff.
  intros [Hc Hp]. rewrite (IH Hp). clear IH Hp.
  unfold dash in *. destruct (Ascii.eqb_spec "-" c) as [<-|Hne]; [|done].
  rewrite Ascii.eqb_refl in Hc. destruct p as [|d p]; simpl in *; [done|].
  rewrite Ascii.eqb_sym in Hc. by rewrite Hc.
Qed.

(** ** Parsing a label *)

Lemma Cut_label label port rest sandbox namespace :
  Cut label "--" = Some (port, rest) → Cut rest "--" = Some (sandbox, namespace) →
  formatLabel {| ht_Port := port; ht_Sandbox := sandbox; ht_Namespace := namespace |} = label.
Proof. intros ->%Cut_Some ->%Cut_Some. done. Qed.

Lemma parseLabel_Ok label t :
  parseLabel label = Ok t →
  label = formatLabel t ∧ (String.length label <= maxLabelLen)%nat ∧
  ht_Port t ≠ "" ∧ ht_Sandbox t ≠ "" ∧ ht_Namespace t ≠ "".
Proof.
  unfold parseLabel. destruct (Nat.ltb_spec maxLabelLen (String.length label)) as [|Hlen]; [done|].
  destruct (Cut label "--") as [[port rest]|] eqn:E1; [|done].
  destruct (Cut rest "--") as [[sandbox namespace]|] eqn:E2; [|done].
  destruct (String.eqb_spec port ""), (String.eqb_spec sandbox ""), (String.eqb_spec namespace "");
    simpl; try done.
  rewrite (Cut_label _ _ _ _ _ E1 E2), String.eqb_refl. simpl. intros [= <-].
  by rewrite (Cut_label _ _ _ _ _ E1 E2).
Qed.

Lemma parseLabel_format t :
  no_dashes (ht_Port t) = true → no_dashes (ht_Sandbox t) = true →
  ht_Port t ≠ "" → ht_Sandbox t ≠ "" → ht_Namespace t ≠ "" →
  (String.length (formatLabel t) <= maxLabelLen)%nat →
  parseLabel (formatLabel t) = Ok t.
Proof.
  intros Hp Hs Hp0 Hs0 Hn0 Hlen. unfold parseLabel.
  destruct (Nat.ltb_spec maxLabelLen (String.length (formatLabel t))); [lia|].
  rewrite (Cut_dashes _ (ht_Sandbox t +:+ "--" +:+ ht_Namespace t) Hp : Cut (formatLabel t) "--" = _).
  rewrite (Cut_dashes _ (ht_Namespace t) Hs : Cut (ht_Sandbox t +:+ "--" +:+ ht_Namespace t) "--" = _).
  apply String.eqb_neq in Hp0, Hs0, Hn0. rewrite Hp0, Hs0, Hn0. simpl.
  destruct t as [p s n]. by rewrite String.eqb_refl.
Qed.

Lemma routingLabel_Ok host baseDomain label :
  baseDomain ≠ "" →
  (routingLabel host baseDomain = Ok label ↔ host = label +:+ "." +:+ TrimPrefix baseDomain ".").
Proof.
  intros Hb. unfold routingLabel. apply String.eqb_neq in Hb. rewrite Hb. cbn [negb].
  unfold HasSuffix, TrimSuffix. set (suffix := "." +:+ TrimPrefix baseDomain ".").
  destruct (strip_suffix suffix host) as [r|] eqn:E; simpl.
  - apply strip_suffix_Some in E as ->. split; [by intros [= ->]|]. by intros ->%append_inj_r.
  - split; [done|]. intros Hh. assert (strip_suffix suffix host = Some label) by by apply strip_suffix_Some.
    congruence.
Qed.

Lemma normalizeHost_host s : all_chars host_char s = true → normalizeHost s = s.
Proof.
  intros Hs. unfold normalizeHost.
  rewrite TrimSpace_visible by (eapply all_chars_mono; [|exact Hs]; unfold host_char;
    intros c Hc; by apply andb_true_iff in Hc as [[? _]%andb_true_iff _]).
  rewrite (ToLower_host s Hs), Cut_absent; [done|].
  eapply all_chars_mono; [|exact Hs]. intros c Hc. by apply andb_true_iff in Hc as [_ ?].
Qed.

(** ** The theorems *)

(** An SSH target is accepted exactly when, without surrounding space, it is
    "sandbox.namespace" with a non-empty sandbox that has no dot and a
    non-empty namespace, or a sandbox without a dot while a default namespace
    is set. *)
Theorem ParseSSHTarget_exact host defaultNamespace t :
  ParseSSHTarget host defaultNamespace = Ok t ↔
  t_Sandbox t ≠ "" ∧ t_Namespace t ≠ "" ∧
  all_chars (λ c, negb (Ascii.eqb c ".")) (t_Sandbox t) = true ∧
  (TrimSpace host = t_Sandbox t +:+ "." +:+ t_Namespace t ∨
   (TrimSpace host = t_Sandbox t ∧ t_Namespace t = defaultNamespace)).
Proof.
  unfold ParseSSHTarget. set (h := TrimSpace host). destruct t as [sb ns]. simpl. split.
  - destruct (String.eqb_spec h ""); [done|]. destruct (Cut h ".") as [[b a]|] eqn:E.
    + destruct (String.eqb_spec b ""), (String.eqb_spec a ""); simpl; try done. intros [= -> ->].
      split; [done|]. split; [done|]. split; [by eapply Cut_char_before|]. left. exact (Cut_Some _ _ _ _ E).
    + destruct (String.eqb_spec defaultNamespace ""); [done|]. intros [= <- <-].
      split; [done|]. split; [done|]. split; [by apply Cut_char_none|]. by right.
  - intros (Hs & Hn & Hc & [->|[-> ->]]).
    + rewrite Cut_char by done. apply String.eqb_neq in Hs as Hs', Hn. rewrite Hs', Hn. simpl.
      destruct (String.eqb_spec (sb +:+ String "." ns) "") as [E|]; [by destruct sb|done].
    + rewrite Cut_absent by done. apply String.eqb_neq in Hs, Hn. by rewrite Hs, Hn.
Qed.

(** C38. Rendering a routing target under the base domain and parsing the host
    gives the target back exactly when the rendered label fits in the 63 bytes
    of a DNS label, and an error when it does not. This is for a port and a
    sandbox that have no double dash and end in no dash, parts and a base domain
    that are not empty, and a host (the base domain included) of visible
    characters other than upper-case letters and colons. The rules for names and
    ports keep to all of this but the length. *)
Theorem ParseHTTPHost_round_trip t baseDomain :
  no_dashes (ht_Port t) = true → no_dashes (ht_Sandbox t) = true →
  ht_Port t ≠ "" → ht_Sandbox t ≠ "" → ht_Namespace t ≠ "" → baseDomain ≠ "" →
  all_chars host_char (formatLabel t +:+ "." +:+ TrimPrefix baseDomain ".") = true →
  let parsed := ParseHTTPHost (formatLabel t +:+ "." +:+ TrimPrefix baseDomain ".") baseDomain in
  ((String.length (formatLabel t) <= maxLabelLen)%nat → parsed = Ok t) ∧
  ((maxLabelLen < String.length (formatLabel t))%nat → is_ok parsed = false).
Proof.
  intros Hp Hs Hp0 Hs0 Hn0 Hb Hc. unfold ParseHTTPHost. rewrite (normalizeHost_host _ Hc).
  rewrite (proj2 (routingLabel_Ok _ baseDomain (formatLabel t) Hb) eq_refl). cbv zeta. split.
  - by apply parseLabel_format.
  - intros Hlen. destruct (parseLabel (formatLabel t)) as [t'|e] eqn:E; [|done].
    apply parseLabel_Ok in E as (_ & Hle & _). lia.
Qed.

(** A base domain with an upper-case letter matches no host: the host is put in
    lower case, the base domain is not. *)
Definition lowercase (c : ascii) : bool := negb ((65 <=? nat_of_ascii c)%nat && (nat_of_ascii c <=? 90)%nat).

Lemma ToLower_lowercase s : all_chars lowercase (ToLower s) = true.
Proof.
  induction s as [|c s IH]; [done|]. simpl. rewrite IH, andb_true_r. unfold lowercase, ascii_lower.
  destruct ((65 <=? nat_of_ascii c)%nat && (nat_of_ascii c <=? 90)%nat) eqn:E; [|by rewrite E].
  apply andb_true_iff in E as [E1 E2]. apply Nat.leb_le in E1, E2. rewrite nat_ascii_embedding by lia.
  apply negb_true_iff, andb_false_iff. right. apply Nat.leb_gt. lia.
Qed.

Theorem uppercase_base_domain_unreachable host baseDomain :
  baseDomain ≠ "" → all_chars lowercase (TrimPrefix baseDomain ".") = false →
  is_ok (ParseHTTPHost host baseDomain) = false.
Proof.
  intros Hb Hup. unfold ParseHTTPHost. destruct (routingLabel _ _) as [label|e] eqn:Hl; [|done].
  apply routingLabel_Ok in Hl; [|done]. exfalso.
  assert (all_chars lowercase (normalizeHost host) = true) as Hlow.
  { unfold normalizeHost. pose proof (ToLower_lowercase (TrimSpace host)) as H.
    destruct (Cut _ ":") as [[h p]|] eqn:E; [|done]. apply Cut_Some in E. rewrite E, all_chars_append in H.
    by apply andb_true_iff in H as [? _]. }
  rewrite Hl, !all_chars_append, Hup, !andb_false_r in Hlow. done.
Qed.

(** The names the resources allow do not always fit: the longest sandbox name
    with a port name of ten letters needs a namespace of at most nineteen. *)
Example long_names_unroutable :
  let t := {| ht_Port := "webconsole"; ht_Sandbox := "aaaaaaaaaabbbbbbbbbbcccccccccc"; ht_Namespace := "team-production-west" |} in
  String.length (ht_Sandbox t) = 30%nat ∧
  is_ok (ParseHTTPHost (formatLabel t +:+ ".park.example") "park.example") = false.
Proof. by vm_compute. Qed.

(** A host that is accepted is the rendering of the target it was parsed to,
    up to case, surrounding space and a port: no other name reaches the
    target, and none of its parts is empty. *)
Theorem ParseHTTPHost_sound host baseDomain t :
  baseDomain ≠ "" → ParseHTTPHost host baseDomain = Ok t →
  normalizeHost host = formatLabel t +:+ "." +:+ TrimPrefix baseDomain "." ∧
  (String.length (formatLabel t) <= maxLabelLen)%nat ∧
  ht_Port t ≠ "" ∧ ht_Sandbox t ≠ "" ∧ ht_Namespace t ≠ "".
Proof.
  intros Hb. unfold ParseHTTPHost. destruct (routingLabel _ _) as [label|e] eqn:Hl; [|done].
  intros Hp. apply parseLabel_Ok in Hp as (-> & Hlen & Hrest).
  apply routingLabel_Ok in Hl; [|done]. auto.
Qed.

(** The ambiguity check compares a label with the very pieces it was cut into
    and never rejects anything. *)
Theorem ParseHTTPHost_never_ambiguous label port rest sandbox namespace :
  Cut label "--" = Some (port, rest) → Cut rest "--" = Some (sandbox, namespace) →
  port ≠ "" → sandbox ≠ "" → namespace ≠ "" → (String.length label <= maxLabelLen)%nat →
  parseLabel label = Ok {| ht_Port := port; ht_Sandbox := sandbox; ht_Namespace := namespace |}.
Proof.
  intros E1 E2 Hp Hs Hn Hlen. unfold parseLabel.
  destruct (Nat.ltb_spec maxLabelLen (String.length label)); [lia|]. rewrite E1, E2.
  apply String.eqb_neq in Hp, Hs, Hn. rewrite Hp, Hs, Hn. simpl.
  by rewrite (Cut_label _ _ _ _ _ E1 E2), String.eqb_refl.
Qed.
