(* ===== verification/Store.v ===== *)
(** * The gateway's store (internal/gateway/store.go, dialer.go)

    [Store] is the interface the gateway's planes use; [StoreLaws] is what they
    rely on, and [clientStore] implements it with API calls. The laws are
    proved for [clientStore], and the planes are verified against the laws. *)

From S2P Require Import Prelude GoStrings KubeTypes ApiTypes Client PodSpec SandboxRBAC.
From Stdlib Require Import String.
From stdpp Require Import base gmap strings list pretty.
From Stdlib Require Import ZArith Lia.
Local Open Scope Z_scope.

Class Store := {
  GetSandbox : string → string → prog (res Sandbox);
  (** Returns the sandbox as the call left it. *)
  SetDesiredRunning : Sandbox → prog (res Sandbox);
  CreateSession : SandboxSession → prog (res unit);
  Heartbeat : string → string → prog (res unit);
  CloseSession : string → string → string → prog (res unit);
}.

(** ** The implementation *)

Definition started (now : Time) (s : SandboxSession) : SandboxSession :=
  with_ses_status
    {| sst_State := SessionStateActive; sst_StartTime := Some now;
       sst_LastActivityTime := Some now; sst_EndTime := sst_EndTime (ses_Status s);
       sst_ExitReason := sst_ExitReason (ses_Status s) |} s.

Definition beaten (now : Time) (s : SandboxSession) : SandboxSession :=
  with_ses_status
    {| sst_State := sst_State (ses_Status s); sst_StartTime := sst_StartTime (ses_Status s);
       sst_LastActivityTime := Some now; sst_EndTime := sst_EndTime (ses_Status s);
       sst_ExitReason := sst_ExitReason (ses_Status s) |} s.

Definition ended (now : Time) (reason : string) (s : SandboxSession) : SandboxSession :=
  with_ses_status
    {| sst_State := SessionStateClosed; sst_StartTime := sst_StartTime (ses_Status s);
       sst_LastActivityTime := sst_LastActivityTime (ses_Status s); sst_EndTime := Some now;
       sst_ExitReason := reason |} s.

Definition desireRunning (sb : Sandbox) : Sandbox :=
  with_sb_spec (set_DesiredState DesiredStateRunning (sb_Spec sb)) sb.

Definition client_GetSandbox (namespace name : string) : prog (res Sandbox) :=
  call (EGet KSandbox (nn namespace name)).

Definition client_SetDesiredRunning (sb : Sandbox) : prog (res Sandbox) :=
  if bool_decide (sp_DesiredState (sb_Spec sb) = DesiredStateRunning) then Ret (Ok sb)
  else call (EPatch KSandbox (okey KSandbox sb) desireRunning).

Definition client_CreateSession (session : SandboxSession) : prog (res unit) :=
  stored ←? call (ECreate KSession session);
  now ← call ENow;
  u ← call (EStatusUpdate KSession (started now stored));
  Ret (to_unit u).

Definition client_Heartbeat (namespace name : string) : prog (res unit) :=
  session ←? call (EGet KSession (nn namespace name));
  if negb (bool_decide (sst_State (ses_Status session) = SessionStateActive)) then Ret (Ok tt)
  else
    now ← call ENow;
    u ← call (EStatusUpdate KSession (beaten now session));
    Ret (to_unit u).

Definition client_CloseSession (namespace name reason : string) : prog (res unit) :=
  session ←? call (EGet KSession (nn namespace name));
  if bool_decide (sst_State (ses_Status session) = SessionStateClosed) then Ret (Ok tt)
  else
    now ← call ENow;
    u ← call (EStatusUpdate KSession (ended now reason session));
    Ret (to_unit u).

#[export] Instance clientStore : Store := {|
  GetSandbox := client_GetSandbox;
  SetDesiredRunning := client_SetDesiredRunning;
  CreateSession := client_CreateSession;
  Heartbeat := client_Heartbeat;
  CloseSession := client_CloseSession;
|}.

(** ** Dialing *)

(** [net.JoinHostPort]. *)
Definition JoinHostPort (host port : string) : string :=
  if Contains host ":" then "[" +:+ host +:+ "]:" +:+ port else host +:+ ":" +:+ port.

Definition ErrNoRoute (reason : string) : error := TextError ("no route: " +:+ reason).

Definition agentAddr (sb : Sandbox) : string :=
  JoinHostPort (st_PodIP (sb_Status sb)) (pretty AgentPort).

Definition DialSandbox (sb : Sandbox) : prog (res unit) :=
  if String.eqb (st_PodIP (sb_Status sb)) "" then Ret (Err (ErrNoRoute "sandbox has no pod IP yet"))
  else
    r ← call (EDial (agentAddr sb));
    match r with
    | Ok _ => Ret (Ok tt)
    | Err e => Ret (Err (WrapError ("dial sandbox agent " +:+ agentAddr sb) e))
    end.

(** ** What the planes rely on *)

Section laws.
Context {W : Type} `{World W}.

(** A session goes forward only: it may start, end or be touched, and once
    closed it stays as it is. *)
Definition session_forward (w w' : W) (k : NamespacedName) : Prop :=
  ∀ s, view KSession w k = Some s → sst_State (ses_Status s) = SessionStateClosed →
    view KSession w' k = Some s.

Class StoreLaws (S : Store) : Prop := {
  GetSandbox_spec ns name w :
    wp (GetSandbox ns name) (λ r w', unchanged w w' ∧
      match r with Ok sb => view KSandbox w (nn ns name) = Some sb | Err _ => True end) w;
  SetDesiredRunning_spec sb w :
    wp (SetDesiredRunning sb) (λ r w', same_but KSandbox (okey KSandbox sb) w w' ∧
      match r with
      | Ok sb' => sp_DesiredState (sb_Spec sb') = DesiredStateRunning ∧
          (unchanged w w' ∨ ∃ cur, view KSandbox w (okey KSandbox sb) = Some cur ∧
             view KSandbox w' (okey KSandbox sb) = Some sb' ∧
             sb_Status sb' = sb_Status cur ∧
             sb_Spec sb' = set_DesiredState DesiredStateRunning (sb_Spec cur))
      | Err _ => True
      end) w;
  CreateSession_spec s w :
    wp (CreateSession s) (λ r w', same_but KSession (okey KSession s) w w' ∧
      match r with
      | Ok _ => ∃ s' t, view KSession w' (okey KSession s) = Some s' ∧ ses_Spec s' = ses_Spec s ∧
          sst_State (ses_Status s') = SessionStateActive ∧
          sst_LastActivityTime (ses_Status s') = Some t ∧ clock w <= t <= clock w'
      | Err _ => True
      end) w;
  Heartbeat_spec ns name w :
    wp (Heartbeat ns name) (λ r w', same_but KSession (nn ns name) w w' ∧
      session_forward w w' (nn ns name) ∧
      match r with
      | Ok _ => ∀ s, view KSession w (nn ns name) = Some s →
          sst_State (ses_Status s) = SessionStateActive →
          ∃ s' t, view KSession w' (nn ns name) = Some s' ∧
            sst_State (ses_Status s') = SessionStateActive ∧
            sst_LastActivityTime (ses_Status s') = Some t ∧ clock w <= t <= clock w'
      | Err _ => True
      end) w;
  CloseSession_spec ns name reason w :
    wp (CloseSession ns name reason) (λ r w', same_but KSession (nn ns name) w w' ∧
      session_forward w w' (nn ns name) ∧
      match r with
      | Ok _ => ∃ s', view KSession w' (nn ns name) = Some s' ∧
                      sst_State (ses_Status s') = SessionStateClosed
      | Err _ => True
      end) w;
}.

(** ** The implementation keeps the laws *)

Lemma status_update_session f (s : SandboxSession) w :
  (∀ x, okey KSession (f x) = okey KSession x) →
  view KSession w (okey KSession s) = Some s →
  wp (u ← call (EStatusUpdate KSession (f s)); Ret (to_unit u))
     (λ r w', same_but KSession (okey KSession s) w w' ∧
        match r with
        | Ok _ => ∃ s', view KSession w' (okey KSession s) = Some s' ∧
                        ses_Status s' = ses_Status (f s) ∧ ses_Spec s' = ses_Spec s
        | Err _ => True
        end) w.
Proof.
  intros Hf Hv. apply wp_bind, wp_call. intros u w' [_ (Hsb & _ & Hu)].
  rewrite Hf in Hsb, Hu. split; [done|]. destruct u as [o|e]; [|done].
  destruct Hu as (cur & Hcur & _ & (gen & rv & ->) & Hv'). rewrite Hv in Hcur. injection Hcur as <-.
  eexists. split; [exact Hv'|]. done.
Qed.

Lemma client_CreateSession_ok s w :
  wp (client_CreateSession s) (λ r w', same_but KSession (okey KSession s) w w' ∧
    match r with
    | Ok _ => ∃ s' t, view KSession w' (okey KSession s) = Some s' ∧ ses_Spec s' = ses_Spec s ∧
        sst_State (ses_Status s') = SessionStateActive ∧
        sst_LastActivityTime (ses_Status s') = Some t ∧ clock w <= t <= clock w'
    | Err _ => True
    end) w.
Proof.
  apply wp_ebind, wp_call. intros [o|e] w1 [Hc1 [Hsb Hr]]; cbn beta iota; [|done].
  destruct Hr as (_ & Hv & Hcr). pose proof (created_as_meta _ _ _ Hcr) as (Hk & _).
  intros t w2 [Hc2 [Hun ->]]. rewrite <- Hk in Hsb, Hv |- *.
  eapply wp_mono; [apply wp_and; [apply (status_update_session (started (clock w2))); [done|]|apply wp_clock]|].
  { by rewrite (proj1 Hun). }
  intros r w3 [[Hsb3 Hr3] Hc3].
  split; [eapply same_but_trans; [exact Hsb|]; eapply same_but_trans; [by apply unchanged_same_but|done]|].
  destruct r as [[]|e]; [|done]. destruct Hr3 as (s' & Hv3 & Hst & Hsp).
  exists s', (clock w2). split; [done|]. split.
  - rewrite Hsp. by destruct Hcr as (uid & gen & rv & t & ->).
  - rewrite Hst. split; [done|]. split; [done|]. lia.
Qed.

Lemma client_Heartbeat_ok ns name w :
  wp (client_Heartbeat ns name) (λ r w', same_but KSession (nn ns name) w w' ∧
    session_forward w w' (nn ns name) ∧
    match r with
    | Ok _ => ∀ s, view KSession w (nn ns name) = Some s →
        sst_State (ses_Status s) = SessionStateActive →
        ∃ s' t, view KSession w' (nn ns name) = Some s' ∧
          sst_State (ses_Status s') = SessionStateActive ∧
          sst_LastActivityTime (ses_Status s') = Some t ∧ clock w <= t <= clock w'
    | Err _ => True
    end) w.
Proof.
  apply wp_ebind, wp_call. intros [s|e] w1 [Hc1 [Hun Hr]]; cbn beta iota.
  2:{ split; [by apply unchanged_same_but|]. split; [|done]. intros x. by rewrite (proj1 Hun). }
  pose proof (view_key _ _ _ _ _ Hr) as Hk. case_bool_decide as Hact; cbn [negb].
  - intros t w2 [Hc2 [Hun2 ->]]. pose proof (unchanged_trans _ _ _ Hun Hun2) as Hu. rewrite <- Hk.
    eapply wp_mono; [apply wp_and; [apply (status_update_session (beaten (clock w2))); [done|]|apply wp_clock]|].
    { by rewrite (proj1 Hu), Hk. }
    intros r w3 [[Hsb3 Hr3] Hc3]. split; [eapply same_but_trans; [by apply unchanged_same_but|done]|].
    split; [intros x Hx Hcl; rewrite Hk, Hr in Hx; injection Hx as <-; congruence|].
    destruct r as [[]|e]; [|done]. intros x Hx _. rewrite Hk, Hr in Hx. injection Hx as <-.
    destruct Hr3 as (s' & Hv3 & Hst & _). exists s', (clock w2). rewrite Hst.
    split; [done|]. split; [done|]. split; [done|]. lia.
  - split; [by apply unchanged_same_but|]. split; [intros x; by rewrite (proj1 Hun)|].
    intros x Hx Hx'. rewrite Hr in Hx. by injection Hx as <-.
Qed.

Lemma client_CloseSession_ok ns name reason w :
  wp (client_CloseSession ns name reason) (λ r w', same_but KSession (nn ns name) w w' ∧
    session_forward w w' (nn ns name) ∧
    match r with
    | Ok _ => ∃ s', view KSession w' (nn ns name) = Some s' ∧
                    sst_State (ses_Status s') = SessionStateClosed
    | Err _ => True
    end) w.
Proof.
  apply wp_ebind, wp_call. intros [s|e] w1 [Hc1 [Hun Hr]]; cbn beta iota.
  2:{ split; [by apply unchanged_same_but|]. split; [|done]. intros x. by rewrite (proj1 Hun). }
  pose proof (view_key _ _ _ _ _ Hr) as Hk. case_bool_decide as Hcl.
  - split; [by apply unchanged_same_but|]. split; [intros x; by rewrite (proj1 Hun)|].
    exists s. by rewrite (proj1 Hun).
  - intros t w2 [Hc2 [Hun2 ->]]. pose proof (unchanged_trans _ _ _ Hun Hun2) as Hu. rewrite <- Hk.
    eapply wp_mono; [apply (status_update_session (ended (clock w2) reason)); [done|]|].
    { by rewrite (proj1 Hu), Hk. }
    intros r w3 [Hsb3 Hr3]. split; [eapply same_but_trans; [by apply unchanged_same_but|done]|].
    split; [intros x Hx Hx'; rewrite Hk, Hr in Hx; by injection Hx as <-|].
    destruct r as [[]|e]; [|done]. destruct Hr3 as (s' & Hv3 & Hst & _). exists s'. by rewrite Hst.
Qed.

#[export] Instance clientStore_laws : StoreLaws clientStore.
Proof.
  split; simpl.
  - intros ns name w r w' [_ [Hun Hr]]. split; [done|]. by destruct r.
  - intros sb w. unfold client_SetDesiredRunning. case_bool_decide as Hd.
    + split; [by apply unchanged_same_but|]. split; [done|]. by left.
    + intros r w' [_ [Hsb Hr]]. split; [done|]. destruct r as [o|e]; [|done].
      destruct Hr as (cur & Hcur & (gen & rv & ->) & Hv). split; [done|]. right. exists cur. done.
  - apply client_CreateSession_ok.
  - apply client_Heartbeat_ok.
  - apply client_CloseSession_ok.
Qed.

End laws.
