(* ===== verification/SSHJump.v ===== *)
(** * The SSH jump host (internal/gateway/sshjump.go)

    Authentication by certificate, authorization by ownership, wake-on-connect
    and the session record around a bridged connection. The plane is written
    against the [Store] interface and verified from its laws. The theorems: a
    key is accepted only if it is a valid user certificate, and under its first
    principal; a caller who does not own the sandbox causes no call but the
    lookup and the refusal; waiting for a sandbox ends within the wake timeout;
    every session whose heartbeat was started is stopped and closed. *)

From S2P Require Import Prelude GoStrings Sha256 KubeTypes ApiTypes Client SSHCA PodSpec SandboxRBAC.
From S2P Require Import SessionController Routing Store.
From Stdlib Require Import String.
From stdpp Require Import base gmap strings list pretty.
From Stdlib Require Import ZArith Lia.
Local Open Scope Z_scope.

Definition defaultWakeTimeout : Duration := 180 * Second.
Definition wakePollInterval : Duration := 2 * Second.

(** The fields of [SSHConfig] the handlers use. [Now] is nil outside tests. *)
Record SSHConfig := {
  cfg_DefaultNamespace : string;
  cfg_WakeTimeout : Duration;
  cfg_Now : option (prog Time);
}.

(** The defaults [NewSSHServer] fills in; a nil [Now] stands for [time.Now]. *)
Definition withDefaults (cfg : SSHConfig) : SSHConfig :=
  {| cfg_DefaultNamespace := cfg_DefaultNamespace cfg;
     cfg_WakeTimeout := if cfg_WakeTimeout cfg =? 0 then defaultWakeTimeout else cfg_WakeTimeout cfg;
     cfg_Now := cfg_Now cfg |}.

Definition cfgNow (cfg : SSHConfig) : prog Time :=
  match cfg_Now cfg with Some f => f | None => call ENow end.

(** ** Authentication *)

Section auth.
Context `{SSH : SSHLib}.

(** [PublicKeyHandler]: the principal and serial remembered for the
    connection, or [None] for a refused key. *)
Definition PublicKeyHandler (cfg : SSHConfig) (userCA : PublicKey) (key : PublicKey)
  : prog (option (string * string)) :=
  match as_certificate key with
  | None => Ret None
  | Some cert =>
    match cert_ValidPrincipals cert with
    | [] => Ret None
    | principal :: _ =>
      now ← cfgNow cfg;
      match CheckUserCert (Some cert) (Some userCA) principal now with
      | Some _ => Ret None
      | None => Ret (Some (principal, pretty (cert_Serial cert)))
      end
    end
  end.

(** What [NewSSHServer] sets up: the gateway's identity, the configuration with
    its defaults and the handler of presented keys. (The store and the dialer
    are always there: the plane below takes them as an interface.) *)
Record SSHServer := {
  srv_HostSigner : Signer;
  srv_Config : SSHConfig;
  srv_PublicKeyHandler : PublicKey → prog (option (string * string));
}.

Definition NewSSHServer (cfg0 : SSHConfig) (HostKeyPEM UserCAAuthorized : string) : res SSHServer :=
  let cfg := withDefaults cfg0 in
  match ParsePrivateKey HostKeyPEM with
  | Err e => Err (WrapError "parse gateway host key" e)
  | Ok hostSigner =>
    match ParsePublicKey UserCAAuthorized with
    | Err e => Err (WrapError "parse user CA" e)
    | Ok userCA => Ok {| srv_HostSigner := hostSigner; srv_Config := cfg;
                         srv_PublicKeyHandler := PublicKeyHandler cfg userCA |}
    end
  end.

End auth.

(** ** Sessions *)

Definition gatewayIdleTimeout (sb : Sandbox) : Duration :=
  match sp_IdleTimeout (sb_Spec sb) with Some d => d | None => 0 end.

Definition heartbeatInterval (idleTimeout : Duration) : Duration :=
  let floor := 60 * Second in
  let quarter := dur_div idleTimeout 4 in
  if floor <? quarter then quarter else floor.

Definition randomSuffix : prog string :=
  r ← call (ERandRead 5);
  match r with
  | Err _ => Ret "000000000a"%string
  | Ok b => Ret (hex_encode b)
  end.

Section plane.
Context `{S : Store}.

Definition newSession (sb : Sandbox) (suffix principal clientAddr certSerial : string) : SandboxSession :=
  {| ses_ObjectMeta := newMeta (Namespace sb) (Name sb +:+ "-" +:+ suffix);
     ses_Spec :=
       {| ss_SandboxName := Name sb; ss_User := principal; ss_ClientAddr := clientAddr;
          ss_Kind := SessionKindSSH; ss_CertSerial := certSerial;
          ss_HeartbeatInterval := Some (heartbeatInterval (gatewayIdleTimeout sb)) |};
     ses_Status := emptySessionStatus |}.

(** The key of the recorded session, [None] when recording failed: the
    connection then goes on without a record. *)
Definition openSession (sb : Sandbox) (principal clientAddr certSerial : string)
  : prog (option NamespacedName) :=
  suffix ← randomSuffix;
  let session := newSession sb suffix principal clientAddr certSerial in
  r ← CreateSession session;
  match r with
  | Err _ => Ret None
  | Ok _ =>
    _ ← call (EStartHeartbeat (heartbeatInterval (gatewayIdleTimeout sb)) (okey KSession session));
    Ret (Some (okey KSession session))
  end.

(** The closer [openSession] returns. *)
Definition closeSession (session : option NamespacedName) (reason : string) : prog unit :=
  match session with
  | None => Ret tt
  | Some k =>
    _ ← call (EStopHeartbeat k);
    _ ← CloseSession (nn_Namespace k) (nn_Name k) reason;
    Ret tt
  end.

(** ** Routing a connection *)

Definition authorize (target : SSHTarget) (principal : string) : prog (res Sandbox) :=
  if String.eqb principal "" then Ret (Err (TextError "no principal"))
  else
    r ← GetSandbox (t_Namespace target) (t_Sandbox target);
    match r with
    | Err e => Ret (Err (WrapError "sandbox lookup" e))
    | Ok sb =>
      if negb (String.eqb (ow_Name (sp_Owner (sb_Spec sb))) principal) then
        Ret (Err (TextError ("principal " +:+ quote principal +:+ " is not the owner of sandbox "
                             +:+ t_Namespace target +:+ "/" +:+ t_Sandbox target)))
      else Ret (Ok sb)
    end.

(** The end of a round: give up after the deadline or when the client has
    gone, else go around again after the poll interval. *)
Definition wakePause (cfg : SSHConfig) (sb : Sandbox) (deadline : Time)
    (again : prog (option (res Sandbox))) : prog (option (res Sandbox)) :=
  t ← cfgNow cfg;
  if time_After t deadline then
    Ret (Some (Err (TextError ("timed out waiting for sandbox " +:+ Name sb +:+ " to become ready"))))
  else
    c ← call (EWait wakePollInterval);
    match c with
    | Some e => Ret (Some (Err e))
    | None => again
    end.

(** The polling loop. [None]: the fuel ran out. *)
Fixpoint wakeLoop (cfg : SSHConfig) (sb : Sandbox) (deadline : Time) (fuel : nat)
  : prog (option (res Sandbox)) :=
  match fuel with
  | O => Ret None
  | Datatypes.S fuel =>
    r ← GetSandbox (Namespace sb) (Name sb);
    match r with
    | Ok fresh =>
      if negb (String.eqb (st_PodIP (sb_Status fresh)) "") then Ret (Some (Ok fresh))
      else wakePause cfg sb deadline (wakeLoop cfg sb deadline fuel)
    | Err _ => wakePause cfg sb deadline (wakeLoop cfg sb deadline fuel)
    end
  end.

(** One round per poll interval of the timeout, one to notice that it is over
    and one for the first look. *)
Definition wakeFuel (cfg : SSHConfig) : nat := Z.to_nat (cfg_WakeTimeout cfg / wakePollInterval) + 2.

Definition outOfFuel : error := TextError "out of fuel".

Definition wakeAndWait (cfg : SSHConfig) (sb : Sandbox) : prog (res Sandbox) :=
  if negb (String.eqb (st_PodIP (sb_Status sb)) "")
     && bool_decide (sp_DesiredState (sb_Spec sb) = DesiredStateRunning) then Ret (Ok sb)
  else
    r ← SetDesiredRunning sb;
    match r with
    | Err e => Ret (Err (WrapError "resume sandbox" e))
    | Ok sb =>
      t ← cfgNow cfg;
      l ← wakeLoop cfg sb (time_Add t (cfg_WakeTimeout cfg)) (wakeFuel cfg);
      Ret match l with Some r => r | None => Err outOfFuel end
    end.

(** [localForwardChannelData], of which the handler reads the destination. *)
Record localForwardChannelData := { lf_DestAddr : string }.

Definition reject (reason : RejectionReason) (msg : string) : prog unit := call (EReject reason msg).

(** Once the connection is authorized and recorded. *)
Definition serveSandbox (cfg : SSHConfig) (sb : Sandbox) : prog unit :=
  r ← wakeAndWait cfg sb;
  match r with
  | Err _ => reject ConnectionFailed "sandbox did not become ready"
  | Ok sb =>
    d ← DialSandbox sb;
    match d with
    | Err _ => reject ConnectionFailed "cannot reach sandbox"
    | Ok _ =>
      a ← call EAccept;
      _ ← match a with Err _ => Ret tt | Ok _ => call EBridge end;
      call ECloseUpstream
    end
  end.

Definition handleDirectTCPIP (cfg : SSHConfig) (payload : res localForwardChannelData)
    (principal serial remoteAddr : string) : prog unit :=
  match payload with
  | Err _ => reject ConnectionFailed "invalid direct-tcpip payload"
  | Ok payload =>
    match ParseSSHTarget (lf_DestAddr payload) (cfg_DefaultNamespace cfg) with
    | Err e => reject ConnectionFailed (error_text e)
    | Ok target =>
      a ← authorize target principal;
      match a with
      | Err _ => reject Prohibited "not authorized for this sandbox"
      | Ok sb =>
        session ← openSession sb principal remoteAddr serial;
        _ ← serveSandbox cfg sb;
        closeSession session ExitReasonDisconnected
      end
    end
  end.

End plane.

(** ** Proofs *)

Section auth_proofs.
Context `{SSH : SSHLib} `{!SSHLaws SSH} {W : Type} `{World W}.

Lemma wp_PublicKeyHandler cfg userCA key w :
  cfg_Now cfg = None →
  wp (PublicKeyHandler cfg userCA key)
     (λ r w', unchanged w w' ∧ ∀ principal serial, r = Some (principal, serial) ↔
        ∃ cert rest, as_certificate key = Some cert ∧ cert_ValidPrincipals cert = principal :: rest ∧
          serial = pretty (cert_Serial cert) ∧
          CheckUserCert (Some cert) (Some userCA) principal (clock w') = None) w.
Proof.
  intros Hnow. unfold PublicKeyHandler. destruct (as_certificate key) as [cert|] eqn:Hc.
  2:{ split; [done|]. intros p s. split; [done|]. by intros (? & ? & ? & _). }
  destruct (cert_ValidPrincipals cert) as [|p ps] eqn:Hp.
  { split; [done|]. intros p s. split; [done|]. intros (c & rest & [= <-] & Hx & _). congruence. }
  unfold cfgNow. rewrite Hnow. apply wp_bind, wp_call. intros t w' [_ [Hun ->]]. cbv beta.
  destruct (CheckUserCert _ _ _ _) as [e|] eqn:He; (split; [done|]); intros p' s.
  - split; [done|]. intros (c & rest & [= <-] & Hx & _ & Hk). rewrite Hp in Hx. injection Hx as <- <-. congruence.
  - split.
    + intros [= <- <-]. exists cert, ps. done.
    + intros (c & rest & [= <-] & Hx & -> & _). rewrite Hp in Hx. by injection Hx as <- <-.
Qed.

(** C9. A key logs in at the gateway only as a valid user certificate of the
    configured user authority, verifying, inside its validity window and
    without a critical option the library does not skip, and then under the
    certificate's first principal. The option it does skip, [source-address],
    is not enforced afterwards either. *)
Theorem login_needs_valid_certificate (env : Env W) `{!Conforms env} cfg pem ca srv key w principal serial w' :
  cfg_Now cfg = None → NewSSHServer cfg pem ca = Ok srv →
  run env (srv_PublicKeyHandler srv key) w = (Some (principal, serial), w') →
  ∃ userCA cert rest, ParsePublicKey ca = Ok userCA ∧
    as_certificate key = Some cert ∧ cert_ValidPrincipals cert = principal :: rest ∧
    serial = pretty (cert_Serial cert) ∧
    cert_CertType cert = UserCert ∧ keysEqual (cert_SignatureKey cert) (Some userCA) = true ∧
    signature_verifies cert = true ∧ in_window (clock w') cert ∧ options_skipped cert.
Proof.
  unfold NewSSHServer. intros Hnow Hnew Hrun.
  destruct (ParsePrivateKey pem) as [signer|e]; [|done].
  destruct (ParsePublicKey ca) as [userCA|e]; [|done]. injection Hnew as <-. cbn [srv_PublicKeyHandler] in Hrun.
  destruct (run_wp env _ _ _ _ _ Hrun (wp_PublicKeyHandler (withDefaults cfg) userCA key w Hnow)) as [_ Hr].
  destruct (proj1 (Hr principal serial) eq_refl) as (cert & rest & Hc & Hp & Hser & Hk).
  apply CheckUserCert_spec in Hk as (c & [= <-] & Ht & _ & Hk & Hs & Hw & Ho).
  exists userCA, cert, rest. auto 12.
Qed.

(** Issuing and login fit together: the certificate issued for a principal
    logs in as that principal, from a minute before it was issued until it
    expires, and not at other times. *)
Theorem issued_certificate_logs_in (env : Env W) `{!Conforms env}
    ca pub principal validFor now w0 c w1 cfg w r w' :
  run env (SignUserCert ca pub principal validFor now) w0 = (Ok c, w1) →
  representable (now - Minute) → representable (now + validFor) →
  cfg_Now cfg = None →
  run env (PublicKeyHandler cfg (signer_PublicKey ca) (cert_as_key c)) w = (r, w') →
  (r = Some (principal, pretty (cert_Serial c)) ∨ r = None) ∧
  (r ≠ None ↔ time_Unix (now - Minute) <= time_Unix (clock w') ∧
              (validFor <= 0 ∨ time_Unix (clock w') < time_Unix (now + validFor))).
Proof.
  intros Hsign Hr1 Hr2 Hnow Hrun.
  pose proof (run_wp env _ _ _ _ _ Hsign (wp_SignUserCert ca pub principal validFor now w0)) as (_ & _ & Hi).
  rewrite <- (issued_window _ _ _ _ _ _ _ (clock w') Hi Hr1 Hr2).
  destruct Hi as (Ht & _ & Hp & _ & _ & Ho & Hk & Hs).
  destruct (run_wp env _ _ _ _ _ Hrun (wp_PublicKeyHandler cfg _ _ w Hnow)) as [_ Hr].
  rewrite as_certificate_as_key in Hr. split.
  - destruct r as [[p s]|]; [|by right]. left. destruct (proj1 (Hr p s) eq_refl) as (c' & rest & [= <-] & Hp' & -> & _).
    rewrite Hp in Hp'. by injection Hp' as <- <-.
  - split.
    + destruct r as [[p s]|]; [|done]. intros _.
      destruct (proj1 (Hr p s) eq_refl) as (c' & rest & [= <-] & _ & _ & Hk').
      by apply CheckUserCert_spec in Hk' as (c'' & [= <-] & _ & _ & _ & _ & Hw & _).
    + intros Hw. assert (r = Some (principal, pretty (cert_Serial c))) as ->; [|done].
      apply Hr. exists c, []. split; [done|]. split; [done|]. split; [done|].
      apply CheckUserCert_spec. exists c. rewrite Hp, Hk. split; [done|]. split; [done|].
      split; [by apply list_elem_of_singleton|]. rewrite keysEqual_refl. auto using no_options_skipped.
Qed.

End auth_proofs.

Section plane_proofs.
Context {W : Type} `{World W} `{S : Store} `{!StoreLaws S}.

(** Who is let in: the principal named as the sandbox's owner. *)
Lemma wp_authorize target principal w :
  wp (authorize target principal)
     (λ r w', unchanged w w' ∧
        match r with
        | Ok sb => view KSandbox w (nn (t_Namespace target) (t_Sandbox target)) = Some sb ∧
                   ow_Name (sp_Owner (sb_Spec sb)) = principal ∧ principal ≠ ""
        | Err _ => True
        end) w.
Proof.
  unfold authorize. destruct (String.eqb_spec principal "") as [->|Hp]; [done|].
  apply wp_bind. eapply wp_mono; [apply GetSandbox_spec|]. intros [sb|e] w' [Hun Hr]; [|done].
  destruct (String.eqb_spec (ow_Name (sp_Owner (sb_Spec sb))) principal); done.
Qed.

(** C10. A caller who does not own the sandbox, or names one that does not exist,
    causes no call but the lookup and the refusal: no session record, no wake,
    no connection. *)
Theorem stranger_is_refused (env : Env W) `{!Conforms env} cfg payload target principal serial addr w :
  ParseSSHTarget (lf_DestAddr payload) (cfg_DefaultNamespace cfg) = Ok target →
  (∀ sb : Sandbox, view KSandbox w (nn (t_Namespace target) (t_Sandbox target)) = Some sb →
     ow_Name (sp_Owner (sb_Spec sb)) ≠ principal) →
  trace env (handleDirectTCPIP cfg (Ok payload) principal serial addr) w =
    (if String.eqb principal "" then []
     else trace env (GetSandbox (t_Namespace target) (t_Sandbox target)) w)
    ++ [SomeEvent (EReject Prohibited "not authorized for this sandbox")] ∧
  unchanged w (run env (handleDirectTCPIP cfg (Ok payload) principal serial addr) w).2.
Proof.
  intros Hparse Hown. unfold handleDirectTCPIP. rewrite Hparse.
  pose proof (wp_run env _ _ _ (wp_authorize target principal w)) as [Hun Hr].
  assert (∃ e, (run env (authorize target principal) w).1 = Err e) as [e He].
  { destruct (run env (authorize target principal) w).1 as [sb|e]; [|by exists e].
    destruct Hr as (Hv & Ho & _). by destruct (Hown sb Hv). }
  rewrite trace_bind, run_bind, He. split.
  - f_equal. unfold authorize. destruct (String.eqb principal ""); [done|].
    rewrite trace_bind. destruct (run env (GetSandbox _ _) w).1 as [sb|e']; [|by rewrite app_nil_r].
    destruct (negb _); by rewrite app_nil_r.
  - eapply unchanged_trans; [exact Hun|].
    eapply (wp_run env (reject Prohibited _) (λ _ w', unchanged _ w')). by intros [] w' [_ Hx].
Qed.

(** ** Waiting for a sandbox *)

Lemma wp_wakePause cfg sb deadline again (Q : option (res Sandbox) → W → Prop) w :
  cfg_Now cfg = None →
  (∀ w' e, Q (Some (Err e)) w') →
  (∀ w', clock w <= deadline → clock w + wakePollInterval <= clock w' → wp again Q w') →
  wp (wakePause cfg sb deadline again) Q w.
Proof.
  intros Hnow He Hagain. unfold wakePause, cfgNow. rewrite Hnow.
  apply wp_bind, wp_call. intros t w1 [Hc1 [_ ->]]. cbv beta.
  unfold time_After. destruct (Z.ltb_spec deadline (clock w1)) as [Hd|Hd]; [apply He|].
  apply wp_bind, wp_call. intros [e|] w2 [Hc2 Hw]; [apply He|]. specialize (Hw eq_refl).
  apply Hagain; lia.
Qed.

Lemma wp_wakeLoop cfg sb deadline fuel w :
  cfg_Now cfg = None →
  (0 < fuel)%nat → deadline < clock w + wakePollInterval * (Z.of_nat fuel - 1) →
  wp (wakeLoop cfg sb deadline fuel)
     (λ r _, ∃ x, r = Some x ∧ ∀ fresh, x = Ok fresh → st_PodIP (sb_Status fresh) ≠ "") w.
Proof.
  intros Hnow. revert w. induction fuel as [|fuel IH]; intros w Hpos Hd; [lia|]. cbn [wakeLoop].
  apply wp_bind. eapply wp_mono; [apply wp_and; [apply GetSandbox_spec|apply wp_clock]|].
  intros r w1 [_ Hc1]. simpl.
  assert (wp (wakePause cfg sb deadline (wakeLoop cfg sb deadline fuel))
    (λ r _, ∃ x, r = Some x ∧ ∀ fresh, x = Ok fresh → st_PodIP (sb_Status fresh) ≠ "") w1).
  { apply wp_wakePause; [done|by eauto|]. intros w2 Hle Hw2.
    unfold wakePollInterval, Second in *. apply IH; lia. }
  destruct r as [fresh|e]; [|done].
  destruct (String.eqb_spec (st_PodIP (sb_Status fresh)) ""); simpl; [done|].
  eexists. split; [done|]. by intros ? [= <-].
Qed.

Lemma wakeFuel_enough cfg :
  (0 < wakeFuel cfg)%nat ∧ cfg_WakeTimeout cfg < wakePollInterval * (Z.of_nat (wakeFuel cfg) - 1).
Proof.
  unfold wakeFuel. split; [lia|]. assert (0 < wakePollInterval) as Hp by done.
  pose proof (Z.mul_succ_div_gt (cfg_WakeTimeout cfg) wakePollInterval Hp).
  unfold wakePollInterval, Second in *. lia.
Qed.

(** C25. Waiting for a sandbox always ends, within the rounds the timeout allows:
    the loop never outlives its fuel, whatever the store answers; and when it
    ends well there is a pod address to dial. *)
Theorem wake_terminates (env : Env W) `{!Conforms env} cfg (sb : Sandbox) t w :
  cfg_Now cfg = None → t <= clock w →
  ∃ x, (run env (wakeLoop cfg sb (time_Add t (cfg_WakeTimeout cfg)) (wakeFuel cfg)) w).1 = Some x ∧
       ∀ fresh, x = Ok fresh → st_PodIP (sb_Status fresh) ≠ "".
Proof.
  intros Hnow Ht. destruct (wakeFuel_enough cfg) as [Hpos Hf].
  refine (wp_run env _ _ _ (wp_wakeLoop cfg sb _ _ w Hnow Hpos _)). unfold time_Add. lia.
Qed.

End plane_proofs.

(** ** The session record *)

(** The heartbeat a call starts. *)
Definition starts (e : some_event) : option (Duration * NamespacedName) :=
  match e with
  | SomeEvent (EStartHeartbeat i k) => Some (i, k)
  | _ => None
  end.

Definition quiet_call X (e : event X) : Prop := starts (SomeEvent e) = None.

Section session_proofs.
Context {W : Type} `{World W}.

Lemma quiet_client :
  (∀ ns name, calls quiet_call (client_GetSandbox ns name)) ∧
  (∀ sb, calls quiet_call (client_SetDesiredRunning sb)) ∧
  (∀ s, calls quiet_call (client_CreateSession s)) ∧
  (∀ ns name reason, calls quiet_call (client_CloseSession ns name reason)).
Proof.
  repeat split; try done.
  - intros sb. unfold client_SetDesiredRunning. by case_bool_decide.
  - by destruct x.
  - destruct x as [s|e]; [|done]. simpl. by case_bool_decide.
Qed.

Lemma quiet_authorize target principal : calls quiet_call (authorize target principal).
Proof.
  unfold authorize. destruct (String.eqb principal ""); [done|].
  split; [done|]. intros [sb|e]; [|done]. simpl. by destruct (negb _).
Qed.

Lemma quiet_wakeLoop cfg sb deadline fuel :
  cfg_Now cfg = None → calls quiet_call (wakeLoop cfg sb deadline fuel).
Proof.
  intros Hnow. induction fuel as [|fuel IH]; [done|].
  assert (calls quiet_call (wakePause cfg sb deadline (wakeLoop cfg sb deadline fuel))).
  { unfold wakePause, cfgNow. rewrite Hnow. split; [done|]. intros t. simpl.
    destruct (time_After t deadline); [done|]. split; [done|]. by intros [e|]. }
  split; [done|]. intros [fresh|e]; [|done]. simpl. by destruct (negb _).
Qed.

Lemma quiet_serveSandbox cfg sb : cfg_Now cfg = None → calls quiet_call (serveSandbox cfg sb).
Proof.
  intros Hnow. destruct quiet_client as (_ & Hset & _). apply calls_bind.
  - unfold wakeAndWait. destruct (_ && _); [done|]. apply calls_bind; [apply Hset|].
    intros [sb'|e]; [|done]. apply calls_bind; [unfold cfgNow; by rewrite Hnow|].
    intros t. apply calls_bind; [by apply quiet_wakeLoop|done].
  - intros [sb'|e]; [|done]. apply calls_bind.
    + unfold DialSandbox. destruct (String.eqb _ ""); [done|]. split; [done|]. by intros [].
    + intros [[]|e]; [|done]. split; [done|]. by intros [|].
Qed.

Lemma quiet_trace {A} (env : Env W) (p : prog A) w e :
  calls quiet_call p → e ∈ trace env p w → starts e = None.
Proof. intros Hq. by apply (calls_trace env (λ e, starts e = None)). Qed.

(** The heartbeat [openSession] starts is that of the session it returns. *)
Lemma openSession_starts (env : Env W) sb principal addr serial w e x :
  e ∈ trace env (openSession sb principal addr serial) w → starts e = Some x →
  (run env (openSession sb principal addr serial) w).1 = Some (x.2).
Proof.
  unfold openSession. rewrite trace_bind, run_bind. intros [He|He]%elem_of_app Hs.
  { rewrite (quiet_trace env randomSuffix w e) in Hs; [done| |done]. split; [done|]. by intros []. }
  revert He. destruct (run env randomSuffix w) as [suffix w1]. cbn [fst snd]. cbv zeta. rewrite trace_bind, run_bind. intros [He|He]%elem_of_app.
  { destruct quiet_client as (_ & _ & Hc & _). by rewrite (quiet_trace env _ _ _ (Hc _) He) in Hs. }
  destruct (run env (CreateSession _) w1) as [[[]|err] w2]; [|by apply not_elem_of_nil in He].
  simpl in *. destruct (env _ _ _) as [u w3]. apply list_elem_of_singleton in He as ->.
  by injection Hs as <-.
Qed.

(** The handler's last calls, [p] having started the heartbeat of [k]. *)
Definition ends_session {A} (env : Env W) (p : prog A) w interval k : Prop :=
  let close := CloseSession (nn_Namespace k) (nn_Name k) ExitReasonDisconnected in
  ∃ before w1, trace env p w = before ++ SomeEvent (EStopHeartbeat k) :: trace env close w1 ∧
    SomeEvent (EStartHeartbeat interval k) ∈ before ∧
    (run env p w).2 = (run env close w1).2 ∧
    ((run env close w1).1 = Ok tt →
     ∃ s : SandboxSession, view KSession (run env p w).2 k = Some s ∧
                           sst_State (ses_Status s) = SessionStateClosed).

Lemma ends_session_bind {A B} (env : Env W) (p : prog A) (f : A → prog B) w interval k :
  ends_session env (f (run env p w).1) (run env p w).2 interval k →
  ends_session env (p ≫= f) w interval k.
Proof.
  intros (before & w1 & Ht & Hin & Hw & Hc). exists (trace env p w ++ before), w1.
  rewrite trace_bind, run_bind, Ht, app_assoc. split; [done|]. split; [|done]. apply elem_of_app. by right.
Qed.

Lemma recorded_session_ends (env : Env W) `{!Conforms env} sb principal addr serial (p : prog unit) w interval k :
  calls quiet_call p →
  let handler := session ← openSession sb principal addr serial;
                 _ ← p; closeSession session ExitReasonDisconnected in
  SomeEvent (EStartHeartbeat interval k) ∈ trace env handler w → ends_session env handler w interval k.
Proof.
  intros Hp handler. subst handler. unfold ends_session. cbv zeta.
  rewrite (trace_bind env (openSession _ _ _ _)), (run_bind env (openSession _ _ _ _)).
  pose proof (openSession_starts env sb principal addr serial w (SomeEvent (EStartHeartbeat interval k)) (interval, k)) as Ho.
  revert Ho. generalize (trace env (openSession sb principal addr serial) w) as tr.
  destruct (run env (openSession sb principal addr serial) w) as [r w1]. cbn [fst snd]. intros tr Ho.
  rewrite (trace_bind env p), (run_bind env p). destruct (run env p w1) as [x w2] eqn:Hrp. cbn [fst snd].
  intros [Hin|[Hin|Hin]%elem_of_app]%elem_of_app.
  - rewrite (Ho Hin eq_refl). cbn [closeSession]. rewrite (trace_bind env (call _)), (run_bind env (call _)).
    set (w3 := (run env (call (EStopHeartbeat k)) w2).2). exists (tr ++ trace env p w1), w3.
    split; [|split; [apply elem_of_app; by left|]].
    + rewrite <- app_assoc. do 2 f_equal. simpl. f_equal. rewrite trace_bind. cbn [trace]. by rewrite app_nil_r.
    + rewrite run_bind. split; [done|]. intros Hok. cbn [run snd].
      pose proof (wp_run env _ _ _ (CloseSession_spec (nn_Namespace k) (nn_Name k) ExitReasonDisconnected w3)) as (_ & _ & Hc).
      rewrite Hok in Hc. destruct k. exact Hc.
  - by pose proof (quiet_trace env p w1 _ Hp Hin).
  - exfalso. destruct r as [k'|]; [|by apply not_elem_of_nil in Hin].
    assert (calls quiet_call (closeSession (Some k') ExitReasonDisconnected)) as Hq.
    { split; [done|]. intros []. apply (calls_bind _ (CloseSession _ _ _)); [apply quiet_client|done]. }
    by pose proof (quiet_trace env _ _ _ Hq Hin).
Qed.

(** C24. Every session whose heartbeat was started is ended: when the connection is
    over, however it ended, the handler's last calls stop that heartbeat and
    close that session, and if the store reports success the session is closed. *)
Theorem session_is_ended (env : Env W) `{!Conforms env} cfg payload principal serial addr w interval k :
  cfg_Now cfg = None →
  SomeEvent (EStartHeartbeat interval k) ∈ trace env (handleDirectTCPIP cfg payload principal serial addr) w →
  ends_session env (handleDirectTCPIP cfg payload principal serial addr) w interval k.
Proof.
  intros Hnow. unfold handleDirectTCPIP.
  assert (∀ A (p : prog A) w, calls quiet_call p →
    SomeEvent (EStartHeartbeat interval k) ∈ trace env p w → False) as Hq.
  { intros A p w0 Hp Hin. by pose proof (quiet_trace env p w0 _ Hp Hin). }
  destruct payload as [payload|e]; [|by intros []%Hq].
  destruct (ParseSSHTarget _ _) as [target|e]; [|by intros []%Hq].
  rewrite (trace_bind env (authorize _ _)). intros [[]%Hq|Hin]%elem_of_app; [apply quiet_authorize|].
  apply ends_session_bind. destruct (run env (authorize _ _) w).1 as [sb|e].
  - by apply (recorded_session_ends env _ _ _ _ _ _ _ _ (quiet_serveSandbox cfg sb Hnow)).
  - by apply Hq in Hin.
Qed.

(** ** Heartbeats and the reaper *)

Lemma heartbeatInterval_bounds d :
  int64_range d → 60 * Second <= heartbeatInterval d ∧ 3 * heartbeatInterval d < int64_max.
Proof.
  unfold heartbeatInterval, dur_div, int64_range, int64_min, int64_max, Second. intros Hd.
  pose proof (Z.quot_rem' d 4). pose proof (Z.rem_bound_abs d 4).
  destruct (Z.ltb_spec (60 * 1000000000) (d ÷ 4)); lia.
Qed.

(** C28. The interval the gateway beats at and the deadline of the session
    controller fit: a session the gateway opened, whose last sign of life is
    less than three of its intervals old, is never reaped, and its deadline
    does not overflow. *)
Theorem beating_session_survives (env : Env W) `{!Conforms env} r (sb : Sandbox) suffix principal addr serial
    (s : SandboxSession) w res w' :
  ssr_Now r = None → int64_range (gatewayIdleTimeout sb) →
  ses_Spec s = ses_Spec (newSession sb suffix principal addr serial) →
  view KSession w (okey KSession s) = Some s →
  clock w' - lastSeen s <= 3 * heartbeatInterval (gatewayIdleTimeout sb) →
  run env (reconcileActive r s) w = (Ok res, w') → unchanged w w'.
Proof.
  intros Hnow Hrange Hspec Hv Hlive Hrun. destruct (heartbeatInterval_bounds _ Hrange) as [Hlo Hhi].
  assert (sessionInterval s = heartbeatInterval (gatewayIdleTimeout sb)) as Hi.
  { unfold sessionInterval. rewrite Hspec. simpl. unfold Second in Hlo. destruct (Z.ltb_spec 0 (heartbeatInterval (gatewayIdleTimeout sb))); lia. }
  pose proof (run_wp env _ _ _ _ _ Hrun (wp_reconcileActive r s w Hnow ltac:(lia) Hv)) as [_ Ho].
  destruct (time_IsZero (lastSeen s)); [done|]. destruct Ho as (t & Ht & Ho). rewrite Hi in Ho.
  destruct (Z.leb_spec (t - lastSeen s) (3 * heartbeatInterval (gatewayIdleTimeout sb))); [by destruct Ho|lia].
Qed.

End session_proofs.
