(* ===== verification/Bridge.v ===== *)
(** * Bridging two connections (internal/gateway/sshjump.go)

    [bridge] starts a goroutine per direction, each copying until its source
    ends or either side fails and then putting a token into a channel with room
    for two; it waits for one token and closes both connections. Here the three
    goroutines are a transition system over their shared state, in any
    interleaving with the peers. The two ends are not alike. [a] is the client's
    SSH channel: closing it sends a close message, and neither a read of it nor a
    write that waits for window returns before the client says something. [b] is
    a network connection to the sandbox: closing it ends the reads and writes in
    progress. The bytes themselves are the libraries'; what is proved is that
    [bridge] is not early (nothing is closed while both peers are there), how far
    it comes by itself once a peer has ended, and what exactly it may be left
    waiting for. Closing is taken not to block. *)

From S2P Require Import Prelude.
From stdpp Require Import base list relations.
From Stdlib Require Import ZArith Lia.

(** A copying goroutine: in [io.Copy], waiting in a read or in a write; about to
    send its token; done. *)
Inductive copier := Reading | Writing | Sending | Finished.

(** [bridge] itself: waiting for a token, then closing [a], then [b]. *)
Inductive waiter := Awaiting | ClosingA | ClosingB | Returned.

#[export] Instance copier_eq_dec : EqDecision copier.
Proof. solve_decision. Defined.
#[export] Instance waiter_eq_dec : EqDecision waiter.
Proof. solve_decision. Defined.

(** A connection: the peer has sent its last byte; the peer has closed it or is
    gone, so that it takes no more bytes; it was closed here. *)
Record conn := { c_eof : bool; c_gone : bool; c_closed : bool }.

(** [br_toA] runs [io.Copy(a, b)], [br_toB] runs [io.Copy(b, a)]; [br_done] is the
    number of tokens in the channel. *)
Record bridge := {
  br_a : conn;
  br_b : conn;
  br_toA : copier;
  br_toB : copier;
  br_done : nat;
  br_main : waiter;
}.

Definition doneCap : nat := 2.

Definition fresh_conn : conn := {| c_eof := false; c_gone := false; c_closed := false |}.

Definition newBridge : bridge :=
  {| br_a := fresh_conn; br_b := fresh_conn; br_toA := Reading; br_toB := Reading;
     br_done := 0; br_main := Awaiting |}.

Definition endData (c : conn) : conn := {| c_eof := true; c_gone := c_gone c; c_closed := c_closed c |}.
Definition hangUp (c : conn) : conn := {| c_eof := true; c_gone := true; c_closed := c_closed c |}.
Definition close (c : conn) : conn := {| c_eof := c_eof c; c_gone := c_gone c; c_closed := true |}.

Definition set_conns (a b : conn) (s : bridge) : bridge :=
  {| br_a := a; br_b := b; br_toA := br_toA s; br_toB := br_toB s;
     br_done := br_done s; br_main := br_main s |}.
Definition set_toA (c : copier) (s : bridge) : bridge :=
  {| br_a := br_a s; br_b := br_b s; br_toA := c; br_toB := br_toB s;
     br_done := br_done s; br_main := br_main s |}.
Definition set_toB (c : copier) (s : bridge) : bridge :=
  {| br_a := br_a s; br_b := br_b s; br_toA := br_toA s; br_toB := c;
     br_done := br_done s; br_main := br_main s |}.
Definition set_done (n : nat) (s : bridge) : bridge :=
  {| br_a := br_a s; br_b := br_b s; br_toA := br_toA s; br_toB := br_toB s;
     br_done := n; br_main := br_main s |}.
Definition set_main (m : waiter) (s : bridge) : bridge :=
  {| br_a := br_a s; br_b := br_b s; br_toA := br_toA s; br_toB := br_toB s;
     br_done := br_done s; br_main := m |}.

(** When a read, or a write in progress, returns without data going through.
    A channel: only by what the client sends, its end of file or its close. A
    network connection: also by closing it here. *)
Definition chan_read_ends (c : conn) : bool := c_eof c.
Definition chan_write_fails (c : conn) : bool := c_gone c.
Definition net_read_ends (c : conn) : bool := c_eof c || c_closed c.
Definition net_write_fails (c : conn) : bool := c_gone c || c_closed c.

(** What the three goroutines do by themselves. A copy ends when its read returns
    the end or its write fails. A send needs room in the channel, the receive a
    token. *)
Inductive go_step : bridge → bridge → Prop :=
  | readB_ends s : br_toA s = Reading → net_read_ends (br_b s) = true → go_step s (set_toA Sending s)
  | writeA_fails s : br_toA s = Writing → chan_write_fails (br_a s) = true → go_step s (set_toA Sending s)
  | readA_ends s : br_toB s = Reading → chan_read_ends (br_a s) = true → go_step s (set_toB Sending s)
  | writeB_fails s : br_toB s = Writing → net_write_fails (br_b s) = true → go_step s (set_toB Sending s)
  | sendA s : br_toA s = Sending → (br_done s < doneCap)%nat →
      go_step s (set_toA Finished (set_done (S (br_done s)) s))
  | sendB s : br_toB s = Sending → (br_done s < doneCap)%nat →
      go_step s (set_toB Finished (set_done (S (br_done s)) s))
  | receive s n : br_main s = Awaiting → br_done s = S n →
      go_step s (set_main ClosingA (set_done n s))
  | closeA s : br_main s = ClosingA →
      go_step s (set_main ClosingB (set_conns (close (br_a s)) (br_b s) s))
  | closeB s : br_main s = ClosingB →
      go_step s (set_main Returned (set_conns (br_a s) (close (br_b s)) s)).

(** What the peers do, when they like: end their data, hang up, send data, and
    take data. A client that makes room on a channel that was closed here lets
    the write go on, which then fails. *)
Inductive peer_step : bridge → bridge → Prop :=
  | eofA s : peer_step s (set_conns (endData (br_a s)) (br_b s) s)
  | eofB s : peer_step s (set_conns (br_a s) (endData (br_b s)) s)
  | goneA s : peer_step s (set_conns (hangUp (br_a s)) (br_b s) s)
  | goneB s : peer_step s (set_conns (br_a s) (hangUp (br_b s)) s)
  | dataA s : br_toB s = Reading → peer_step s (set_toB Writing s)
  | dataB s : br_toA s = Reading → c_closed (br_b s) = false → peer_step s (set_toA Writing s)
  | roomA s : br_toA s = Writing → c_gone (br_a s) = false →
      peer_step s (set_toA (if c_closed (br_a s) then Sending else Reading) s)
  | roomB s : br_toB s = Writing → net_write_fails (br_b s) = false → peer_step s (set_toB Reading s).

Definition any_step (s s' : bridge) : Prop := go_step s s' ∨ peer_step s s'.

(** A history in which the goroutines took [n] steps. *)
Inductive history : nat → bridge → Prop :=
  | history_new : history 0 newBridge
  | history_go n s s' : history n s → go_step s s' → history (S n) s'
  | history_peer n s s' : history n s → peer_step s s' → history n s'.

(** A peer has sent its last byte, which it has also when it is gone. *)
Definition ended (s : bridge) : bool := c_eof (br_a s) || c_eof (br_b s).

(** ** The invariant *)

Definition copying (c : copier) : bool := match c with Reading | Writing => true | _ => false end.
Definition finished (c : copier) : nat := match c with Finished => 1 | _ => 0 end.
Definition taken (m : waiter) : nat := match m with Awaiting => 0 | _ => 1 end.

(** Each finished copy left a token, and [bridge] took one of them unless it
    still waits; what is closed follows from where [bridge] is; copies end only
    when a peer has. *)
Record bridge_inv (s : bridge) : Prop := {
  inv_tokens : (br_done s + taken (br_main s) = finished (br_toA s) + finished (br_toB s))%nat;
  inv_a : c_closed (br_a s) = true ↔ br_main s = ClosingB ∨ br_main s = Returned;
  inv_b : c_closed (br_b s) = true ↔ br_main s = Returned;
  inv_gone_a : c_gone (br_a s) = true → c_eof (br_a s) = true;
  inv_gone_b : c_gone (br_b s) = true → c_eof (br_b s) = true;
  inv_cause : copying (br_toA s) && copying (br_toB s) = false → ended s = true;
}.

Lemma bridge_inv_new : bridge_inv newBridge.
Proof. split; simpl; naive_solver. Qed.

(** While [bridge] waits nothing is closed, and once it does not, a copy is over. *)
Lemma not_awaiting s : bridge_inv s → br_main s ≠ Awaiting → copying (br_toA s) && copying (br_toB s) = false.
Proof.
  intros [Ht _ _ _ _ _] Hm. apply not_true_is_false. intros [Ea Eb]%andb_true_iff.
  destruct (br_toA s), (br_toB s), (br_main s); simpl in *; try done; lia.
Qed.

Lemma closed_ended s : bridge_inv s → c_closed (br_a s) = true ∨ c_closed (br_b s) = true → ended s = true.
Proof.
  intros Hi Hc. apply (inv_cause s Hi), (not_awaiting s Hi). intros E.
  destruct Hc as [Hc|Hc]; [apply (inv_a s Hi) in Hc|apply (inv_b s Hi) in Hc]; rewrite E in Hc; naive_solver.
Qed.

Lemma bridge_inv_go s s' : bridge_inv s → go_step s s' → bridge_inv s'.
Proof.
  intros Hi Hs. pose proof (closed_ended s Hi) as Hcl. destruct Hi as [Ht Ha Hb Ga Gb Hc]. unfold ended in *.
  destruct Hs as [s E O|s E O|s E O|s E O|s E O|s E O|s n E O|s E|s E];
    unfold net_read_ends, net_write_fails, chan_read_ends, chan_write_fails in *;
    split; unfold ended; simpl in *; rewrite ?E, ?O in *; simpl in *;
    try (apply orb_true_iff in O); rewrite ?orb_true_iff in *; first [lia|naive_solver].
Qed.

Lemma bridge_inv_peer s s' : bridge_inv s → peer_step s s' → bridge_inv s'.
Proof.
  intros Hi Hs. pose proof (closed_ended s Hi) as Hcl. destruct Hi as [Ht Ha Hb Ga Gb Hc]. unfold ended in *.
  destruct Hs as [s|s|s|s|s E|s E O|s E O|s E O]; split; unfold ended; simpl in *; rewrite ?E in *; simpl in *;
    try done; rewrite ?orb_true_r; try done; destruct (c_closed (br_a s)) eqn:C; simpl; auto; try lia; naive_solver.
Qed.

Lemma history_inv n s : history n s → bridge_inv s.
Proof.
  induction 1 as [|n s s' _ IH Hs|n s s' _ IH Hs];
    [apply bridge_inv_new|by eapply bridge_inv_go|by eapply bridge_inv_peer].
Qed.

(** ** Bounded work *)

Definition copier_work (c : copier) : nat := match c with Reading | Writing => 2 | Sending => 1 | Finished => 0 end.
Definition waiter_work (m : waiter) : nat :=
  match m with Awaiting => 3 | ClosingA => 2 | ClosingB => 1 | Returned => 0 end.
Definition work (s : bridge) : nat :=
  (copier_work (br_toA s) + copier_work (br_toB s) + waiter_work (br_main s))%nat.

Lemma work_go s s' : go_step s s' → work s = S (work s').
Proof. unfold work. intros []; simpl; repeat match goal with E : _ = _ |- _ => rewrite E end; simpl; lia. Qed.

Lemma work_peer s s' : peer_step s s' → (work s' <= work s)%nat.
Proof. unfold work. intros []; simpl; repeat match goal with E : _ = _ |- _ => rewrite E end; simpl; try case_match; simpl; lia. Qed.

Lemma history_work n s : history n s → (n + work s <= 7)%nat.
Proof.
  induction 1 as [|n s s' _ IH Hs|n s s' _ IH Hs]; [done|apply work_go in Hs; lia|apply work_peer in Hs; lia].
Qed.

(** ** Where the goroutines can come to rest *)

(** [bridge] still waits: a copy is in a write that a live peer does not take. *)
Definition blocked_write (s : bridge) : Prop :=
  br_main s = Awaiting ∧
  ((br_toB s = Writing ∧ c_gone (br_b s) = false) ∨ (br_toA s = Writing ∧ c_gone (br_a s) = false)).

(** [bridge] has returned and closed both; a copy is over, or waits for a client
    that is still there: for its answer to the close, or for it to make room. *)
Definition all_closed (s : bridge) : Prop :=
  br_main s = Returned ∧ c_closed (br_a s) = true ∧ c_closed (br_b s) = true ∧
  (br_toB s = Finished ∨ (br_toB s = Reading ∧ c_eof (br_a s) = false)) ∧
  (br_toA s = Finished ∨ (br_toA s = Writing ∧ c_gone (br_a s) = false)).

Lemma bridge_at_rest s :
  bridge_inv s → ended s = true → (∀ s', ¬ go_step s s') → blocked_write s ∨ all_closed s.
Proof.
  intros Hi He Hno. pose proof (not_awaiting s Hi) as Hna. destruct Hi as [Ht Ha Hb Ga Gb Hc].
  assert (br_toA s ≠ Sending) as NA.
  { intros E. eapply Hno, sendA; [done|]. rewrite E in Ht. unfold doneCap. destruct (br_toB s); simpl in *; lia. }
  assert (br_toB s ≠ Sending) as NB.
  { intros E. eapply Hno, sendB; [done|]. rewrite E in Ht. unfold doneCap. destruct (br_toA s); simpl in *; lia. }
  assert (br_toA s = Reading → net_read_ends (br_b s) = false) as R1.
  { intros E. apply not_true_is_false. intros O. by eapply Hno, readB_ends. }
  assert (br_toA s = Writing → c_gone (br_a s) = false) as R2.
  { intros E. apply not_true_is_false. intros O. by eapply Hno, writeA_fails. }
  assert (br_toB s = Reading → c_eof (br_a s) = false) as R3.
  { intros E. apply not_true_is_false. intros O. by eapply Hno, readA_ends. }
  assert (br_toB s = Writing → net_write_fails (br_b s) = false) as R4.
  { intros E. apply not_true_is_false. intros O. by eapply Hno, writeB_fails. }
  unfold net_read_ends, net_write_fails in *. setoid_rewrite orb_false_iff in R1. setoid_rewrite orb_false_iff in R4.
  unfold ended in He. apply orb_true_iff in He. destruct (br_main s) eqn:EM.
  - left. split; [done|]. destruct (br_done s) as [|n] eqn:ED; [|by destruct (Hno _ (receive s n EM ED))].
    destruct (br_toA s), (br_toB s); simpl in Ht; try done; try lia; naive_solver congruence.
  - by destruct (Hno _ (closeA s EM)).
  - by destruct (Hno _ (closeB s EM)).
  - right. assert (c_closed (br_a s) = true ∧ c_closed (br_b s) = true) as [Ca Cb] by (split; [apply Ha; auto|by apply Hb]).
    split; [done|]. split; [done|]. split; [done|].
    destruct (br_toA s), (br_toB s); naive_solver congruence.
Qed.

Lemma untouched s :
  bridge_inv s → ended s = false → br_main s = Awaiting ∧ c_closed (br_a s) = false ∧ c_closed (br_b s) = false.
Proof.
  intros Hi He. assert (br_main s = Awaiting) as Hm.
  { destruct (decide (br_main s = Awaiting)) as [|Hm]; [done|].
    pose proof (inv_cause s Hi (not_awaiting s Hi Hm)). congruence. }
  split; [done|]. split; apply not_true_is_false; intros Hc.
  - pose proof (closed_ended s Hi (or_introl Hc)). congruence.
  - pose proof (closed_ended s Hi (or_intror Hc)). congruence.
Qed.

(** C26. In every history of the bridge, whatever the peers do and however the
    goroutines interleave: while neither peer has ended its data, nothing is
    closed and [bridge] waits. The goroutines take at most seven steps of their
    own in all. And when a peer has ended and no such step is left, then either
    [bridge] still waits, because a copy is in a write that its peer, which is
    still there, does not take; or [bridge] has returned, both connections are
    closed, and each copy is over, except that the one reading the client waits
    for its answer to the close, or the one writing to it for room. Once the
    client is gone, what can hold up the bridge is a write the sandbox does not
    take, and nothing else. *)
Theorem bridge_ends n s :
  history n s →
  (ended s = false → br_main s = Awaiting ∧ c_closed (br_a s) = false ∧ c_closed (br_b s) = false) ∧
  (n <= 7)%nat ∧
  (ended s = true → (∀ s', ¬ go_step s s') →
     blocked_write s ∨ all_closed s) ∧
  (c_gone (br_a s) = true → (∀ s', ¬ go_step s s') →
     (br_main s = Awaiting ∧ br_toB s = Writing ∧ c_gone (br_b s) = false) ∨
     (br_main s = Returned ∧ br_toA s = Finished ∧ br_toB s = Finished ∧
      c_closed (br_a s) = true ∧ c_closed (br_b s) = true)).
Proof.
  intros Hh. pose proof (history_inv _ _ Hh) as Hi. split; [by apply untouched|].
  split; [pose proof (history_work _ _ Hh); lia|]. split; [by apply bridge_at_rest|].
  intros Hg Hno. pose proof (inv_gone_a s Hi Hg) as He.
  destruct (bridge_at_rest s Hi) as [(Hm & [[Hw Hb]|[_ Ha]])|(Hm & Ca & Cb & HB & HA)]; [by unfold ended; rewrite He|done|..].
  - by left.
  - congruence.
  - right. destruct HB as [HB|[_ HB]]; [|congruence]. destruct HA as [HA|[_ HA]]; [|congruence]. done.
Qed.

(** *** Histories *)

(** The client hangs up and everything ends, in seven steps of the goroutines. *)
Definition clientLeft : bridge := set_conns (hangUp fresh_conn) fresh_conn newBridge.

Lemma left_history : history 0 clientLeft.
Proof. eapply history_peer; [apply history_new|]. exact (goneA newBridge). Qed.

Lemma bridge_ends_witness :
  (∀ s', go_step clientLeft s' → ended clientLeft = true ∧ br_toB s' = Sending) ∧
  ∃ s, history 7 s ∧
    ((br_main s = Awaiting ∧ br_toB s = Writing ∧ c_gone (br_b s) = false) ∨
     (br_main s = Returned ∧ br_toA s = Finished ∧ br_toB s = Finished ∧
      c_closed (br_a s) = true ∧ c_closed (br_b s) = true)).
Proof.
  split; [intros s' Hs; split; [reflexivity|]; inversion Hs; subst; unfold net_read_ends, net_write_fails, chan_read_ends, chan_write_fails in *; simpl in *; first [reflexivity|congruence]|].
  assert (∃ s, history 7 s ∧ c_gone (br_a s) = true) as (s & Hh & Hg).
  { pose proof (history_go _ _ _ left_history (readA_ends clientLeft eq_refl eq_refl)) as H1.
    unshelve epose proof (history_go _ _ _ H1 (sendB _ _ _)) as H2; [reflexivity|unfold doneCap; cbn; lia|].
    unshelve epose proof (history_go _ _ _ H2 (receive _ 0 _ _)) as H3; [reflexivity|reflexivity|].
    unshelve epose proof (history_go _ _ _ H3 (closeA _ _)) as H4; [reflexivity|].
    unshelve epose proof (history_go _ _ _ H4 (closeB _ _)) as H5; [reflexivity|].
    unshelve epose proof (history_go _ _ _ H5 (readB_ends _ _ _)) as H6; [reflexivity|reflexivity|].
    unshelve epose proof (history_go _ _ _ H6 (sendA _ _ _)) as H7; [reflexivity|unfold doneCap; cbn; lia|].
    exact (ex_intro _ _ (conj H7 eq_refl)). }
  exists s. split; [exact Hh|]. destruct (bridge_ends 7 s Hh) as (_ & _ & _ & Hend).
  apply (Hend Hg). intros s' Hs. pose proof (history_work _ _ (history_go _ _ _ Hh Hs)). lia.
Defined.

(** The client is gone while the sandbox takes no more data and sends none: the
    bridge is left waiting, with nothing closed. *)
Theorem bridge_held_by_sandbox :
  ∃ s, history 0 s ∧ c_gone (br_a s) = true ∧ br_main s = Awaiting ∧ c_closed (br_b s) = false ∧
       ∀ s', ¬ go_step s s'.
Proof.
  exists (set_conns (hangUp fresh_conn) fresh_conn (set_toB Writing newBridge)). split; [|split; [done|]; split; [done|]; split; [done|]].
  - eapply history_peer; [eapply history_peer; [apply history_new|]|].
    + exact (dataA newBridge eq_refl).
    + exact (goneA (set_toB Writing newBridge)).
  - intros s' Hs. inversion Hs; subst; unfold net_read_ends, net_write_fails, chan_read_ends, chan_write_fails in *; simpl in *; congruence.
Qed.
