(* ===== verification/Agent.v ===== *)
(** * The sandbox agent (internal/agent)

    The SSH server inside a sandbox: its configuration from the environment
    and the mounted host-key secret, its check of client certificates, the
    commands it runs. (The persistent shell is in Shell.v.) The theorems: a
    client is admitted exactly with a valid user certificate that names the
    owner; a certificate the gateway's signer issued is accepted at the agent
    of its principal's sandbox and at no other; the secret the operator creates
    for a sandbox is one its agent starts from; what a session runs. *)

From S2P Require Import Prelude GoStrings Utf8 Os KubeTypes ApiTypes Client Files Libs SSHCA Bootstrap SandboxNet Store SSHJump.
From Stdlib Require Import String Ascii.
From stdpp Require Import base gmap strings list.
From Stdlib Require Import ZArith Lia.
Local Open Scope Z_scope.

(** ** Configuration *)

Record AgentConfig := {
  ac_Addr : string;
  ac_Owner : string;
  ac_HostKeyPEM : string;
  ac_HostCertAuthorized : string;
  ac_UserCAAuthorized : string;
  ac_Command : list string;
  ac_HomeDir : string;
  (* the clock, nil outside tests *)
  ac_Now : option (prog Time);
}.

(** [os.ReadFile] with its error wrapped. *)
Definition readFile (what path : string) : prog (res string) :=
  r ← call (EOS (OReadFile path));
  match r with
  | Err e => Ret (Err (WrapError ("read " +:+ what) e))
  | Ok d => Ret (Ok d)
  end.

Definition ConfigFromEnv (command : list string) : prog (res AgentConfig) :=
  dir0 ← call (EGetenv "KUBEPARK_HOST_DIR");
  let dir := if String.eqb dir0 "" then "/etc/kubepark/host" else dir0 in
  hostKey ←? readFile "host key" (dir +:+ "/ssh_host_ed25519_key");
  hostCert ←? readFile "host cert" (dir +:+ "/ssh_host_ed25519_key-cert.pub");
  userCA ←? readFile "user CA" (dir +:+ "/user-ca.pub");
  home0 ← call (EGetenv "HOME");
  let home := if String.eqb home0 "" then "/home/sandbox" else home0 in
  owner ← call (EGetenv "KUBEPARK_OWNER");
  Ret (Ok {| ac_Addr := ":2222"; ac_Owner := owner; ac_HostKeyPEM := hostKey;
             ac_HostCertAuthorized := hostCert; ac_UserCAAuthorized := userCA;
             ac_Command := command; ac_HomeDir := home; ac_Now := None |}).

(** ** Commands of a session *)

Definition loginShell : prog string :=
  sh ← call (EGetenv "SHELL");
  if negb (String.eqb sh "") then Ret sh
  else
    bash ← call (EOS (OStat "/bin/bash"));
    match bash with
    | Ok _ => Ret "/bin/bash"
    | Err _ =>
      _ ← call (EOS (OStat "/bin/sh"));
      Ret "/bin/sh"
    end.

Definition joinCommand (cmd : list string) : string := GoStrings.Join cmd " ".

Definition shellInvocation (clientCmd : list string) : prog (list string) :=
  shell ← loginShell;
  Ret (match clientCmd with
       | [] => [shell; "-l"]
       | _ => [shell; "-c"; joinCommand clientCmd]
       end).

(** [WaitStatus.ExitStatus]: the exit code, or -1 if a signal ended it. *)
Definition ExitStatus (ws : Z) : Z :=
  if Z.land ws 127 =? 0 then Z.land (Z.shiftr ws 8) 255 else -1.

Definition waitStatus (err : WaitError) : Z :=
  match err with
  | WaitNil => 0
  | WaitExit ws => ExitStatus ws
  | WaitExitOther | WaitOther => 1
  end.

Definition childCmd (cfg : AgentConfig) (argv : list string) : Cmd :=
  {| cmd_Argv := argv; cmd_Dir := ac_HomeDir cfg; cmd_Env := [("HOME", ac_HomeDir cfg)] |}.

(** The status the session exits with. (The copies between the client and
    the child's pipes run beside it.) *)
Definition runExec (cfg : AgentConfig) (clientCmd : list string) : prog Z :=
  argv ← shellInvocation clientCmd;
  pipe ← call (EOS OStdinPipe);
  match pipe with
  | Err _ => Ret 1
  | Ok _ =>
    started ← call (EOS (OStart (childCmd cfg argv)));
    match started with
    | Err _ => Ret 127
    | Ok _ =>
      err ← call (EOS OWaitChild);
      Ret (waitStatus err)
    end
  end.

(** How [handle] serves a session: with a command or without a terminal as a
    one-off child, else attached to the persistent shell. *)
Inductive Served := ServedExec (status : Z) | ServedShell (term : string).

Definition handle (cfg : AgentConfig) (command : list string) (pty : option string) : prog Served :=
  match command, pty with
  | _ :: _, _ | [], None => status ← runExec cfg command; Ret (ServedExec status)
  | [], Some term => Ret (ServedShell term)
  end.

Definition startMainProcess (cfg : AgentConfig) : prog unit :=
  match ac_Command cfg with
  | [] => Ret tt
  | argv => _ ← call (EOS (OStart (childCmd cfg argv))); Ret tt
  end.

(** The command [ensureShell] starts on a new terminal. *)
Definition shellCommand (cfg : AgentConfig) (term : string) : prog Cmd :=
  argv ← shellInvocation [];
  Ret {| cmd_Argv := argv; cmd_Dir := ac_HomeDir cfg;
         cmd_Env := [("HOME", ac_HomeDir cfg); ("TERM", if String.eqb term "" then "xterm-256color" else term)] |}.

(** The status of an SFTP session: 1 if the server cannot be set up. *)
Definition sftpHandler {S} (NewServer : res S) (serve : S → option error) : Z :=
  match NewServer with
  | Err _ => 1
  | Ok server => match serve server with Some _ => 0 | None => 0 end
  end.

(** ** The server *)

Section server.
Context `{SSH : SSHLib}.

Definition signerWithCert (keyPEM certAuthorized : string) : res Signer :=
  match ParsePrivateKey keyPEM with
  | Err e => Err (WrapError "parse host key" e)
  | Ok signer =>
    match ParseAuthorizedKey certAuthorized with
    | Err e => Err (WrapError "parse host cert" e)
    | Ok pub =>
      match as_certificate pub with
      | None => Err (TextError "host cert is not a certificate")
      | Some cert =>
        match NewCertSigner cert signer with
        | Err e => Err (WrapError "build host cert signer" e)
        | Ok certSigner => Ok certSigner
        end
      end
    end
  end.

Definition agentNow (cfg : AgentConfig) : prog Time :=
  match ac_Now cfg with Some f => f | None => call ENow end.

Definition agentPublicKeyHandler (clockRead : prog Time) (userCA : PublicKey) (owner : string) (key : PublicKey) : prog bool :=
  match as_certificate key with
  | None => Ret false
  | Some cert =>
    now ← clockRead;
    Ret (match CheckUserCert (Some cert) (Some userCA) owner now with None => true | Some _ => false end)
  end.

(** Channel, request and subsystem types the server handles. *)
Record AgentServer := {
  as_Addr : string;
  as_HostSigner : Signer;
  as_PublicKeyHandler : PublicKey → prog bool;
  as_ChannelHandlers : list string;
  as_RequestHandlers : list string;
  as_SubsystemHandlers : list string;
}.

Definition NewAgentServer (cfg : AgentConfig) : prog (res AgentServer) :=
  if String.eqb (ac_Owner cfg) "" then Ret (Err (TextError "agent requires an owner principal"))
  else match signerWithCert (ac_HostKeyPEM cfg) (ac_HostCertAuthorized cfg) with
  | Err e => Ret (Err e)
  | Ok hostSigner =>
    match ParsePublicKey (ac_UserCAAuthorized cfg) with
    | Err e => Ret (Err (WrapError "parse user CA" e))
    | Ok userCA =>
      _ ← startMainProcess cfg;
      Ret (Ok {| as_Addr := ac_Addr cfg; as_HostSigner := hostSigner;
                 as_PublicKeyHandler := agentPublicKeyHandler (agentNow cfg) userCA (ac_Owner cfg);
                 as_ChannelHandlers := ["session"; "direct-tcpip"];
                 as_RequestHandlers := ["tcpip-forward"; "cancel-tcpip-forward"];
                 as_SubsystemHandlers := ["sftp"] |})
    end
  end.

End server.

(** A word with a space in it is run like two words: the quoting the client
    sent is not there any more when the words are joined. *)
Lemma joinCommand_merges a b v w :
  joinCommand (a ++ [v +:+ " " +:+ w] ++ b) = joinCommand (a ++ [v; w] ++ b).
Proof.
  assert (∀ b, joinCommand ((v +:+ " " +:+ w) :: b) = joinCommand (v :: w :: b)) as Hb.
  { intros [|x l]; [done|]. unfold joinCommand. change (GoStrings.Join (v :: w :: x :: l) " ")
      with (v +:+ " " +:+ (w +:+ " " +:+ GoStrings.Join (x :: l) " ")).
    change (GoStrings.Join ((v +:+ " " +:+ w) :: x :: l) " ")
      with ((v +:+ " " +:+ w) +:+ " " +:+ GoStrings.Join (x :: l) " "). by rewrite !append_assoc. }
  induction a as [|x a IH]; [apply Hb|].
  assert (∀ l, l ≠ [] → joinCommand (x :: l) = x +:+ " " +:+ joinCommand l) as Hx by (by intros []).
  cbn [app]. rewrite !Hx by (by destruct a). by f_equal; f_equal.
Qed.

(** ** Who is admitted *)

Section proofs.
Context `{SSH : SSHLib} `{!SSHLaws SSH}.
Context {W : Type} `{World W}.

Lemma wp_agentPublicKeyHandler userCA owner key w :
  wp (agentPublicKeyHandler (call ENow) userCA owner key) (λ b w', unchanged w w' ∧
    (b = true ↔ ∃ cert, as_certificate key = Some cert ∧
       CheckUserCert (Some cert) (Some userCA) owner (clock w') = None)) w.
Proof.
  unfold agentPublicKeyHandler. destruct (as_certificate key) as [cert|]; [|split; [done|naive_solver]].
  apply wp_bind, wp_call. intros now w' [_ [Hu ->]]. split; [done|].
  destruct (CheckUserCert _ _ _ _) eqn:E; naive_solver.
Qed.

(** What a server that started was configured with. *)
Lemma NewAgentServer_Ok (env : Env W) cfg w srv w' :
  run env (NewAgentServer cfg) w = (Ok srv, w') →
  ac_Owner cfg ≠ "" ∧ ∃ userCA, ParsePublicKey (ac_UserCAAuthorized cfg) = Ok userCA ∧
    signerWithCert (ac_HostKeyPEM cfg) (ac_HostCertAuthorized cfg) = Ok (as_HostSigner srv) ∧
    as_PublicKeyHandler srv = agentPublicKeyHandler (agentNow cfg) userCA (ac_Owner cfg).
Proof.
  unfold NewAgentServer. destruct (String.eqb_spec (ac_Owner cfg) "") as [|Ho]; [done|].
  destruct (signerWithCert _ _) as [signer|e]; [|done].
  destruct (ParsePublicKey _) as [userCA|e]; [|done]. rewrite run_bind. intros [= <- _]. split; [done|]. by exists userCA.
Qed.

(** C12. The agent admits a key exactly when it is a user certificate of the
    configured authority that verifies, is inside its validity window, carries
    no critical option but [source-address], and lists the sandbox's owner
    among its principals. *)
Theorem agent_admits_owner_only (env : Env W) `{!Conforms env} cfg w0 srv w1 key w b w' :
  ac_Now cfg = None → run env (NewAgentServer cfg) w0 = (Ok srv, w1) →
  run env (as_PublicKeyHandler srv key) w = (b, w') →
  b = true ↔
  ∃ userCA cert, ParsePublicKey (ac_UserCAAuthorized cfg) = Ok userCA ∧ as_certificate key = Some cert ∧
    cert_CertType cert = UserCert ∧ ac_Owner cfg ∈ cert_ValidPrincipals cert ∧
    keysEqual (cert_SignatureKey cert) (Some userCA) = true ∧ signature_verifies cert = true ∧
    in_window (clock w') cert ∧ options_skipped cert.
Proof.
  intros Hn (_ & userCA & Hca & _ & Hh)%NewAgentServer_Ok Hrun. rewrite Hh in Hrun. unfold agentNow in Hrun. rewrite Hn in Hrun.
  pose proof (run_wp env _ _ _ _ _ Hrun (wp_agentPublicKeyHandler userCA _ key w)) as [_ ->]. split.
  - intros (cert & Hk & (c & [= <-] & Hc)%CheckUserCert_spec). exists userCA, cert. naive_solver.
  - intros (ca & cert & Hca' & Hk & Hc). rewrite Hca in Hca'. injection Hca' as <-. exists cert. split; [done|].
    apply CheckUserCert_spec. exists cert. naive_solver.
Qed.

(** C30. The two ends of a connection agree on a key: the gateway takes it for its
    holder's exactly when the agent of that principal's sandbox, asked at the
    same time, admits it and the principal is the certificate's first. *)
Theorem gateway_agent_agree (env : Env W) cfg agent userCA owner key w :
  cfg_Now cfg = None → ac_Now agent = None →
  (∃ serial, (run env (PublicKeyHandler cfg userCA key) w).1 = Some (owner, serial)) ↔
  (run env (agentPublicKeyHandler (agentNow agent) userCA owner key) w).1 = true ∧
  ∃ cert, as_certificate key = Some cert ∧ head (cert_ValidPrincipals cert) = Some owner.
Proof.
  intros Hn Ha. unfold PublicKeyHandler, agentPublicKeyHandler, cfgNow, agentNow. rewrite Hn, Ha.
  destruct (as_certificate key) as [cert|]; [|split; [by intros [? ?]|by intros [? _]]].
  destruct (cert_ValidPrincipals cert) as [|p ps] eqn:Hp; cbn [run call fst].
  { split; [by intros [? ?]|]. intros [_ (c & [= <-] & Hh)]. by rewrite Hp in Hh. }
  rewrite !run_bind. cbn [run call]. destruct (env _ ENow w) as [t w']. cbn [fst snd]. split.
  - destruct (CheckUserCert _ _ p t) eqn:Hc; [by intros [? ?]|]. intros [serial [= <- _]]. cbn [run fst].
    rewrite Hc. split; [done|]. exists cert. by rewrite Hp.
  - intros [Hb (c & [= <-] & Hh)]. rewrite Hp in Hh. injection Hh as ->. cbn [run fst] in Hb.
    destruct (CheckUserCert _ _ owner t); [done|]. by eexists.
Qed.

(** Signing and the agent fit together: a certificate the gateway's signer
    issued opens the sandboxes of its principal and no others, from a minute
    before it was issued until it expires. *)
Theorem issued_certificate_opens_own_sandbox (env : Env W) `{!Conforms env}
    ca pub principal validFor now w0 c w1 cfg w2 srv w3 w b w' :
  run env (SignUserCert ca pub principal validFor now) w0 = (Ok c, w1) →
  representable (now - Minute) → representable (now + validFor) →
  ac_Now cfg = None → run env (NewAgentServer cfg) w2 = (Ok srv, w3) →
  ParsePublicKey (ac_UserCAAuthorized cfg) = Ok (signer_PublicKey ca) →
  run env (as_PublicKeyHandler srv (cert_as_key c)) w = (b, w') →
  b = true ↔ ac_Owner cfg = principal ∧ time_Unix (now - Minute) <= time_Unix (clock w') ∧
             (validFor <= 0 ∨ time_Unix (clock w') < time_Unix (now + validFor)).
Proof.
  intros Hsign Hr1 Hr2 Hn (_ & userCA & Hca & _ & Hh)%NewAgentServer_Ok Hca' Hrun. rewrite Hh in Hrun.
  unfold agentNow in Hrun. rewrite Hn in Hrun.
  rewrite Hca in Hca'. injection Hca' as ->.
  pose proof (run_wp env _ _ _ _ _ Hrun (wp_agentPublicKeyHandler _ _ _ w)) as [_ ->].
  rewrite as_certificate_as_key.
  pose proof (run_wp env _ _ _ _ _ Hsign (wp_SignUserCert ca pub principal validFor now w0)) as (_ & _ & Hi).
  rewrite <- (issued_window _ _ _ _ _ _ _ (clock w') Hi Hr1 Hr2). destruct Hi as (Ht & _ & Hp & _ & _ & Ho & Hk & Hs).
  split.
  - intros (c' & [= <-] & (c'' & [= <-] & _ & Hin & _ & _ & Hwin & _)%CheckUserCert_spec).
    rewrite Hp in Hin. by apply list_elem_of_singleton in Hin.
  - intros [Hown Hwin]. exists c. split; [done|]. apply CheckUserCert_spec. exists c. rewrite Hp, Hk, Hown.
    split; [done|]. split; [done|]. split; [by apply list_elem_of_singleton|]. rewrite keysEqual_refl. auto using no_options_skipped.
Qed.

(** ** Starting from the mounted secret *)

Context `{FileWorld W}.

(** A secret's entries as files of a directory. *)
Definition mounted (dir : string) (data : gmap string string) (fs : gmap string File) : Prop :=
  ∀ k v, data !! k = Some v → ∃ f, fs !! (dir +:+ "/" +:+ k) = Some f ∧ f_Data f = v.

Definition hostDir (w : W) : string :=
  if String.eqb (environ w "KUBEPARK_HOST_DIR") "" then "/etc/kubepark/host" else environ w "KUBEPARK_HOST_DIR".

Lemma wpf_readFile what path w :
  wpf anything (readFile what path) (λ r w', unchanged w w' ∧ files w' = files w ∧
    match r with Ok d => ∃ f, files w !! path = Some f ∧ f_Data f = d | Err _ => True end) w.
Proof.
  apply wpf_bind, wpf_call; [done|]. intros [d|e] w' [_ Hu] [Hf Hr]; (split; [done|]); by split.
Qed.

(** What the configuration is read from. *)
Definition config_from (command : list string) (w : W) (cfg : AgentConfig) : Prop :=
  ac_Addr cfg = ":2222" ∧ ac_Owner cfg = environ w "KUBEPARK_OWNER" ∧ ac_Command cfg = command ∧
  ac_HomeDir cfg = (if String.eqb (environ w "HOME") "" then "/home/sandbox" else environ w "HOME") ∧
  Forall (λ '(k, v), ∃ f, files w !! (hostDir w +:+ "/" +:+ k) = Some f ∧ f_Data f = v)
    [("ssh_host_ed25519_key", ac_HostKeyPEM cfg); ("ssh_host_ed25519_key-cert.pub", ac_HostCertAuthorized cfg);
     ("user-ca.pub", ac_UserCAAuthorized cfg)].

Lemma wpf_ConfigFromEnv command w :
  wpf anything (ConfigFromEnv command) (λ r _, match r with Ok cfg => config_from command w cfg | Err _ => True end) w.
Proof.
  unfold ConfigFromEnv. apply wpf_bind, wpf_call; [done|]. intros dir w0 [_ [[Hv0 He0] ->]] Hf0. split; [done|].
  simpl in Hf0.
  apply wpf_ebind. eapply wpf_mono; [apply wpf_readFile|]. intros [key|e] w1 _ ([Hv1 He1] & Hf1 & Hk); [|done].
  apply wpf_ebind. eapply wpf_mono; [apply wpf_readFile|]. intros [cert|e] w2 _ ([Hv2 He2] & Hf2 & Hc); [|done].
  apply wpf_ebind. eapply wpf_mono; [apply wpf_readFile|]. intros [ca|e] w3 _ ([Hv3 He3] & Hf3 & Hca); [|done].
  apply wpf_bind, wpf_call; [done|]. intros home w4 [_ [[Hv4 He4] ->]] Hf4. split; [done|].
  apply wpf_bind, wpf_call; [done|]. intros owner w5 [_ [[Hv5 He5] ->]] Hf5. split; [done|]. split; [done|].
  rewrite Hf2, Hf1, Hf0 in Hca. rewrite Hf1, Hf0 in Hc. rewrite Hf0 in Hk.
  unfold config_from, hostDir. cbn. rewrite He4, He3, He2, He1, He0. split; [done|]. split; [done|]. split; [done|].
  split; [done|]. by repeat constructor.
Qed.

(** The host-key secret the operator creates for a sandbox is one the agent
    starts from: when its files hold the secret's entries, an owner is set and
    the generated key can be read back, the server comes up and presents the
    host certificate of the sandbox's name. *)
Theorem agent_starts_from_host_key (env : Env W) `{!Conforms env} `{!FileConforms env}
    command w cfg w1 r w2 key cert userCA pub signer principals validFor hostCA now :
  mounted (hostDir w) (hostKeyData key cert userCA) (files w) → environ w "KUBEPARK_OWNER" ≠ "" →
  ParsePublicKey (PublicAuthorized key) = Ok pub → issued hostCA HostCert pub principals validFor now cert →
  ParsePrivateKey (PrivatePEM key) = Ok signer → signer_PublicKey signer = pub →
  is_ok (ParsePublicKey userCA) = true →
  run env (ConfigFromEnv command) w = (Ok cfg, w1) →
  run env (NewAgentServer cfg) w1 = (r, w2) →
  ac_Owner cfg = environ w "KUBEPARK_OWNER" ∧
  ∃ srv, r = Ok srv ∧ signer_PublicKey (as_HostSigner srv) = cert_as_key cert.
Proof.
  intros Hm Hown Hpub Hi Hpriv Hpair Hca Hcfg Hnew.
  pose proof (run_wpf env _ _ _ _ _ Hcfg (wpf_ConfigFromEnv command w)) as (_ & Ho & _ & _ & Hfiles).
  apply Forall_cons in Hfiles as [Hk [Hc [Hu _]%Forall_cons]%Forall_cons].
  assert (∀ k v f, files w !! (hostDir w +:+ "/" +:+ k) = Some f →
            hostKeyData key cert userCA !! k = Some v → f_Data f = v) as Hdata.
  { intros k v f Hf Hd. destruct (Hm k v Hd) as (g & Hg & <-). rewrite Hf in Hg. by injection Hg as ->. }
  destruct Hk as (f1 & Hf1 & Hk), Hc as (f2 & Hf2 & Hc), Hu as (f3 & Hf3 & Hu).
  rewrite (Hdata _ (PrivatePEM key) _ Hf1) in Hk by done. rewrite (Hdata _ (marshalCert cert) _ Hf2) in Hc by done.
  rewrite (Hdata _ userCA _ Hf3) in Hu by done. split; [done|]. destruct Hi as (_ & Hkey & _).
  assert (∃ s, signerWithCert (ac_HostKeyPEM cfg) (ac_HostCertAuthorized cfg) = Ok s ∧
               signer_PublicKey s = cert_as_key cert) as (s & Hs & Hsk).
  { unfold signerWithCert. rewrite <- Hk, <- Hc, Hpriv. unfold marshalCert.
    rewrite ParseAuthorizedKey_Marshal, as_certificate_as_key. pose proof (NewCertSigner_spec cert signer) as Hn.
    destruct (NewCertSigner cert signer) as [s|e]; [exists s; by destruct Hn|].
    destruct Hn. by rewrite Hkey, Hpair. }
  revert Hnew. unfold NewAgentServer. rewrite Ho. rewrite (proj2 (String.eqb_neq _ _) Hown), Hs, <- Hu.
  destruct (ParsePublicKey userCA) as [caKey|e]; [|done]. rewrite run_bind. intros [= <- _]. eexists. by split.
Qed.
End proofs.
