(* ===== verification/System.v ===== *)
(** * The components at work together

    Any number of connections, heartbeats and reconciliations run at the same
    time against one API server: each is a thread, a step is one call of one
    thread, threads start and die at any time. Reads may be stale: a
    controller's cache answers with any version that was ever stored, a write
    that was applied may still be reported as failed. What protects the
    records of sessions is the resource version an update must carry. The
    theorem: whatever the interleaving, a session goes forward only, and the
    record of a closed one is final.

    Of the server only the sessions are described; a call about another kind
    may answer anything. *)

From S2P Require Import Prelude GoStrings KubeTypes ApiTypes Client Libs PodSpec SSHCA StatusMonad SandboxRBAC Bootstrap.
From S2P Require Import SandboxHome SandboxNet SandboxRun SandboxReconcile SandboxFinalize SandboxController.
From S2P Require Import SessionController AccessProfileController Routing Store SSHJump.
From Stdlib Require Import String.
From stdpp Require Import base gmap strings list relations.
From Stdlib Require Import ZArith Lia.
Local Open Scope Z_scope.

(** ** The server *)

(** The stored sessions, every version that was ever stored, and the last
    resource version that was given out. *)
Record Server := {
  sv_sessions : gmap NamespacedName SandboxSession;
  sv_past : list SandboxSession;
  sv_revision : Z;
}.

Abbreviation RV s := (ResourceVersion (ses_ObjectMeta s)).

Definition store (s : SandboxSession) (sv : Server) : Server :=
  {| sv_sessions := <[okey KSession s := s]> (sv_sessions sv); sv_past := s :: sv_past sv; sv_revision := RV s |}.

Definition remove (k : NamespacedName) (sv : Server) : Server :=
  {| sv_sessions := base.delete k (sv_sessions sv); sv_past := sv_past sv; sv_revision := sv_revision sv |}.

(** What a call about sessions does, for a call that may be about any kind. *)
Definition for_session (F : Type → Type) {T} (K : Kind T) (x : F T) (P : F SandboxSession → Prop) (Q : Prop) : Prop :=
  match K in Kind T return F T → Prop with KSession => P | _ => λ _, Q end x.

(** A write that is not applied fails; one that is applied either succeeds
    with the stored object or its answer is lost. *)
Definition writes (sv : Server) (r : res SandboxSession) (sv' : Server) (applied : SandboxSession → Prop) : Prop :=
  (sv' = sv ∧ is_ok r = false) ∨
  ∃ s, applied s ∧ sv_revision sv < RV s ∧ sv' = store s sv ∧ ∀ s', r = Ok s' → s' = s.

Definition serves {X} (e : event X) : Server → X → Server → Prop :=
  match e with
  | EGet K k => λ sv r sv', sv' = sv ∧ for_session res K r (λ r, ∀ s, r = Ok s → s ∈ sv_past sv) True
  | EList K lo => λ sv r sv', sv' = sv ∧
      for_session (λ T, res (list T)) K r (λ r, ∀ l s, r = Ok l → s ∈ l → s ∈ sv_past sv) True
  | ECreate K o => λ sv r sv', for_session (λ T, T * res T)%type K (o, r)
      (λ p, writes sv p.2 sv' (λ s, sv_sessions sv !! okey KSession p.1 = None ∧ created_as KSession p.1 s ∧
                                   UID s ∉ (λ x, UID (ses_ObjectMeta x)) <$> sv_past sv)) (sv' = sv)
  | EStatusUpdate K o => λ sv r sv', for_session (λ T, T * res T)%type K (o, r)
      (λ p, writes sv p.2 sv' (λ s, ∃ cur, sv_sessions sv !! okey KSession p.1 = Some cur ∧ RV p.1 = RV cur ∧
                                   stored_as KSession (with_status KSession p.1 cur) s)) (sv' = sv)
  | EDelete K k => λ sv _ sv', for_session (λ _, unit) K tt
      (λ _, sv' = sv ∨ sv' = remove k sv ∨
            ∃ cur s, sv_sessions sv !! k = Some cur ∧ marked_deleted KSession cur s ∧ sv_revision sv < RV s ∧ sv' = store s sv)
      (sv' = sv)
  | EUpdate K _ | EPatch K _ _ | EStatusPatch K _ _ =>
      λ sv _ sv', for_session (λ _, unit) K tt (λ _, True) (sv' = sv)
  | _ => λ sv _ sv', sv' = sv
  end.

(** ** The system *)

Definition discard {A} (p : prog A) : prog unit := _ ← p; Ret tt.

(** What runs: a connection at a gateway, a tick of a session's heartbeat,
    and a reconciliation of each of the controllers. *)
Inductive component `{ApiMachinery} `{SSHLib} : prog unit → Prop :=
  | c_connection cfg payload principal serial addr :
      cfg_Now cfg = None → component (handleDirectTCPIP cfg payload principal serial addr)
  | c_heartbeat ns name : component (discard (Heartbeat ns name))
  | c_session r req : ssr_Now r = None → component (discard (session_Reconcile r req))
  | c_sandbox r req : r_Now r = None → component (discard (Reconcile r req))
  | c_profile iter req : component (discard (profile_Reconcile iter req)).

Record System := {
  sys_server : Server;
  sys_threads : list (prog unit);
}.

Inductive sys_step `{ApiMachinery} `{SSHLib} : System → System → Prop :=
  | sys_spawn sv ts p : component p →
      sys_step {| sys_server := sv; sys_threads := ts |} {| sys_server := sv; sys_threads := p :: ts |}
  | sys_call sv before X (e : event X) k after x sv' : serves e sv x sv' →
      sys_step {| sys_server := sv; sys_threads := before ++ Call e k :: after |}
               {| sys_server := sv'; sys_threads := before ++ k x :: after |}
  | sys_crash sv before p after :
      sys_step {| sys_server := sv; sys_threads := before ++ p :: after |}
               {| sys_server := sv; sys_threads := before ++ after |}.

Definition initialSystem : System :=
  {| sys_server := {| sv_sessions := ∅; sv_past := []; sv_revision := 0 |}; sys_threads := [] |}.

Definition sys_reachable `{ApiMachinery} `{SSHLib} (c : System) : Prop := rtc sys_step initialSystem c.

(** ** What a thread may write *)

(** A status that a session with the status [st] may be given next. *)
Definition advances (st st' : SandboxSessionStatus) : Prop :=
  sst_State st ≠ SessionStateClosed ∧
  (state_rank (sst_State st) <= state_rank (sst_State st'))%nat ∧
  (sst_State st = SessionStateActive → sst_StartTime st' = sst_StartTime st) ∧
  (sst_State st' = SessionStateClosed → is_Some (sst_EndTime st')).

(** The versions a call shows the thread. *)
Definition observed {X} (e : event X) : X → SandboxSession → Prop :=
  match e with
  | EGet K _ => λ r s, for_session res K r (λ r, r = Ok s) False
  | EList K _ => λ r s, for_session (λ T, res (list T)) K r (λ r, ∃ l, r = Ok l ∧ s ∈ l) False
  | ECreate K _ => λ r s, for_session res K r (λ r, r = Ok s) False
  | EStatusUpdate K _ => λ r s, for_session res K r (λ r, r = Ok s) False
  | _ => λ _ _, False
  end.

(** The calls a thread may issue that has seen the versions [seen]. *)
Definition allowed (seen : SandboxSession → Prop) {X} (e : event X) : Prop :=
  match e with
  | EStatusUpdate K o => for_session id K o
      (λ o, ∃ s, seen s ∧ okey KSession o = okey KSession s ∧ RV o = RV s ∧ advances (ses_Status s) (ses_Status o)) True
  | EUpdate K _ | EPatch K _ _ | EStatusPatch K _ _ => for_session (λ _, unit) K tt (λ _, False) True
  | _ => True
  end.

(** What the thread may rely on of an answer: a created session has not been
    started. *)
Definition plausible {X} (e : event X) : X → Prop :=
  match e with
  | ECreate K o => λ r, for_session res K r (λ r, ∀ s, r = Ok s → ses_Status s = emptySessionStatus) True
  | _ => λ _, True
  end.

Fixpoint tame {A} (seen : SandboxSession → Prop) (p : prog A) : Prop :=
  match p with
  | Ret _ => True
  | Call e k => allowed seen e ∧ ∀ x, plausible e x → tame (λ s, seen s ∨ observed e x s) (k x)
  end.

Lemma allowed_mono (S S' : SandboxSession → Prop) {X} (e : event X) :
  (∀ s, S s → S' s) → allowed S e → allowed S' e.
Proof. intros HS. destruct e; try done. destruct K; try done. intros (s & Hs & Hr). exists s. auto. Qed.

Lemma tame_mono {A} (S S' : SandboxSession → Prop) (p : prog A) : (∀ s, S s → S' s) → tame S p → tame S' p.
Proof.
  revert S S'. induction p as [a|X e k IH]; [done|]. intros S S' HS [He Hk]. split; [by eapply allowed_mono|].
  intros x Hx. eapply IH; [|by apply Hk]. intros s [?|?]; auto.
Qed.

Lemma tame_bind {A B} S (p : prog A) (f : A → prog B) :
  tame S p → (∀ a S', (∀ s, S s → S' s) → tame S' (f a)) → tame S (p ≫= f).
Proof.
  revert S. induction p as [a|X e k IH]; intros S Hp Hf; [by apply Hf|]. destruct Hp as [He Hk].
  split; [done|]. intros x Hx. apply IH; [by apply Hk|]. intros a S' HS. apply Hf. auto.
Qed.

Lemma tame_discard {A} S (p : prog A) : tame S p → tame S (discard p).
Proof. intros Hp. by apply tame_bind. Qed.

Lemma tame_ebind {A B} S (p : prog (res A)) (f : A → prog (res B)) :
  tame S p → (∀ a S', (∀ s, S s → S' s) → tame S' (f a)) → tame S (ebind p f).
Proof. intros Hp Hf. apply tame_bind; [done|]. intros [a|e] S' HS; [by apply Hf|done]. Qed.

Lemma tame_for_each {A} S (l : list A) body :
  (∀ x S', x ∈ l → (∀ s, S s → S' s) → tame S' (body x)) → tame S (for_each l body).
Proof.
  revert S. induction l as [|x l IH]; intros S Hb; [done|]. simpl. apply tame_ebind; [apply Hb; [left|done]|].
  intros _ S' HS. apply IH. intros y S'' Hy HS'. apply Hb; [by right|auto].
Qed.

(** A call that updates no session and leaves every secret alone but the host
    keys of sandboxes, which it may delete. *)
Definition spares {X} (e : event X) : Prop :=
  match e with
  | EUpdate K _ | EPatch K _ _ | EStatusUpdate K _ | EStatusPatch K _ _ =>
      match K with KSecret => False | _ => True end
  | EDelete K k => match K with KSecret => ∃ sb, k = hostKeyKey sb | _ => True end
  | _ => True
  end.

Definition leaves_records {X} (e : event X) : Prop := allowed (λ _, False) e ∧ spares e.

Lemma calls_tame {A} S (p : prog A) : calls (@leaves_records) p → tame S p.
Proof.
  revert S. induction p as [a|X e k IH]; [done|]. intros S [[He _] Hk]. split; [by eapply allowed_mono; [|exact He]|].
  intros x _. apply IH, Hk.
Qed.

Lemma calls_spare {A} (p : prog A) : calls (@leaves_records) p → calls (@spares) p.
Proof. intros Hp. eapply calls_mono; [exact Hp|]. by intros X e [_ He]. Qed.

(** ** The components are tame *)

Lemma tame_status_update S (s o : SandboxSession) :
  S s → okey KSession o = okey KSession s → RV o = RV s → advances (ses_Status s) (ses_Status o) →
  ∀ A (k : res SandboxSession → prog A), (∀ x S', tame S' (k x)) → tame S (Call (EStatusUpdate KSession o) k).
Proof. intros Hs Hk Hr Ha A k Hx. split; [by exists s|]. intros x _. apply Hx. Qed.

Lemma advances_closed st st' :
  sst_State st = SessionStateActive → sst_State st' = SessionStateClosed → sst_StartTime st' = sst_StartTime st →
  is_Some (sst_EndTime st') → advances st st'.
Proof. intros Ha Hc Hs He. split; [congruence|]. rewrite Ha, Hc. simpl. split; [lia|]. done. Qed.

Lemma tame_CreateSession S s : tame S (CreateSession s).
Proof.
  split; [done|]. intros [stored|e] Hp; [|done]. specialize (Hp stored eq_refl). split; [done|]. intros now _.
  apply (tame_status_update _ stored); [left; by right|done|done|rewrite Hp; by split_and!; simpl; [..|lia| |]|done].
Qed.

Lemma tame_Heartbeat S ns name : tame S (Heartbeat ns name).
Proof.
  split; [done|]. intros [s|e] _; [|done]. simpl. case_bool_decide as Ha; [|done]. split; [done|]. intros now _.
  apply (tame_status_update _ s); [left; by right|done|done| |done].
  split; [congruence|]. simpl. by rewrite Ha.
Qed.

Lemma tame_CloseSession S ns name reason : tame S (CloseSession ns name reason).
Proof.
  split; [done|]. intros [s|e] _; [|done]. simpl. case_bool_decide as Ha; [done|]. split; [done|]. intros now _.
  apply (tame_status_update _ s); [left; by right|done|done| |done].
  split; [done|]. simpl. split; [by destruct (sst_State (ses_Status s)); simpl; lia|]. done.
Qed.

Lemma tame_session_Reconcile S r req : ssr_Now r = None → tame S (session_Reconcile r req).
Proof.
  intros Hn. split; [done|]. intros [s|e] _; [|done]. simpl. destruct (sst_State (ses_Status s)) eqn:Ha; [done|..].
  - unfold reconcileActive, session_now. rewrite Hn. destruct (time_IsZero _); [done|]. split; [done|]. intros now _.
    simpl. destruct (_ <=? _); [done|]. apply (tame_status_update _ s); [left; by right|done|done|by apply advances_closed|done].
  - apply calls_tame. unfold reconcileClosed, session_now. rewrite Hn. destruct (sst_EndTime _) as [fin|]; [|done].
    apply calls_ebind; [|intros _; split; [done|]; intros now; simpl; by repeat case_match].
    split; [done|]. intros [sb|e]; [|done]. simpl. by repeat case_match.
Qed.

Lemma tame_closeSessions `{ApiMachinery} S sb : tame S (closeSessions sb).
Proof.
  split; [done|]. intros [l|e] _; [|done]. split; [done|]. intros now _. apply tame_for_each.
  intros s S' Hs HS. destruct (_ || _) eqn:Hc; [done|].
  apply orb_false_elim in Hc as [_ Ha%negb_false_iff%bool_decide_eq_true].
  apply (tame_status_update _ s); [apply HS; left; right; by exists l|done|done|by apply advances_closed|done].
Qed.

(** The other steps of the controllers leave sessions and secrets alone. *)
Section controllers.
Context `{AM : ApiMachinery} `{SSH : SSHLib}.
Abbreviation quiet_calls p := (calls (@leaves_records) p).

Lemma leaves_delete_hostKey (sb : Sandbox) : quiet_calls (deleteIgnoringNotFound KSecret (nn (Namespace sb) (HostKeyName (Name sb)))).
Proof. split; [|done]. split; [done|]. by exists sb. Qed.
#[local] Hint Resolve leaves_delete_hostKey : leaves.

Lemma leaves_ensureOwned {T} (K : Kind T) sb o : quiet_calls (ensureOwned K sb o).
Proof. unfold ensureOwned. leaves. Qed.
#[local] Hint Resolve leaves_ensureOwned : leaves.

Lemma leaves_gcLabelled {T} (K : Kind T) l v keep :
  match K with KSecret => False | _ => True end → quiet_calls (gcLabelled K l v keep).
Proof. intros HK. unfold gcLabelled. leaves. Qed.

Lemma leaves_gcRBAC sb keep : quiet_calls (gcRBAC sb keep).
Proof. by apply leaves_gcLabelled. Qed.
#[local] Hint Resolve leaves_gcRBAC : leaves.

Lemma leaves_applyRoleBinding rb : quiet_calls (applyRoleBinding rb).
Proof. unfold applyRoleBinding, createIgnoringExisting. leaves. Qed.
#[local] Hint Resolve leaves_applyRoleBinding : leaves.

Lemma leaves_reconcileRBAC sb s : quiet_calls (reconcileRBAC sb s).
Proof. unfold reconcileRBAC, refuseRBAC. leaves. Qed.

Lemma leaves_reconcileHome sb s : quiet_calls (reconcileHome sb s).
Proof. unfold reconcileHome, homeBlocked, homeReady, claimConflict, generatedClaimOwner. leaves. Qed.

Lemma leaves_GenerateKeyPair c : quiet_calls (GenerateKeyPair c).
Proof. unfold GenerateKeyPair. leaves. Qed.
#[local] Hint Resolve leaves_GenerateKeyPair : leaves.

Lemma leaves_EnsureCASecret ns : quiet_calls (EnsureCASecret ns).
Proof. unfold EnsureCASecret, createOrFetch. leaves. Qed.
#[local] Hint Resolve leaves_EnsureCASecret : leaves.

Lemma leaves_reconcileHostKey sb : quiet_calls (reconcileHostKey sb).
Proof. unfold reconcileHostKey, createHostKey, SignHostCert, signCert, NewSerial. leaves. Qed.

Lemma leaves_reconcileNetworkPolicy r sb tpl : quiet_calls (reconcileNetworkPolicy r sb tpl).
Proof. unfold reconcileNetworkPolicy, apiServerEndpoints, gatewayNamespace, applyNetworkPolicy. leaves. Qed.
#[local] Hint Resolve leaves_reconcileRBAC leaves_reconcileHome leaves_reconcileHostKey leaves_reconcileNetworkPolicy : leaves.

Lemma leaves_suspend sb s : quiet_calls (suspend sb s).
Proof. unfold suspend, ensurePodGone. leaves. Qed.

Lemma leaves_run_sandbox r sb tpl h sa s : quiet_calls (run_sandbox r sb tpl h sa s).
Proof.
  unfold run_sandbox, provision, recreate, reflectReady, reflectPending, reflectDrift, startIdleClock, ensurePodGone.
  leaves.
Qed.
#[local] Hint Resolve leaves_suspend leaves_run_sandbox : leaves.

Lemma leaves_reconcileSandbox r sb s : r_Now r = None → quiet_calls (reconcileSandbox r sb s).
Proof.
  intros Hn. unfold reconcileSandbox, prepare, pendingReady, desiredStateMachine, activeSessionCount, idleExpired, idleRequeue, now.
  rewrite Hn. leaves.
Qed.

Lemma tame_Reconcile S r req : r_Now r = None → tame S (Reconcile r req).
Proof.
  intros Hn. split; [done|]. intros [sb|e] _; [|done]. cbn [pbind prog_bind mbind].
  destruct (negb _).
  - unfold finalize. destruct (negb _); [done|]. apply tame_ebind; [apply calls_tame; unfold markTerminating; leaves|].
    intros sb' S' _. apply tame_ebind; [|intros _ S'' _; apply calls_tame; leaves]. unfold cleanup, deleteChildren.
    apply tame_ebind; [apply calls_tame; leaves|]. intros _ S1 _.
    apply tame_ebind; [apply calls_tame; leaves|]. intros _ S2 _.
    apply tame_ebind; [apply tame_closeSessions|]. intros _ S3 _.
    apply calls_tame. unfold applyHomeRetainPolicy. leaves.
  - apply calls_tame. apply calls_ebind; [unfold ensureFinalizer; leaves|]. intros sb'.
    apply calls_bind; [by apply leaves_reconcileSandbox|]. intros [s r']. unfold patchStatus. leaves.
Qed.

Lemma leaves_nudgeAll p l : quiet_calls (nudgeAll p l).
Proof. by induction l as [|sb l IH]. Qed.

Lemma leaves_applyRoles p l missing applied : quiet_calls (applyRoles p l missing applied).
Proof.
  revert missing applied. induction l as [|[ns rules] l IH]; intros missing applied; [done|]. cbn [applyRoles].
  unfold namespaceExists, applyRole. leaves.
Qed.

Lemma tame_profile_Reconcile S iter req : tame S (profile_Reconcile iter req).
Proof.
  apply calls_tame. pose proof leaves_nudgeAll. pose proof leaves_applyRoles.
  unfold profile_Reconcile, finalizeProfile, requeueSandboxes, syncRoles, gcRoles. leaves.
Qed.

Lemma leaves_wakeLoop cfg sb deadline fuel : cfg_Now cfg = None → quiet_calls (wakeLoop cfg sb deadline fuel).
Proof.
  intros Hn. induction fuel as [|fuel IH]; [done|]. cbn [wakeLoop]. unfold wakePause, cfgNow. rewrite Hn.
  apply calls_bind; [done|]. intros [sb'|e]; leaves.
Qed.

Lemma leaves_serveSandbox cfg sb : cfg_Now cfg = None → quiet_calls (serveSandbox cfg sb).
Proof.
  intros Hn. pose proof (λ sb d f, leaves_wakeLoop cfg sb d f Hn) as Hw. apply calls_bind.
  - unfold wakeAndWait, cfgNow. rewrite Hn. destruct (_ && _); [done|].
    apply calls_bind; [|intros [sb'|e]; leaves]. cbn [SetDesiredRunning clientStore]. unfold client_SetDesiredRunning.
    leaves.
  - intros [sb'|e]; [|done]. unfold DialSandbox. leaves.
Qed.

(** A connection: it records its session, is served, and closes it. *)
Lemma tame_handleDirectTCPIP S cfg payload principal serial addr :
  cfg_Now cfg = None → tame S (handleDirectTCPIP cfg payload principal serial addr).
Proof.
  intros Hn. unfold handleDirectTCPIP. destruct payload as [p|e]; [|done].
  destruct (ParseSSHTarget _ _) as [target|e]; [|done].
  apply tame_bind; [apply calls_tame; unfold authorize; leaves|]. intros [sb|e] S1 _; [|done].
  apply tame_bind.
  { apply tame_bind; [apply calls_tame; unfold randomSuffix; leaves|]. intros suffix S2 _.
    apply tame_bind; [apply tame_CreateSession|]. by intros [u|e]. }
  intros session S2 _. apply tame_bind; [by apply calls_tame, leaves_serveSandbox|]. intros _ S3 _.
  destruct session as [k|]; [|done]. split; [done|]. intros [] _. apply (tame_bind _ (CloseSession _ _ _)); [apply tame_CloseSession|done].
Qed.

Lemma component_tame p : component p → tame (λ _, False) p.
Proof.
  destruct 1; [by apply tame_handleDirectTCPIP|apply tame_discard..].
  - apply tame_Heartbeat.
  - by apply tame_session_Reconcile.
  - by apply tame_Reconcile.
  - apply tame_profile_Reconcile.
Qed.

(** ** The server's history *)

(** Every stored session is of record; resource versions grow, so a version
    names one state of a session; every thread has seen nothing but what is of
    record. *)
Definition sys_inv (c : System) : Prop :=
  let sv := sys_server c in
  (∀ k s, sv_sessions sv !! k = Some s → s ∈ sv_past sv ∧ okey KSession s = k) ∧
  (∀ s, s ∈ sv_past sv → RV s <= sv_revision sv) ∧
  (∀ s s', s ∈ sv_past sv → s' ∈ sv_past sv → RV s = RV s' → s = s') ∧
  Forall (tame (λ s, s ∈ sv_past sv)) (sys_threads c).

(** How a session's record may go on: [s'] follows [s]. *)
Definition follows (s s' : SandboxSession) : Prop :=
  UID s' = UID s ∧ ses_Spec s' = ses_Spec s ∧
  (ses_Status s' = ses_Status s ∨ advances (ses_Status s) (ses_Status s')).

(** What a call does to the sessions: nothing, removal of one, or a new
    version of one, which is a session of its own or follows the version
    before. *)
Definition server_step (sv sv' : Server) : Prop :=
  sv' = sv ∨ (∃ k, sv' = remove k sv) ∨
  ∃ s, sv_revision sv < RV s ∧ sv' = store s sv ∧
    match sv_sessions sv !! okey KSession s with
    | None => UID s ∉ (λ x, UID (ses_ObjectMeta x)) <$> sv_past sv
    | Some cur => follows cur s
    end.

Lemma writes_step sv r sv' applied :
  writes sv r sv' applied →
  (∀ s, applied s → match sv_sessions sv !! okey KSession s with
                    | None => UID s ∉ (λ x, UID (ses_ObjectMeta x)) <$> sv_past sv
                    | Some cur => follows cur s
                    end) →
  server_step sv sv' ∧ ∀ s, r = Ok s → s ∈ sv_past sv' ∧ applied s.
Proof.
  intros [[-> He]|(s & Ha & Hrv & -> & Hr)] Hs; [split; [by left|by destruct r]|].
  split; [right; right; exists s; split; [done|]; split; [done|by apply Hs]|].
  intros s' ->. rewrite (Hr s' eq_refl). split; [left|done].
Qed.

Lemma serves_step {X} (e : event X) sv x sv' :
  (∀ k s, sv_sessions sv !! k = Some s → s ∈ sv_past sv ∧ okey KSession s = k) →
  (∀ s s', s ∈ sv_past sv → s' ∈ sv_past sv → RV s = RV s' → s = s') →
  allowed (λ s, s ∈ sv_past sv) e → serves e sv x sv' →
  server_step sv sv' ∧ plausible e x ∧ ∀ s, observed e x s → s ∈ sv_past sv'.
Proof.
  intros Hcur Huniq Hal Hs. destruct e; try (cbn in Hs; subst; by split; [left|]).
  all: destruct K; try (cbn in Hal, Hs; subst; by split; [left|]); try done.
  all: try (destruct Hs as [-> _]; by split; [left|]).
  - (* get *) destruct Hs as [-> Hr]. split; [by left|]. split; [done|]. intros s. apply Hr.
  - (* list *) destruct Hs as [-> Hr]. split; [by left|]. split; [done|]. intros s (l & Hl & Hin). by eapply Hr.
  - (* create *) destruct (writes_step _ _ _ _ Hs) as [Hst Hr].
    { intros s (Hn & (uid & gen & rv & t & ->) & Hu). change (okey KSession (with_meta _ _ _)) with (okey KSession o).
      cbn [fst] in Hn. by rewrite Hn. }
    split; [done|]. split; [|intros s Hs'; by apply Hr]. intros s Hs'. destruct (Hr s Hs') as (_ & _ & Hc & _).
    by destruct Hc as (uid & gen & rv & t & ->).
  - (* delete *) destruct Hs as [->|[->|(cur & s & Hc & (gen & rv & t & _ & ->) & Hrv & ->)]].
    + split; [by left|done].
    + split; [right; left; by exists k|done].
    + split; [|done]. right; right. eexists. split; [exact Hrv|]. split; [done|].
      change (okey KSession (with_meta _ _ _)) with (okey KSession cur). destruct (Hcur _ _ Hc) as [_ ->].
      rewrite Hc. split; [done|]. split; [done|by left].
  - (* status update *) destruct (writes_step _ _ _ _ Hs) as [Hst Hr].
    { intros s (cur & Hc & Hrv & gen & rv & ->). cbn [fst] in Hc, Hrv.
      change (okey KSession (with_meta _ _ _)) with (okey KSession cur). destruct (Hcur _ _ Hc) as [Hp Hk].
      rewrite Hk, Hc. destruct Hal as (seen & Hseen & _ & Hv & Ha).
      rewrite (Huniq seen cur Hseen Hp (eq_trans (eq_sym Hv) Hrv)) in Ha. split; [done|]. split; [done|by right]. }
    split; [done|]. split; [done|]. intros s Hs'. by apply Hr.
Qed.

Lemma server_step_past sv sv' : server_step sv sv' → ∀ s, s ∈ sv_past sv → s ∈ sv_past sv'.
Proof. intros [->|[[k ->]|(s & _ & -> & _)]] x Hx; [done|done|by right]. Qed.

Lemma server_step_inv sv sv' ts ts' :
  sys_inv {| sys_server := sv; sys_threads := ts |} → server_step sv sv' →
  Forall (tame (λ s, s ∈ sv_past sv')) ts' → sys_inv {| sys_server := sv'; sys_threads := ts' |}.
Proof.
  intros (Hcur & Hrev & Huniq & _) Hst Hts. destruct Hst as [->|[[k ->]|(s & Hrv & -> & _)]].
  - by split_and!.
  - split_and!; [|done..]. cbn. intros k' s [_ Hs]%lookup_delete_Some. by apply Hcur.
  - split_and!; [..|done]; cbn.
    + intros k' x [[<- <-]|[_ Hx]]%lookup_insert_Some; [split; [left|done]|].
      destruct (Hcur _ _ Hx). split; [by right|done].
    + intros x [->|Hx]%elem_of_cons; [lia|]. specialize (Hrev _ Hx). cbn in Hrev. lia.
    + intros x y [->|Hx]%elem_of_cons [->|Hy]%elem_of_cons Heq; [done| | |by apply Huniq].
      * specialize (Hrev _ Hy). cbn in Hrev. lia.
      * specialize (Hrev _ Hx). cbn in Hrev. lia.
Qed.

Lemma sys_step_inv c c' : sys_inv c → sys_step c c' → sys_inv c' ∧ server_step (sys_server c) (sys_server c').
Proof.
  intros Hi Hs. destruct Hs as [sv ts p Hp|sv before X e k after x sv' He|sv before p after].
  - split; [|by left]. eapply server_step_inv; [exact Hi|by left|]. destruct Hi as (_ & _ & _ & Ht). constructor; [|done].
    eapply tame_mono; [|by apply component_tame]. done.
  - pose proof Hi as (Hcur & _ & Huniq & Ht). cbn in Hcur, Huniq, Ht. apply Forall_app in Ht as [Hb Ha].
    apply Forall_cons in Ha as [[Hal Hk] Ha].
    destruct (serves_step e sv x sv' Hcur Huniq Hal He) as (Hst & Hpl & Hob). split; [|done].
    assert (∀ p : prog unit, tame (λ s, s ∈ sv_past sv) p → tame (λ s, s ∈ sv_past sv') p) as Hmono
      by (intros p; apply tame_mono; by apply server_step_past).
    eapply server_step_inv; [exact Hi|exact Hst|]. apply Forall_app. split; [by eapply Forall_impl; [exact Hb|]|].
    constructor; [|by eapply Forall_impl; [exact Ha|]]. eapply tame_mono; [|by apply Hk].
    intros s [Hs|Hs]; [by eapply server_step_past|by apply Hob].
  - split; [|by left]. eapply server_step_inv; [exact Hi|by left|]. destruct Hi as (_ & _ & _ & Ht). cbn in Ht.
    apply Forall_app in Ht as [Hb [_ Ha]%Forall_cons]. by apply Forall_app.
Qed.

Lemma sys_reachable_inv c : sys_reachable c → sys_inv c.
Proof.
  unfold sys_reachable. intros Hr. assert (sys_inv initialSystem) as Hi.
  { split_and!; cbn; [by intros k s ?%lookup_empty_Some|by intros s ?%not_elem_of_nil|by intros s s' ?%not_elem_of_nil|done]. }
  revert Hi. induction Hr as [|x y z Hs _ IH]; [done|]. intros Hi. by apply IH, (sys_step_inv x).
Qed.

(** ** A session's record *)

(** [s'] is a later version of the record [s]. *)
Definition later_version (s s' : SandboxSession) : Prop :=
  ses_Spec s' = ses_Spec s ∧
  (state_rank (sst_State (ses_Status s)) <= state_rank (sst_State (ses_Status s')))%nat ∧
  (sst_State (ses_Status s) = SessionStateActive → sst_StartTime (ses_Status s') = sst_StartTime (ses_Status s)) ∧
  (sst_State (ses_Status s) = SessionStateClosed → ses_Status s' = ses_Status s).

Lemma later_version_refl s : later_version s s.
Proof. by split_and!. Qed.

Lemma later_version_follows s s1 s2 : later_version s s1 → follows s1 s2 → later_version s s2.
Proof.
  intros (Hsp & Hr & Ha & Hc) (_ & Hsp' & Hst). destruct Hst as [Heq|(Hn & Hr' & Ha' & _)].
  - unfold later_version. rewrite Hsp', Heq. by split_and!.
  - split; [congruence|]. split; [lia|]. split.
    + intros Hact. assert (sst_State (ses_Status s1) = SessionStateActive) as Hact'.
      { rewrite Hact in Hr. destruct (sst_State (ses_Status s1)); simpl in Hr; [lia|done|done]. }
      rewrite Ha' by done. by apply Ha.
    + intros Hcl. specialize (Hc Hcl). congruence.
Qed.

(** C11. Whatever connections, heartbeats and reconciliations run at the same time,
    in whatever order their calls reach the server and whichever of them die,
    a session's record only goes forward: its spec stays, it is started before
    it is closed and never the other way round, and once closed its record,
    end time and reason included, is final. *)
Theorem session_records_forward c c' k (s s' : SandboxSession) :
  sys_reachable c → rtc sys_step c c' →
  sv_sessions (sys_server c) !! k = Some s → sv_sessions (sys_server c') !! k = Some s' → UID s' = UID s →
  later_version s s'.
Proof.
  intros Hr Hsteps Hs. revert s'.
  assert (sys_inv c) as Hi by (by apply sys_reachable_inv).
  assert (s ∈ sv_past (sys_server c)) as Hpast by (by destruct Hi as (Hcur & _); eapply Hcur).
  enough (sys_inv c' ∧ s ∈ sv_past (sys_server c') ∧
    ∀ s' : SandboxSession, sv_sessions (sys_server c') !! k = Some s' → UID s' = UID s → later_version s s')
    as (_ & _ & Hl) by exact Hl.
  revert c' Hsteps. apply rtc_ind_r.
  - split; [done|]. split; [done|]. intros s' Hs' _. rewrite Hs in Hs'. injection Hs' as <-. apply later_version_refl.
  - intros c1 c2 _ Hstep (Hi1 & Hp1 & IH). destruct (sys_step_inv c1 c2 Hi1 Hstep) as [Hi2 Hst].
    split; [done|]. split; [by eapply server_step_past|]. intros s' Hs' Hu.
    destruct Hst as [Heq|[[k' Heq]|(x & _ & Heq & Hx)]]; rewrite Heq in Hs'; cbn in Hs'; [by apply IH| |].
    + apply lookup_delete_Some in Hs' as [_ Hs']. by apply IH.
    + apply lookup_insert_Some in Hs' as [[<- <-]|[_ Hs']]; [|by apply IH].
      destruct (sv_sessions (sys_server c1) !! okey KSession x) as [cur|] eqn:Hcur.
      * eapply later_version_follows; [|exact Hx]. apply IH; [done|]. destruct Hx as [Hx _]. congruence.
      * exfalso. apply Hx. apply list_elem_of_fmap. by exists s.
Qed.

End controllers.
