(* ===== verification/Authority.v ===== *)
(** * One authority for all (internal/controller/ca.go, cmd/gateway.go)

    Operator and gateway start at the same time, in several replicas, and each
    makes sure that the authority's keys and the gateway's host key exist; later
    every reconciliation of a host key does so again. Here they run side by side
    with the components of System.v, call by call, with stale reads, lost answers
    and crashes, against a server of which the secrets are described. No component
    ever rewrites a secret, and the host keys of sandboxes are the only ones any
    of them deletes; so there is one authority, and everybody who came to know
    its keys knows the same. *)

From S2P Require Import Prelude GoStrings KubeTypes ApiTypes Client Libs PodSpec SSHCA StatusMonad SandboxRBAC Bootstrap.
From S2P Require Import SandboxHome SandboxNet SandboxRun SandboxReconcile SandboxFinalize SandboxController.
From S2P Require Import SessionController AccessProfileController Routing Store SSHJump System.
From Stdlib Require Import String.
From stdpp Require Import base gmap strings list relations.
From Stdlib Require Import ZArith Lia.
Local Open Scope Z_scope.

(** ** The secrets of the server *)

Record Vault := {
  va_secrets : gmap NamespacedName Secret;
  va_past : list Secret;
}.

Definition keep (s : Secret) (v : Vault) : Vault :=
  {| va_secrets := <[okey KSecret s := s]> (va_secrets v); va_past := s :: va_past v |}.
Definition drop_secret (k : NamespacedName) (v : Vault) : Vault :=
  {| va_secrets := base.delete k (va_secrets v); va_past := va_past v |}.

Definition for_secret (F : Type → Type) {T} (K : Kind T) (x : F T) (P : F Secret → Prop) (Q : Prop) : Prop :=
  match K in Kind T return F T → Prop with KSecret => P | _ => λ _, Q end x.

(** A read shows some version that was stored. A creation that is applied needs
    the name to be free and answers with what was stored, unless the answer is
    lost; any call may fail, with any error. *)
Definition vault_serves {X} (e : event X) : Vault → X → Vault → Prop :=
  match e with
  | EGet K k => λ v r v', v' = v ∧
      for_secret res K r (λ r, ∀ s, r = Ok s → s ∈ va_past v ∧ okey KSecret s = k) True
  | EList K lo => λ v r v', v' = v ∧
      for_secret (λ T, res (list T)) K r (λ r, ∀ l s, r = Ok l → s ∈ l → s ∈ va_past v) True
  | ECreate K o => λ v r v', for_secret (λ T, T * res T)%type K (o, r)
      (λ p, (v' = v ∧ is_ok p.2 = false) ∨
            ∃ s, va_secrets v !! okey KSecret p.1 = None ∧ created_as KSecret p.1 s ∧ v' = keep s v ∧
                 ∀ s', p.2 = Ok s' → s' = s) (v' = v)
  | EDelete K k => λ v _ v', for_secret (λ _, unit) K tt
      (λ _, v' = v ∨ v' = drop_secret k v ∨
            ∃ cur s, va_secrets v !! k = Some cur ∧ marked_deleted KSecret cur s ∧ v' = keep s v) (v' = v)
  | EUpdate K _ | EPatch K _ _ | EStatusUpdate K _ | EStatusPatch K _ _ =>
      λ v _ v', for_secret (λ _, unit) K tt (λ _, True) (v' = v)
  | _ => λ v _ v', v' = v
  end.

(** ** Who takes part *)

(** What a thread has found out when it ends. *)
Inductive learned :=
  | NoKeys
  | AuthorityKeys (namespace : string) (data : gmap string string)
  | GatewayKey (namespace : string) (key : string).

Definition ended_with {A} (p : prog A) (f : A → learned) : prog learned := a ← p; Ret (f a).

Definition authorityResult (namespace : string) (r : res Secret) : learned :=
  match r with Ok s => AuthorityKeys namespace (sec_Data s) | Err _ => NoKeys end.
Definition gatewayResult (namespace : string) (r : res string) : learned :=
  match r with Ok key => GatewayKey namespace key | Err _ => NoKeys end.

Inductive participant `{ApiMachinery} `{SSHLib} : prog learned → Prop :=
  | p_component p : component p → participant (ended_with p (λ _, NoKeys))
  | p_authority ns : participant (ended_with (EnsureCASecret ns) (authorityResult ns))
  | p_gateway ns : participant (ended_with (gatewayHostKey ns) (gatewayResult ns)).

Record Site := {
  site_vault : Vault;
  site_threads : list (prog learned);
}.

Inductive site_step `{ApiMachinery} `{SSHLib} : Site → Site → Prop :=
  | site_spawn v ts p : participant p →
      site_step {| site_vault := v; site_threads := ts |} {| site_vault := v; site_threads := p :: ts |}
  | site_call v before X (e : event X) k after x v' : vault_serves e v x v' →
      site_step {| site_vault := v; site_threads := before ++ Call e k :: after |}
                {| site_vault := v'; site_threads := before ++ k x :: after |}
  | site_crash v before p after :
      site_step {| site_vault := v; site_threads := before ++ p :: after |}
                {| site_vault := v; site_threads := before ++ after |}.

(** Any secrets may be there to begin with. *)
Definition site_initial (c : Site) : Prop :=
  (∀ k s, va_secrets (site_vault c) !! k = Some s → okey KSecret s = k) ∧
  va_past (site_vault c) = (map_to_list (va_secrets (site_vault c))).*2 ∧ site_threads c = [].

Definition site_reachable `{ApiMachinery} `{SSHLib} (c : Site) : Prop :=
  ∃ c0, site_initial c0 ∧ rtc site_step c0 c.

(** ** What a thread may do and say *)

Definition shown {X} (e : event X) : X → Secret → Prop :=
  match e with
  | EGet K _ => λ r s, for_secret res K r (λ r, r = Ok s) False
  | ECreate K _ => λ r s, for_secret res K r (λ r, r = Ok s) False
  | _ => λ _ _, False
  end.

Definition faithful {X} (e : event X) : X → Prop :=
  match e with
  | EGet K k => λ r, for_secret res K r (λ r, ∀ s, r = Ok s → okey KSecret s = k) True
  | ECreate K o => λ r, for_secret (λ T, T * res T)%type K (o, r)
      (λ p, ∀ s, p.2 = Ok s → created_as KSecret p.1 s) True
  | _ => λ _, True
  end.

(** What was learned is in a secret [s]. *)
Definition is_from (l : learned) (s : Secret) : Prop :=
  match l with
  | NoKeys => True
  | AuthorityKeys ns d => okey KSecret s = nn ns CASecretName ∧ sec_Data s = d
  | GatewayKey ns key => okey KSecret s = nn ns gatewayHostKeyName ∧ data_at (sec_Data s) keyHostKey = key
  end.

Definition learned_key (l : learned) : NamespacedName :=
  match l with
  | NoKeys => nn "" ""
  | AuthorityKeys ns _ => nn ns CASecretName
  | GatewayKey ns _ => nn ns gatewayHostKeyName
  end.

(** It only says what it has seen. *)
Definition backed (seen : Secret → Prop) (l : learned) : Prop :=
  l = NoKeys ∨ ∃ s, seen s ∧ is_from l s.

(** [p] spares the secrets, and ends as [Q] says, given the secrets it has been
    shown. *)
Fixpoint tells {A} (seen : Secret → Prop) (p : prog A) (Q : (Secret → Prop) → A → Prop) : Prop :=
  match p with
  | Ret a => Q seen a
  | Call e k => spares e ∧ ∀ x, faithful e x → tells (λ s, seen s ∨ shown e x s) (k x) Q
  end.

Lemma backed_mono (S S' : Secret → Prop) l : (∀ s, S s → S' s) → backed S l → backed S' l.
Proof. intros HS [?|(s & Hs & Hf)]; [by left|]. right. exists s. auto. Qed.

Lemma tells_seen (S S' : Secret → Prop) (p : prog learned) :
  (∀ s, S s → S' s) → tells S p backed → tells S' p backed.
Proof.
  revert S S'. induction p as [l|X e k IH]; intros S S' HS; [by apply backed_mono|].
  intros [He Hk]. split; [done|]. intros x Hx. eapply IH; [|by apply Hk]. intros s [?|?]; auto.
Qed.

Lemma tells_bind {A B} S (p : prog A) (f : A → prog B) Q :
  tells S p (λ S' a, tells S' (f a) Q) → tells S (p ≫= f) Q.
Proof. revert S. induction p as [a|X e k IH]; intros S; [done|]. intros [He Hk]. split; auto. Qed.

(** A program of which only the calls are known. *)
Lemma tells_calls {A} S (p : prog A) (Q : (Secret → Prop) → A → Prop) :
  calls (@spares) p → (∀ a S', Q S' a) → tells S p Q.
Proof.
  revert S. induction p as [a|X e k IH]; intros S Hp HQ; [by apply HQ|]. destruct Hp as [He Hk].
  split; [done|]. intros x _. by apply IH.
Qed.

Lemma tells_weaken {A} S (p : prog A) (Q Q' : (Secret → Prop) → A → Prop) :
  tells S p Q → (∀ S' a, Q S' a → Q' S' a) → tells S p Q'.
Proof.
  revert S. induction p as [a|X e k IH]; intros S; [intros Hp HQ; by apply HQ|]. intros [He Hk] HQ. split; [done|].
  intros x Hx. apply IH; auto.
Qed.

Lemma tells_get {A} S key (k : res Secret → prog A) Q :
  (∀ s (S' : Secret → Prop), okey KSecret s = key → S' s → tells S' (k (Ok s)) Q) →
  (∀ e S', tells S' (k (Err e)) Q) → tells S (Call (EGet KSecret key) k) Q.
Proof. intros Hok Herr. split; [done|]. intros [s|e] Hx; [|apply Herr]. apply Hok; [by apply Hx|by right]. Qed.

Lemma tells_create {A} S o (k : res Secret → prog A) Q :
  (∀ s (S' : Secret → Prop), created_as KSecret o s → S' s → tells S' (k (Ok s)) Q) →
  (∀ e S', tells S' (k (Err e)) Q) → tells S (Call (ECreate KSecret o) k) Q.
Proof. intros Hok Herr. split; [done|]. intros [s|e] Hx; [|apply Herr]. apply Hok; [by apply Hx|by right]. Qed.

(** ** The bootstraps *)

Section bootstraps.
Context `{AM : ApiMachinery} `{SSH : SSHLib}.

(** Whose result, when there is one, is in a secret that was seen. *)
Definition gives {A} (f : A → learned) (S : Secret → Prop) (r : res A) : Prop :=
  match r with Ok a => ∃ s, S s ∧ is_from (f a) s | Err _ => True end.

Lemma spare_GenerateKeyPair c : calls (@spares) (GenerateKeyPair c).
Proof. apply calls_spare, leaves_GenerateKeyPair. Qed.

Lemma created_data o s : created_as KSecret o s → okey KSecret s = okey KSecret o ∧ sec_Data s = sec_Data o.
Proof. by intros (uid & gen & rv & t & ->). Qed.

Lemma tells_createOrFetch S secret wrap ns :
  okey KSecret secret = nn ns CASecretName →
  tells S (createOrFetch secret wrap) (gives (λ s, AuthorityKeys ns (sec_Data s))).
Proof.
  intros Hk. apply tells_create.
  - intros s S' [Hs _]%created_data HS. exists s. split; [done|]. split; [congruence|done].
  - intros e S'. cbn. destruct (IsAlreadyExists e); [|done]. apply tells_get; [|done].
    intros s S2 Hs HS. exists s. split; [done|]. split; [congruence|done].
Qed.

Lemma tells_EnsureCASecret S ns :
  tells S (EnsureCASecret ns) (gives (λ s, AuthorityKeys ns (sec_Data s))).
Proof.
  apply tells_get; [intros s S' Hs HS; by exists s|]. intros e S'. cbn [pbind prog_bind mbind].
  destruct (negb (IsNotFound e)); [done|].
  apply tells_bind, tells_calls; [apply spare_GenerateKeyPair|]. intros [userCA|e1] S1; [|done].
  apply tells_bind, tells_calls; [apply spare_GenerateKeyPair|]. intros [hostCA|e2] S2; [|done].
  split; [done|]. intros [h|e3] _; [|done]. by apply tells_createOrFetch.
Qed.

Lemma tells_gatewayHostKey S ns : tells S (gatewayHostKey ns) (gives (GatewayKey ns)).
Proof.
  apply tells_get; [intros s S' Hs HS; by exists s|]. intros e S'. cbn [pbind prog_bind mbind].
  destruct (negb (IsNotFound e)); [done|].
  apply tells_bind, tells_calls; [apply spare_GenerateKeyPair|]. intros [kp|e1] S1; [|done].
  apply tells_create.
  - intros s S2 [Hk Hd]%created_data HS. exists s. split; [done|]. split; [done|]. by rewrite Hd.
  - intros e2 S2. cbn. destruct (IsAlreadyExists e2); [|done]. apply tells_get; [|done].
    intros s S3 Hs HS. by exists s.
Qed.

(** ** The other components leave the secrets alone *)

Lemma spare_closeSessions sb : calls (@spares) (closeSessions sb).
Proof. unfold closeSessions. leaves. Qed.

Lemma spare_sandbox r req : r_Now r = None → calls (@spares) (Reconcile r req).
Proof.
  intros Hn. split; [done|]. intros [sb|e]; [|done]. cbn [pbind prog_bind mbind]. destruct (negb _).
  - unfold finalize. destruct (negb _); [done|]. unfold cleanup, deleteChildren, applyHomeRetainPolicy, markTerminating.
    pose proof spare_closeSessions.
    pose proof (λ (sb : Sandbox), calls_spare _ (leaves_delete_hostKey sb)).
    pose proof (λ sb keep, calls_spare _ (leaves_gcRBAC sb keep)). leaves.
  - apply calls_ebind; [unfold ensureFinalizer; leaves|]. intros sb'.
    apply calls_bind; [by apply calls_spare, leaves_reconcileSandbox|]. intros [s r']. unfold patchStatus. leaves.
Qed.

Lemma spare_session r req : ssr_Now r = None → calls (@spares) (session_Reconcile r req).
Proof.
  intros Hn. unfold session_Reconcile, reconcileActive, reconcileClosed, bumpSandboxActivity, session_now.
  rewrite Hn. leaves.
Qed.

Lemma spare_profile iter req : calls (@spares) (profile_Reconcile iter req).
Proof.
  pose proof (λ p l, calls_spare _ (leaves_nudgeAll p l)).
  pose proof (λ p l missing applied, calls_spare _ (leaves_applyRoles p l missing applied)).
  pose proof (λ l v keep, calls_spare _ (leaves_gcLabelled KRole l v keep I)).
  unfold profile_Reconcile, finalizeProfile, requeueSandboxes, syncRoles, gcRoles. leaves.
Qed.

Lemma spare_connection cfg payload principal serial addr :
  cfg_Now cfg = None → calls (@spares) (handleDirectTCPIP cfg payload principal serial addr).
Proof.
  intros Hn. pose proof (λ sb, calls_spare _ (leaves_serveSandbox cfg sb Hn)).
  unfold handleDirectTCPIP. destruct payload as [p|e]; [|done].
  destruct (ParseSSHTarget _ _) as [target|e]; [|done]. unfold authorize, openSession, closeSession, randomSuffix. leaves.
Qed.

Lemma component_spares p : component p → calls (@spares) p.
Proof.
  destruct 1; unfold discard; [by apply spare_connection|apply calls_bind; [|done]..].
  - leaves.
  - by apply spare_session.
  - by apply spare_sandbox.
  - apply spare_profile.
Qed.

Lemma tells_ended {A} S (p : prog (res A)) f g :
  tells S p (gives f) → (∀ a, g (Ok a) = f a) → (∀ e, g (Err e) = NoKeys) → tells S (ended_with p g) backed.
Proof.
  intros Hp Hok Herr. apply tells_bind. eapply tells_weaken; [exact Hp|].
  intros S' [a|e]; [intros Hg; right; by rewrite Hok|left; apply Herr].
Qed.

Lemma participant_tells p : participant p → tells (λ _, False) p backed.
Proof.
  destruct 1.
  - apply tells_bind, tells_calls; [by apply component_spares|]. by left.
  - eapply tells_ended; [apply tells_EnsureCASecret|done|done].
  - eapply tells_ended; [apply tells_gatewayHostKey|done|done].
Qed.

(** ** The invariant *)

(** Not the host key of any sandbox. *)
Definition lasting (k : NamespacedName) : Prop := ∀ sb : Sandbox, k ≠ hostKeyKey sb.

Lemma authority_lasting ns : lasting (nn ns CASecretName).
Proof. intros sb. unfold hostKeyKey, nn, HostKeyName, CASecretName. by intros [= _ ?]. Qed.

Lemma gateway_lasting ns : lasting (nn ns gatewayHostKeyName).
Proof. intros sb. unfold hostKeyKey, nn, HostKeyName, gatewayHostKeyName. by intros [= _ ?]. Qed.

(** The version [s] is stored under its key up to its metadata. *)
Definition still_stored (v : Vault) (s : Secret) : Prop :=
  ∃ s', va_secrets v !! okey KSecret s = Some s' ∧ sec_Data s' = sec_Data s.

(** Of a secret that lasts there was only ever one content, which is stored. *)
Definition vault_inv (v : Vault) : Prop :=
  (∀ k s, va_secrets v !! k = Some s → okey KSecret s = k ∧ s ∈ va_past v) ∧
  (∀ s, s ∈ va_past v → lasting (okey KSecret s) → still_stored v s).

Lemma keep_inv v s :
  vault_inv v →
  (lasting (okey KSecret s) → match va_secrets v !! okey KSecret s with
                              | None => True
                              | Some cur => sec_Data s = sec_Data cur
                              end) →
  vault_inv (keep s v).
Proof.
  intros [Hk Hp] Hs. split; cbn.
  - intros k x [[<- <-]|[_ Hx]]%lookup_insert_Some; [split; [done|left]|].
    destruct (Hk _ _ Hx). split; [done|by right].
  - intros x [->|Hx]%elem_of_cons Hl; [exists s; cbn; by rewrite lookup_insert_eq|].
    destruct (Hp x Hx Hl) as (x' & Hx' & Hd). unfold still_stored. cbn.
    destruct (decide (okey KSecret s = okey KSecret x)) as [E|Hne].
    + rewrite E, lookup_insert_eq. exists s. split; [done|]. rewrite E in Hs. specialize (Hs Hl).
      rewrite Hx' in Hs. congruence.
    + rewrite lookup_insert_ne by done. by exists x'.
Qed.

Lemma keep_past v s x : x ∈ va_past v → x ∈ va_past (keep s v).
Proof. by right. Qed.

Lemma vault_serves_inv {X} (e : event X) v x v' :
  vault_inv v → spares e → vault_serves e v x v' →
  vault_inv v' ∧ (∀ s, s ∈ va_past v → s ∈ va_past v') ∧ faithful e x ∧ ∀ s, shown e x s → s ∈ va_past v'.
Proof.
  intros Hi He Hs. destruct e; try (cbn in Hs; subst; done).
  all: destruct K; try (cbn in He, Hs; subst; done); try done.
  all: try (destruct Hs as [-> _]; done).
  - (* get *) destruct Hs as [-> Hr]. split; [done|]. split; [done|]. split; intros s Hs; by apply Hr.
  - (* create *) destruct Hs as [[-> Hr]|(s & Hn & Hc & -> & Hr)].
    + split; [done|]. split; [done|]. split; intros s Hs; cbn in *; by subst.
    + cbn [fst snd] in *. split; [|split; [intros; by apply keep_past|]].
      * apply keep_inv; [done|]. intros _. destruct (created_data _ _ Hc) as [-> _]. by rewrite Hn.
      * split; [intros s' Hs'; cbn in Hs'; by rewrite (Hr s' Hs')|]. intros s' Hs'. cbn in Hs'.
        rewrite (Hr s' Hs'). left.
  - (* delete *) destruct He as [sb ->]. destruct Hs as [->|[->|(cur & s & Hc & (gen & rv & t & _ & ->) & ->)]].
    + done.
    + split; [|done]. destruct Hi as [Hk Hp]. split; cbn; [intros k' s [_ Hs]%lookup_delete_Some; by apply Hk|].
      intros s Hs Hl. destruct (Hp s Hs Hl) as (s' & Hs' & Hd). exists s'. split; [|done]. cbn.
      rewrite lookup_delete_ne; [done|]. intros E. by apply (Hl sb).
    + split; [|split; [intros; by apply keep_past|done]]. apply keep_inv; [done|].
      change (okey KSecret (with_meta _ _ _)) with (okey KSecret cur).
      destruct (proj1 Hi _ _ Hc) as [-> _]. by rewrite Hc.
Qed.

Definition site_inv (c : Site) : Prop :=
  vault_inv (site_vault c) ∧ Forall (λ p, tells (λ s, s ∈ va_past (site_vault c)) p backed) (site_threads c).

Lemma site_step_inv c c' :
  site_inv c → site_step c c' →
  site_inv c' ∧ ∀ s, s ∈ va_past (site_vault c) → s ∈ va_past (site_vault c').
Proof.
  intros [Hv Ht] Hs. destruct Hs as [v ts p Hp|v before X e k after x v' He|v before p after].
  - split; [|done]. split; [done|]. constructor; [|done].
    eapply tells_seen; [|by apply participant_tells]. done.
  - cbn in *. apply Forall_app in Ht as [Hb [[Hsp Hk] Ha]%Forall_cons].
    destruct (vault_serves_inv e v x v' Hv Hsp He) as (Hv' & Hmono & Hf & Hsh). split; [|done]. split; [done|].
    cbn. apply Forall_app. split; [|constructor].
    + eapply Forall_impl; [exact Hb|]. intros q. by apply tells_seen.
    + eapply tells_seen; [|by apply Hk]. intros s [Hs|Hs]; auto.
    + eapply Forall_impl; [exact Ha|]. intros q. by apply tells_seen.
  - split; [|done]. split; [done|]. cbn in *. apply Forall_app in Ht as [Hb [_ Ha]%Forall_cons]. by apply Forall_app.
Qed.

Lemma site_steps_inv c c' :
  site_inv c → rtc site_step c c' →
  site_inv c' ∧ ∀ s, s ∈ va_past (site_vault c) → s ∈ va_past (site_vault c').
Proof.
  intros Hi Hs. induction Hs as [|x y z Hxy _ IH]; [done|].
  destruct (site_step_inv x y Hi Hxy) as [Hy Hp]. destruct (IH Hy) as [Hz Hp']. auto.
Qed.

Lemma initial_inv c : site_initial c → site_inv c.
Proof.
  destruct c as [[secrets past] ts]. intros (Hk & Hp & Ht). cbn in *. subst. split; [|done].
  assert (∀ s, s ∈ (map_to_list secrets).*2 ↔ ∃ k, secrets !! k = Some s) as Hin.
  { intros s. rewrite list_elem_of_fmap. split.
    - intros ([k x] & -> & Hx). exists k. by apply elem_of_map_to_list.
    - intros [k Hx]. exists (k, s). split; [done|]. by apply elem_of_map_to_list. }
  split; cbn.
  - intros k s Hs. split; [by apply Hk|]. apply Hin. by exists k.
  - intros s [k Hs]%Hin _. exists s. cbn. by rewrite (Hk _ _ Hs).
Qed.

Lemma reachable_site_inv c : site_reachable c → site_inv c.
Proof. intros (c0 & Hi & Hs). by eapply site_steps_inv; [apply initial_inv|]. Qed.

(** What a thread that ended has learned stays true. *)
Lemma learned_stays c c' l :
  site_reachable c → rtc site_step c c' → Ret l ∈ site_threads c → l ≠ NoKeys →
  ∃ s', va_secrets (site_vault c') !! learned_key l = Some s' ∧ is_from l s'.
Proof.
  intros Hr Hs Hl Hne. pose proof (reachable_site_inv c Hr) as Hi.
  destruct (site_steps_inv c c' Hi Hs) as [[[Hk' Hp'] _] Hpast].
  destruct Hi as [_ Ht]. rewrite Forall_forall in Ht.
  destruct (Ht _ Hl) as [?|(s & Hin%Hpast & Hf)]; [done|].
  assert (okey KSecret s = learned_key l) as Hk by (destruct l; [done|apply Hf..]).
  assert (lasting (okey KSecret s)) as Hl'.
  { rewrite Hk. destruct l; [done|apply authority_lasting|apply gateway_lasting]. }
  destruct (Hp' s Hin Hl') as (s' & Hs' & Hd). rewrite Hk in Hs'. exists s'. split; [done|].
  destruct (Hk' _ _ Hs') as [E _]. destruct l; [done|..]; (split; [exact E|]); rewrite Hd; apply Hf.
Qed.

(** C13. Whatever runs at the same time, in whatever order the calls reach the server
    and whichever threads die, a secret that is not a sandbox's host key, once
    stored, stays with its contents; and all who ever obtained the authority's
    keys, or the gateway's host key, of a namespace obtained the same. *)
Theorem authority_is_one c c' :
  site_reachable c → rtc site_step c c' →
  (∀ k s, lasting k → va_secrets (site_vault c) !! k = Some s →
     ∃ s', va_secrets (site_vault c') !! k = Some s' ∧ sec_Data s' = sec_Data s) ∧
  (∀ ns d d', Ret (AuthorityKeys ns d) ∈ site_threads c → Ret (AuthorityKeys ns d') ∈ site_threads c' → d = d') ∧
  (∀ ns key key', Ret (GatewayKey ns key) ∈ site_threads c → Ret (GatewayKey ns key') ∈ site_threads c' → key = key').
Proof.
  intros Hr Hs. assert (site_reachable c') as Hr' by (destruct Hr as (c0 & Hi & H0); exists c0; split; [done|by etrans]).
  split; [|split].
  - intros k s Hk Hv. pose proof (reachable_site_inv c Hr) as Hi.
    destruct (site_steps_inv c c' Hi Hs) as [[[_ Hp'] _] Hpast].
    destruct Hi as [[Hkey _] _]. destruct (Hkey _ _ Hv) as [<- Hin]. by apply Hp'; [apply Hpast|].
  - intros ns d d' H1 H2. destruct (learned_stays c c' _ Hr Hs H1) as (s & Hv & _ & <-); [done|].
    destruct (learned_stays c' c' _ Hr' (rtc_refl _ _) H2) as (s' & Hv' & _ & <-); [done|]. cbn in *. congruence.
  - intros ns d d' H1 H2. destruct (learned_stays c c' _ Hr Hs H1) as (s & Hv & _ & <-); [done|].
    destruct (learned_stays c' c' _ Hr' (rtc_refl _ _) H2) as (s' & Hv' & _ & <-); [done|]. cbn in *. congruence.
Qed.

End bootstraps.
