(* ===== verification/Shell.v ===== *)
(** * The persistent shell (internal/agent/session.go)

    Interactive sessions attach to one long-lived shell. The session manager
    keeps the shell's command and the master side of its terminal behind a
    mutex; a reaper waits for the shell and drops both. Here the manager's
    critical sections, the shell processes and the reapers are the steps of a
    transition system, in any interleaving. The invariant: command and
    terminal are set together, and a shell that has not been waited for is the
    manager's current one, so there is at most one. It follows that every
    session attached during a shell's life shares its terminal. The last
    section shows a terminal that is never closed. *)

From S2P Require Import Prelude.
From stdpp Require Import base gmap sets list relations.
From Stdlib Require Import ZArith Lia.
Local Open Scope Z_scope.

(** A started shell: running; exited but not waited for; waited for
    ([cmd.ProcessState] is set); its reaper done. *)
Inductive shell_phase := Running | Exited | Waited | Reaped.

#[export] Instance shell_phase_eq_dec : EqDecision shell_phase.
Proof. solve_decision. Defined.

(** [pty.Start] makes a command and a terminal together: both have the number
    of the shell. [sm_open] are the terminals whose master is open. [sm_pending]
    are the sessions between [ensureShell] and [attached++], and [sm_clients]
    the attached ones, each with its terminal. *)
Record sessionManager := {
  sm_ptmx : option nat;
  sm_shellCmd : option nat;
  sm_attached : Z;
  sm_shells : gmap nat shell_phase;
  sm_open : gset nat;
  sm_pending : list nat;
  sm_clients : list nat;
}.

Definition newSessionManager : sessionManager :=
  {| sm_ptmx := None; sm_shellCmd := None; sm_attached := 0; sm_shells := ∅; sm_open := ∅;
     sm_pending := []; sm_clients := [] |}.

(** [cmd.ProcessState == nil]. *)
Definition unwaited (m : sessionManager) (c : nat) : bool :=
  match sm_shells m !! c with
  | Some Running | Some Exited => true
  | _ => false
  end.

Definition set_shell (c : nat) (ph : shell_phase) (m : sessionManager) : sessionManager :=
  {| sm_ptmx := sm_ptmx m; sm_shellCmd := sm_shellCmd m; sm_attached := sm_attached m;
     sm_shells := <[c := ph]> (sm_shells m); sm_open := sm_open m;
     sm_pending := sm_pending m; sm_clients := sm_clients m |}.

Definition set_sessions (attached : Z) (pending clients : list nat) (m : sessionManager) : sessionManager :=
  {| sm_ptmx := sm_ptmx m; sm_shellCmd := sm_shellCmd m; sm_attached := attached;
     sm_shells := sm_shells m; sm_open := sm_open m; sm_pending := pending; sm_clients := clients |}.

(** [ensureShell]; [started] is what [pty.Start] returns: the number of a new
    shell, or an error. *)
Definition ensureShell (started : option nat) (m : sessionManager) : option nat * sessionManager :=
  match sm_ptmx m, sm_shellCmd m with
  | Some p, Some c =>
    if unwaited m c then (Some p, m)
    else match started with
         | None => (None, m)
         | Some n => (Some n, {| sm_ptmx := Some n; sm_shellCmd := Some n; sm_attached := sm_attached m;
                                 sm_shells := <[n := Running]> (sm_shells m); sm_open := {[n]} ∪ sm_open m;
                                 sm_pending := sm_pending m; sm_clients := sm_clients m |})
         end
  | _, _ =>
    match started with
    | None => (None, m)
    | Some n => (Some n, {| sm_ptmx := Some n; sm_shellCmd := Some n; sm_attached := sm_attached m;
                            sm_shells := <[n := Running]> (sm_shells m); sm_open := {[n]} ∪ sm_open m;
                            sm_pending := sm_pending m; sm_clients := sm_clients m |})
    end
  end.

(** The reaper's critical section for the shell [c]. *)
Definition reap (c : nat) (m : sessionManager) : sessionManager :=
  if bool_decide (sm_shellCmd m = Some c) then
    {| sm_ptmx := None; sm_shellCmd := None; sm_attached := sm_attached m;
       sm_shells := <[c := Reaped]> (sm_shells m);
       sm_open := match sm_ptmx m with Some p => sm_open m ∖ {[p]} | None => sm_open m end;
       sm_pending := sm_pending m; sm_clients := sm_clients m |}
  else set_shell c Reaped m.

(** One step of the agent: a session asks for the shell, is counted, leaves;
    a shell exits, is waited for, is reaped. *)
Inductive step (m : sessionManager) : sessionManager → Prop :=
  | step_ensure started r m' :
      (∀ n, started = Some n → sm_shells m !! n = None) →
      ensureShell started m = (r, m') →
      step m (match r with
              | Some p => set_sessions (sm_attached m') (p :: sm_pending m') (sm_clients m') m'
              | None => m'
              end)
  | step_attach p pending :
      sm_pending m ≡ₚ p :: pending →
      step m (set_sessions (sm_attached m + 1) pending (p :: sm_clients m) m)
  | step_detach p clients :
      sm_clients m ≡ₚ p :: clients →
      step m (set_sessions (sm_attached m - 1) (sm_pending m) clients m)
  | step_exit c : sm_shells m !! c = Some Running → step m (set_shell c Exited m)
  | step_wait c : sm_shells m !! c = Some Exited → step m (set_shell c Waited m)
  | step_reap c : sm_shells m !! c = Some Waited → step m (reap c m).

Definition reachable (m : sessionManager) : Prop := rtc step newSessionManager m.

(** ** Proofs *)

(** The terminal and the command are set together and belong to a shell that
    was started and whose terminal is open; a shell not yet waited for is the
    current one; the counter counts the attached sessions; terminals belong to
    shells. *)
Record shell_inv (m : sessionManager) : Prop := {
  inv_together : sm_ptmx m = sm_shellCmd m;
  inv_current : ∀ c, sm_shellCmd m = Some c → c ∈ sm_open m ∧ ∃ ph, sm_shells m !! c = Some ph ∧ ph ≠ Reaped;
  inv_unwaited : ∀ c, unwaited m c = true → sm_shellCmd m = Some c;
  inv_attached : sm_attached m = Z.of_nat (length (sm_clients m));
  inv_open : ∀ c, c ∈ sm_open m → is_Some (sm_shells m !! c);
}.

Lemma inv_new : shell_inv newSessionManager.
Proof. split; simpl; done || set_solver. Qed.

Lemma unwaited_insert m c ph d :
  unwaited (set_shell c ph m) d =
  if decide (c = d) then bool_decide (ph = Running ∨ ph = Exited) else unwaited m d.
Proof.
  unfold unwaited, set_shell. cbn [sm_shells]. case_decide as Hd.
  - subst. rewrite lookup_insert_eq. destruct ph; symmetry;
      (apply bool_decide_eq_true || apply bool_decide_eq_false); naive_solver.
  - by rewrite lookup_insert_ne.
Qed.

Lemma inv_sessions m attached pending clients :
  shell_inv m → attached = Z.of_nat (length clients) → shell_inv (set_sessions attached pending clients m).
Proof. intros [H1 H2 H3 H4 H5] Ha. by split. Qed.

(** A fresh shell replaces one that is gone. *)
Lemma inv_start m n :
  shell_inv m → sm_shells m !! n = None → (∀ c, unwaited m c = false) →
  shell_inv {| sm_ptmx := Some n; sm_shellCmd := Some n; sm_attached := sm_attached m;
               sm_shells := <[n := Running]> (sm_shells m); sm_open := {[n]} ∪ sm_open m;
               sm_pending := sm_pending m; sm_clients := sm_clients m |}.
Proof.
  intros [H1 H2 H3 H4 H5] Hn Hno. split; cbn; [done| | |done|].
  - intros c [= <-]. split; [set_solver|]. exists Running. by rewrite lookup_insert_eq.
  - intros c Hc. destruct (decide (n = c)) as [->|Hne]; [done|]. exfalso.
    unfold unwaited in Hc. cbn in Hc. rewrite lookup_insert_ne in Hc by done. specialize (Hno c).
    unfold unwaited in Hno. by rewrite Hno in Hc.
  - intros c Hc. destruct (decide (n = c)) as [->|Hne]; [by rewrite lookup_insert_eq|].
    rewrite lookup_insert_ne by done. apply H5. set_solver.
Qed.

Lemma no_unwaited m : shell_inv m → sm_shellCmd m = None → ∀ c, unwaited m c = false.
Proof. intros Hi Hn c. apply not_true_is_false. intros Hc%(inv_unwaited m Hi). congruence. Qed.

Lemma inv_ensure started m r m' :
  shell_inv m → (∀ n, started = Some n → sm_shells m !! n = None) → ensureShell started m = (r, m') → shell_inv m'.
Proof.
  intros Hi Hfresh. unfold ensureShell. rewrite (inv_together m Hi).
  destruct (sm_shellCmd m) as [c|] eqn:Hc.
  - destruct (unwaited m c) eqn:Hu; [by intros [= _ <-]|]. destruct started as [n|]; intros [= _ <-]; [|done].
    apply inv_start; [done|by apply Hfresh|]. intros d. apply not_true_is_false. intros Hd.
    pose proof (inv_unwaited m Hi d Hd). congruence.
  - destruct started as [n|]; intros [= _ <-]; [|done]. apply inv_start; [done|by apply Hfresh|]. by apply no_unwaited.
Qed.

Lemma inv_phase m c ph ph' :
  shell_inv m → sm_shells m !! c = Some ph → ph ≠ Reaped → ph' ≠ Reaped →
  (ph' = Exited → ph = Running) → ph' ≠ Running → shell_inv (set_shell c ph' m).
Proof.
  intros [H1 H2 H3 H4 H5] Hc Hph Hph' He Hr. split; cbn; [done| | |done|].
  - intros d Hd. destruct (H2 d Hd) as [Ho (p & Hp & Hne)]. split; [done|].
    destruct (decide (c = d)) as [->|]; [rewrite lookup_insert_eq; eauto|rewrite lookup_insert_ne by done; eauto].
  - intros d. rewrite unwaited_insert. case_decide as Hd; [|apply H3]. subst. intros Hu%bool_decide_eq_true_1.
    apply H3. unfold unwaited. rewrite Hc. destruct Hu as [|Hu]; [done|]. by rewrite (He Hu).
  - intros d Hd. destruct (decide (c = d)) as [->|]; [by rewrite lookup_insert_eq|].
    rewrite lookup_insert_ne by done. by apply H5.
Qed.

Lemma inv_reap m c : shell_inv m → sm_shells m !! c = Some Waited → shell_inv (reap c m).
Proof.
  intros Hi Hc. pose proof Hi as [H1 H2 H3 H4 H5]. unfold reap. case_bool_decide as Hcur.
  - assert (∀ d, unwaited m d = false) as Hno.
    { intros d. apply not_true_is_false. intros Hd. pose proof (H3 d Hd) as Hd'. rewrite Hcur in Hd'. injection Hd' as ->.
      unfold unwaited in Hd. by rewrite Hc in Hd. }
    split; cbn; [done|done| |done|].
    + intros d Hd. exfalso. unfold unwaited in Hd. cbn in Hd. destruct (decide (c = d)) as [->|].
      * by rewrite lookup_insert_eq in Hd.
      * rewrite lookup_insert_ne in Hd by done. specialize (Hno d). unfold unwaited in Hno. by rewrite Hno in Hd.
    + intros d Hd. destruct (decide (c = d)) as [->|]; [by rewrite lookup_insert_eq|].
      rewrite lookup_insert_ne by done. apply H5. destruct (sm_ptmx m); set_solver.
  - split; cbn; [done| | |done|].
    + intros d Hd. destruct (H2 d Hd) as [Ho (p & Hp & Hne)]. split; [done|]. exists p.
      rewrite lookup_insert_ne by congruence. done.
    + intros d. rewrite unwaited_insert. case_decide; [|apply H3]. by intros [|]%bool_decide_eq_true_1.
    + intros d Hd. destruct (decide (c = d)) as [->|]; [by rewrite lookup_insert_eq|].
      rewrite lookup_insert_ne by done. by apply H5.
Qed.

Lemma inv_step m m' : shell_inv m → step m m' → shell_inv m'.
Proof.
  intros Hi Hs. destruct Hs as [started r m' Hfresh He|p pending Hp|p clients Hp|c Hc|c Hc|c Hc].
  - pose proof (inv_ensure _ _ _ _ Hi Hfresh He) as Hi'. destruct r; [|done]. apply inv_sessions; [done|apply Hi'].
  - apply inv_sessions; [done|]. rewrite (inv_attached m Hi). simpl. lia.
  - apply inv_sessions; [done|]. rewrite (inv_attached m Hi), Hp. simpl. lia.
  - by eapply inv_phase.
  - by eapply inv_phase.
  - by apply inv_reap.
Qed.

Lemma reachable_inv m : reachable m → shell_inv m.
Proof.
  unfold reachable. revert m. apply rtc_ind_r; [apply inv_new|]. intros y z _ Hyz Hy. by eapply inv_step.
Qed.

(** C32. In every reachable state of the agent, whatever the interleaving of
    sessions, shells and reapers: the terminal and the command are set
    together, the current shell's terminal is open, no shell is alive but the
    current one, and the attached sessions are counted right. *)
Theorem shell_invariant m :
  reachable m →
  sm_ptmx m = sm_shellCmd m ∧
  (∀ c, sm_shellCmd m = Some c → c ∈ sm_open m) ∧
  (∀ c d, unwaited m c = true → unwaited m d = true → c = d) ∧
  sm_attached m = Z.of_nat (length (sm_clients m)) ∧ 0 <= sm_attached m.
Proof.
  intros Hi%reachable_inv.
  split; [apply Hi|]. split; [intros c Hc; by apply (inv_current m Hi)|]. split.
  - intros c d Hc%(inv_unwaited m Hi) Hd%(inv_unwaited m Hi). congruence.
  - rewrite (inv_attached m Hi). lia.
Qed.

(** The shell survives its clients: in every reachable state, whoever attached
    and detached before, a shell that has not been waited for is what the next
    session is given, and no other is started. *)
Theorem shell_survives m c :
  reachable m → unwaited m c = true → ∀ started, ensureShell started m = (Some c, m).
Proof.
  intros Hi%reachable_inv Hu started. pose proof (inv_unwaited m Hi c Hu) as Hc.
  unfold ensureShell. rewrite (inv_together m Hi), Hc. by rewrite Hu.
Qed.

(** ** The terminal that is not closed *)

(** A shell whose reaper is done and whose terminal is open but not the
    manager's. *)
Definition leaked (m : sessionManager) (c : nat) : Prop :=
  sm_shells m !! c = Some Reaped ∧ c ∈ sm_open m ∧ sm_ptmx m ≠ Some c.

Lemma leaked_step m m' c : leaked m c → step m m' → leaked m' c.
Proof.
  intros (Hp & Ho & Hc) Hs. destruct Hs as [started r m' Hfresh He|p pending _|p clients _|d Hd|d Hd|d Hd]; try done.
  - assert (leaked m' c) as Hl; [|by destruct r].
    revert He. unfold ensureShell, leaked. destruct started as [n|].
    + assert (n ≠ c) as Hn by (intros ->; specialize (Hfresh c eq_refl); congruence).
      destruct (sm_ptmx m) as [p|] eqn:Ep, (sm_shellCmd m) as [d|]; try destruct (unwaited m d);
        intros [= _ <-]; cbn; rewrite ?Ep, ?lookup_insert_ne by done; split_and?; set_solver || congruence.
    + destruct (sm_ptmx m) as [p|] eqn:Ep, (sm_shellCmd m) as [d|]; try destruct (unwaited m d);
        intros [= _ <-]; rewrite ?Ep; done.
  - unfold leaked, set_shell. cbn. rewrite lookup_insert_ne by congruence. done.
  - unfold leaked, set_shell. cbn. rewrite lookup_insert_ne by congruence. done.
  - unfold reap, leaked. case_bool_decide; cbn; rewrite lookup_insert_ne by congruence; [|done].
    split; [done|]. destruct (sm_ptmx m) as [p|]; split; set_solver.
Qed.

(** When a session asks for the shell after it was waited for and before its
    reaper takes the lock, the new terminal replaces the old one, which stays
    open for as long as the agent runs. *)
Theorem terminal_leak :
  ∃ m c, reachable m ∧ leaked m c ∧ ∀ m', rtc step m m' → leaked m' c.
Proof.
  pose (m1 := (ensureShell (Some 0%nat) newSessionManager).2).
  pose (m1' := set_sessions 0 [0%nat] [] m1).
  pose (m2 := set_shell 0 Exited m1'). pose (m3 := set_shell 0 Waited m2).
  pose (m4 := set_sessions 0 [1%nat; 0%nat] [] (ensureShell (Some 1%nat) m3).2).
  pose (m5 := reap 0 m4). assert (leaked m5 0) as Hl by (vm_compute; split; [done|]; split; [done|discriminate]).
  exists m5, 0%nat. split; [|split; [done|]].
  - eapply rtc_l; [apply (step_ensure _ (Some 0%nat) (Some 0%nat) m1); [by intros n [= <-]|done]|].
    eapply rtc_l; [apply (step_exit m1' 0); done|]. eapply rtc_l; [apply (step_wait m2 0); done|].
    eapply rtc_l; [apply (step_ensure m3 (Some 1%nat) (Some 1%nat)); [by intros n [= <-]|reflexivity]|].
    eapply rtc_l; [apply (step_reap m4 0); done|]. done.
  - apply (rtc_ind_r (λ m', leaked m' 0)); [done|]. intros y z _ Hyz Hy. by eapply leaked_step.
Qed.
