(* ===== verification/Http.v ===== *)
(** * HTTP requests and cookies

    What the gateway's handlers read of a request and write to a response,
    how [net/http] carries a cookie value to the browser and back, and a
    browser that keeps host-only cookies (RFC 6265: a cookie set without a
    [Domain] attribute is sent to the host that set it and to no other). *)

From S2P Require Import Prelude GoStrings Utf8.
From Stdlib Require Import String Ascii.
From stdpp Require Import base strings list.
From Stdlib Require Import ZArith Lia.
Local Open Scope Z_scope.

#[local] Arguments String.append !_ _ / : simpl nomatch.

(** A request as [net/http] hands it to a handler: [req_URL] is
    [r.URL.String()], [req_Query] the decoded query parameters. *)
Record Request := {
  req_Method : string;
  req_Host : string;
  req_Path : string;
  req_URL : string;
  req_Query : list (string * string);
  req_Cookies : list (string * string);
  req_Body : string;
}.

Fixpoint first_value_of (l : list (string * string)) (name : string) : option string :=
  match l with
  | [] => None
  | (n, v) :: l => if String.eqb n name then Some v else first_value_of l name
  end.

(** [r.URL.Query().Get] and [r.Cookie]. *)
Definition query_Get (r : Request) (name : string) : string := default "" (first_value_of (req_Query r) name).
Definition request_Cookie (r : Request) (name : string) : option string := first_value_of (req_Cookies r) name.

(** The [http.Cookie] a handler sets. Every cookie the gateway sets has the
    path [/] and the same-site mode [Lax]. *)
Record Cookie := {
  ck_Name : string;
  ck_Value : string;
  ck_HttpOnly : bool;
  ck_Secure : bool;
  ck_MaxAge : Z;
}.

(** The answers of the authentication handlers: [http.Error], or
    [http.SetCookie] and [http.Redirect]. *)
Inductive AuthResponse :=
  | AuthError (code : Z) (msg : string)
  | AuthRedirect (cookies : list Cookie) (location : string).

Definition StatusOK : Z := 200.
Definition StatusBadRequest : Z := 400.
Definition StatusUnauthorized : Z := 401.
Definition StatusForbidden : Z := 403.
Definition StatusNotFound : Z := 404.
Definition StatusMethodNotAllowed : Z := 405.
Definition StatusInternalServerError : Z := 500.
Definition StatusBadGateway : Z := 502.
Definition StatusServiceUnavailable : Z := 503.

(** ** A cookie value on the wire *)

(** [validCookieValueByte]. *)
Definition cookie_byte (c : ascii) : bool :=
  (32 <=? code c) && (code c <? 127) && negb (code c =? 34) && negb (code c =? 59) && negb (code c =? 92).

Fixpoint keep (f : ascii → bool) (s : string) : string :=
  match s with
  | "" => ""
  | String c s' => if f c then String c (keep f s') else keep f s'
  end.

(** [sanitizeCookieValue]: bytes that are not allowed are dropped, a value
    with a space or a comma is quoted. *)
Definition sanitizeCookieValue (v : string) : string :=
  let v := keep cookie_byte v in
  if String.eqb v "" then v
  else if negb (all_chars (λ c, negb (code c =? 32) && negb (code c =? 44)) v) then dquote +:+ v +:+ dquote
  else v.

(** [parseCookieValue] of a request's cookie; [None] skips the cookie. *)
Definition parseCookieValue (raw : string) : option string :=
  let v := match GoStrings.strip_prefix dquote raw with
           | Some t => match GoStrings.strip_suffix dquote t with Some u => u | None => raw end
           | None => raw
           end in
  if all_chars cookie_byte v then Some v else None.

(** ** A browser

    It keeps every cookie it is given for as long as the cookie says: with a
    positive [Max-Age] that many seconds from the response on, without one until
    the browser ends, which does not happen here, and not at all with a negative
    one. *)

Record StoredCookie := { sc_Host : string; sc_Name : string; sc_Raw : string; sc_Expires : option Time }.
Definition Jar : Type := list StoredCookie.

Definition stored_under (host name : string) (c : StoredCookie) : bool :=
  String.eqb (sc_Host c) host && String.eqb (sc_Name c) name.

(** [MaxAge] as [http.Cookie] writes it and a browser reads it at [t]. *)
Definition expires (maxAge : Z) (t : Time) : option Time :=
  if maxAge =? 0 then None else Some (t + maxAge * Second).

(** A response from [host], received at [t], sets a cookie, replacing one of the
    same name. *)
Definition jar_set (host : string) (t : Time) (j : Jar) (c : Cookie) : Jar :=
  let others := List.filter (λ s, negb (stored_under host (ck_Name c) s)) j in
  if ck_MaxAge c <? 0 then others
  else {| sc_Host := host; sc_Name := ck_Name c; sc_Raw := sanitizeCookieValue (ck_Value c);
          sc_Expires := expires (ck_MaxAge c) t |} :: others.

Definition jar_store (host : string) (t : Time) (cs : list Cookie) (j : Jar) : Jar := foldl (jar_set host t) j cs.

(** A cookie set at [t0] with this [MaxAge] is still there at [t]. *)
Definition kept (maxAge : Z) (t0 t : Time) : bool :=
  (0 <=? maxAge) && match expires maxAge t0 with Some e => t <=? e | None => true end.

(** The cookies a request to [host] at [t] arrives with. *)
Definition sent_to (host : string) (t : Time) (s : StoredCookie) : option (string * string) :=
  if String.eqb (sc_Host s) host && match sc_Expires s with Some e => t <=? e | None => true end
  then match parseCookieValue (sc_Raw s) with Some v => Some (sc_Name s, v) | None => None end
  else None.

Definition jar_send (host : string) (t : Time) (j : Jar) : list (string * string) := omap (sent_to host t) j.

(** ** Proofs *)

Lemma keep_all f s : all_chars f s = true → keep f s = s.
Proof.
  induction s as [|c s IH]; [done|]. simpl. intros [Hc Hs]%andb_prop. by rewrite Hc, IH.
Qed.

(** The bytes a value may consist of to be carried as it is. *)
Definition plain_byte (c : ascii) : bool := cookie_byte c && negb (code c =? 32) && negb (code c =? 44).

Lemma plain_cookie c : plain_byte c = true → cookie_byte c = true.
Proof. unfold plain_byte. intros H. by do 2 apply andb_prop in H as [H _]. Qed.

Lemma plain_value_carried v :
  all_chars plain_byte v = true → parseCookieValue (sanitizeCookieValue v) = Some v.
Proof.
  intros Hv. assert (all_chars cookie_byte v = true) as Hc by (by eapply all_chars_mono; [apply plain_cookie|]).
  unfold sanitizeCookieValue. rewrite keep_all by done.
  assert (all_chars (λ c, negb (code c =? 32) && negb (code c =? 44)) v = true) as ->.
  { eapply all_chars_mono; [|exact Hv]. intros c. unfold plain_byte.
    destruct (cookie_byte c), (code c =? 32), (code c =? 44); done. }
  cbv beta iota zeta. simpl negb. cbv iota.
  assert (parseCookieValue v = Some v) as Hp; [|by destruct (String.eqb v "")].
  unfold parseCookieValue. destruct v as [|c v]; [done|]. cbn [dquote bytes GoStrings.strip_prefix].
  cbn [all_chars] in Hc. destruct (Ascii.eqb_spec (ascii_of_nat 34) c) as [<-|_]; [done|]. cbn [all_chars]. by rewrite Hc.
Qed.

(** What the host's others are named, the cookie just set is not. *)
Lemma replaced_not_sent host name t j :
  first_value_of (jar_send host t (List.filter (λ s, negb (stored_under host name s)) j)) name = None.
Proof.
  induction j as [|s j IH]; [done|]. simpl. destruct (stored_under host name s) eqn:Hs; simpl; [done|].
  unfold sent_to at 1. destruct (String.eqb (sc_Host s) host) eqn:Hh; simpl; [|done].
  destruct (match sc_Expires s with Some e => t <=? e | None => true end); [|done].
  destruct (parseCookieValue (sc_Raw s)); [|done]. simpl. unfold stored_under in Hs. rewrite Hh in Hs. simpl in Hs.
  by rewrite Hs.
Qed.

(** A cookie comes back as long as it is kept, and not after that. *)
Lemma jar_send_set host t0 t j c v :
  parseCookieValue (sanitizeCookieValue (ck_Value c)) = Some v →
  first_value_of (jar_send host t (jar_set host t0 j c)) (ck_Name c) =
  (if kept (ck_MaxAge c) t0 t then Some v else None).
Proof.
  intros Hv. unfold jar_set, kept. destruct (Z.ltb_spec (ck_MaxAge c) 0) as [Hneg|Hpos].
  { rewrite (proj2 (Z.leb_gt _ _)) by done. apply replaced_not_sent. }
  rewrite (proj2 (Z.leb_le _ _)) by done. simpl andb. unfold jar_send. cbn [omap list_omap].
  unfold sent_to at 1. cbn [sc_Host sc_Name sc_Raw sc_Expires]. rewrite String.eqb_refl, Hv. simpl andb.
  destruct (match expires _ _ with Some e => t <=? e | None => true end).
  - cbn [first_value_of]. by rewrite String.eqb_refl.
  - apply replaced_not_sent.
Qed.

Lemma sent_to_other host host' t s : sc_Host s = host → host ≠ host' → sent_to host' t s = None.
Proof. intros <- Hne%String.eqb_neq. unfold sent_to. by rewrite Hne. Qed.

Lemma omap_filter {A B} (f : A → option B) (P : A → bool) l :
  (∀ x, P x = false → f x = None) → omap f (List.filter P l) = omap f l.
Proof.
  intros Hf. induction l as [|x l IH]; [done|]. simpl. destruct (P x) eqn:E; simpl.
  - destruct (f x); [f_equal|]; exact IH.
  - rewrite Hf by done. exact IH.
Qed.

(** A cookie of one host is not sent to another. *)
Lemma jar_send_other host host' t0 t j cs :
  host ≠ host' → jar_send host' t (jar_store host t0 cs j) = jar_send host' t j.
Proof.
  intros Hne. revert j. induction cs as [|c cs IH]; intros j; [done|]. cbn [jar_store foldl].
  unfold jar_store in IH. rewrite IH. clear IH.
  assert (jar_send host' t (List.filter (λ s, negb (stored_under host (ck_Name c) s)) j) = jar_send host' t j) as Hf.
  { apply omap_filter. intros s Hs%negb_false_iff. unfold stored_under in Hs. apply andb_prop in Hs as [Hs%String.eqb_eq _].
    by apply (sent_to_other host). }
  unfold jar_set. destruct (ck_MaxAge c <? 0); [exact Hf|]. rewrite <- Hf. unfold jar_send. simpl.
  by rewrite sent_to_other with (host := host).
Qed.
