(* ===== verification/Redirect.v ===== *)
(** * Redirects (net/http)

    [http.Redirect] does not send every location as it is given: a location
    without scheme and host is made absolute and its path is cleaned, and bytes
    outside ASCII are escaped. Here is what it writes into the [Location] header,
    with as much of [net/url] as decides whether a location is such a one; and
    which locations it leaves alone. *)

From S2P Require Import Prelude GoStrings Utf8 Sha256 Paths Http.
From Stdlib Require Import String Ascii.
From stdpp Require Import base strings list.
From Stdlib Require Import ZArith Lia.
Local Open Scope Z_scope.

#[local] Arguments String.append !_ _ / : simpl nomatch.

(** ** What [url.Parse] takes for a location on the same host *)

Definition letter (c : ascii) : bool :=
  ((97 <=? code c) && (code c <=? 122)) || ((65 <=? code c) && (code c <=? 90)).
Definition digit (c : ascii) : bool := (48 <=? code c) && (code c <=? 57).
Definition one_of (l : string) (c : ascii) : bool := negb (all_chars (λ d, negb (Ascii.eqb d c)) l).
Definition hexadecimal (c : ascii) : bool := digit c || one_of "abcdefABCDEF" c.

(** [stringContainsCTLByte]. *)
Definition control_byte (c : ascii) : bool := (code c <? 32) || (code c =? 127).

(** [unescape] of a path, a fragment or a user name fails on a percent sign
    that two hexadecimal digits do not follow, and on nothing else. *)
Fixpoint escapes_ok (s : string) : bool :=
  match s with
  | "" => true
  | String c s' =>
    if Ascii.eqb c "%" then
      match s' with
      | String a (String b s'') => hexadecimal a && hexadecimal b && escapes_ok s''
      | _ => false
      end
    else escapes_ok s'
  end.

(** [getScheme]. *)
Inductive scheme_cut := BadScheme | NoScheme | SomeScheme.

Fixpoint getScheme (at_start : bool) (s : string) : scheme_cut :=
  match s with
  | "" => NoScheme
  | String c s' =>
    if letter c then getScheme false s'
    else if digit c || one_of "+-." c then (if at_start then NoScheme else getScheme false s')
    else if Ascii.eqb c ":" then (if at_start then BadScheme else SomeScheme)
    else NoScheme
  end.

(** [validUserinfo]. *)
Definition userinfo_byte (c : ascii) : bool := letter c || digit c || one_of "-._:~!$&'()*+,;=%@" c.

(** An authority without a host: nothing, or a user only. Any other one is
    refused or names a host. *)
Definition no_host (authority : string) : bool :=
  match GoStrings.strip_suffix "@" authority with
  | Some userinfo => all_chars userinfo_byte userinfo && escapes_ok userinfo
  | None => String.eqb authority ""
  end.

(** What comes before the separator, and what comes after it. *)
Definition cut_at (s sep : string) : string * string :=
  match Cut s sep with Some p => p | None => (s, "") end.

(** [strings.HasPrefix]. *)
Definition HasPrefix (s p : string) : bool :=
  match GoStrings.strip_prefix p s with Some _ => true | None => false end.

(** The part of a location without the query. *)
Definition local_rest (rest : string) : bool :=
  if HasPrefix rest "//" && negb (HasPrefix rest "///") then
    let authority := TrimPrefix rest "//" in
    no_host (cut_at authority "/").1 &&
    match Cut authority "/" with Some (_, p) => escapes_ok p | None => true end
  else (HasPrefix rest "/" || all_chars (λ c, negb (Ascii.eqb c ":")) (cut_at rest "/").1) && escapes_ok rest.

(** [url.Parse] succeeds, and the URL has neither scheme nor host. *)
Definition local_url (url : string) : bool :=
  let '(u, fragment) := cut_at url "#" in
  all_chars (λ c, negb (control_byte c)) u
  && (String.eqb u "*" ||
      match getScheme true u with
      | NoScheme => local_rest (cut_at u "?").1
      | _ => false
      end)
  && escapes_ok fragment.

(** ** [http.Redirect] *)

(** The directory [path.Split] cuts off: up to the last slash. *)
Fixpoint path_dir (s : string) : string :=
  match s with
  | "" => ""
  | String c s' =>
    match path_dir s' with
    | "" => if Ascii.eqb c "/" then String c "" else ""
    | d => String c d
    end
  end.

(** [hexEscapeNonASCII]. *)
Fixpoint hexEscapeNonASCII (s : string) : string :=
  match s with
  | "" => ""
  | String c s' =>
    if 128 <=? code c then "%" +:+ hex_encode (String c "") +:+ hexEscapeNonASCII s'
    else String c (hexEscapeNonASCII s')
  end.

(** The path cleaned, a trailing slash preserved; the query stays. *)
Definition clean_location (url : string) : string :=
  let '(p, query) := match Cut url "?" with Some (p, q) => (p, "?" +:+ q) | None => (url, "") end in
  let c := path_Clean p in
  (if HasSuffix p "/" && negb (HasSuffix c "/") then c +:+ "/" else c) +:+ query.

(** The [Location] that [http.Redirect(w, r, url, code)] sends. *)
Definition Redirect (r : Request) (url : string) : string :=
  hexEscapeNonASCII
    (if local_url url then
       let oldpath := if String.eqb (req_Path r) "" then "/" else req_Path r in
       clean_location (if HasPrefix url "/" then url else path_dir oldpath +:+ url)
     else url).

(** ** Examples *)

Definition redirect_from (path url : string) : string :=
  Redirect {| req_Method := "GET"; req_Host := ""; req_Path := path; req_URL := path; req_Query := [];
              req_Cookies := []; req_Body := "" |} url.

Example redirects :
  redirect_from "/x" "https://idp.example/auth?state=a" = "https://idp.example/auth?state=a" ∧
  redirect_from "/x" "/files/?path=/a//b" = "/files/?path=/a//b" ∧
  redirect_from "/x" "/a//b/../c/" = "/a/c/" ∧
  redirect_from "/kubepark/oidc/callback" "done" = "/kubepark/oidc/done" ∧
  redirect_from "/x" "//other.example/a//b" = "//other.example/a//b" ∧
  redirect_from "/x" "///a" = "/a" ∧
  redirect_from "/x" "/100%" = "/100%" ∧
  redirect_from "/x" "/" = "/".
Proof. by vm_compute. Qed.

(** ** What is left alone *)

Lemma hexEscapeNonASCII_ascii s : all_chars (λ c, code c <? 128) s = true → hexEscapeNonASCII s = s.
Proof.
  induction s as [|c s IH]; [done|]. cbn [all_chars hexEscapeNonASCII]. intros [Hc%Z.ltb_lt Hs]%andb_prop.
  rewrite (proj2 (Z.leb_gt _ _)) by done. by rewrite IH.
Qed.

(** A location from the root of the host whose path is clean already. *)
Definition clean_address (url : string) : bool :=
  HasPrefix url "/" && all_chars (λ c, code c <? 128) url && String.eqb (clean_location url) url.

Lemma Redirect_clean r url : clean_address url = true → Redirect r url = url.
Proof.
  unfold clean_address, Redirect. intros [[Hp Ha]%andb_prop Hc%String.eqb_eq]%andb_prop.
  rewrite Hp. destruct (local_url url); [rewrite Hc|]; by apply hexEscapeNonASCII_ascii.
Qed.

(** A location with a scheme, as that of a provider. *)
Definition absolute_url (url : string) : bool :=
  all_chars (λ c, code c <? 128) url &&
  match getScheme true (cut_at url "#").1 with SomeScheme => true | _ => false end.

Lemma Redirect_absolute r url : absolute_url url = true → Redirect r url = url.
Proof.
  unfold absolute_url, Redirect, local_url. intros [Ha Hs]%andb_prop.
  destruct (cut_at url "#") as [u f]. cbn [fst] in Hs. destruct (getScheme true u) eqn:Hg; [done..|].
  destruct (String.eqb_spec u "*") as [->|]; [done|]. rewrite andb_false_r. by apply hexEscapeNonASCII_ascii.
Qed.
