(* ===== verification/Oidc.v ===== *)
(** * OpenID Connect

    The parts of [coreos/go-oidc] and [golang.org/x/oauth2] the gateway and
    the client call. Discovery, the exchange of a code and the verification of
    a token talk to the provider, so they are programs. [OIDCLaws] states what
    the code relies on: they change nothing on the API server, and the strings
    of a decoded token are valid text. Whatever the
    library decodes from JSON into [any] is a [json]. *)

From S2P Require Import Prelude GoStrings Utf8 Json Client.
From Stdlib Require Import String.
From stdpp Require Import base gmap strings list.
From Stdlib Require Import ZArith.
Local Open Scope Z_scope.

Class OIDCTypes := {
  Provider : Type;
  Endpoint : Type;
  IDTokenVerifier : Type;
  OAuthToken : Type;
  IDToken : Type;
}.

(** [oauth2.Config]. *)
Record OAuthConfig `{OIDCTypes} := {
  oc_ClientID : string;
  oc_ClientSecret : string;
  oc_Endpoint : Endpoint;
  oc_RedirectURL : string;
  oc_Scopes : list string;
}.

Class OIDCLib := {
  oidc_types :: OIDCTypes;
  oidc_NewProvider : string → prog (res Provider);
  provider_Endpoint : Provider → Endpoint;
  (** [provider.Verifier(&oidc.Config{ClientID: ...})]. *)
  provider_Verifier : Provider → string → IDTokenVerifier;
  (** [config.AuthCodeURL(state)] and, with the PKCE option of
      [oauth2.S256ChallengeOption], of a verifier. *)
  AuthCodeURL : OAuthConfig → string → option string → string;
  (** [config.Exchange(ctx, code)], with [oauth2.VerifierOption] or without. *)
  Exchange : OAuthConfig → string → option string → prog (res OAuthToken);
  (** The type assertion [token.Extra(name).(string)]. *)
  token_Extra : OAuthToken → string → option string;
  (** [oauth2.GenerateVerifier]: a fresh PKCE verifier. *)
  GenerateVerifier : prog string;
  Verify : IDTokenVerifier → string → prog (res IDToken);
  (** [idToken.Claims] into a [map[string]any]. *)
  idToken_Claims : IDToken → res (gmap string json);
}.

Class OIDCLaws (O : OIDCLib) : Prop := {
  NewProvider_reads issuer : calls (@is_read) (oidc_NewProvider issuer);
  Exchange_reads c code verifier : calls (@is_read) (Exchange c code verifier);
  Verify_reads v raw : calls (@is_read) (Verify v raw);
  (** The JSON decoder yields valid text. *)
  Claims_valid idToken claims name s :
    idToken_Claims idToken = Ok claims → claims !! name = Some (JString s) → valid_utf8 s = true;
}.

Definition ScopeOpenID : string := "openid".
Definition defaultPrincipalClaim : string := "email".

(** The type assertion [v.(string)] on a value of a claims map. *)
Definition claim_string (claims : gmap string json) (name : string) : option string :=
  match claims !! name with
  | Some (JString s) => Some s
  | _ => None
  end.
