(* ===== verification/HTTPProxy.v ===== *)
(** * The HTTP proxy (internal/gateway/httpproxy.go)

    Routes a browser's request by host name to an exposed port of a sandbox.
    The theorems: a request is proxied exactly when it is not for the login's
    callback and its host names a port that an existing sandbox exposes, which
    asks for no login or is asked for by the owner or somebody the port allows,
    and the sandbox has an address; no request changes an object, so none wakes a sandbox or leaves a record. *)

From S2P Require Import Prelude GoStrings KubeTypes ApiTypes Client SandboxRBAC Routing Store Http.
From Stdlib Require Import String.
From stdpp Require Import base gmap strings list pretty.
From Stdlib Require Import ZArith Lia.
Local Open Scope Z_scope.

(** [Authenticator]. [au_Callback] is set for the [*CookieAuthenticator],
    which also serves the provider's callback path. *)
Record Authenticator := {
  au_Identify : Request → prog (option (string * list string));
  au_StartLogin : Request → prog AuthResponse;
  au_Callback : option (Request → prog AuthResponse);
}.

Definition oidcCallbackPath : string := "/kubepark/oidc/callback".

Definition IsCallback (r : Request) : bool := String.eqb (req_Path r) oidcCallbackPath.

Inductive Response :=
  | HTTPError (code : Z) (msg : string)
  | FromAuth (a : AuthResponse)
  | Proxied (upstream : string).

Section proxy.
(** [url.Parse]; its result is the address the reverse proxy dials. *)
Context `{S : Store} (url_Parse : string → res string).

Record HTTPProxyConfig := {
  hp_BaseDomain : string;
  hp_Auth : option Authenticator;
  hp_DialAddr : option (Sandbox → Z → string);
}.

(** The default [NewHTTPProxy] fills in. *)
Definition dialAddr (cfg : HTTPProxyConfig) (sb : Sandbox) (port : Z) : string :=
  match hp_DialAddr cfg with
  | Some f => f sb port
  | None => "http://" +:+ st_PodIP (sb_Status sb) +:+ ":" +:+ pretty port
  end.

Definition findExposedPort (sb : Sandbox) (name : string) : option ExposedPort :=
  List.find (λ p, String.eqb (ep_Name p) name) (sp_ExposedPorts (sb_Spec sb)).

Definition authorizedForPort (sb : Sandbox) (port : ExposedPort) (principal : string) (groups : list string) : bool :=
  if String.eqb principal (ow_Name (sp_Owner (sb_Spec sb))) then true
  else if contains (ep_AllowedUsers port) principal then true
  else existsb (contains (ep_AllowedGroups port)) groups.

(** The end of [ServeHTTP], once the request may reach the port. *)
Definition proxyTo (cfg : HTTPProxyConfig) (sb : Sandbox) (port : ExposedPort) : Response :=
  if String.eqb (st_PodIP (sb_Status sb)) "" then HTTPError StatusServiceUnavailable "sandbox is suspended"
  else match url_Parse (dialAddr cfg sb (ep_Port port)) with
       | Err _ => HTTPError StatusInternalServerError "bad upstream"
       | Ok upstream => Proxied upstream
       end.

(** From the lookup of the port on. *)
Definition servePort (cfg : HTTPProxyConfig) (r : Request) (sb : Sandbox) (name : string) : prog Response :=
  match findExposedPort sb name with
  | None => Ret (HTTPError StatusNotFound "port not exposed")
  | Some port =>
    if bool_decide (ep_Auth port = AuthModeOIDC) then
      match hp_Auth cfg with
      | None => Ret (HTTPError StatusServiceUnavailable "OIDC is not configured on this gateway")
      | Some auth =>
        i ← au_Identify auth r;
        match i with
        | None => a ← au_StartLogin auth r; Ret (FromAuth a)
        | Some (principal, groups) =>
          if negb (authorizedForPort sb port principal groups)
          then Ret (HTTPError StatusForbidden "forbidden")
          else Ret (proxyTo cfg sb port)
        end
      end
    else Ret (proxyTo cfg sb port)
  end.

(** From the lookup of the sandbox on. *)
Definition serveRoute (cfg : HTTPProxyConfig) (r : Request) : prog Response :=
  match ParseHTTPHost (req_Host r) (hp_BaseDomain cfg) with
  | Err _ => Ret (HTTPError StatusNotFound "unknown route")
  | Ok target =>
    g ← GetSandbox (ht_Namespace target) (ht_Sandbox target);
    match g with
    | Err _ => Ret (HTTPError StatusNotFound "sandbox not found")
    | Ok sb => servePort cfg r sb (ht_Port target)
    end
  end.

Definition callback (cfg : HTTPProxyConfig) (r : Request) : option (prog AuthResponse) :=
  match hp_Auth cfg with
  | Some auth => match au_Callback auth with
                 | Some cb => if IsCallback r then Some (cb r) else None
                 | None => None
                 end
  | None => None
  end.

Definition ServeHTTP (cfg : HTTPProxyConfig) (r : Request) : prog Response :=
  match callback cfg r with
  | Some p => a ← p; Ret (FromAuth a)
  | None => serveRoute cfg r
  end.

(** ** Proofs *)

Lemma findExposedPort_some sb name port :
  findExposedPort sb name = Some port → port ∈ sp_ExposedPorts (sb_Spec sb) ∧ ep_Name port = name.
Proof.
  intros [Hin Hn]%List.find_some. split; [by apply list_elem_of_In|by apply String.eqb_eq].
Qed.

(** Who may use a port that wants a login. *)
Definition may_use (sb : Sandbox) (port : ExposedPort) (principal : string) (groups : list string) : Prop :=
  principal = ow_Name (sp_Owner (sb_Spec sb)) ∨ principal ∈ ep_AllowedUsers port ∨
  ∃ g, g ∈ groups ∧ g ∈ ep_AllowedGroups port.

Lemma authorizedForPort_spec sb port principal groups :
  authorizedForPort sb port principal groups = true ↔ may_use sb port principal groups.
Proof.
  unfold authorizedForPort, may_use. rewrite <- String.eqb_eq, <- !contains_true.
  destruct (String.eqb principal _); [by split; [left|]|].
  destruct (contains (ep_AllowedUsers port) principal) eqn:Hu; [by split; [right; left|]|].
  rewrite existsb_exists. split.
  - intros (g & Hg & Hc). right. right. exists g. rewrite list_elem_of_In. split; [done|by apply contains_true].
  - intros [|[|(g & Hg & Hc)]]; [done..|]. exists g. rewrite <- list_elem_of_In. split; [done|by apply contains_true].
Qed.

Lemma proxyTo_proxied cfg sb port upstream :
  proxyTo cfg sb port = Proxied upstream ↔
  st_PodIP (sb_Status sb) ≠ "" ∧ url_Parse (dialAddr cfg sb (ep_Port port)) = Ok upstream.
Proof.
  unfold proxyTo. destruct (String.eqb_spec (st_PodIP (sb_Status sb)) "") as [Hip|Hip]; [naive_solver|].
  destruct (url_Parse _); naive_solver.
Qed.

Context {W : Type} `{World W} `{!StoreLaws S}.

(** The caller is known under an identity the port allows, or the port asks
    for none. *)
Definition admitted (env : Env W) (cfg : HTTPProxyConfig) (r : Request) (sb : Sandbox) (port : ExposedPort) w : Prop :=
  ep_Auth port = AuthModeOIDC →
  ∃ auth principal groups, hp_Auth cfg = Some auth ∧
    (run env (au_Identify auth r) w).1 = Some (principal, groups) ∧ may_use sb port principal groups.

Lemma servePort_proxied (env : Env W) cfg r sb name w upstream :
  (run env (servePort cfg r sb name) w).1 = Proxied upstream ↔
  ∃ port, findExposedPort sb name = Some port ∧ admitted env cfg r sb port w ∧
    st_PodIP (sb_Status sb) ≠ "" ∧ url_Parse (dialAddr cfg sb (ep_Port port)) = Ok upstream.
Proof.
  unfold servePort, admitted. destruct (findExposedPort sb name) as [port|]; [|naive_solver].
  case_bool_decide as Ha; cycle 1.
  { simpl. rewrite proxyTo_proxied. naive_solver. }
  destruct (hp_Auth cfg) as [auth|]; [|naive_solver].
  rewrite run_bind. destruct (run env (au_Identify auth r) w) as [i w1] eqn:Hi. cbn [fst snd].
  destruct i as [[principal groups]|].
  - pose proof (authorizedForPort_spec sb port principal groups) as Hs.
    destruct (authorizedForPort sb port principal groups); simpl.
    + rewrite proxyTo_proxied. split.
      * intros [Hip Hu]. exists port. split; [done|]. split; [|done]. intros _.
        exists auth, principal, groups. rewrite Hi. naive_solver.
      * by intros (p & [= <-] & _ & Hip & Hu).
    + split; [done|]. intros (p & [= <-] & Had & _). destruct (Had Ha) as (a & p' & g' & [= <-] & Hr & Hm).
      rewrite Hi in Hr. simpl in Hr. naive_solver.
  - rewrite run_bind. split; [done|]. intros (p & [= <-] & Had & _).
    destruct (Had Ha) as (a & p' & g' & [= <-] & Hr & _). by rewrite Hi in Hr.
Qed.

(** C36. When the proxy forwards a request, and to where: exactly when the
    request is not one for the callback of a configured login, the host names a
    sandbox that is looked up and found as it is stored, and a port the sandbox
    exposes, the port asks for no login or the caller is the owner or somebody
    the port allows, the sandbox has a pod to dial and the pod's address makes a
    URL. No other request reaches any sandbox. *)
Theorem request_proxied_exactly (env : Env W) `{!Conforms env} cfg r w upstream :
  (run env (ServeHTTP cfg r) w).1 = Proxied upstream ↔
  callback cfg r = None ∧
  ∃ target found w1 port,
    ParseHTTPHost (req_Host r) (hp_BaseDomain cfg) = Ok target ∧
    run env (GetSandbox (ht_Namespace target) (ht_Sandbox target)) w = (Ok found, w1) ∧
    view KSandbox w (nn (ht_Namespace target) (ht_Sandbox target)) = Some found ∧
    findExposedPort found (ht_Port target) = Some port ∧ admitted env cfg r found port w1 ∧
    st_PodIP (sb_Status found) ≠ "" ∧ url_Parse (dialAddr cfg found (ep_Port port)) = Ok upstream.
Proof.
  unfold ServeHTTP. destruct (callback cfg r) as [p|]; [rewrite run_bind; naive_solver|]. unfold serveRoute.
  destruct (ParseHTTPHost (req_Host r) (hp_BaseDomain cfg)) as [target|e]; [|naive_solver]. rewrite run_bind.
  destruct (run env (GetSandbox (ht_Namespace target) (ht_Sandbox target)) w) as [[found|e] w1] eqn:Hg; cbn [fst snd].
  - pose proof (run_wp env _ _ _ _ _ Hg (GetSandbox_spec _ _ w)) as [_ Hv]. simpl in Hv.
    rewrite servePort_proxied. split.
    + intros (port & Hf & Had & Hip & Hu). split; [done|]. exists target, found, w1, port. auto 10.
    + intros (_ & t & f & v & port & [= <-] & Hr & _ & Hf & Had & Hip & Hu). rewrite Hg in Hr. injection Hr as <- <-.
      by exists port.
  - split; [done|]. intros (_ & t & f & v & port & [= <-] & Hr & _). by rewrite Hg in Hr.
Qed.

(** Without a store that found the sandbox nothing is proxied. *)
Theorem unknown_route_refused (env : Env W) `{!Conforms env} cfg r w upstream :
  (run env (ServeHTTP cfg r) w).1 = Proxied upstream →
  ∃ target (sb : Sandbox), ParseHTTPHost (req_Host r) (hp_BaseDomain cfg) = Ok target ∧
    view KSandbox w (nn (ht_Namespace target) (ht_Sandbox target)) = Some sb ∧
    (∃ port, port ∈ sp_ExposedPorts (sb_Spec sb) ∧ ep_Name port = ht_Port target ∧
       (hp_Auth cfg = None → ep_Auth port ≠ AuthModeOIDC)).
Proof.
  unfold ServeHTTP. destruct (callback cfg r) as [p|]; [by rewrite run_bind|]. unfold serveRoute.
  destruct (ParseHTTPHost _ _) as [target|e]; [|done]. rewrite run_bind.
  pose proof (wp_run env _ _ _ (GetSandbox_spec (ht_Namespace target) (ht_Sandbox target) w)) as [_ Hv].
  destruct (run env (GetSandbox _ _) w) as [[sb|e] w1]; [|done]. cbn [fst snd] in *.
  intros (port & Hf & Had & _)%servePort_proxied. exists target, sb. split; [done|]. split; [done|].
  apply findExposedPort_some in Hf as [Hin Hn]. exists port. split; [done|]. split; [done|].
  intros Hno Ha. destruct (Had Ha) as (a & _ & _ & Hx & _). congruence.
Qed.

End proxy.

(** The proxy writes nothing to the API server, provided that identifying a
    caller, sending them to the login and serving the callback do not. *)
Lemma ServeHTTP_reads url_Parse cfg r :
  (∀ auth, hp_Auth cfg = Some auth →
     calls (@is_read) (au_Identify auth r) ∧ calls (@is_read) (au_StartLogin auth r) ∧
     ∀ cb, au_Callback auth = Some cb → calls (@is_read) (cb r)) →
  calls (@is_read) (ServeHTTP (S := clientStore) url_Parse cfg r).
Proof.
  intros Ha. unfold ServeHTTP, callback.
  assert (calls (@is_read) (serveRoute (S := clientStore) url_Parse cfg r)).
  { unfold serveRoute. destruct (ParseHTTPHost _ _) as [target|e]; [|done].
    split; [done|]. intros [sb|e]; [|done]. simpl. unfold servePort.
    destruct (findExposedPort sb _) as [port|]; [|done]. case_bool_decide; [|done].
    destruct (hp_Auth cfg) as [auth|]; [|done]. destruct (Ha auth eq_refl) as (Hi & Hl & _).
    apply calls_bind; [done|]. intros [[p g]|]; [by destruct (negb _)|]. by apply calls_bind. }
  destruct (hp_Auth cfg) as [auth|]; [|done]. destruct (Ha auth eq_refl) as (_ & _ & Hc).
  destruct (au_Callback auth) as [cb|]; [|done]. destruct (IsCallback r); [|done].
  apply calls_bind; [by apply Hc|done].
Qed.
