(* ===== verification/CookieAuth.v ===== *)
(** * The cookie authenticator (internal/gateway/cookieauth.go)

    The browser's login: an OIDC redirect flow that ends in a session cookie
    signed with the gateway's HMAC key. The theorems: a cookie the gateway
    signed is read back as the claims it was made from; a cookie identifies its
    bearer exactly when its second half is the HMAC of the first under that key,
    the first decodes to a payload that says the claims, and its expiry has not
    passed; the callback sets a session cookie for a verified token only; a
    login on one host leads back to the address it started from, with a cookie
    that identifies the principal of the verified token for as long as it is
    kept. *)

From S2P Require Import Prelude GoStrings Sha256 Encoding Utf8 Json KubeTypes ApiTypes Client SandboxRBAC Routing Store.
From S2P Require Import Http Redirect Oidc HTTPProxy.
From Stdlib Require Import String Ascii.
From stdpp Require Import base gmap strings list pretty.
From Stdlib Require Import ZArith Lia.
Local Open Scope Z_scope.

#[local] Arguments String.append !_ _ / : simpl nomatch.

(** ** Session claims *)

Record sessionClaims := {
  Principal : string;
  Groups : list string;
  Expiry : Z;
}.

(** [json.Marshal]; [omitempty] leaves out a group list without elements. *)
Definition claims_json (c : sessionClaims) : json :=
  JObject ([("p", JString (Principal c))]
           ++ (if bool_decide (Groups c = []) then [] else [("g", JArray (map JString (Groups c)))])
           ++ [("e", JNumber (pretty (Expiry c)))]).

Definition claims_Marshal (c : sessionClaims) : string := print (claims_json c).

(** [json.Unmarshal] into a [sessionClaims]; [None] is an error. *)
Record claims_target := { ct_p : string; ct_g : slice; ct_e : Z }.

Definition claims_step (k : string) (v : json) (t : claims_target) : option claims_target :=
  if names "p" k then
    match store_string v (ct_p t) with Some s => Some {| ct_p := s; ct_g := ct_g t; ct_e := ct_e t |} | None => None end
  else if names "g" k then
    match store_slice v (ct_g t) with Some g => Some {| ct_p := ct_p t; ct_g := g; ct_e := ct_e t |} | None => None end
  else if names "e" k then
    match store_int64 v (ct_e t) with Some e => Some {| ct_p := ct_p t; ct_g := ct_g t; ct_e := e |} | None => None end
  else Some t.

Definition claims_Unmarshal (payload : string) : option sessionClaims :=
  match parse payload with
  | Some v =>
    match store_struct claims_step v {| ct_p := ""; ct_g := nil_slice; ct_e := 0 |} with
    | Some t => Some {| Principal := ct_p t; Groups := slice_list (ct_g t); Expiry := ct_e t |}
    | None => None
    end
  | None => None
  end.

(** ** The authenticator *)

(** [randomString]; an error of the random source is ignored and leaves the
    buffer as it was. *)
Definition randomString : prog string :=
  r ← call (ERandRead 16);
  Ret (EncodeToString (match r with Ok b => b | Err _ => of_byte_values (replicate 16 0) end)).

Definition sessionCookie : string := "kubepark_session".
Definition stateCookie : string := "kubepark_oidc_state".

Section authenticator.
Context `{O : OIDCLib}.

Record CookieAuthenticator := {
  ca_oauth : OAuthConfig;
  ca_verifier : IDTokenVerifier;
  ca_claim : string;
  ca_hmacKey : string;
  ca_ttl : Duration;
  ca_secure : bool;
}.

Definition NewCookieAuthenticator (issuer clientID clientSecret redirectBase claim hmacKey : string)
    (ttl : Duration) (secure : bool) : prog (res CookieAuthenticator) :=
  r ← oidc_NewProvider issuer;
  match r with
  | Err e => Ret (Err (WrapError "discover OIDC provider" e))
  | Ok provider =>
    Ret (Ok {| ca_oauth := {| oc_ClientID := clientID; oc_ClientSecret := clientSecret;
                              oc_Endpoint := provider_Endpoint provider;
                              oc_RedirectURL := TrimSuffix redirectBase "/" +:+ oidcCallbackPath;
                              oc_Scopes := [ScopeOpenID; "email"; "profile"; "groups"] |};
               ca_verifier := provider_Verifier provider clientID;
               ca_claim := if String.eqb claim "" then defaultPrincipalClaim else claim;
               ca_hmacKey := hmacKey; ca_ttl := ttl; ca_secure := secure |})
  end.

Definition cookie_mac (a : CookieAuthenticator) (b : string) : string := EncodeToString (hmac (ca_hmacKey a) b).

Definition signCookie (a : CookieAuthenticator) (claims : sessionClaims) : string :=
  let b := EncodeToString (claims_Marshal claims) in
  b +:+ "." +:+ cookie_mac a b.

Definition verifyCookie (a : CookieAuthenticator) (value : string) : option sessionClaims :=
  match Cut value "." with
  | None => None
  | Some (b, sig) =>
    if negb (String.eqb sig (cookie_mac a b)) then None
    else match DecodeString b with
         | None => None
         | Some payload => claims_Unmarshal payload
         end
  end.

Definition Identify (a : CookieAuthenticator) (r : Request) : prog (option (string * list string)) :=
  match request_Cookie r sessionCookie with
  | None => Ret None
  | Some value =>
    match verifyCookie a value with
    | None => Ret None
    | Some claims =>
      now ← call ENow;
      if Expiry claims <? time_Unix now then Ret None else Ret (Some (Principal claims, Groups claims))
    end
  end.

Definition StartLogin (a : CookieAuthenticator) (r : Request) : prog AuthResponse :=
  state ← randomString;
  Ret (AuthRedirect
    [{| ck_Name := stateCookie; ck_Value := state +:+ "|" +:+ req_URL r;
        ck_HttpOnly := true; ck_Secure := ca_secure a; ck_MaxAge := 600 |}]
    (Redirect r (AuthCodeURL (ca_oauth a) state None))).

(** The strings among the elements of the [groups] claim. *)
Definition identityFromToken (idToken : IDToken) (claim : string) : string * list string :=
  match idToken_Claims idToken with
  | Err _ => ("", [])
  | Ok raw =>
    (default "" (claim_string raw claim),
     match raw !! "groups" with
     | Some (JArray gs) => omap (λ g, match g with JString s => Some s | _ => None end) gs
     | _ => []
     end)
  end.

(** The whole seconds of a duration, as [int(d.Seconds())] gives them. *)
Definition dur_Seconds (d : Duration) : Z := Z.quot d Second.

(** The end of [Callback], once the token is verified. *)
Definition finishLogin (a : CookieAuthenticator) (r : Request) (idToken : IDToken) (returnTo : string) : prog AuthResponse :=
  let '(principal, groups) := identityFromToken idToken (ca_claim a) in
  if String.eqb principal "" then Ret (AuthError StatusBadRequest "no principal claim")
  else
    now ← call ENow;
    let value := signCookie a {| Principal := principal; Groups := groups;
                                 Expiry := time_Unix (time_Add now (ca_ttl a)) |} in
    Ret (AuthRedirect
      [{| ck_Name := sessionCookie; ck_Value := value; ck_HttpOnly := true; ck_Secure := ca_secure a;
          ck_MaxAge := dur_Seconds (ca_ttl a) |}]
      (Redirect r (if String.eqb returnTo "" then "/" else returnTo))).

(** [strings.Cut] of the state cookie: without the separator everything is
    the state. *)
Definition cutState (v : string) : string * string :=
  match Cut v "|" with Some p => p | None => (v, "") end.

Definition Callback (a : CookieAuthenticator) (r : Request) : prog AuthResponse :=
  match request_Cookie r stateCookie with
  | None => Ret (AuthError StatusBadRequest "missing state")
  | Some stateRaw =>
    let '(state, returnTo) := cutState stateRaw in
    if negb (String.eqb state (query_Get r "state")) then Ret (AuthError StatusBadRequest "state mismatch")
    else
      t ← Exchange (ca_oauth a) (query_Get r "code") None;
      match t with
      | Err _ => Ret (AuthError StatusBadGateway "token exchange failed")
      | Ok token =>
        match token_Extra token "id_token" with
        | None => Ret (AuthError StatusBadGateway "no id_token")
        | Some rawID =>
          v ← Verify (ca_verifier a) rawID;
          match v with
          | Err _ => Ret (AuthError StatusUnauthorized "invalid id_token")
          | Ok idToken => finishLogin a r idToken returnTo
          end
        end
      end
  end.

(** The [*CookieAuthenticator] as the proxy's [Authenticator]. *)
Definition cookieAuthenticator (a : CookieAuthenticator) : Authenticator :=
  {| au_Identify := Identify a; au_StartLogin := StartLogin a; au_Callback := Some (Callback a) |}.

End authenticator.

(** ** Cookies *)

(** The claims with their strings as a reader of runes sees them. *)
Definition readable (c : sessionClaims) : sessionClaims :=
  {| Principal := to_valid (Principal c); Groups := to_valid <$> Groups c; Expiry := Expiry c |}.

Lemma store_cells_strings l cells :
  (length cells <= length l)%nat → store_cells (map JString l) cells = Some l.
Proof.
  revert cells. induction l as [|s l IH]; intros cells Hl; simpl in *.
  - destruct cells; [done|]. simpl in Hl. lia.
  - destruct cells as [|c cs]; simpl in *; rewrite IH by (simpl; lia); done.
Qed.

Lemma claims_json_integral c : integral (claims_json c) ∧ depth (claims_json c) <= maxNestingDepth.
Proof.
  assert (∀ l, foldr (λ v P, integral v ∧ P) True (map JString l)) as Hi by (induction l; simpl; auto).
  assert (∀ l, foldr (λ v n, Z.max (depth v) n) 0 (map JString l) = 0) as Hd.
  { induction l as [|s l IH]; [done|]. simpl. rewrite IH. done. }
  unfold claims_json. case_bool_decide; simpl.
  - split; [|unfold maxNestingDepth; lia]. split; [done|]. split; [by exists (Expiry c)|done].
  - rewrite Hd. split; [|unfold maxNestingDepth; lia]. split; [done|]. split; [apply Hi|]. split; [by exists (Expiry c)|done].
Qed.

Lemma claims_json_sanitize c : sanitize (claims_json c) = claims_json (readable c).
Proof.
  unfold claims_json, readable. cbn [sanitize Principal Groups Expiry].
  assert (map sanitize (map JString (Groups c)) = map JString (to_valid <$> Groups c)) as Hg
    by (induction (Groups c) as [|g l IH]; [done|]; simpl; by f_equal).
  destruct (decide (Groups c = [])) as [E|E]; [by rewrite E|].
  rewrite (bool_decide_false (Groups c = [])), (bool_decide_false (to_valid <$> Groups c = []))
    by (done || by intros ?%fmap_nil_inv). cbn [app map fst snd sanitize]. by rewrite Hg.
Qed.

(** Marshalled claims are unmarshalled to the same claims. *)
Lemma claims_Unmarshal_Marshal c :
  int64_range (Expiry c) → claims_Unmarshal (claims_Marshal c) = Some (readable c).
Proof.
  intros He. unfold claims_Unmarshal, claims_Marshal. destruct (claims_json_integral c) as [Hi Hd].
  rewrite parse_print, claims_json_sanitize by done. destruct (readable c) as [p gs e] eqn:Hr.
  assert (e = Expiry c) as -> by (unfold readable in Hr; congruence). unfold claims_json. cbn [Principal Groups Expiry].
  case_bool_decide as Hg; cbn [app store_struct store_members].
  - change (claims_step "p" (JString p) ?t) with (Some {| ct_p := p; ct_g := nil_slice; ct_e := 0 |}).
    cbn match. change (claims_step "e" ?v ?t) with
      (match store_int64 v (ct_e t) with Some e => Some {| ct_p := ct_p t; ct_g := ct_g t; ct_e := e |} | None => None end).
    cbn [store_int64 ct_e]. rewrite ParseInt_pretty by done. by subst.
  - change (claims_step "p" (JString p) ?t) with (Some {| ct_p := p; ct_g := nil_slice; ct_e := 0 |}).
    cbn match. change (claims_step "g" ?v ?t) with
      (match store_slice v (ct_g t) with Some g => Some {| ct_p := ct_p t; ct_g := g; ct_e := ct_e t |} | None => None end).
    assert (store_slice (JArray (map JString gs)) nil_slice = Some {| sl_cells := gs; sl_len := length gs |}) as Hs.
    { destruct gs as [|g gs]; [done|]. unfold store_slice. rewrite (store_cells_strings (g :: gs)) by (simpl; lia).
      simpl. by rewrite length_map. }
    cbn [ct_g ct_p ct_e]. rewrite Hs. cbn match. change (claims_step "e" ?v ?t) with
      (match store_int64 v (ct_e t) with Some e => Some {| ct_p := ct_p t; ct_g := ct_g t; ct_e := e |} | None => None end).
    cbn [store_int64 ct_e]. rewrite ParseInt_pretty by done. cbn. unfold slice_list. cbn. by rewrite firstn_all.
Qed.

(** *** What a payload says

    Read without the decoder's state: of the members that name a field, none is
    of another type, and the last that is not [null] counts. Only the elements of
    a list of groups may depend on an earlier list of the same object, in the
    places where they are [null]; [store_slice] says how. *)

Definition named_values (field : string) (m : list (string * json)) : list json :=
  omap (λ kv, if names field kv.1 then Some kv.2 else None) m.

Definition string_in (v : json) : option string := match v with JString s => Some s | _ => None end.
Definition number_in (v : json) : option Z := match v with JNumber lit => ParseInt lit | _ => None end.

Definition is_string_or_null (v : json) : Prop := v = JNull ∨ is_Some (string_in v).
Definition is_number_or_null (v : json) : Prop := v = JNull ∨ is_Some (number_in v).

Fixpoint store_lists (l : list json) (s : slice) : option slice :=
  match l with
  | [] => Some s
  | v :: l => match store_slice v s with Some s' => store_lists l s' | None => None end
  end.

Definition last_or {A} (old : A) (l : list A) : A := default old (last l).

Inductive claims_of : json → sessionClaims → Prop :=
  | claims_null : claims_of JNull {| Principal := ""; Groups := []; Expiry := 0 |}
  | claims_object m groups :
      Forall is_string_or_null (named_values "p" m) →
      Forall is_number_or_null (named_values "e" m) →
      store_lists (named_values "g" m) nil_slice = Some groups →
      claims_of (JObject m)
        {| Principal := last_or "" (omap string_in (named_values "p" m));
           Groups := slice_list groups;
           Expiry := last_or 0 (omap number_in (named_values "e" m)) |}.

(** A key names one field at most. *)
Lemma names_fold field key : names field key = String.eqb (foldName key) (foldName field).
Proof. unfold names. destruct (String.eqb_spec key field) as [->|]; [|done]. by rewrite String.eqb_refl. Qed.

Lemma names_apart f g key : foldName f ≠ foldName g → names f key = true → names g key = false.
Proof. intros Hne. rewrite !names_fold. intros ->%String.eqb_eq. by apply String.eqb_neq. Qed.

(** One field of the object, folded over the members that name it. *)
Fixpoint fold_values {A} (store : json → A → option A) (l : list json) (old : A) : option A :=
  match l with
  | [] => Some old
  | v :: l => match store v old with Some x => fold_values store l x | None => None end
  end.

Lemma last_or_cons {A} (old x : A) l : last_or old (x :: l) = last_or x l.
Proof. unfold last_or. rewrite last_cons. by destruct (last l). Qed.

Lemma fold_strings l old x :
  fold_values store_string l old = Some x ↔ Forall is_string_or_null l ∧ x = last_or old (omap string_in l).
Proof.
  revert old. induction l as [|v l IH]; intros old; cbn [fold_values].
  { split; [intros [= <-]; by split|]. by intros [_ ->]. }
  rewrite Forall_cons. unfold is_string_or_null at 1.
  destruct v; simpl; try (split; [done|intros [[[[=]|[? [=]]] _] _]]).
  - rewrite IH. naive_solver.
  - rewrite IH, last_or_cons. naive_solver eauto.
Qed.

Lemma fold_numbers l old x :
  fold_values store_int64 l old = Some x ↔ Forall is_number_or_null l ∧ x = last_or old (omap number_in l).
Proof.
  revert old. induction l as [|v l IH]; intros old; cbn [fold_values].
  { split; [intros [= <-]; by split|]. by intros [_ ->]. }
  rewrite Forall_cons. unfold is_number_or_null at 1.
  destruct v; simpl; try (split; [done|intros [[[[=]|[? [=]]] _] _]]).
  - rewrite IH. naive_solver.
  - destruct (ParseInt _) as [z|]; [rewrite IH, last_or_cons; naive_solver eauto|].
    split; [done|]. intros [[[[=]|[? [=]]] _] _].
Qed.

Lemma fold_lists l s : fold_values store_slice l s = store_lists l s.
Proof. revert s. induction l as [|v l IH]; intros s; [done|]. simpl. by destruct (store_slice v s). Qed.

(** The members of the object, sorted by the field they name. *)
Lemma claims_members m p g e t :
  store_members claims_step m {| ct_p := p; ct_g := g; ct_e := e |} = Some t ↔
  fold_values store_string (named_values "p" m) p = Some (ct_p t) ∧
  fold_values store_slice (named_values "g" m) g = Some (ct_g t) ∧
  fold_values store_int64 (named_values "e" m) e = Some (ct_e t).
Proof.
  revert p g e. induction m as [|[k v] m IH]; intros p g e.
  { simpl. destruct t. naive_solver. }
  cbn [store_members]. unfold claims_step at 1, named_values. cbn [omap list_omap fst snd ct_p ct_g ct_e].
  fold (named_values "p" m) (named_values "g" m) (named_values "e" m).
  destruct (names "p" k) eqn:Hp.
  { rewrite (names_apart "p" "g" k), (names_apart "p" "e" k) by done. cbn [fold_values].
    destruct (store_string v p); [apply IH|]. naive_solver. }
  destruct (names "g" k) eqn:Hg.
  { rewrite (names_apart "g" "e" k) by done. cbn [fold_values]. destruct (store_slice v g); [apply IH|]. naive_solver. }
  destruct (names "e" k); cbn [fold_values]; [|apply IH]. destruct (store_int64 v e); [apply IH|]. naive_solver.
Qed.

(** The decoder reads what the payload says. *)
Lemma claims_Unmarshal_reads payload c :
  claims_Unmarshal payload = Some c ↔ ∃ v, parse payload = Some v ∧ claims_of v c.
Proof.
  unfold claims_Unmarshal. destruct (parse payload) as [v|]; [|naive_solver].
  assert (∀ m t, store_struct claims_step (JObject m) {| ct_p := ""; ct_g := nil_slice; ct_e := 0 |} = Some t →
    claims_of (JObject m) {| Principal := ct_p t; Groups := slice_list (ct_g t); Expiry := ct_e t |}) as Hobj.
  { intros m t (Hp & Hg & He)%claims_members. apply fold_strings in Hp as [Hp ->]. apply fold_numbers in He as [He ->].
    rewrite fold_lists in Hg. by constructor. }
  split.
  - intros Hc. exists v. split; [done|]. destruct v; try done; cbn [store_struct] in Hc.
    + injection Hc as <-. constructor.
    + destruct (store_members _ _ _) as [t|] eqn:Ht; [|done]. injection Hc as <-. by apply Hobj.
  - intros (v' & [= <-] & Hc). destruct Hc as [|m groups Hp He Hg]; [done|]. cbn [store_struct].
    rewrite (proj2 (claims_members m _ _ _ {| ct_p := last_or "" (omap string_in (named_values "p" m));
      ct_g := groups; ct_e := last_or 0 (omap number_in (named_values "e" m)) |})); [done|].
    rewrite fold_strings, fold_lists, fold_numbers. done.
Qed.

Lemma url_safe_no_dot s : all_chars url_safe s = true → all_chars (λ d, negb (Ascii.eqb d ".")) s = true.
Proof.
  apply all_chars_mono. intros c Hc. destruct (Ascii.eqb_spec c "."); [subst; done|done].
Qed.

Section proofs.
Context `{O : OIDCLib}.
Implicit Type a : CookieAuthenticator.

Lemma verifyCookie_signed a b :
  all_chars (λ d, negb (Ascii.eqb d ".")) b = true →
  verifyCookie a (b +:+ "." +:+ cookie_mac a b) =
  match DecodeString b with Some payload => claims_Unmarshal payload | None => None end.
Proof.
  intros Hb. unfold verifyCookie. change ("." +:+ ?x) with (String "." x). by rewrite Cut_char, String.eqb_refl.
Qed.

Lemma signed_cookie_verified a c :
  int64_range (Expiry c) → verifyCookie a (signCookie a c) = Some (readable c).
Proof.
  intros He. unfold signCookie. rewrite verifyCookie_signed by apply url_safe_no_dot, EncodeToString_safe.
  by rewrite DecodeString_EncodeToString, claims_Unmarshal_Marshal.
Qed.

Lemma cookie_round_trip_readable a c :
  int64_range (Expiry c) → valid_utf8 (Principal c) = true → Forall (λ g, valid_utf8 g = true) (Groups c) →
  verifyCookie a (signCookie a c) = Some c.
Proof.
  intros He Hp Hg. rewrite signed_cookie_verified by done. destruct c as [p g e]. unfold readable. simpl in *.
  apply String.eqb_eq in Hp. rewrite Hp. do 2 f_equal. induction Hg as [|x l Hx%String.eqb_eq Hl IH]; [done|].
  cbn. by rewrite Hx, IH.
Qed.

(** A session cookie the gateway signed is read back as the claims it was
    made from (strings that are not valid UTF-8 as their readable form). *)
Theorem cookie_round_trip a c :
  int64_range (Expiry c) →
  verifyCookie a (signCookie a c) = Some (readable c) ∧
  (valid_utf8 (Principal c) = true → Forall (λ g, valid_utf8 g = true) (Groups c) →
   verifyCookie a (signCookie a c) = Some c).
Proof.
  intros He. split; [by apply signed_cookie_verified|]. intros Hp Hg. by apply cookie_round_trip_readable.
Qed.

(** The key as HMAC uses it: hashed when it is longer than a block of 64 bytes,
    then filled up with zeros. *)
Definition hmac_key_block (key : string) : list Z :=
  let short := if (String.length key <=? 64)%nat then key else Sum256 key in
  byte_values short ++ replicate (64 - String.length short) 0.

(** The authentication code of RFC 2104 over SHA-256, spelled out. *)
Lemma cookie_mac_rfc2104 a b :
  cookie_mac a b =
  let block := hmac_key_block (ca_hmacKey a) in
  EncodeToString (Sum256 (of_byte_values (Z.lxor 92 <$> block) +:+
                          Sum256 (of_byte_values (Z.lxor 54 <$> block) +:+ b))).
Proof.
  unfold cookie_mac, hmac, xor_pad. enough (hmac_block (ca_hmacKey a) = hmac_key_block (ca_hmacKey a)) as -> by done.
  unfold hmac_block, hmac_key_block, BlockSize. rewrite Nat.leb_antisym.
  destruct (Nat.ltb 64 (String.length (ca_hmacKey a))); cbn [negb]; by rewrite byte_values_length.
Qed.

Lemma verifyCookie_Some a value c :
  verifyCookie a value = Some c ↔
  ∃ b payload, value = b +:+ "." +:+ cookie_mac a b ∧ all_chars (λ d, negb (Ascii.eqb d ".")) b = true ∧
    DecodeString b = Some payload ∧ claims_Unmarshal payload = Some c.
Proof.
  split.
  - unfold verifyCookie. destruct (Cut value ".") as [[b sig]|] eqn:Hc; [|done].
    destruct (String.eqb_spec sig (cookie_mac a b)) as [->|]; [|done]. simpl.
    destruct (DecodeString b) as [payload|] eqn:Hd; [|done]. intros Hu. exists b, payload.
    split; [by apply Cut_Some in Hc|]. split; [by eapply Cut_char_before|done].
  - intros (b & payload & -> & Hb & Hd & Hu). by rewrite verifyCookie_signed, Hd.
Qed.

Context {W : Type} `{World W}.

Lemma wp_Identify a r w :
  wp (Identify a r) (λ i w', unchanged w w' ∧
    match i with
    | Some (p, g) => ∃ value c, request_Cookie r sessionCookie = Some value ∧ verifyCookie a value = Some c ∧
        time_Unix (clock w') <= Expiry c ∧ p = Principal c ∧ g = Groups c
    | None => ∀ value c, request_Cookie r sessionCookie = Some value → verifyCookie a value = Some c →
        Expiry c < time_Unix (clock w')
    end) w.
Proof.
  unfold Identify. destruct (request_Cookie r sessionCookie) as [value|] eqn:Hr; [|done].
  destruct (verifyCookie a value) as [c|] eqn:Hv; [|simpl; split; [done|congruence]].
  apply wp_bind, wp_call. intros now w' [_ [Hu ->]]. destruct (Z.ltb_spec (Expiry c) (time_Unix (clock w'))); simpl.
  - split; [done|]. congruence.
  - split; [done|]. by exists value, c.
Qed.

(** A request is identified exactly when it carries a session cookie with those
    claims that has not expired when it is read. *)
Lemma identified (env : Env W) `{!Conforms env} a r w i w' :
  run env (Identify a r) w = (i, w') →
  (∀ p g, i = Some (p, g) ↔
     ∃ value e, request_Cookie r sessionCookie = Some value ∧
       verifyCookie a value = Some {| Principal := p; Groups := g; Expiry := e |} ∧ time_Unix (clock w') <= e).
Proof.
  intros Hrun p g. pose proof (run_wp env _ _ _ _ _ Hrun (wp_Identify a r w)) as [_ Hi]. split.
  - intros ->. destruct Hi as (value & c & Hr & Hv & He & -> & ->). exists value, (Expiry c). by destruct c.
  - intros (value & e & Hr & Hv & He). destruct i as [[p' g']|].
    + destruct Hi as (value' & c & Hr' & Hv' & _ & -> & ->). rewrite Hr in Hr'. injection Hr' as <-.
      rewrite Hv in Hv'. by injection Hv' as <-.
    + pose proof (Hi _ _ Hr Hv) as Hlt. simpl in Hlt. lia.
Qed.

(** C14. Which cookies identify whom. A request is taken to come from a principal
    with groups exactly when it carries a session cookie [b.code] where [code] is
    the HMAC-SHA256 of the text [b] under the gateway's key, [b] has no dot and
    decodes from base64 to a JSON text that parses and says that principal, those
    groups and an expiry, and the expiry has not passed when the cookie is read.
    Every cookie the gateway signs is such a one: its claims are read back from
    it (strings in valid UTF-8, an expiry of 64 bits). Without the code for its
    own text under this key no cookie identifies anybody. *)
Theorem cookie_accepted_exactly a :
  (∀ (env : Env W), Conforms env → ∀ r w i w', run env (Identify a r) w = (i, w') →
   ∀ p g, i = Some (p, g) ↔
     ∃ b payload v e,
       request_Cookie r sessionCookie =
         Some (b +:+ "." +:+
               (let block := hmac_key_block (ca_hmacKey a) in
                EncodeToString (Sum256 (of_byte_values (Z.lxor 92 <$> block) +:+
                                        Sum256 (of_byte_values (Z.lxor 54 <$> block) +:+ b))))) ∧
       all_chars (λ d, negb (Ascii.eqb d ".")) b = true ∧
       DecodeString b = Some payload ∧ parse payload = Some v ∧
       claims_of v {| Principal := p; Groups := g; Expiry := e |} ∧
       time_Unix (clock w') <= e) ∧
  (∀ c, int64_range (Expiry c) → valid_utf8 (Principal c) = true → Forall (λ g, valid_utf8 g = true) (Groups c) →
   verifyCookie a (signCookie a c) = Some c).
Proof.
  split; [|intros; by apply cookie_round_trip_readable].
  intros env ? r w i w' Hrun p g. rewrite (identified env a r w i w' Hrun p g). split.
  - intros (value & e & Hr & (b & payload & -> & Hb & Hd & (v & Hv & Hc)%claims_Unmarshal_reads)%verifyCookie_Some & He).
    exists b, payload, v, e. rewrite <- cookie_mac_rfc2104. done.
  - intros (b & payload & v & e & Hr & Hb & Hd & Hv & Hc & He). rewrite <- cookie_mac_rfc2104 in Hr.
    eexists _, e. split; [exact Hr|]. split; [|done]. apply verifyCookie_Some. exists b, payload.
    split; [done|]. split; [done|]. split; [done|]. apply claims_Unmarshal_reads. by exists v.
Qed.

(** ** The callback *)

(** What a successful callback answers. *)
Definition session_for a (r : Request) (idToken : IDToken) (now : Time) (returnTo : string) (resp : AuthResponse) : Prop :=
  ∃ principal groups, identityFromToken idToken (ca_claim a) = (principal, groups) ∧ principal ≠ "" ∧
    resp = AuthRedirect
      [{| ck_Name := sessionCookie;
          ck_Value := signCookie a {| Principal := principal; Groups := groups;
                                      Expiry := time_Unix (time_Add now (ca_ttl a)) |};
          ck_HttpOnly := true; ck_Secure := ca_secure a; ck_MaxAge := dur_Seconds (ca_ttl a) |}]
      (Redirect r (if String.eqb returnTo "" then "/" else returnTo)).

Lemma wp_finishLogin a r idToken returnTo w :
  wp (finishLogin a r idToken returnTo) (λ resp w',
    (resp = AuthError StatusBadRequest "no principal claim" ∧ (identityFromToken idToken (ca_claim a)).1 = "") ∨
    session_for a r idToken (clock w') returnTo resp) w.
Proof.
  unfold finishLogin. destruct (identityFromToken idToken (ca_claim a)) as [principal groups] eqn:Hi.
  destruct (String.eqb_spec principal "") as [->|Hp]; [by left|].
  apply wp_bind, wp_call. intros now w' [_ [_ ->]]. right. by exists principal, groups.
Qed.

(** C15. The callback sets a session cookie only for a request that carries the
    state the login started with, for a code the provider exchanged and a
    token its verifier accepted, and then for the identity in that token. *)
Theorem callback_only_verified (env : Env W) `{!Conforms env} a r w cookies location w' :
  run env (Callback a r) w = (AuthRedirect cookies location, w') →
  ∃ stateRaw returnTo token rawID idToken,
    request_Cookie r stateCookie = Some stateRaw ∧ cutState stateRaw = (query_Get r "state", returnTo) ∧
    let exchange := run env (Exchange (ca_oauth a) (query_Get r "code") None) w in
    exchange.1 = Ok token ∧ token_Extra token "id_token" = Some rawID ∧
    (run env (Verify (ca_verifier a) rawID) exchange.2).1 = Ok idToken ∧
    session_for a r idToken (clock w') returnTo (AuthRedirect cookies location).
Proof.
  unfold Callback. destruct (request_Cookie r stateCookie) as [stateRaw|] eqn:Hs; [|done].
  destruct (cutState stateRaw) as [state returnTo] eqn:Hc.
  destruct (String.eqb_spec state (query_Get r "state")) as [->|]; [|done]. cbn [negb].
  rewrite run_bind. destruct (run env (Exchange _ _ _) w) as [[token|e] w1] eqn:He; [|done]. cbn [fst snd].
  destruct (token_Extra token "id_token") as [rawID|] eqn:Ht; [|done].
  rewrite run_bind. destruct (run env (Verify _ _) w1) as [[idToken|e] w2] eqn:Hv; [|done]. cbn [fst snd].
  intros Hrun. pose proof (run_wp env _ _ _ _ _ Hrun (wp_finishLogin a r idToken returnTo w2)) as [[? _]|Hf]; [done|].
  exists stateRaw, returnTo, token, rawID, idToken. cbn [fst snd]. by rewrite Hv.
Qed.

(** ** A whole login *)

Lemma url_safe_plain c : url_safe c = true → plain_byte c = true ∧ negb (Ascii.eqb c "|") = true.
Proof.
  intros Hc. split; [|by destruct (Ascii.eqb_spec c "|"); [subst|]].
  destruct c as [[] [] [] [] [] [] [] []]; (discriminate Hc || reflexivity).
Qed.

Lemma encoded_plain s : all_chars plain_byte (EncodeToString s) = true.
Proof. eapply all_chars_mono; [apply url_safe_plain|apply EncodeToString_safe]. Qed.

Lemma signCookie_plain a c : all_chars plain_byte (signCookie a c) = true.
Proof.
  unfold signCookie, cookie_mac. rewrite !all_chars_append, !encoded_plain. done.
Qed.

Lemma cutState_started state url :
  all_chars url_safe state = true → cutState (state +:+ "|" +:+ url) = (state, url).
Proof.
  intros Hs. unfold cutState. change ("|" +:+ url) with (String "|" url). rewrite Cut_char; [done|].
  eapply all_chars_mono; [|exact Hs]. apply url_safe_plain.
Qed.

Lemma wp_randomString w : wp randomString (λ s w', unchanged w w' ∧ all_chars url_safe s = true) w.
Proof.
  apply wp_bind, wp_call. intros r w' [_ [Hu _]]. split; [done|apply EncodeToString_safe].
Qed.

(** A request that leaves the browser at [t], with the cookies it holds for
    [host] after a response from there, received at [t0], has set [cookies]. *)
Definition returns_with (host : string) (t0 : Time) (cookies : list Cookie) (j : Jar) (t : Time) (r : Request) : Prop :=
  req_Cookies r = jar_send host t (jar_store host t0 cookies j).

Lemma returns_with_cookie host t0 c j t r :
  all_chars plain_byte (ck_Value c) = true → returns_with host t0 [c] j t r →
  request_Cookie r (ck_Name c) = if kept (ck_MaxAge c) t0 t then Some (ck_Value c) else None.
Proof.
  intros Hp Hr. unfold request_Cookie. rewrite Hr. unfold jar_store. cbn [foldl].
  by apply jar_send_set, plain_value_carried.
Qed.

(** What the provider answers to the callback [r] in the world [w]: a token
    that verifies as [idToken], leaving the world [w']. *)
Definition provider_grants (env : Env W) a (r : Request) (w : W) (idToken : IDToken) (w' : W) : Prop :=
  ∃ token rawID w1, run env (Exchange (ca_oauth a) (query_Get r "code") None) w = (Ok token, w1) ∧
    token_Extra token "id_token" = Some rawID ∧ run env (Verify (ca_verifier a) rawID) w1 = (Ok idToken, w').

Lemma Callback_granted (env : Env W) `{!Conforms env} a r w stateRaw returnTo idToken w1 :
  request_Cookie r stateCookie = Some stateRaw → cutState stateRaw = (query_Get r "state", returnTo) →
  provider_grants env a r w idToken w1 → (identityFromToken idToken (ca_claim a)).1 ≠ "" →
  ∃ resp w', run env (Callback a r) w = (resp, w') ∧ session_for a r idToken (clock w') returnTo resp.
Proof.
  intros Hs Hc (token & rawID & w2 & He & Ht & Hv) Hp. unfold Callback. rewrite Hs, Hc, String.eqb_refl. cbn [negb].
  rewrite run_bind, He. cbn [fst snd]. rewrite Ht, run_bind, Hv. cbn [fst snd].
  destruct (run env (finishLogin a r idToken returnTo) w1) as [resp w'] eqn:Hf. exists resp, w'. split; [done|].
  pose proof (run_wp env _ _ _ _ _ Hf (wp_finishLogin a r idToken returnTo w1)) as [[_ ?]|Hok]; [done|exact Hok].
Qed.

(** A request with a cookie the gateway signed is identified until it expires. *)
Lemma signed_identity (env : Env W) `{!Conforms env} a r w i w' principal groups e :
  int64_range e → valid_utf8 principal = true → Forall (λ g, valid_utf8 g = true) groups →
  request_Cookie r sessionCookie = Some (signCookie a {| Principal := principal; Groups := groups; Expiry := e |}) →
  run env (Identify a r) w = (i, w') →
  i = (if bool_decide (time_Unix (clock w') <= e) then Some (principal, groups) else None).
Proof.
  intros He Hv Hvg Hr Hi.
  pose proof (cookie_round_trip_readable a {| Principal := principal; Groups := groups; Expiry := e |} He Hv Hvg) as Hc.
  pose proof (identified env a r w i w' Hi) as Hspec. case_bool_decide as Hnow.
  - apply Hspec. eauto.
  - destruct i as [[p g]|]; [|done]. destruct (proj1 (Hspec p g) eq_refl) as (value & e' & Hr' & Hvc & Hle).
    rewrite Hr in Hr'. injection Hr' as <-. rewrite Hc in Hvc. by injection Hvc as _ _ <-.
Qed.

(** A request without a session cookie comes from nobody. *)
Lemma no_cookie_no_identity (env : Env W) a r w : request_Cookie r sessionCookie = None → (run env (Identify a r) w).1 = None.
Proof. unfold Identify. by intros ->. Qed.

(** C37. A login on one host, by a browser that keeps the cookies it is given for
    as long as they say. The redirect that starts it names a random state, and is the
    provider's address when that is an absolute one. Let the asked address be a
    text a cookie carries unchanged (no space, comma, quote, semicolon, backslash
    or byte outside printable ASCII). When the provider sends the browser back to
    the same host with that state within the ten minutes the state cookie lasts,
    and grants a token that names a principal in valid UTF-8, the callback
    redirects to the asked address as [http.Redirect] writes it, which is the
    address itself if its path is clean. From then on the browser's requests are
    identified as the principal and groups of the token exactly as long as the
    browser keeps the session cookie and its expiry has not passed. *)
Theorem login_completes (env : Env W) `{!Conforms env} a host (j : Jar) r0 w0 cookies location w1 :
  run env (StartLogin a r0) w0 = (AuthRedirect cookies location, w1) →
  all_chars plain_byte (req_URL r0) = true → req_URL r0 ≠ "" →
  let state := (run env randomString w0).1 in
  location = Redirect r0 (AuthCodeURL (ca_oauth a) state None) ∧
  (absolute_url (AuthCodeURL (ca_oauth a) state None) = true → location = AuthCodeURL (ca_oauth a) state None) ∧
  ∀ t0 t1 r1 w2 idToken principal groups w3,
    returns_with host t0 cookies j t1 r1 → t1 <= t0 + 10 * Minute → query_Get r1 "state" = state →
    provider_grants env a r1 w2 idToken w3 →
    identityFromToken idToken (ca_claim a) = (principal, groups) → principal ≠ "" →
    valid_utf8 principal = true → Forall (λ g, valid_utf8 g = true) groups →
    ∃ session w4, run env (Callback a r1) w2 = (AuthRedirect session (Redirect r1 (req_URL r0)), w4) ∧
      (clean_address (req_URL r0) = true → Redirect r1 (req_URL r0) = req_URL r0) ∧
      (int64_range (time_Unix (time_Add (clock w4) (ca_ttl a))) →
       ∀ t2 j' t3 r2 w5 i w6, returns_with host t2 session j' t3 r2 → run env (Identify a r2) w5 = (i, w6) →
         i = (if kept (dur_Seconds (ca_ttl a)) t2 t3
                 && bool_decide (time_Unix (clock w6) <= time_Unix (time_Add (clock w4) (ca_ttl a)))
              then Some (principal, groups) else None)).
Proof.
  unfold StartLogin. rewrite run_bind. intros Hrun Hurl Hne.
  pose proof (wp_run env _ _ _ (wp_randomString w0)) as [_ Hstate].
  set (state := (run env randomString w0).1) in *. cbn [run] in Hrun. injection Hrun as <- <- _.
  split; [done|]. split; [apply Redirect_absolute|].
  intros t0 t1 r1 w2 idToken principal groups w3 Hback Htime Hq Hg Hid Hp Hv Hvg.
  assert (all_chars plain_byte (state +:+ "|" +:+ req_URL r0) = true) as Hplain.
  { rewrite all_chars_append. cbn [String.append all_chars]. rewrite Hurl.
    by rewrite (all_chars_mono _ _ _ (λ c Hc, proj1 (url_safe_plain c Hc)) Hstate). }
  apply returns_with_cookie in Hback as Hcookie; [|exact Hplain]. cbn [ck_Name ck_Value ck_MaxAge] in Hcookie.
  replace (kept 600 t0 t1) with true in Hcookie
    by (symmetry; unfold kept, expires, Minute, Second in *; simpl; apply Z.leb_le; lia).
  destruct (Callback_granted env a r1 w2 _ (req_URL r0) idToken w3 Hcookie) as (resp & w4 & Hcb & p & g & Hid' & _ & ->);
    [rewrite Hq; by apply cutState_started|done|by rewrite Hid|].
  rewrite Hid in Hid'. injection Hid' as <- <-. rewrite (proj2 (String.eqb_neq _ _) Hne) in Hcb.
  eexists _, w4. split; [exact Hcb|]. split; [apply Redirect_clean|]. intros He t2 j' t3 r2 w5 i w6 Hr2 Hi.
  apply returns_with_cookie in Hr2; [|apply signCookie_plain]. cbn [ck_Name ck_Value ck_MaxAge] in Hr2.
  destruct (kept (dur_Seconds (ca_ttl a)) t2 t3); simpl andb.
  2:{ pose proof (no_cookie_no_identity env a r2 w5 Hr2) as Hn. by rewrite Hi in Hn. }
  by eapply (signed_identity env a r2 w5 i w6 principal groups).
Qed.

(** Identifying a caller and both ends of a login only read. *)
Lemma cookieAuthenticator_reads `{!OIDCLaws O} a r :
  calls (@is_read) (Identify a r) ∧ calls (@is_read) (StartLogin a r) ∧ calls (@is_read) (Callback a r).
Proof.
  split; [|split].
  - unfold Identify. destruct (request_Cookie _ _); [|done]. destruct (verifyCookie _ _) as [c|]; [|done].
    apply calls_bind; [done|]. intros now. by destruct (_ <? _).
  - done.
  - unfold Callback. destruct (request_Cookie _ _) as [s|]; [|done]. destruct (cutState s) as [st ret].
    destruct (negb _); [done|]. apply calls_bind; [apply Exchange_reads|]. intros [t|e]; [|done].
    destruct (token_Extra t "id_token") as [raw|]; [|done]. apply calls_bind; [apply Verify_reads|]. intros [i|e]; [|done].
    unfold finishLogin. destruct (identityFromToken i (ca_claim a)) as [p g]. by destruct (String.eqb p "").
Qed.

End proofs.
