(* ===== verification/SignHTTP.v ===== *)
(** * Certificates over HTTP (internal/gateway/signhttp.go)

    [/v1/config] tells a client how to log in; [/v1/sign] turns the ID token
    it obtained and a public key into a user certificate. The theorems: a
    certificate is handed out exactly for a posted request whose token the
    verifier accepts and names a principal, and it is a certificate for that
    principal on the submitted key; which error
    status every other request gets (400 stands for two of them). *)

From S2P Require Import Prelude GoStrings Utf8 Json KubeTypes ApiTypes Client SSHCA Http Oidc.
From Stdlib Require Import String Ascii.
From stdpp Require Import base gmap strings list.
From Stdlib Require Import ZArith Lia.
Local Open Scope Z_scope.

#[local] Arguments String.append !_ _ / : simpl nomatch.

(** An answer: [http.Error], or [writeJSON]. *)
Inductive SignAnswer :=
  | SignError (status : Z) (msg : string)
  | SignJSON (status : Z) (body : string).

Record OIDCConfig := {
  od_Issuer : string;
  od_ClientID : string;
  od_PrincipalClaim : string;
  od_BaseDomain : string;
  od_GatewaySSHAddr : string;
}.

(** A string member that [omitempty] leaves out when it is empty. *)
Definition omit_empty (name v : string) : list (string * json) :=
  if String.eqb v "" then [] else [(name, JString v)].

Definition configResponse (c : OIDCConfig) : json :=
  JObject ([("issuer", JString (od_Issuer c)); ("clientId", JString (od_ClientID c));
            ("principalClaim", JString (od_PrincipalClaim c))]
           ++ omit_empty "baseDomain" (od_BaseDomain c) ++ omit_empty "gatewaySshAddr" (od_GatewaySSHAddr c)).

(** [json.NewEncoder(w).Encode] ends the text with a newline. *)
Definition newline : string := bytes [10%nat].
Definition writeJSON (status : Z) (v : json) : SignAnswer := SignJSON status (print v +:+ newline).

Record signRequest := { sr_PublicKey : string; sr_IDToken : string }.

Definition signRequest_step (k : string) (v : json) (q : signRequest) : option signRequest :=
  if names "publicKey" k then
    match store_string v (sr_PublicKey q) with
    | Some s => Some {| sr_PublicKey := s; sr_IDToken := sr_IDToken q |} | None => None end
  else if names "idToken" k then
    match store_string v (sr_IDToken q) with
    | Some s => Some {| sr_PublicKey := sr_PublicKey q; sr_IDToken := s |} | None => None end
  else Some q.

(** [json.NewDecoder(r.Body).Decode(&req)]: the first value of the body. *)
Definition decode_signRequest (body : string) : option signRequest :=
  match first_value body with
  | Some (v, _) => store_struct signRequest_step v {| sr_PublicKey := ""; sr_IDToken := "" |}
  | None => None
  end.

Definition signResponse (certificate principal : string) : json :=
  JObject [("certificate", JString certificate); ("principal", JString principal)].

Section server.
Context `{SSH : SSHLib} `{O : OIDCLib}.

Record SignServer := {
  ss_signer : GatewaySigner;
  ss_oidc : OIDCConfig;
  ss_verifier : option IDTokenVerifier;
}.

Definition NewSignServer (signer : GatewaySigner) (cfg : OIDCConfig) : prog (res SignServer) :=
  let cfg := if String.eqb (od_PrincipalClaim cfg) ""
             then {| od_Issuer := od_Issuer cfg; od_ClientID := od_ClientID cfg;
                     od_PrincipalClaim := defaultPrincipalClaim; od_BaseDomain := od_BaseDomain cfg;
                     od_GatewaySSHAddr := od_GatewaySSHAddr cfg |}
             else cfg in
  if negb (String.eqb (od_Issuer cfg) "") then
    r ← oidc_NewProvider (od_Issuer cfg);
    match r with
    | Err e => Ret (Err (WrapError "discover OIDC provider" e))
    | Ok provider =>
      Ret (Ok {| ss_signer := signer; ss_oidc := cfg;
                 ss_verifier := Some (provider_Verifier provider (od_ClientID cfg)) |})
    end
  else Ret (Ok {| ss_signer := signer; ss_oidc := cfg; ss_verifier := None |}).

Definition handleConfig (s : SignServer) : prog SignAnswer := Ret (writeJSON StatusOK (configResponse (ss_oidc s))).

Definition principalFromClaims (idToken : IDToken) (claim : string) : res string :=
  match idToken_Claims idToken with
  | Err e => Err (WrapError "parse claims" e)
  | Ok claims =>
    match claim_string claims claim with
    | Some value =>
      if String.eqb value "" then Err (TextError ("claim " +:+ quote claim +:+ " missing or not a string"))
      else Ok value
    | None => Err (TextError ("claim " +:+ quote claim +:+ " missing or not a string"))
    end
  end.

Definition MethodPost : string := "POST".

Definition handleSign (s : SignServer) (r : Request) : prog SignAnswer :=
  if negb (String.eqb (req_Method r) MethodPost) then
    Ret (SignError StatusMethodNotAllowed "method not allowed")
  else match ss_verifier s with
  | None => Ret (SignError StatusServiceUnavailable "OIDC is not configured on this gateway")
  | Some verifier =>
    match decode_signRequest (req_Body r) with
    | None => Ret (SignError StatusBadRequest "invalid request body")
    | Some req =>
      v ← Verify verifier (sr_IDToken req);
      match v with
      | Err _ => Ret (SignError StatusUnauthorized "invalid ID token")
      | Ok idToken =>
        match principalFromClaims idToken (od_PrincipalClaim (ss_oidc s)) with
        | Err e => Ret (SignError StatusBadRequest (error_text e))
        | Ok principal =>
          c ← Sign (ss_signer s) (sr_PublicKey req) principal;
          match c with
          | Err _ => Ret (SignError StatusInternalServerError "signing failed")
          | Ok cert => Ret (writeJSON StatusOK (signResponse cert principal))
          end
        end
      end
    end
  end.

(** The mux of [Handler], on the paths as they are registered. *)
Definition Handler (s : SignServer) (r : Request) : prog SignAnswer :=
  if String.eqb (req_Path r) "/v1/config" then handleConfig s
  else if String.eqb (req_Path r) "/v1/sign" then handleSign s r
  else Ret (SignError StatusNotFound "404 page not found").

End server.

(** ** Proofs *)

Definition answer_status (a : SignAnswer) : Z :=
  match a with SignError status _ => status | SignJSON status _ => status end.

(** An object whose members are strings, as both ends of the exchange send. *)
Definition string_object (m : list (string * string)) : json := JObject (map (λ p, (p.1, JString p.2)) m).

Lemma string_object_plain m : integral (string_object m) ∧ depth (string_object m) <= maxNestingDepth.
Proof.
  assert (foldr (λ p n, Z.max (depth p.2) n) 0 (map (λ p : string * string, (p.1, JString p.2)) m) = 0) as Hd.
  { induction m as [|p m IH]; [done|]. simpl. rewrite IH. done. }
  split; cbn [string_object depth integral]; [|rewrite Hd; unfold maxNestingDepth; lia].
  clear Hd. induction m; simpl; auto.
Qed.

Lemma first_value_string_object m rest :
  ends_number rest = true →
  Forall (λ p, valid_utf8 p.1 = true ∧ valid_utf8 p.2 = true) m →
  first_value (print (string_object m) +:+ rest) = Some (string_object m, rest).
Proof.
  intros Hr Hm. destruct (string_object_plain m) as [Hi Hd]. rewrite first_value_print by done. do 2 f_equal.
  unfold string_object. cbn [sanitize]. f_equal. clear Hi Hd. induction Hm as [|[k v] m [Hk Hv] Hm IH]; [done|].
  cbn [map fst snd sanitize] in *. apply String.eqb_eq in Hk, Hv. by rewrite Hk, Hv, IH.
Qed.

Ltac open_cases :=
  repeat match goal with
  | H : _ ∨ _ |- _ => destruct H as [H|H]
  | H : _ ∧ _ |- _ => destruct H
  | H : ∃ _, _ |- _ => destruct H
  end.

Section proofs.
Context `{SSH : SSHLib} `{!SSHLaws SSH} `{O : OIDCLib}.
Context {W : Type} `{World W}.

(** What [principalFromClaims] yields: the string under the configured name,
    if it is not empty. *)
Lemma principalFromClaims_Ok idToken claim p :
  principalFromClaims idToken claim = Ok p ↔
  p ≠ "" ∧ ∃ claims, idToken_Claims idToken = Ok claims ∧ claims !! claim = Some (JString p).
Proof.
  unfold principalFromClaims, claim_string. destruct (idToken_Claims idToken) as [claims|e]; [|naive_solver].
  destruct (claims !! claim) as [[]|] eqn:Hc; try (split; [done|intros (_ & ? & [= <-] & ?); congruence]).
  destruct (String.eqb_spec s "") as [->|Hs].
  - split; [done|]. intros (Hp & ? & [= <-] & ?). congruence.
  - split; [intros [= ->]; eauto|]. intros (Hp & ? & [= <-] & ?). congruence.
Qed.

(** The token of a request is accepted and names [principal]. *)
Definition token_names (env : Env W) (s : SignServer) (req : signRequest) (w : W) (principal : string) (w1 : W) : Prop :=
  ∃ verifier idToken, ss_verifier s = Some verifier ∧
    run env (Verify verifier (sr_IDToken req)) w = (Ok idToken, w1) ∧
    principalFromClaims idToken (od_PrincipalClaim (ss_oidc s)) = Ok principal.

Definition fails_with (resp : SignAnswer) (status : Z) : Prop := ∃ msg, resp = SignError status msg.

Lemma handleSign_cases (env : Env W) s r w resp w' :
  run env (handleSign s r) w = (resp, w') →
  (req_Method r ≠ MethodPost ∧ fails_with resp StatusMethodNotAllowed) ∨
  (req_Method r = MethodPost ∧
   ((ss_verifier s = None ∧ fails_with resp StatusServiceUnavailable) ∨
    ∃ verifier, ss_verifier s = Some verifier ∧
    ((decode_signRequest (req_Body r) = None ∧ fails_with resp StatusBadRequest) ∨
     ∃ req, decode_signRequest (req_Body r) = Some req ∧
     ((∃ e, (run env (Verify verifier (sr_IDToken req)) w).1 = Err e ∧ fails_with resp StatusUnauthorized) ∨
      ∃ idToken w1, run env (Verify verifier (sr_IDToken req)) w = (Ok idToken, w1) ∧
      ((∃ e, principalFromClaims idToken (od_PrincipalClaim (ss_oidc s)) = Err e ∧
             resp = SignError StatusBadRequest (error_text e)) ∨
       ∃ principal, principalFromClaims idToken (od_PrincipalClaim (ss_oidc s)) = Ok principal ∧
       ((∃ e, run env (Sign (ss_signer s) (sr_PublicKey req) principal) w1 = (Err e, w') ∧
              fails_with resp StatusInternalServerError) ∨
        ∃ cert, run env (Sign (ss_signer s) (sr_PublicKey req) principal) w1 = (Ok cert, w') ∧
                resp = writeJSON StatusOK (signResponse cert principal))))))).
Proof.
  unfold handleSign. intros Hrun.
  destruct (String.eqb_spec (req_Method r) MethodPost) as [Hm|Hm]; cbn [negb] in Hrun;
    [right; split; [done|]|injection Hrun as <- <-; left; split; [done|by eexists]].
  destruct (ss_verifier s) as [verifier|] eqn:Hv; [right; exists verifier; split; [done|]|injection Hrun as <- <-; left; split; [done|by eexists]].
  destruct (decode_signRequest (req_Body r)) as [req|] eqn:Hd; [right; exists req; split; [done|]|injection Hrun as <- <-; left; split; [done|by eexists]].
  rewrite run_bind in Hrun. destruct (run env (Verify verifier _) w) as [[idToken|e] w1] eqn:Ht; cbn [fst snd] in Hrun;
    [right; exists idToken, w1; split; [done|]|injection Hrun as <- <-; left; exists e; split; [done|by eexists]].
  destruct (principalFromClaims idToken _) as [principal|e] eqn:Hp;
    [right; exists principal; split; [done|]|injection Hrun as <- <-; left; by exists e].
  rewrite run_bind in Hrun. destruct (run env (Sign _ _ _) w1) as [[cert|e] w2] eqn:Hs; cbn [fst snd] in Hrun;
    injection Hrun as <- <-; [right; by exists cert|left; exists e; split; [done|by eexists]].
Qed.

(** C31. Which status a request for a certificate gets. Not posted: 405. No
    provider configured: 503. A body that is not the expected object, or a token
    that is accepted but carries no usable principal claim: both 400. A token the
    verifier refuses: 401. A signer that fails: 500. And 200, with the
    certificate and its principal, exactly when the request was posted, its token
    is accepted and names a principal, and the signer signs; every other answer
    is an error message under its status. *)
Theorem sign_status_exact (env : Env W) s r w resp w' :
  run env (handleSign s r) w = (resp, w') →
  (answer_status resp = StatusMethodNotAllowed ↔ req_Method r ≠ MethodPost) ∧
  (answer_status resp = StatusServiceUnavailable ↔ req_Method r = MethodPost ∧ ss_verifier s = None) ∧
  (answer_status resp = StatusBadRequest ↔ req_Method r = MethodPost ∧
     ∃ verifier, ss_verifier s = Some verifier ∧
     (decode_signRequest (req_Body r) = None ∨
      ∃ req idToken w1 e, decode_signRequest (req_Body r) = Some req ∧
        run env (Verify verifier (sr_IDToken req)) w = (Ok idToken, w1) ∧
        principalFromClaims idToken (od_PrincipalClaim (ss_oidc s)) = Err e)) ∧
  (answer_status resp = StatusUnauthorized ↔ req_Method r = MethodPost ∧
     ∃ verifier req e, ss_verifier s = Some verifier ∧ decode_signRequest (req_Body r) = Some req ∧
       (run env (Verify verifier (sr_IDToken req)) w).1 = Err e) ∧
  (answer_status resp = StatusInternalServerError ↔ req_Method r = MethodPost ∧
     ∃ req principal w1 e, decode_signRequest (req_Body r) = Some req ∧ token_names env s req w principal w1 ∧
       (run env (Sign (ss_signer s) (sr_PublicKey req) principal) w1).1 = Err e) ∧
  (answer_status resp = StatusOK ↔ req_Method r = MethodPost ∧
     ∃ req principal w1 cert, decode_signRequest (req_Body r) = Some req ∧ token_names env s req w principal w1 ∧
       (run env (Sign (ss_signer s) (sr_PublicKey req) principal) w1).1 = Ok cert ∧
       resp = writeJSON StatusOK (signResponse cert principal)) ∧
  (answer_status resp = StatusOK ∨ fails_with resp (answer_status resp)).
Proof.
  unfold token_names, fails_with. intros Hrun. apply handleSign_cases in Hrun. unfold fails_with in Hrun. open_cases;
    subst; cbn [answer_status]; repeat split; try done; intros; open_cases; simplify_eq/=; try done; try congruence; eauto 20;
    try match goal with H : run _ ?p ?w = _, H' : run _ ?p ?w = _ |- _ => rewrite H in H'; clear H; simplify_eq end;
    try match goal with H : ?a = Ok _, H' : ?a = Ok _ |- _ => rewrite H in H'; clear H; simplify_eq end;
    try (exfalso; match goal with H : run _ ?p _ = _, H' : (run _ ?p _).1 = _ |- _ => by rewrite H in H' end);
    do 4 eexists; (split; [eassumption|split; [by eauto 10|]]);
    match goal with H : run _ (Sign _ _ _) _ = _ |- _ => by rewrite H end.
Qed.

(** What a granted request is answered with. *)
Lemma handleSign_granted (env : Env W) `{!Conforms env} s r w status body w' :
  run env (handleSign s r) w = (SignJSON status body, w') →
  ∃ req principal w1 c k, decode_signRequest (req_Body r) = Some req ∧ token_names env s req w principal w1 ∧
    body = print (signResponse (MarshalAuthorizedKey (cert_as_key c)) principal) +:+ newline ∧
    ParsePublicKey (sr_PublicKey req) = Ok k ∧
    ∃ now, clock w1 <= now <= clock w' ∧ issued (sg_ca (ss_signer s)) UserCert k [principal] (sg_ttl (ss_signer s)) now c.
Proof.
  intros Hrun. apply handleSign_cases in Hrun. unfold fails_with in Hrun. open_cases; try discriminate.
  match goal with H : SignJSON _ _ = writeJSON _ _ |- _ => injection H as -> -> end.
  match goal with H : run env (Sign _ _ _) _ = (Ok ?out, _) |- _ =>
    pose proof (run_wp env _ _ _ _ _ H (wp_Sign _ _ _ _)) as [_ (c & k & now & -> & Hk & Hn1 & Hn2 & Hi)] end.
  eexists _, _, _, c, k. split; [eassumption|]. split; [eexists _, _; eauto|]. split; [done|]. split; [done|].
  exists now. split; [lia|done].
Qed.

Lemma handleSign_reads `{!OIDCLaws O} s r : calls (@is_read) (handleSign s r).
Proof.
  unfold handleSign. destruct (negb _); [done|]. destruct (ss_verifier s); [|done].
  destruct (decode_signRequest _); [|done]. apply calls_bind; [apply Verify_reads|]. intros [t|e]; [|done].
  destruct (principalFromClaims t _); [|done]. apply calls_bind; [|by intros [c|e]].
  unfold Sign. destruct (ParsePublicKey _); [|done]. split; [done|]. intros now. apply calls_ebind; [|done].
  unfold SignUserCert. destruct (String.eqb _ _); [done|]. apply calls_ebind; [split; [done|]; by intros [b|e]|].
  intros serial. split; [done|]. intros [b|e]; [simpl; by case_match|done].
Qed.
End proofs.
