(* ===== verification/Cli.v ===== *)
(** * The command line client (cmd/kubepark)

    The client keeps a key pair, a certificate and an [ssh_config] in
    [~/.kubepark]; it obtains the certificate with an OIDC login and the
    gateway's sign endpoint, or from the authority's secret, and runs [ssh].
    The theorems: how an address is split; an existing private key is kept,
    and a new one is written with its public half, readable by nobody else;
    the certificate a login obtains is one for the principal of the verified
    token on the client's key. *)

From S2P Require Import Prelude GoStrings Utf8 Json Paths Encoding Os KubeTypes ApiTypes Client Files SSHCA Bootstrap SandboxRBAC Store.
From S2P Require Import Http Oidc HTTPProxy CookieAuth SignHTTP.
From Stdlib Require Import String Ascii.
From stdpp Require Import base gmap strings list.
From Stdlib Require Import ZArith Lia.
Local Open Scope Z_scope.

#[local] Arguments String.append !_ _ / : simpl nomatch.

(** ** Files of the client (keys.go) *)

Section keys.
Context `{SSH : SSHLib}.

Definition configDir : prog (res string) :=
  home ←? call (EOS OUserHomeDir);
  let dir := path_Join home ".kubepark" in
  call (EOS (OMkdirAll dir 448)) ;;?
  Ret (Ok dir).

Definition writeFile (what path data : string) (perm : Z) : prog (res unit) :=
  r ← call (EOS (OWriteFile path data perm));
  match r with
  | Err e => Ret (Err (WrapError ("write " +:+ what) e))
  | Ok _ => Ret (Ok tt)
  end.

(** 0600 and 0644. *)
Definition ensureKeyPair : prog (res (string * string)) :=
  dir ←? configDir;
  let privPath := path_Join dir "id_ed25519" in
  let pubPath := privPath +:+ ".pub" in
  st ← call (EOS (OStat privPath));
  match st with
  | Ok _ => Ret (Ok (privPath, pubPath))
  | Err _ =>
    kp ←? GenerateKeyPair "kubepark-cli";
    writeFile "private key" privPath (PrivatePEM kp) 384 ;;?
    writeFile "public key" pubPath (PublicAuthorized kp) 420 ;;?
    Ret (Ok (privPath, pubPath))
  end.

Definition certPath : prog (res string) :=
  dir ←? configDir;
  Ret (Ok (path_Join dir "id_ed25519-cert.pub")).

(** ** Signing with the authority's secret (admin.go) *)

Definition runSignCert (principal namespace : string) (ttl : Duration) : prog (res unit) :=
  paths ←? ensureKeyPair;
  pub ←? call (EOS (OReadFile paths.2));
  cfg ← call (EOS OGetConfig);
  match cfg with
  | Err e => Ret (Err (WrapError "load kubeconfig" e))
  | Ok _ =>
    call (EOS ONewClient) ;;?
    s ← call (EGet KSecret (nn namespace "kubepark-ca"));
    match s with
    | Err e => Ret (Err (WrapError "read kubepark-ca secret" e))
    | Ok secret =>
      match NewSigner (data_at (sec_Data secret) "user-ca.key") ttl with
      | Err e => Ret (Err e)
      | Ok signer =>
        cert ←? Sign signer pub principal;
        outPath ←? certPath;
        call (EOS (OWriteFile outPath cert 420))
      end
    end
  end.

Definition signCertCommand (principal namespace : string) (ttl : Duration) : prog (res unit) :=
  if String.eqb principal "" then Ret (Err (TextError "--principal is required"))
  else runSignCert principal namespace ttl.

(** ** ssh (ssh.go) *)

(** The text after the last colon and the text before it. *)
Fixpoint last_colon (s : string) : option (string * string) :=
  match s with
  | "" => None
  | String c s' =>
    match last_colon s' with
    | Some (h, p) => Some (String c h, p)
    | None => if Ascii.eqb c ":" then Some ("", s') else None
    end
  end.

Definition splitHostPort (addr : string) : string * string :=
  let '(host, port) := match last_colon addr with Some p => p | None => (addr, "2222") end in
  (if String.eqb host "" then "localhost" else host, port).

Definition envOr (key fallback : string) : prog string :=
  v ← call (EGetenv key);
  Ret (if negb (String.eqb v "") then v else fallback).

(** A text of lines. *)
Fixpoint lines (l : list string) : string :=
  match l with
  | [] => ""
  | x :: l => x +:+ newline +:+ lines l
  end.

(** The known-hosts settings of the sandbox hosts, with the host authority's
    entry written when one is given. *)
Definition sandboxKnownHosts (dir hostCAPath : string) : prog (res string) :=
  if negb (String.eqb hostCAPath "") then
    let khPath := path_Join dir "known_hosts" in
    ca ← call (EOS (OReadFile hostCAPath));
    match ca with
    | Err e => Ret (Err (WrapError "read host CA" e))
    | Ok caPub =>
      call (EOS (OWriteFile khPath ("@cert-authority * " +:+ caPub) 420)) ;;?
      Ret (Ok (lines ["    UserKnownHostsFile " +:+ khPath; "    StrictHostKeyChecking yes"]))
    end
  else Ret (Ok (lines ["    StrictHostKeyChecking accept-new"])).

Definition sshConfig (gwHost gwPort gatewayUser priv gwKnownHosts cert knownHosts : string) : string :=
  lines ["# Generated by kubepark; do not edit.";
         "Host kubepark-gateway";
         "    HostName " +:+ gwHost;
         "    Port " +:+ gwPort;
         "    User " +:+ gatewayUser;
         "    IdentityFile " +:+ priv;
         "    IdentitiesOnly yes";
         "    UserKnownHostsFile " +:+ gwKnownHosts;
         "    StrictHostKeyChecking accept-new";
         "";
         "Host * !kubepark-gateway";
         "    ProxyJump kubepark-gateway";
         "    IdentityFile " +:+ priv;
         "    CertificateFile " +:+ cert;
         "    IdentitiesOnly yes";
         "    ConnectTimeout 180"]
  +:+ knownHosts.

Definition writeSSHConfig (gatewayAddr gatewayUser hostCAPath : string) : prog (res string) :=
  dir ←? configDir;
  keys ←? ensureKeyPair;
  cert ←? certPath;
  let '(gwHost, gwPort) := splitHostPort gatewayAddr in
  knownHosts ←? sandboxKnownHosts dir hostCAPath;
  let cfgPath := path_Join dir "ssh_config" in
  call (EOS (OWriteFile cfgPath
    (sshConfig gwHost gwPort gatewayUser keys.1 (path_Join dir "known_hosts") cert knownHosts) 384)) ;;?
  Ret (Ok cfgPath).

(** [syscall.Exec] returns only if it fails. *)
Definition execSSH (cfgPath target : string) : prog (res unit) :=
  p ← call (EOS (OLookPath "ssh"));
  match p with
  | Err e => Ret (Err (WrapError "ssh not found on PATH" e))
  | Ok sshPath => e ← call (EOS (OExec sshPath ["ssh"; "-F"; cfgPath; target])); Ret (Err e)
  end.

Definition sshCommand (sandbox namespace gatewayAddr gatewayUser hostCAPath : string) (printConfig : bool) : prog (res unit) :=
  let target := if negb (String.eqb namespace "") then sandbox +:+ "." +:+ namespace else sandbox in
  cfgPath ←? writeSSHConfig gatewayAddr gatewayUser hostCAPath;
  if printConfig then Ret (Ok tt) else execSSH cfgPath target.

End keys.

(** ** Login (login.go) *)

Record gatewayConfig := { gc_Issuer : string; gc_ClientID : string; gc_PrincipalClaim : string }.

Definition gatewayConfig_step (k : string) (v : json) (g : gatewayConfig) : option gatewayConfig :=
  if names "issuer" k then
    match store_string v (gc_Issuer g) with
    | Some s => Some {| gc_Issuer := s; gc_ClientID := gc_ClientID g; gc_PrincipalClaim := gc_PrincipalClaim g |}
    | None => None end
  else if names "clientId" k then
    match store_string v (gc_ClientID g) with
    | Some s => Some {| gc_Issuer := gc_Issuer g; gc_ClientID := s; gc_PrincipalClaim := gc_PrincipalClaim g |}
    | None => None end
  else if names "principalClaim" k then
    match store_string v (gc_PrincipalClaim g) with
    | Some s => Some {| gc_Issuer := gc_Issuer g; gc_ClientID := gc_ClientID g; gc_PrincipalClaim := s |}
    | None => None end
  else Some g.

(** [json.NewDecoder(...).Decode] into a struct. *)
Definition decode_struct {A} (step : string → json → A → option A) (zero : A) (body : string) : res A :=
  match first_value body with
  | Some (v, _) => match store_struct step v zero with
                   | Some a => Ok a
                   | None => Err (TextError "json: cannot unmarshal")
                   end
  | None => Err (TextError "json: invalid input")
  end.

Section requests.
(** [url.Parse], with which [http.NewRequestWithContext] refuses an address. *)
Context (url_Parse : string → res string).

Definition fetchGatewayConfig (gatewayURL : string) : prog (res gatewayConfig) :=
  match url_Parse (gatewayURL +:+ "/v1/config") with Err e => Ret (Err e) | Ok _ =>
  r ← call (EOS (OHTTPDo "GET" (gatewayURL +:+ "/v1/config") ""));
  match r with
  | Err e => Ret (Err (WrapError "fetch gateway config" e))
  | Ok resp => Ret (decode_struct gatewayConfig_step {| gc_Issuer := ""; gc_ClientID := ""; gc_PrincipalClaim := "" |}
                     (rp_Body resp))
  end
  end.

Record signOutput := { so_Certificate : string; so_Principal : string }.

Definition signOutput_step (k : string) (v : json) (o : signOutput) : option signOutput :=
  if names "certificate" k then
    match store_string v (so_Certificate o) with
    | Some s => Some {| so_Certificate := s; so_Principal := so_Principal o |} | None => None end
  else if names "principal" k then
    match store_string v (so_Principal o) with
    | Some s => Some {| so_Certificate := so_Certificate o; so_Principal := s |} | None => None end
  else Some o.

(** [json.Marshal] of the map: its keys in order. *)
Definition signBody (publicKey idToken : string) : string :=
  print (string_object [("idToken", idToken); ("publicKey", publicKey)]).

Definition requestCert (gatewayURL publicKey idToken : string) : prog (res (string * string)) :=
  match url_Parse (gatewayURL +:+ "/v1/sign") with Err e => Ret (Err e) | Ok _ =>
  r ← call (EOS (OHTTPDo MethodPost (gatewayURL +:+ "/v1/sign") (signBody publicKey idToken)));
  match r with
  | Err e => Ret (Err (WrapError "sign request" e))
  | Ok resp =>
    if negb (rp_StatusCode resp =? StatusOK) then Ret (Err (TextError ("sign request failed: " +:+ rp_Status resp)))
    else match decode_struct signOutput_step {| so_Certificate := ""; so_Principal := "" |} (rp_Body resp) with
         | Err e => Ret (Err e)
         | Ok out => Ret (Ok (so_Certificate out, so_Principal out))
         end
  end
  end.

End requests.

Section login.
Context `{SSH : SSHLib} `{O : OIDCLib} (url_Parse : string → res string).

(** The handler of the callback on the local listener: what it puts in the
    result channel. *)
Definition handleCallback (oauthCfg : OAuthConfig) (verifier state : string) (query : list (string * string))
  : prog (res string) :=
  if negb (String.eqb (default "" (first_value_of query "state")) state) then Ret (Err (TextError "state mismatch"))
  else
    t ← Exchange oauthCfg (default "" (first_value_of query "code")) (Some verifier);
    match t with
    | Err e => Ret (Err e)
    | Ok token => match token_Extra token "id_token" with
                  | None => Ret (Err (TextError "no id_token returned"))
                  | Some rawID => Ret (Ok rawID)
                  end
    end.

Definition interruption (a : Awaited) : option error :=
  match a with
  | CallbackArrived _ => None
  | ContextDone e => Some e
  | TimedOut => Some (TextError "timed out waiting for OIDC callback")
  end.

(** The select: the first of the callback's result, the end of the context
    and the timer. While the handler talks to the provider the other two may
    still come first. *)
Definition oidcAuthCodeFlow (provider : Provider) (clientID : string) : prog (res string) :=
  addr ←? call (EOS (OListen "127.0.0.1:0"));
  let oauthCfg := {| oc_ClientID := clientID; oc_ClientSecret := ""; oc_Endpoint := provider_Endpoint provider;
                     oc_RedirectURL := "http://" +:+ addr +:+ "/callback";
                     oc_Scopes := [ScopeOpenID; "email"; "profile"] |} in
  verifier ← GenerateVerifier;
  state ← randomString;
  a ← call (EOS (OAwaitCallback (5 * Minute)));
  match a with
  | CallbackArrived query =>
    result ← handleCallback oauthCfg verifier state query;
    z ← call (EOS OAwaitResult);
    match interruption z with
    | Some e => Ret (Err e)
    | None => Ret result
    end
  | ContextDone e => Ret (Err e)
  | TimedOut => Ret (Err (TextError "timed out waiting for OIDC callback"))
  end.

Definition runLogin (gatewayURL : string) : prog (res unit) :=
  cfg ←? fetchGatewayConfig url_Parse gatewayURL;
  if String.eqb (gc_Issuer cfg) "" then Ret (Err (TextError "gateway has no OIDC issuer configured"))
  else
    p ← oidc_NewProvider (gc_Issuer cfg);
    match p with
    | Err e => Ret (Err (WrapError "discover OIDC provider" e))
    | Ok provider =>
      idToken ←? oidcAuthCodeFlow provider (gc_ClientID cfg);
      paths ←? ensureKeyPair;
      pub ←? call (EOS (OReadFile paths.2));
      c ←? requestCert url_Parse gatewayURL pub idToken;
      out ←? certPath;
      call (EOS (OWriteFile out c.1 420))
    end.

Definition loginCommand (gatewayURL : string) : prog (res unit) :=
  if String.eqb gatewayURL ""
  then Ret (Err (TextError "--gateway-url is required (e.g. https://gateway.example.com:8080)"))
  else runLogin gatewayURL.

End login.

(** ** Addresses *)

Lemma last_colon_None s : last_colon s = None ↔ all_chars (λ c, negb (Ascii.eqb c ":")) s = true.
Proof.
  split.
  - induction s as [|c s IH]; [done|]. simpl. destruct (last_colon s) as [[]|]; [done|].
    destruct (Ascii.eqb c ":"); [done|]. intros _. by apply IH.
  - induction s as [|c s IH]; [done|]. simpl. intros [Hc Hs]%andb_prop. rewrite IH by done. by destruct (Ascii.eqb c ":").
Qed.

Lemma last_colon_Some s h p :
  last_colon s = Some (h, p) ↔ s = h +:+ ":" +:+ p ∧ all_chars (λ c, negb (Ascii.eqb c ":")) p = true.
Proof.
  split.
  - revert h. induction s as [|c s IH]; intros h; [done|]. simpl. destruct (last_colon s) as [[h' p']|] eqn:E.
    + intros [= <- ->]. destruct (IH h' eq_refl) as [-> Hp]. done.
    + destruct (Ascii.eqb_spec c ":") as [->|]; [|done]. intros [= <- ->]. split; [done|]. by apply last_colon_None.
  - intros [-> Hp%last_colon_None]. change (":" +:+ p) with (String ":" p).
    induction h as [|c h IH]; simpl; [by rewrite Hp|by rewrite IH].
Qed.

(** How a gateway address is read: the port is what follows the last colon,
    2222 if there is none, and an empty host is [localhost]. *)
Theorem splitHostPort_exact addr host port :
  splitHostPort addr = (host, port) ↔
  ∃ h, host = (if String.eqb h "" then "localhost" else h) ∧
    ((addr = h +:+ ":" +:+ port ∧ all_chars (λ c, negb (Ascii.eqb c ":")) port = true) ∨
     (addr = h ∧ port = "2222" ∧ all_chars (λ c, negb (Ascii.eqb c ":")) addr = true)).
Proof.
  unfold splitHostPort. destruct (last_colon addr) as [[h p]|] eqn:E.
  - pose proof E as [Ha Hp]%last_colon_Some. split; [intros [= <- <-]; eauto|].
    intros (h' & -> & [Hx|(_ & _ & Hx)]).
    + apply last_colon_Some in Hx. rewrite E in Hx. by injection Hx as <- <-.
    + apply last_colon_None in Hx. congruence.
  - pose proof E as Ha%last_colon_None. split; [intros [= <- <-]; eauto 10|].
    intros (h' & -> & [Hx|(-> & -> & _)]); [|done]. apply last_colon_Some in Hx. congruence.
Qed.

(** ** Keys *)

Section key_proofs.
Context `{SSH : SSHLib}.
Context {W : Type} `{World W} `{FileWorld W}.

Lemma wpf_configDir w : wpf anything configDir (λ r w', files w' = files w) w.
Proof.
  apply wpf_ebind, wpf_call; [done|]. intros [home|e] w1 _ Hf; (split; [done|]); simpl in Hf; [|done].
  apply wpf_ebind, wpf_call; [done|]. intros [[]|e] w2 _ Hf2; (split; [done|]); simpl in Hf2; split; by try congruence.
Qed.

Lemma GenerateKeyPair_no_os c : calls (@no_os) (GenerateKeyPair c).
Proof. split; [done|]. intros [[pub priv]|e]; [|done]. simpl. repeat case_match; done. Qed.

Lemma wpf_GenerateKeyPair c w : wpf anything (GenerateKeyPair c) (λ _ w', files w' = files w) w.
Proof.
  apply wpf_no_os; [apply GenerateKeyPair_no_os|done|done|]. eapply wp_mono; [apply wp_clock|]. done.
Qed.

Lemma wpf_writeFile what path data perm w :
  wpf anything (writeFile what path data perm) (λ r w', files_but path w w' ∧
    match r with
    | Ok _ => ∃ f, files w' !! path = Some f ∧ f_Data f = data ∧ (files w !! path = None → created_mode perm (f_Mode f))
    | Err _ => True
    end) w.
Proof.
  apply wpf_bind, wpf_call; [done|]. intros [[]|e] w' _ [Hb Hr]; (split; [done|]); (split; [done|]); split; try done.
  destruct Hr as (f & Hf & Hd & Hm). exists f. split; [done|]. split; [done|]. intros Hn. by rewrite Hn in Hm.
Qed.

(** Nobody but the owner of the file has any permission on it. *)
Definition owner_only (mode : Z) : Prop := Z.land mode 63 = 0.

Lemma created_0600 mode : created_mode 384 mode → owner_only mode.
Proof.
  unfold created_mode, owner_only. intros <-. rewrite <- Z.land_assoc. change (Z.land 384 63) with 0. apply Z.land_0_r.
Qed.

Lemma pub_path_ne p : p +:+ ".pub" ≠ p.
Proof. intros Hp. apply (f_equal String.length) in Hp. rewrite append_length in Hp. simpl in Hp. lia. Qed.

(** The outcome of [ensureKeyPair]. *)
Definition key_pair_at (w w' : W) (priv pub : string) : Prop :=
  (∃ dir, priv = path_Join dir "id_ed25519") ∧ pub = priv +:+ ".pub" ∧
  ((is_Some (files w !! priv) ∧ files w' = files w) ∨
   ∃ kp fpriv fpub, files w' !! priv = Some fpriv ∧ f_Data fpriv = PrivatePEM kp ∧
     files w' !! pub = Some fpub ∧ f_Data fpub = PublicAuthorized kp ∧
     (files w !! priv = None → owner_only (f_Mode fpriv)) ∧
     (∀ q, q ≠ priv → q ≠ pub → files w' !! q = files w !! q)).

Lemma wpf_ensureKeyPair w :
  wpf anything ensureKeyPair (λ r w', match r with Ok (priv, pub) => key_pair_at w w' priv pub | Err _ => True end) w.
Proof.
  apply wpf_ebind. eapply wpf_mono; [apply wpf_configDir|]. intros [dir|e] w1 _ Hf1; [|done].
  set (priv := path_Join dir "id_ed25519"). apply wpf_bind, wpf_call; [done|].
  intros [[]|e] w2 _ [Hf2 Hst]; (split; [done|]).
  - split; [done|]. split; [by exists dir|]. split; [done|]. left. rewrite Hf1 in Hst. split; [by apply Hst|congruence].
  - apply wpf_ebind. eapply wpf_mono; [apply wpf_GenerateKeyPair|]. intros [kp|e'] w3 _ Hf3; [|done].
    apply wpf_ebind. eapply wpf_mono; [apply wpf_writeFile|]. intros [[]|e'] w4 _ [Hb4 Hw4]; [|done].
    apply wpf_ebind. eapply wpf_mono; [apply wpf_writeFile|]. intros [[]|e'] w5 _ [Hb5 Hw5]; [|done].
    split; [done|]. split; [by exists dir|]. split; [done|]. right.
    assert (files w3 = files w) as Hf by congruence. rewrite Hf in Hw4.
    destruct Hw4 as (f & Hpriv & Hd & Hm), Hw5 as (g & Hpub & Hdg & _). exists kp, f, g.
    pose proof (pub_path_ne priv) as Hne. split; [by rewrite Hb5|]. split; [done|]. split; [done|]. split; [done|].
    split; [intros Hn; by apply created_0600, Hm|]. intros q Hq1 Hq2. rewrite Hb5, Hb4 by done. by rewrite Hf.
Qed.

(** The client's key pair is kept or made: when it is there already nothing
    is written; otherwise both halves of one new pair are, the private one
    for its owner's eyes only, and no other file is touched. *)
Theorem key_pair_kept_or_made (env : Env W) `{!Conforms env} `{!FileConforms env} w priv pub w' :
  run env ensureKeyPair w = (Ok (priv, pub), w') → key_pair_at w w' priv pub.
Proof. intros Hrun. exact (run_wpf env _ _ _ _ _ Hrun (wpf_ensureKeyPair w)). Qed.

(** A private key without its public half is never repaired: the pair is
    taken to be there, reading the public key fails, and so it does every time
    the client is run again. *)
Lemma half_key_pair_blocks (env : Env W) `{!Conforms env} `{!FileConforms env} home w r w' :
  let priv := path_Join (path_Join home ".kubepark") "id_ed25519" in
  (∀ u, (env _ (EOS OUserHomeDir) u).1 = Ok home) →
  (∀ u p, is_Some (files u !! p) → (env _ (EOS (OStat p)) u).1 = Ok tt) →
  is_Some (files w !! priv) → files w !! (priv +:+ ".pub") = None →
  run env (paths ←? ensureKeyPair; call (EOS (OReadFile paths.2))) w = (r, w') →
  files w' = files w ∧ ∃ e, r = Err e.
Proof.
  intros priv Hhome Hstat Hpriv Hpub Hrun.
  assert (∃ r1 w1, run env ensureKeyPair w = (r1, w1) ∧ files w1 = files w ∧
    (r1 = Ok (priv, priv +:+ ".pub") ∨ ∃ e, r1 = Err e)) as (r1 & w1 & Hr1 & Hf1 & Hcase).
  { unfold ensureKeyPair, ebind at 1. rewrite run_bind.
    pose proof (wpf_run env anything _ _ _ (wpf_configDir w)) as [_ Hf].
    assert (∀ dir, (run env configDir w).1 = Ok dir → dir = path_Join home ".kubepark") as Hdir.
    { unfold configDir, ebind. simpl. pose proof (Hhome w) as Hh. destruct (env _ (EOS OUserHomeDir) w) as [h w1].
      simpl in Hh. subst h. simpl. destruct (env _ (EOS (OMkdirAll _ _)) w1) as [[[]|e] w2]; simpl; congruence. }
    destruct (run env configDir w) as [[dir|e] w1]; cbn [fst snd] in *; [|eauto 10].
    rewrite (Hdir dir eq_refl). fold priv. cbn [run call mbind prog_bind pbind]. pose proof (Hstat w1 priv) as Hs.
    rewrite Hf in Hs. specialize (Hs Hpriv). pose proof (file_conforms _ (EOS (OStat priv)) w1) as [Hf2 _].
    destruct (env _ (EOS (OStat priv)) w1) as [st w2]. cbn [fst snd] in *. subst st. cbn. rewrite <- Hf. eauto 10. }
  unfold ebind in Hrun. rewrite run_bind, Hr1 in Hrun. cbn [fst snd] in Hrun.
  destruct Hcase as [->|[e ->]]; [|injection Hrun as <- <-; eauto]. cbn in Hrun.
  pose proof (file_conforms _ (EOS (OReadFile (priv +:+ ".pub"))) w1) as [Hf3 Hr3].
  destruct (env _ (EOS (OReadFile _)) w1) as [[d|e] w3]; cbn [fst snd] in *; injection Hrun as <- <-.
  - destruct Hr3 as (f & Hr3 & _). rewrite Hf1 in Hr3. congruence.
  - split; [congruence|eauto].
Qed.
End key_proofs.

(** ** Login *)

Lemma decode_signRequest_signBody pub idToken :
  valid_utf8 pub = true → valid_utf8 idToken = true →
  decode_signRequest (signBody pub idToken) = Some {| sr_PublicKey := pub; sr_IDToken := idToken |}.
Proof.
  intros Hp Hi. unfold decode_signRequest, signBody.
  rewrite <- (append_nil_r (print _)), first_value_string_object; [done|done|by repeat constructor].
Qed.

Lemma decode_signResponse cert principal rest :
  valid_utf8 cert = true → valid_utf8 principal = true → ends_number rest = true →
  decode_struct signOutput_step {| so_Certificate := ""; so_Principal := "" |} (print (signResponse cert principal) +:+ rest)
  = Ok {| so_Certificate := cert; so_Principal := principal |}.
Proof.
  intros Hc Hp Hr. unfold decode_struct. change (signResponse cert principal)
    with (string_object [("certificate", cert); ("principal", principal)]).
  rewrite first_value_string_object; [done|done|by repeat constructor].
Qed.

(** The reply that carries an answer of the sign server. *)
Definition carries (resp : SignAnswer) (rp : HTTPReply) : Prop :=
  rp_StatusCode rp = answer_status resp ∧
  rp_Body rp = match resp with SignError _ msg => msg +:+ newline | SignJSON _ body => body end.

(** The request [requestCert] sends, as the server sees it. *)
Definition sign_post (host body : string) : Request :=
  {| req_Method := MethodPost; req_Host := host; req_Path := "/v1/sign"; req_URL := "/v1/sign"; req_Query := [];
     req_Cookies := []; req_Body := body |}.

Section login_proofs.
Context `{SSH : SSHLib} `{!SSHLaws SSH} `{O : OIDCLib} `{!OIDCLaws O}.
Context {W : Type} `{World W}.

(** C16. The exchange between client and gateway: when the gateway serves the
    client's request, the client ends with a certificate exactly when the
    gateway granted one, and it is a user certificate on the client's key for
    the principal of the token the gateway verified, and for nobody else. *)
Theorem login_obtains_certificate (env : Env W) `{!Conforms env} url_Parse s url host pub idToken w resp w1 rp r w2 :
  is_ok (url_Parse (url +:+ "/v1/sign")) = true → valid_utf8 pub = true → valid_utf8 idToken = true →
  run env (handleSign s (sign_post host (signBody pub idToken))) w = (resp, w1) →
  env _ (EOS (OHTTPDo MethodPost (url +:+ "/v1/sign") (signBody pub idToken))) w = (Ok rp, w1) → carries resp rp →
  run env (requestCert url_Parse url pub idToken) w = (r, w2) →
  (is_ok r = true ↔ answer_status resp = StatusOK) ∧
  ∀ text principal, r = Ok (text, principal) →
    ∃ c k wt, token_names env s {| sr_PublicKey := pub; sr_IDToken := idToken |} w principal wt ∧
      ParseAuthorizedKey text = Ok (cert_as_key c) ∧ ParsePublicKey pub = Ok k ∧
      cert_Key c = k ∧ cert_CertType c = UserCert ∧ cert_ValidPrincipals c = [principal] ∧
      cert_SignatureKey c = Some (signer_PublicKey (sg_ca (ss_signer s))).
Proof.
  intros Hurl Hpub Htok Hserve Hdo [Hst Hbody]. unfold requestCert. destruct (url_Parse _) as [u|]; [|done].
  rewrite run_bind. cbn [run call]. rewrite Hdo. cbn [fst snd]. rewrite Hst, Hbody.
  destruct resp as [status msg|status body].
  - intros Hrun. pose proof (handleSign_cases env s _ w _ _ Hserve) as Hc. unfold fails_with in Hc.
    assert (status ≠ StatusOK) as Hne by (open_cases;
      match goal with H : SignError _ _ = ?x |- _ => first [discriminate H | injection H as -> _; discriminate] end).
    cbn [answer_status] in *. rewrite (proj2 (Z.eqb_neq _ _) Hne) in Hrun. injection Hrun as <- <-. split; [done|done].
  - pose proof (handleSign_granted env s _ w _ _ _ Hserve) as (req & principal & wt & c & k & Hd & Ht & -> & Hk & now & _ & Hi).
    cbn [sign_post req_Body] in Hd. rewrite decode_signRequest_signBody in Hd by done. injection Hd as <-.
    assert (valid_utf8 principal = true) as Hvp.
    { destruct Ht as (v & it & _ & _ & (_ & claims & Hcl & Hp)%principalFromClaims_Ok). by eapply Claims_valid. }
    assert (status = StatusOK) as ->.
    { pose proof (handleSign_cases env s _ w _ _ Hserve) as Hc. unfold fails_with, writeJSON in Hc. open_cases; congruence. }
    cbn [answer_status]. rewrite Z.eqb_refl. cbn [negb].
    rewrite decode_signResponse; [|apply MarshalAuthorizedKey_text|done|done]. intros [= <- <-]. split; [done|].
    intros text p [= <- <-]. exists c, k, wt. destruct Hi as (Hty & Hkey & Hp & _ & _ & _ & Hsk & _).
    split; [done|]. split; [apply ParseAuthorizedKey_Marshal|]. done.
Qed.

(** The token a login ends with is the one the provider gave for a callback
    that carried the login's own state, against the login's own verifier. *)
Lemma flow_token (env : Env W) provider clientID w raw w' :
  run env (oidcAuthCodeFlow provider clientID) w = (Ok raw, w') →
  ∃ addr w1 verifier w2 state w3 query w4 token,
    run env GenerateVerifier w1 = (verifier, w2) ∧ run env randomString w2 = (state, w3) ∧
    default "" (first_value_of query "state") = state ∧
    (run env (Exchange {| oc_ClientID := clientID; oc_ClientSecret := ""; oc_Endpoint := provider_Endpoint provider;
                          oc_RedirectURL := "http://" +:+ addr +:+ "/callback";
                          oc_Scopes := [ScopeOpenID; "email"; "profile"] |}
                (default "" (first_value_of query "code")) (Some verifier)) w4).1 = Ok token ∧
    token_Extra token "id_token" = Some raw.
Proof.
  unfold oidcAuthCodeFlow, ebind at 1. rewrite run_bind. cbn [run call].
  destruct (env _ (EOS (OListen _)) w) as [[addr|e] w1]; cbn [fst snd]; [|done].
  rewrite run_bind. destruct (run env GenerateVerifier w1) as [verifier w2] eqn:Hv. cbn [fst snd].
  rewrite run_bind. destruct (run env randomString w2) as [state w3] eqn:Hs. cbn [fst snd].
  rewrite run_bind. cbn [run call]. destruct (env _ (EOS (OAwaitCallback _)) w3) as [[query|e|] w4]; cbn [fst snd]; [|done..].
  rewrite run_bind. unfold handleCallback.
  destruct (String.eqb_spec (default "" (first_value_of query "state")) state) as [Hst|]; cbn [negb].
  - rewrite !run_bind. match goal with |- context [run env (Exchange ?c ?q ?v) w4] =>
      destruct (run env (Exchange c q v) w4) as [[token|e] w5] eqn:He end; cbn [fst snd].
    + destruct (token_Extra token "id_token") as [rawID|] eqn:Ht; cbn; destruct (env _ (EOS OAwaitResult) w5) as [[q|e|] w6];
        cbn; intros [= <- <-] || done; try done.
      exists addr, w1, verifier, w2, state, w3, query, w4, token. split; [done|]. split; [done|].
      split; [done|]. split; [exact (f_equal fst He)|done].
    + cbn. destruct (env _ (EOS OAwaitResult) w5) as [[q|e'|] w6]; done.
  - cbn. destruct (env _ (EOS OAwaitResult) w4) as [[q|e'|] w6]; done.
Qed.
End login_proofs.
