(* ===== verification/Commands.v ===== *)
(** * The server binary's commands (cmd/main.go, agent.go, gateway.go)

    How the modes of the one binary are chosen and wired up. The theorems:
    the command of a sandbox's template is what its agent supervises; the
    init container's copy of the binary appears whole or not at all; the
    gateway's HTTP side changes nothing on the API server; and a browser login
    cannot complete on a sandbox's host, because the provider returns the
    browser to the base domain. *)

From S2P Require Import Prelude GoStrings Utf8 Json Paths Encoding Os KubeTypes ApiTypes Client Files Libs PodSpec SSHCA.
From S2P Require Import Bootstrap SandboxRBAC Routing Store SSHJump Agent Http Oidc HTTPProxy CookieAuth SignHTTP.
From Stdlib Require Import String Ascii.
From stdpp Require Import base gmap strings list.
From Stdlib Require Import ZArith Lia.
Local Open Scope Z_scope.

#[local] Arguments String.append !_ _ / : simpl nomatch.

(** ** Choosing the mode (main.go) *)

Definition agentBinaryName : string := "agent".

(** The arguments the command tree is given. *)
Definition mainArgs (argv : list string) : list string :=
  match argv with
  | argv0 :: rest => if String.eqb (path_Base argv0) agentBinaryName then argv0 :: agentBinaryName :: rest else argv
  | [] => []
  end.

(** ** The agent command (cmd/agent.go) *)

(** [ArgsLenAtDash] is the number of arguments before [--], -1 without one. *)
Definition argsAfterDashDash (ArgsLenAtDash : Z) (args : list string) : list string :=
  if 0 <=? ArgsLenAtDash then drop (Z.to_nat ArgsLenAtDash) args else args.

(** What [server.ListenAndServe] is then called on. *)
Definition runAgent `{SSHLib} (ArgsLenAtDash : Z) (args : list string) : prog (res AgentServer) :=
  cfg ←? ConfigFromEnv (argsAfterDashDash ArgsLenAtDash args);
  NewAgentServer cfg.

(** A step of [installSelf]: its error wrapped, after [cleanup]. *)
Definition orFail {A} (what : string) (cleanup : prog unit) (p : prog (res A)) : prog (res A) :=
  r ← p;
  match r with
  | Ok a => Ret (Ok a)
  | Err e => _ ← cleanup; Ret (Err (WrapError what e))
  end.

(** The copy once the temporary file [tmp] exists; [os.Remove] is deferred. *)
Definition fillAndRename (self tmp dst : string) : prog (res unit) :=
  orFail "copy binary" (_ ← call (EOS (OCloseFile tmp)); Ret tt) (call (EOS (OCopy self tmp))) ;;?
  orFail "chmod" (_ ← call (EOS (OCloseFile tmp)); Ret tt) (call (EOS (OChmod tmp 493))) ;;?
  orFail "close temp file" (Ret tt) (call (EOS (OCloseFile tmp))) ;;?
  orFail "rename into place" (Ret tt) (call (EOS (ORename tmp dst))) ;;?
  Ret (Ok tt).

Definition installSelf (dir : string) : prog (res unit) :=
  self ←? orFail "resolve own executable" (Ret tt) (call (EOS OExecutable));
  orFail ("open " +:+ self) (Ret tt) (call (EOS (OOpen self))) ;;?
  orFail ("create " +:+ dir) (Ret tt) (call (EOS (OMkdirAll dir 493))) ;;?
  tmp ←? orFail ("create temp file in " +:+ dir) (Ret tt) (call (EOS (OCreateTemp dir ".agent-*")));
  r ← fillAndRename self tmp (path_Join dir agentBinaryName);
  _ ← call (EOS (ORemove tmp));
  Ret r.

(** ** The gateway command (cmd/gateway.go) *)

Record gatewayOptions := {
  go_sshAddr : string;
  go_httpAddr : string;
  go_defaultNamespace : string;
  go_oidcIssuer : string;
  go_oidcClientID : string;
  go_oidcClientSecret : string;
  go_principalClaim : string;
  go_baseDomain : string;
  go_certTTL : Duration;
}.

(** The flags' defaults; the client secret's is the environment's. *)
Definition defaultGatewayOptions (clientSecret : string) : gatewayOptions :=
  {| go_sshAddr := ":2222"; go_httpAddr := ":8080"; go_defaultNamespace := ""; go_oidcIssuer := "";
     go_oidcClientID := ""; go_oidcClientSecret := clientSecret; go_principalClaim := "email";
     go_baseDomain := ""; go_certTTL := 8 * Hour |}.

Section gateway.
Context `{SSH : SSHLib} `{O : OIDCLib} (url_Parse : string → res string).

(** The handler [buildHTTPHandler] assembles: the sign endpoints and the
    proxy, each if it is configured. *)
Record httpHandler := {
  hh_sign : option SignServer;
  hh_proxy : option HTTPProxyConfig;
}.

Definition buildSign (opts : gatewayOptions) (ca : Secret) : prog (res (option SignServer * option Authenticator)) :=
  match NewSigner (data_at (sec_Data ca) KeyUserCAPrivate) (go_certTTL opts) with
  | Err e => Ret (Err e)
  | Ok signer =>
    signServer ←? NewSignServer signer
      {| od_Issuer := go_oidcIssuer opts; od_ClientID := go_oidcClientID opts;
         od_PrincipalClaim := go_principalClaim opts; od_BaseDomain := go_baseDomain opts;
         od_GatewaySSHAddr := go_sshAddr opts |};
    if negb (String.eqb (go_baseDomain opts) "") then
      cookieAuth ←? NewCookieAuthenticator (go_oidcIssuer opts) (go_oidcClientID opts) (go_oidcClientSecret opts)
        ("https://" +:+ go_baseDomain opts) (go_principalClaim opts) (data_at (sec_Data ca) KeyCookieHMAC)
        (go_certTTL opts) true;
      Ret (Ok (Some signServer, Some (cookieAuthenticator cookieAuth)))
    else Ret (Ok (Some signServer, None))
  end.

Definition buildHTTPHandler (opts : gatewayOptions) (ca : Secret) : prog (res (option httpHandler)) :=
  parts ←? (if negb (String.eqb (go_oidcIssuer opts) "") then buildSign opts ca else Ret (Ok (None, None)));
  let '(sign, auth) := parts in
  let proxy := if negb (String.eqb (go_baseDomain opts) "")
               then Some {| hp_BaseDomain := go_baseDomain opts; hp_Auth := auth; hp_DialAddr := None |}
               else None in
  Ret (Ok (match sign, proxy with
           | None, None => None
           | _, _ => Some {| hh_sign := sign; hh_proxy := proxy |}
           end)).

Inductive GatewayResponse :=
  | FromSign (a : SignAnswer)
  | FromProxy (r : Response)
  | PageNotFound.

Definition serveGateway (h : httpHandler) (r : Request) : prog GatewayResponse :=
  let proxied := match hh_proxy h with
                 | Some p => x ← ServeHTTP (S := clientStore) url_Parse p r; Ret (FromProxy x)
                 | None => Ret PageNotFound
                 end in
  match hh_sign h with
  | Some s =>
    if String.eqb (req_Path r) "/v1/sign" || String.eqb (req_Path r) "/v1/config"
    then a ← Handler s r; Ret (FromSign a)
    else proxied
  | None => proxied
  end.

(** What [runGateway] serves: the jump host and, if configured, the HTTP
    side; its parts are built in this order and the first error ends it. *)
Definition runGateway (opts : gatewayOptions) : prog (res (SSHServer * option httpHandler)) :=
  m ← call (EOS (OManager "build"));
  match m with
  | Err e => Ret (Err (WrapError "build manager" e))
  | Ok _ =>
    call (EOS ONewClient) ;;?
    ns ← OperatorNamespace;
    c ← EnsureCASecret ns;
    match c with
    | Err e => Ret (Err (WrapError "load CA secret" e))
    | Ok ca =>
      hostKey ←? gatewayHostKey ns;
      match NewSSHServer {| cfg_DefaultNamespace := go_defaultNamespace opts; cfg_WakeTimeout := 0; cfg_Now := None |}
              hostKey (data_at (sec_Data ca) KeyUserCAPublic) with
      | Err e => Ret (Err e)
      | Ok server =>
        call (EOS (OManager "add ssh")) ;;?
        http ←? buildHTTPHandler opts ca;
        match http with
        | Some _ => call (EOS (OManager "add http"))
        | None => Ret (Ok tt)
        end ;;?
        call (EOS (OManager "start")) ;;?
        Ret (Ok (server, http))
      end
    end
  end.

(** The lifecycle of a server under the manager: an error other than the one
    a closed server returns is reported. *)
Definition sshRunnable_Start (listen : option error) : option error :=
  match listen with
  | Some e => if String.eqb (error_text e) "ssh: Server closed" then None else Some e
  | None => None
  end.

Definition httpRunnable_Start (ErrServerClosed : error) (listen : option error) : option error :=
  match listen with
  | Some e => if bool_decide (e = ErrServerClosed) then None else Some e
  | None => None
  end.

End gateway.

(** ** The template's command reaches the agent *)

Section command_line.
(** The agent command's parsing of its arguments, by pflag: the positional
    ones and [ArgsLenAtDash]. *)
Context (parse_args : list string → list string * Z).
Hypothesis parse_dash : ∀ rest, parse_args ("--" :: rest) = (rest, 0).
Hypothesis parse_none : parse_args [] = ([], -1).

(** Whatever command a template has, the arguments of the pod's main
    container select agent mode and hand that command, word for word, to the
    agent as the process to supervise. *)
Theorem template_command_reaches_agent sb tpl :
  let argv := ct_Command (sandboxContainer sb tpl) ++ ct_Args (sandboxContainer sb tpl) in
  ∃ argv0 args, mainArgs argv = argv0 :: agentBinaryName :: args ∧
    argsAfterDashDash (parse_args args).2 (parse_args args).1 = ts_Command (tpl_Spec tpl).
Proof.
  intros argv. exists (agentDir +:+ "/agent"), (ct_Args (sandboxContainer sb tpl)). split; [done|].
  cbn [sandboxContainer ct_Args]. destruct (ts_Command (tpl_Spec tpl)) as [|c l]; [by rewrite parse_none|by rewrite parse_dash].
Qed.
End command_line.

(** ** The installed binary *)

Section install.
Context {W : Type} `{World W} `{FileWorld W}.

Fixpoint last_char (s : string) : option ascii :=
  match s with
  | "" => None
  | String c s' => match last_char s' with Some d => Some d | None => Some c end
  end.

Lemma last_char_app a b : b ≠ "" → last_char (a +:+ b) = last_char b.
Proof.
  intros Hb. induction a as [|c a IH]; [done|]. simpl. rewrite IH. destruct b as [|d b]; [done|]. simpl.
  by destruct (last_char b).
Qed.

Lemma last_char_digits s : s ≠ "" → all_chars is_digit s = true → ∃ c, last_char s = Some c ∧ is_digit c = true.
Proof.
  induction s as [|c s IH]; [done|]. intros _. simpl. intros [Hc Hs]%andb_prop.
  destruct s as [|d s]; [by exists c|]. destruct IH as (e & He & Hde); [done|done|]. exists e. by rewrite He.
Qed.

Lemma temp_not_agent dir prefix number :
  number ≠ "" → all_chars is_digit number = true → path_Join dir agentBinaryName ≠ prefix +:+ number.
Proof.
  intros Hn Hd Heq. destruct (path_Join_name dir) as [p Hp]. rewrite (Hp agentBinaryName eq_refl) in Heq.
  destruct (last_char_digits number Hn Hd) as (c & Hc & Hdc). apply (f_equal last_char) in Heq.
  rewrite !last_char_app, Hc in Heq by done. by injection Heq as <-.
Qed.

(** The installed file is what it was before, or a whole copy of the running
    binary that everybody may execute. *)
Definition installed_whole (dst : string) (w0 w : W) : Prop :=
  ∃ f g, files w0 !! executable = Some f ∧ files w !! dst = Some g ∧ f_Data g = f_Data f ∧ f_Mode g = 493.

Definition whole_or_untouched (dst : string) (w0 w : W) : Prop :=
  files w !! dst = files w0 !! dst ∨ installed_whole dst w0 w.

Lemma wpf_orFail {A} I what cleanup (p : prog (res A)) Q w :
  wpf I p (λ r w', match r with
                   | Ok a => Q (Ok a) w'
                   | Err e => wpf I cleanup (λ _ w'', Q (Err (WrapError what e)) w'') w'
                   end) w →
  wpf I (orFail what cleanup p) Q w.
Proof.
  intros Hw. apply wpf_bind. eapply wpf_mono; [exact Hw|]. intros [a|e] w' HI Hr; [by split|].
  apply wpf_bind. eapply wpf_mono; [exact Hr|]. intros [] w'' HI' HQ. by split.
Qed.

(** A call of [installSelf] that leaves every file alone, or all but one. *)
Lemma untouched_same dst w0 w w' : files w' = files w → whole_or_untouched dst w0 w → whole_or_untouched dst w0 w'.
Proof. unfold whole_or_untouched, installed_whole. by intros ->. Qed.

Lemma untouched_but dst p w0 w w' :
  files_but p w w' → p ≠ dst → whole_or_untouched dst w0 w → whole_or_untouched dst w0 w'.
Proof. unfold whole_or_untouched, installed_whole. intros Hb Hne. by rewrite (Hb dst) by congruence. Qed.

(** While the temporary file is filled the destination is as it was; the
    rename then puts the whole copy there. *)
Lemma wpf_fillAndRename tmp dst w0 w :
  tmp ≠ dst → tmp ≠ executable → files w !! executable = files w0 !! executable → files w !! dst = files w0 !! dst →
  wpf (whole_or_untouched dst w0) (fillAndRename executable tmp dst)
    (λ r w', (r = Ok tt → installed_whole dst w0 w')) w.
Proof.
  intros Hd He Hx Hw. set (I := whole_or_untouched dst w0). assert (I w) as Hi by (by left).
  assert (∀ u (Q : unit → W → Prop), I u → (∀ u', I u' → Q tt u') →
    wpf I (_ ← call (EOS (OCloseFile tmp)); Ret tt) Q u) as Hclose.
  { intros u Q Hu HQ. apply wpf_bind, wpf_call; [done|]. intros r u' _ Hf.
    pose proof (untouched_same dst w0 u u' Hf Hu) as Hu'. split; [done|]. split; [done|]. by apply HQ. }
  apply wpf_ebind, wpf_orFail, wpf_call; [done|]. intros [[]|e] w1 _ [Hb1 Hc];
    (assert (I w1) as Hi1 by (by eapply untouched_but)); (split; [done|]); [|by apply Hclose].
  destruct Hc as (f & g & Hf & Hg & Hdata). rewrite Hx in Hf.
  apply wpf_ebind, wpf_orFail, wpf_call; [done|]. intros [[]|e] w2 _ [Hb2 Hc];
    (assert (I w2) as Hi2 by (by eapply untouched_but)); (split; [done|]); [|by apply Hclose].
  destruct Hc as (g' & h & Hg' & Hh & Hdata' & Hmode). rewrite Hg in Hg'. injection Hg' as <-.
  apply wpf_ebind, wpf_orFail, wpf_call; [done|]. intros [[]|e] w3 _ Hf3; simpl in Hf3;
    (assert (I w3) as Hi3 by (by eapply untouched_same)); (split; [done|]); [|by split].
  apply wpf_ebind, wpf_orFail, wpf_call; [done|]. intros [[]|e] w4 _ Hf4; simpl in Hf4.
  - destruct Hf4 as (x & Hx4 & Hf4). rewrite Hf3, Hh in Hx4. injection Hx4 as <-.
    assert (installed_whole dst w0 w4) as Hdone.
    { exists f, h. split; [done|]. rewrite Hf4, lookup_insert_eq. split; [done|]. split; [congruence|done]. }
    split; [by right|]. split; [by right|]. done.
  - assert (I w4) as Hi4 by (by eapply untouched_same). by split.
Qed.

(** C33. At every moment of an installation, also one that is cut short, the
    agent's binary in the shared volume is what it was before or a whole,
    executable copy of the running binary; after a successful one it is the
    copy. *)
Theorem install_atomic (env : Env W) `{!Conforms env} `{!FileConforms env} dir w r w' :
  let dst := path_Join dir agentBinaryName in
  run env (installSelf dir) w = (r, w') →
  Forall (whole_or_untouched dst w) (worlds env (installSelf dir) w) ∧ (r = Ok tt → installed_whole dst w w').
Proof.
  intros dst Hrun.
  assert (wpf (whole_or_untouched dst w) (installSelf dir) (λ r w', r = Ok tt → installed_whole dst w w') w) as Hw;
    [|pose proof (wpf_run env _ _ _ _ Hw) as Hres; by rewrite Hrun in Hres].
  set (I := whole_or_untouched dst w). assert (∀ u, files u = files w → I u) as Hsame by (intros u Hu; left; by rewrite Hu).
  apply wpf_ebind, wpf_orFail, wpf_call; [by apply Hsame|]. intros [self|e] w1 _ [Hf1 Hself];
    pose proof (Hsame w1 Hf1); (split; [done|]); [|by split]. specialize (Hself self eq_refl) as ->.
  apply wpf_ebind, wpf_orFail, wpf_call; [done|]. intros [[]|e] w2 _ [Hf2 Hopen];
    pose proof (Hsame w2 ltac:(congruence)); (split; [done|]); [|by split].
  apply wpf_ebind, wpf_orFail, wpf_call; [done|]. intros [[]|e] w3 _ Hf3; simpl in Hf3;
    pose proof (Hsame w3 ltac:(congruence)); (split; [done|]); [|by split].
  apply wpf_ebind, wpf_orFail, wpf_call; [done|]. intros [tmp|e] w4 _ Hf4; simpl in Hf4;
    [|pose proof (Hsame w4 ltac:(congruence)); split; [done|]; by split].
  destruct Hf4 as (Hfresh & Hb & prefix & number & -> & Hn & Hd). specialize (Hopen eq_refl).
  assert (prefix +:+ number ≠ dst) as Hne by (intros Heq; by eapply temp_not_agent).
  assert (prefix +:+ number ≠ executable) as Hx.
  { intros Heq. rewrite Heq in Hfresh. rewrite Hf1 in Hopen. rewrite Hf3, Hf2, Hf1 in Hfresh.
    rewrite Hfresh in Hopen. by destruct Hopen. }
  assert (I w4) as Hi4 by (eapply untouched_but; [exact Hb|done|done]). split; [done|].
  apply wpf_bind. eapply wpf_mono.
  - apply wpf_fillAndRename; [done|done| |]; rewrite Hb by (by apply not_eq_sym); by rewrite Hf3, Hf2, Hf1.
  - intros x w5 Hi5 Hdone. apply wpf_bind, wpf_call; [done|]. intros [] w6 _ Hb6. simpl in Hb6.
    assert (I w6) as Hi6 by (by eapply untouched_but). split; [done|]. split; [done|]. intros Hok.
    destruct (Hdone Hok) as (f & g & Hf & Hg & Hrest). exists f, g. split; [done|]. by rewrite Hb6.
Qed.
End install.

(** ** The gateway's HTTP side *)

Section gateway_proofs.
Context `{SSH : SSHLib} `{O : OIDCLib} (url_Parse : string → res string).
Context {W : Type} `{World W}.

(** What a handler that was built consists of. *)
Definition built_from (opts : gatewayOptions) (ca : Secret) (h : httpHandler) : Prop :=
  (is_Some (hh_sign h) ↔ go_oidcIssuer opts ≠ "") ∧
  match hh_proxy h with
  | None => go_baseDomain opts = ""
  | Some p => go_baseDomain opts ≠ "" ∧ hp_BaseDomain p = go_baseDomain opts ∧
      match hp_Auth p with
      | None => go_oidcIssuer opts = ""
      | Some auth => go_oidcIssuer opts ≠ "" ∧ ∃ a, auth = cookieAuthenticator a ∧
          ca_hmacKey a = data_at (sec_Data ca) KeyCookieHMAC ∧ ca_ttl a = go_certTTL opts ∧
          oc_RedirectURL (ca_oauth a) = TrimSuffix ("https://" +:+ go_baseDomain opts) "/" +:+ oidcCallbackPath
      end
  end.

Lemma wp_NewCookieAuthenticator issuer clientID clientSecret redirectBase claim hmacKey ttl secure w :
  wp (NewCookieAuthenticator issuer clientID clientSecret redirectBase claim hmacKey ttl secure)
    (λ r _, match r with
            | Ok a => ca_hmacKey a = hmacKey ∧ ca_ttl a = ttl ∧
                      oc_RedirectURL (ca_oauth a) = TrimSuffix redirectBase "/" +:+ oidcCallbackPath
            | Err _ => True
            end) w.
Proof.
  apply wp_bind. eapply wp_mono; [apply wp_clock|]. by intros [p|e] w' _.
Qed.

Lemma wp_buildSign opts ca w :
  wp (buildSign opts ca) (λ r _, match r with
    | Ok (sign, auth) => is_Some sign ∧
        match auth with
        | None => go_baseDomain opts = ""
        | Some au => go_baseDomain opts ≠ "" ∧ ∃ a, au = cookieAuthenticator a ∧
          ca_hmacKey a = data_at (sec_Data ca) KeyCookieHMAC ∧ ca_ttl a = go_certTTL opts ∧
          oc_RedirectURL (ca_oauth a) = TrimSuffix ("https://" +:+ go_baseDomain opts) "/" +:+ oidcCallbackPath
        end
    | Err _ => True
    end) w.
Proof.
  unfold buildSign. destruct (NewSigner _ _) as [signer|e]; [|done].
  apply wp_ebind. eapply wp_mono; [apply wp_clock|]. intros [s|e] w1 _; [|done].
  destruct (String.eqb_spec (go_baseDomain opts) "") as [Hb|Hb]; cbn [negb]; [done|].
  apply wp_ebind. eapply wp_mono; [apply wp_NewCookieAuthenticator|]. intros [a|e] w2 Ha; [|done].
  split; [done|]. split; [done|]. by exists a.
Qed.

Lemma wp_buildHTTPHandler opts ca w :
  wp (buildHTTPHandler opts ca) (λ r _, match r with
    | Ok None => go_oidcIssuer opts = "" ∧ go_baseDomain opts = ""
    | Ok (Some h) => built_from opts ca h
    | Err _ => True
    end) w.
Proof.
  unfold buildHTTPHandler. destruct (String.eqb_spec (go_oidcIssuer opts) "") as [Hi|Hi]; cbn [negb].
  - apply wp_ebind. cbn [wp]. destruct (String.eqb_spec (go_baseDomain opts) "") as [Hb|Hb]; cbn; [done|].
    split; [cbn; split; [by intros []|done]|]. done.
  - apply wp_ebind. eapply wp_mono; [apply wp_buildSign|]. intros [[[s|] auth]|e] w1 Hs; [|by destruct Hs as [[]]|done].
    destruct Hs as [_ Hs]. destruct (String.eqb_spec (go_baseDomain opts) "") as [Hb|Hb]; cbn.
    + split; [done|]. done.
    + split; [done|]. cbn. split; [done|]. split; [done|]. destruct auth as [au|]; [|done]. split; [done|]. by destruct Hs as [_ ?].
Qed.

(** Whatever the gateway was configured with, its HTTP side changes nothing on
    the API server: no request, authenticated or not, creates, changes or
    removes an object. *)
Theorem gateway_http_only_reads `{!OIDCLaws O} (env : Env W) `{!Conforms env} opts ca w h w' r :
  run env (buildHTTPHandler opts ca) w = (Ok (Some h), w') →
  calls (@is_read) (serveGateway url_Parse h r).
Proof.
  intros Hrun. pose proof (run_wp env _ _ _ _ _ Hrun (wp_buildHTTPHandler opts ca w)) as [_ Hp].
  assert (calls (@is_read) (match hh_proxy h with
            | Some p => x ← ServeHTTP (S := clientStore) url_Parse p r; Ret (FromProxy x)
            | None => Ret PageNotFound
            end)) as Hproxy.
  { destruct (hh_proxy h) as [p|]; [|done]. destruct Hp as (_ & _ & Ha). apply calls_bind; [|done].
    apply ServeHTTP_reads. intros auth Hau. rewrite Hau in Ha. destruct Ha as (_ & a & -> & _).
    destruct (cookieAuthenticator_reads a r) as (H1 & H2 & H3). split; [done|]. split; [done|]. by intros cb [= <-]. }
  unfold serveGateway. destruct (hh_sign h) as [s|]; [|done]. destruct (_ || _); [|done].
  apply calls_bind; [|done]. unfold Handler. destruct (String.eqb _ _); [done|]. destruct (String.eqb _ _); [|done].
  apply handleSign_reads.
Qed.

(** The HTTP side is there when it has something to serve, and not
    otherwise. *)
Lemma handler_built_exactly (env : Env W) `{!Conforms env} opts ca w h w' :
  run env (buildHTTPHandler opts ca) w = (Ok h, w') →
  h = None ↔ go_oidcIssuer opts = "" ∧ go_baseDomain opts = "".
Proof.
  intros Hrun. pose proof (run_wp env _ _ _ _ _ Hrun (wp_buildHTTPHandler opts ca w)) as Hb.
  destruct h as [h|]; [|done]. split; [done|]. intros [Hi Hd]. destruct Hb as [Hs Hp].
  exfalso. destruct (hh_proxy h) as [p|]; [by destruct Hp|].
  revert Hrun. unfold buildHTTPHandler. rewrite Hi, Hd. done.
Qed.

(** ** Logging in with a browser *)

Lemma sandbox_host_longer host base t :
  base ≠ "" → ParseHTTPHost host base = Ok t → normalizeHost host ≠ base.
Proof.
  unfold ParseHTTPHost. intros Hb. destruct (routingLabel _ _) as [label|e] eqn:Hl; [|done].
  intros (-> & _ & Hp & _)%parseLabel_Ok. apply routingLabel_Ok in Hl; [|done]. rewrite Hl. intros Heq.
  apply (f_equal String.length) in Heq. rewrite !append_length in Heq. unfold formatLabel in Heq.
  rewrite !append_length in Heq. simpl in Heq. unfold TrimPrefix in Heq.
  destruct (GoStrings.strip_prefix "." base) as [b|] eqn:E; [|lia].
  apply strip_prefix_Some in E as ->. simpl in Heq. lia.
Qed.

Lemma serveGateway_callback h r p auth a :
  hh_proxy h = Some p → hp_Auth p = Some auth → auth = cookieAuthenticator a → req_Path r = oidcCallbackPath →
  serveGateway url_Parse h r = (x ← (y ← Callback a r; Ret (FromAuth y)); Ret (FromProxy x)).
Proof.
  intros Hp Ha -> Hr. unfold serveGateway. rewrite Hp, Hr. cbn [String.eqb orb].
  assert (ServeHTTP (S := clientStore) url_Parse p r = (y ← Callback a r; Ret (FromAuth y))) as ->.
  { unfold ServeHTTP, callback, IsCallback. rewrite Ha, Hr. done. }
  by destruct (hh_sign h).
Qed.

(** A request that starts a login, on a path other than the callback's, names
    a sandbox by its host. *)
Lemma login_starts_on_sandbox (env : Env W) h p r w cookies location w' :
  hh_proxy h = Some p → req_Path r ≠ oidcCallbackPath →
  run env (serveGateway url_Parse h r) w = (FromProxy (FromAuth (AuthRedirect cookies location)), w') →
  is_ok (ParseHTTPHost (req_Host r) (hp_BaseDomain p)) = true.
Proof.
  intros Hp Hpath. unfold serveGateway. rewrite Hp.
  assert (callback p r = None) as Hcb.
  { unfold callback, IsCallback. apply String.eqb_neq in Hpath. rewrite Hpath. by repeat case_match. }
  assert (run env (x ← ServeHTTP (S := clientStore) url_Parse p r; Ret (FromProxy x)) w =
            (FromProxy (FromAuth (AuthRedirect cookies location)), w') →
          is_ok (ParseHTTPHost (req_Host r) (hp_BaseDomain p)) = true) as Hproxy.
  { unfold ServeHTTP, serveRoute. rewrite Hcb. by destruct (ParseHTTPHost _ _). }
  destruct (hh_sign h) as [s|]; [|done]. destruct (_ || _); [|done]. rewrite run_bind. done.
Qed.

(** C40. A login with a browser never completes: it starts on a sandbox's host, the
    provider returns the browser to the base domain, where the cookie that
    remembers the login's state is not sent, and the callback refuses. *)
Theorem browser_login_never_completes (env : Env W) `{!Conforms env} opts ca w h w' r0 w0 cookies location w1 t0 j t1 r1 w2 :
  run env (buildHTTPHandler opts ca) w = (Ok (Some h), w') →
  go_baseDomain opts ≠ "" → go_oidcIssuer opts ≠ "" → req_Path r0 ≠ oidcCallbackPath →
  run env (serveGateway url_Parse h r0) w0 = (FromProxy (FromAuth (AuthRedirect cookies location)), w1) →
  first_value_of (jar_send (go_baseDomain opts) t1 j) stateCookie = None →
  req_Path r1 = oidcCallbackPath →
  req_Cookies r1 = jar_send (go_baseDomain opts) t1 (jar_store (normalizeHost (req_Host r0)) t0 cookies j) →
  run env (serveGateway url_Parse h r1) w2 = (FromProxy (FromAuth (AuthError StatusBadRequest "missing state")), w2).
Proof.
  intros Hrun Hb Hi Hpath0 Hstart Hj Hpath Hcookies.
  pose proof (run_wp env _ _ _ _ _ Hrun (wp_buildHTTPHandler opts ca w)) as [_ Hp].
  destruct (hh_proxy h) as [p|] eqn:Hpr; [|done]. destruct Hp as (_ & Hdom & Ha).
  pose proof (login_starts_on_sandbox env h p r0 w0 _ _ _ Hpr Hpath0 Hstart) as Hparse. rewrite Hdom in Hparse.
  destruct (ParseHTTPHost _ _) as [t|] eqn:Ht; [|done].
  destruct (hp_Auth p) as [auth|] eqn:Hau; [|done]. destruct Ha as (_ & a & Ha & _).
  rewrite (serveGateway_callback h r1 p auth a Hpr Hau Ha Hpath). rewrite !run_bind.
  assert (request_Cookie r1 stateCookie = None) as Hnone.
  { unfold request_Cookie. rewrite Hcookies, jar_send_other; [done|]. by eapply sandbox_host_longer. }
  unfold Callback. by rewrite Hnone.
Qed.

(** A secret without a cookie key does not stop the gateway: it signs with the
    empty key, and anybody can make a cookie for any identity. *)
Lemma missing_cookie_key_forgeable (env : Env W) `{!Conforms env} opts ca w h w' p auth c :
  run env (buildHTTPHandler opts ca) w = (Ok (Some h), w') →
  hh_proxy h = Some p → hp_Auth p = Some auth → sec_Data ca !! KeyCookieHMAC = None →
  int64_range (Expiry c) → valid_utf8 (Principal c) = true → Forall (λ g, valid_utf8 g = true) (Groups c) →
  let b := EncodeToString (claims_Marshal c) in
  ∃ a, auth = cookieAuthenticator a ∧ verifyCookie a (b +:+ "." +:+ EncodeToString (hmac "" b)) = Some c.
Proof.
  intros Hrun Hpr Hau Hk He Hp Hg b.
  pose proof (run_wp env _ _ _ _ _ Hrun (wp_buildHTTPHandler opts ca w)) as [_ Hb]. rewrite Hpr, Hau in Hb.
  destruct Hb as (_ & _ & _ & a & -> & Hkey & _). exists a. split; [done|].
  assert (ca_hmacKey a = "") as Hempty by (by rewrite Hkey; unfold data_at; rewrite Hk).
  pose proof (cookie_round_trip_readable a c He Hp Hg) as Hv. unfold signCookie, cookie_mac in Hv. by rewrite Hempty in Hv.
Qed.

End gateway_proofs.
