(* ===== verification/Operator.v ===== *)
(** * The operator command (cmd/operator.go)

    The flags of the controller manager, what they configure, and the order in
    which [runOperator] sets it up. The theorems: the manager is started only
    after every controller and both health checks were set up, any failure
    ends the process, and unless HTTP/2 is asked for, neither of its servers
    offers it. *)

From S2P Require Import Prelude GoStrings Os KubeTypes ApiTypes Client Libs SandboxNet.
From Stdlib Require Import String.
From stdpp Require Import base strings list.
From Stdlib Require Import ZArith Lia.
Local Open Scope Z_scope.

(** The flags, as the flag set leaves them. *)
Record OperatorFlags := {
  of_agentImage : string;
  of_priorityClassName : string;
  of_gatewayNamespace : string;
  of_metricsAddr : string;
  of_probeAddr : string;
  of_enableLeaderElection : bool;
  of_secureMetrics : bool;
  of_webhookCertPath : string;
  of_webhookCertName : string;
  of_webhookCertKey : string;
  of_metricsCertPath : string;
  of_metricsCertName : string;
  of_metricsCertKey : string;
  of_enableHTTP2 : bool;
}.

(** Their defaults; the agent image's is the environment's [AGENT_IMAGE]. *)
Definition defaultFlags (agentImage : string) : OperatorFlags :=
  {| of_agentImage := agentImage; of_priorityClassName := ""; of_gatewayNamespace := "";
     of_metricsAddr := "0"; of_probeAddr := ":8081"; of_enableLeaderElection := false; of_secureMetrics := true;
     of_webhookCertPath := ""; of_webhookCertName := "tls.crt"; of_webhookCertKey := "tls.key";
     of_metricsCertPath := ""; of_metricsCertName := "tls.crt"; of_metricsCertKey := "tls.key";
     of_enableHTTP2 := false |}.

(** [tls.Config]: the protocols offered; empty stands for Go's defaults, which
    include HTTP/2. *)
Record TLSConfig := { tls_NextProtos : list string }.

Definition disableHTTP2 (c : TLSConfig) : TLSConfig := {| tls_NextProtos := ["http/1.1"] |}.

Definition tlsOpts (f : OperatorFlags) : list (TLSConfig → TLSConfig) :=
  if negb (of_enableHTTP2 f) then [disableHTTP2] else [].

(** A server applies its options in order. *)
Definition apply_tls (opts : list (TLSConfig → TLSConfig)) (c : TLSConfig) : TLSConfig := foldl (λ c o, o c) c opts.

Record ServerCert := { crt_Dir : string; crt_Name : string; crt_Key : string }.
Definition noCert : ServerCert := {| crt_Dir := ""; crt_Name := ""; crt_Key := "" |}.

Record WebhookOptions := { wh_TLSOpts : list (TLSConfig → TLSConfig); wh_Cert : ServerCert }.

Definition webhookServerOptions (f : OperatorFlags) : WebhookOptions :=
  {| wh_TLSOpts := tlsOpts f;
     wh_Cert := if negb (String.eqb (of_webhookCertPath f) "")
                then {| crt_Dir := of_webhookCertPath f; crt_Name := of_webhookCertName f; crt_Key := of_webhookCertKey f |}
                else noCert |}.

(** [ms_Filter]: requests for metrics are authenticated and authorized. *)
Record MetricsOptions := {
  ms_BindAddress : string;
  ms_SecureServing : bool;
  ms_TLSOpts : list (TLSConfig → TLSConfig);
  ms_Filter : bool;
  ms_Cert : ServerCert;
}.

Definition metricsServerOptions (f : OperatorFlags) : MetricsOptions :=
  {| ms_BindAddress := of_metricsAddr f; ms_SecureServing := of_secureMetrics f; ms_TLSOpts := tlsOpts f;
     ms_Filter := of_secureMetrics f;
     ms_Cert := if negb (String.eqb (of_metricsCertPath f) "")
                then {| crt_Dir := of_metricsCertPath f; crt_Name := of_metricsCertName f; crt_Key := of_metricsCertKey f |}
                else noCert |}.

(** The sandbox controller as the operator configures it. *)
Definition sandboxReconciler (f : OperatorFlags) : SandboxReconciler :=
  {| r_AgentImage := of_agentImage f; r_PriorityClassName := of_priorityClassName f;
     r_GatewayNamespace := of_gatewayNamespace f; r_Now := None |}.

(** The options the manager is built with. *)
Record ManagerOptions := {
  mgr_Metrics : MetricsOptions;
  mgr_WebhookServer : WebhookOptions;
  mgr_HealthProbeBindAddress : string;
  mgr_LeaderElection : bool;
  mgr_LeaderElectionID : string;
}.

Definition managerOptions (f : OperatorFlags) : ManagerOptions :=
  {| mgr_Metrics := metricsServerOptions f; mgr_WebhookServer := webhookServerOptions f;
     mgr_HealthProbeBindAddress := of_probeAddr f; mgr_LeaderElection := of_enableLeaderElection f;
     mgr_LeaderElectionID := "de7f76eb.kubepark.dev" |}.

(** What the flag set makes of the arguments; being one that exits on errors,
    it ends the process itself, with 0 when help was asked for and 2
    otherwise. *)
Inductive FlagOutcome :=
| Parsed (f : OperatorFlags)
| HelpAsked
| BadFlags.

(** The steps of [runOperator]; each failure logs and exits with 1. *)
Definition setupSteps : list string :=
  ["build"; "controller sandbox"; "controller accessprofile"; "controller sandboxsession";
   "healthz"; "readyz"; "start"].

Fixpoint runSteps (l : list string) : prog Z :=
  match l with
  | [] => Ret 0
  | s :: l =>
    r ← call (EOS (OManager s));
    match r with
    | Err _ => Ret 1
    | Ok _ => runSteps l
    end
  end.

(** The exit status; [parsed] is what the flag set makes of the arguments. *)
Definition runOperator (parsed : FlagOutcome) : prog Z :=
  match parsed with
  | HelpAsked => Ret 0
  | BadFlags => Ret 2
  | Parsed _ => runSteps setupSteps
  end.

(** ** Proofs *)

(** Without the flag neither server offers HTTP/2, whatever it would offer
    otherwise; metrics served securely are served to authorized callers
    only. *)
Lemma operator_servers f c :
  of_enableHTTP2 f = false →
  "h2"%string ∉ tls_NextProtos (apply_tls (wh_TLSOpts (webhookServerOptions f)) c) ∧
  "h2"%string ∉ tls_NextProtos (apply_tls (ms_TLSOpts (metricsServerOptions f)) c) ∧
  tls_NextProtos (apply_tls (ms_TLSOpts (metricsServerOptions f)) c) ≠ [] ∧
  (ms_SecureServing (metricsServerOptions f) = true → ms_Filter (metricsServerOptions f) = true).
Proof.
  intros Hf. unfold webhookServerOptions, metricsServerOptions, tlsOpts. rewrite Hf. cbn.
  assert ("h2"%string ∉ ["http/1.1"%string]) as Hn by (rewrite list_elem_of_singleton; done). done.
Qed.

Definition manager_step (e : some_event) : option string :=
  match e with
  | SomeEvent (EOS (OManager s)) => Some s
  | _ => None
  end.

Lemma runSteps_trace {W} (env : Env W) l w :
  ∃ done rest, l = done ++ rest ∧ omap manager_step (trace env (runSteps l) w) = done ∧
    ((run env (runSteps l) w).1 = 0 ∧ rest = [] ∨ (run env (runSteps l) w).1 = 1).
Proof.
  revert w. induction l as [|s l IH]; intros w; [by exists [], []; eauto|]. cbn.
  destruct (env _ (EOS (OManager s)) w) as [[[]|e] w']; cbn.
  - destruct (IH w') as (dn & rest & -> & Ht & Hr). exists (s :: dn), rest. split; [done|]. split; [by f_equal|done].
  - exists [s], l. split; [done|]. split; [done|by right].
Qed.

(** The operator performs its steps in order and stops at the first failure:
    the manager is started only after all controllers and health checks are
    set up, and started with flags it ends with status 0 only if every step
    was done. *)
Lemma operator_starts_complete {W} (env : Env W) f w :
  ∃ done rest, setupSteps = done ++ rest ∧ omap manager_step (trace env (runOperator (Parsed f)) w) = done ∧
    ((run env (runOperator (Parsed f)) w).1 = 0 → rest = []).
Proof.
  destruct (runSteps_trace env setupSteps w) as (dn & rest & Hl & Ht & Hr). exists dn, rest.
  split; [done|]. split; [done|]. cbn [runOperator]. intros H0. destruct Hr as [[_ ?]|?]; [done|congruence].
Qed.
