(* ===== verification/TestUtils.v ===== *)
(** * Helpers of the end-to-end tests (test/utils/utils.go)

    Running commands in the project's directory, installing cert-manager, and
    editing scaffolded files. The machine the tests run on is a record of
    operations over its state ([TestHost]); the text functions are written out,
    [bufio.Scanner] with its limit on the length of a line included. *)

From S2P Require Import Prelude GoStrings Os.
From Stdlib Require Import String Ascii.
From stdpp Require Import base strings list.
From Stdlib Require Import ZArith Lia.
Local Open Scope string_scope.

Definition certmanagerVersion : string := "v1.20.2".
Definition certmanagerURL : string :=
  "https://github.com/cert-manager/cert-manager/releases/download/" +:+ certmanagerVersion
  +:+ "/cert-manager.yaml".
Definition defaultKindBinary : string := "kind".
Definition defaultKindCluster : string := "kind".

(** ** Lines *)

Definition newline : ascii := "010"%char.
Definition carriage_return : ascii := "013"%char.
Definition nl : string := String newline "".

(** [strings.SplitSeq(s, "\n")], as the list of its elements. *)
Fixpoint SplitLines (s : string) : list string :=
  match s with
  | "" => [""]
  | String c s' =>
    if Ascii.eqb c newline then "" :: SplitLines s'
    else match SplitLines s' with
         | x :: l => String c x :: l
         | [] => [String c ""]
         end
  end.

Definition GetNonEmptyLines (output : string) : list string :=
  List.filter (λ element, negb (String.eqb element "")) (SplitLines output).

(** [strings.ReplaceAll(s, old, "")] for a non-empty [old]; each round removes an
    occurrence, so the length of the text is enough rounds. *)
Fixpoint removeAll (fuel : nat) (s old : string) : string :=
  match fuel with
  | O => s
  | S fuel => match Cut s old with
              | Some (before, after) => before +:+ removeAll fuel after old
              | None => s
              end
  end.

(** The tokens of a [bufio.Scanner] over [s]: the lines without their ends; the
    text after the last newline counts if it is not empty; a line that fills the
    buffer ends the scan. *)
Definition MaxScanTokenSize : N := 65536.

Definition size (s : string) : N := N.of_nat (String.length s).

Fixpoint scanned (lines : list string) : list string :=
  match lines with
  | [] => []
  | [x] => if String.eqb x "" || (MaxScanTokenSize <=? size x)%N then []
           else [TrimSuffix x (String carriage_return "")]
  | x :: rest => if (MaxScanTokenSize <=? size x)%N then []
                 else TrimSuffix x (String carriage_return "") :: scanned rest
  end.

Definition Scan (s : string) : list string := scanned (SplitLines s).

(** The loop of [UncommentCode] after the first token. *)
Fixpoint uncommentLoop (prefix token : string) (rest : list string) : string :=
  TrimPrefix token prefix +:+
  match rest with
  | [] => ""
  | next :: rest' => nl +:+ uncommentLoop prefix next rest'
  end.

(** ** The machine *)

(** The operations of packages [os] and [os/exec] the helpers use. A process
    returns its combined output and, if it failed, an error. *)
Record TestHost (M : Type) := {
  h_Getwd : M → res string;
  h_Chdir : string → M → res unit * M;
  h_Environ : M → list string;
  h_LookupEnv : string → M → option string;
  h_CombinedOutput : list string → string → list string → M → (string * option error) * M;
  h_ReadFile : string → M → res string;
  h_WriteFile : string → string → Z → M → res unit * M;
  h_Log : string → M → M;
}.
Arguments h_Getwd {M} _ _.
Arguments h_Chdir {M} _ _ _.
Arguments h_Environ {M} _ _.
Arguments h_LookupEnv {M} _ _ _.
Arguments h_CombinedOutput {M} _ _ _ _ _.
Arguments h_ReadFile {M} _ _ _.
Arguments h_WriteFile {M} _ _ _ _ _.
Arguments h_Log {M} _ _ _.

Section helpers.
Context {M : Type} (h : TestHost M).

Definition warnError (e : error) (m : M) : M := h_Log h ("warning: " +:+ error_text e +:+ nl) m.

(** The working directory [os.Getwd] gives with its error is empty. *)
Definition GetProjectDir (m : M) : string * option error :=
  match h_Getwd h m with
  | Err e => ("", Some (WrapError "failed to get current working directory" e))
  | Ok wd => (removeAll (String.length wd) wd "/test/e2e", None)
  end.

Definition Run (args : list string) (m : M) : (string * option error) * M :=
  let dir := (GetProjectDir m).1 in
  let '(r, m) := h_Chdir h dir m in
  let m := match r with
           | Err e => h_Log h ("chdir dir: " +:+ quote (error_text e) +:+ nl) m
           | Ok _ => m
           end in
  let env := (h_Environ h m ++ ["GO111MODULE=on"])%list in
  let command := GoStrings.Join args " " in
  let m := h_Log h ("running: " +:+ quote command +:+ nl) m in
  let '((output, err), m) := h_CombinedOutput h args dir env m in
  ((output, (λ e, WrapError (quote command +:+ " failed with error " +:+ quote output) e) <$> err), m).

(** A command whose failure is only reported. *)
Definition runOrWarn (args : list string) (m : M) : M :=
  match Run args m with
  | ((_, Some e), m) => warnError e m
  | ((_, None), m) => m
  end.

Definition kubeSystemLeases : list string :=
  ["cert-manager-cainjector-leader-election"; "cert-manager-controller"].

Definition UninstallCertManager (m : M) : M :=
  let m := runOrWarn ["kubectl"; "delete"; "-f"; certmanagerURL] m in
  foldl (λ m lease, runOrWarn ["kubectl"; "delete"; "lease"; lease;
    "-n"; "kube-system"; "--ignore-not-found"; "--force"; "--grace-period=0"] m) m kubeSystemLeases.

Definition InstallCertManager (m : M) : option error * M :=
  match Run ["kubectl"; "apply"; "-f"; certmanagerURL] m with
  | ((_, Some e), m) => (Some e, m)
  | ((_, None), m) =>
    let '((_, err), m) := Run ["kubectl"; "wait"; "deployment.apps/cert-manager-webhook";
      "--for"; "condition=Available"; "--namespace"; "cert-manager"; "--timeout"; "5m"] m in
    (err, m)
  end.

Definition certManagerCRDs : list string :=
  ["certificates.cert-manager.io"; "issuers.cert-manager.io"; "clusterissuers.cert-manager.io";
   "certificaterequests.cert-manager.io"; "orders.acme.cert-manager.io"; "challenges.acme.cert-manager.io"].

Definition IsCertManagerCRDsInstalled (m : M) : bool * M :=
  match Run ["kubectl"; "get"; "crds"] m with
  | ((_, Some _), m) => (false, m)
  | ((output, None), m) =>
    (existsb (λ crd, existsb (λ line, Contains line crd) (GetNonEmptyLines output)) certManagerCRDs, m)
  end.

Definition LoadImageToKindClusterWithName (name : string) (m : M) : option error * M :=
  let cluster := default defaultKindCluster (h_LookupEnv h "KIND_CLUSTER" m) in
  let kindBinary := default defaultKindBinary (h_LookupEnv h "KIND" m) in
  let '((_, err), m) := Run [kindBinary; "load"; "docker-image"; name; "--name"; cluster] m in
  (err, m).

(** Writing to a [bytes.Buffer] does not fail. *)
Definition UncommentCode (filename target prefix : string) (m : M) : option error * M :=
  match h_ReadFile h filename m with
  | Err e => (Some (WrapError ("failed to read file " +:+ quote filename) e), m)
  | Ok content =>
    match Cut content target with
    | None => (Some (TextError ("unable to find the code " +:+ quote target +:+ " to be uncommented")), m)
    | Some (before, after) =>
      match Scan target with
      | [] => (None, m)
      | token :: rest =>
        match h_WriteFile h filename (before +:+ uncommentLoop prefix token rest +:+ after) 420 m with
        | (Err e, m) => (Some (WrapError ("failed to write file " +:+ quote filename) e), m)
        | (Ok _, m) => (None, m)
        end
      end
    end
  end.
End helpers.

(** ** Lines, joined and split *)

Definition one_line (s : string) : Prop := all_chars (λ c, negb (Ascii.eqb c newline)) s = true.

Lemma SplitLines_cons x rest : one_line x → SplitLines (x +:+ nl +:+ rest) = x :: SplitLines rest.
Proof.
  unfold one_line. induction x as [|c x IH]; [done|]. simpl. intros [Hc Hx]%andb_prop.
  apply negb_true_iff in Hc. rewrite Hc. simpl in IH. by rewrite (IH Hx).
Qed.

Lemma SplitLines_one x : one_line x → SplitLines x = [x].
Proof.
  unfold one_line. induction x as [|c x IH]; [done|]. simpl. intros [Hc Hx]%andb_prop.
  apply negb_true_iff in Hc. by rewrite Hc, (IH Hx).
Qed.

Lemma SplitLines_Join l : l ≠ [] → Forall one_line l → SplitLines (GoStrings.Join l nl) = l.
Proof.
  intros Hne Hl. induction Hl as [|x l Hx Hl IH]; [done|]. destruct l as [|y l]; [by apply SplitLines_one|].
  change (GoStrings.Join (x :: y :: l) nl) with (x +:+ nl +:+ GoStrings.Join (y :: l) nl).
  rewrite SplitLines_cons by done. by rewrite IH.
Qed.

(** The lines that were joined come back, without the empty ones. *)
Lemma GetNonEmptyLines_Join l :
  Forall one_line l → GetNonEmptyLines (GoStrings.Join l nl) = List.filter (λ x, negb (String.eqb x "")) l.
Proof.
  intros Hl. destruct l as [|x l]; [done|]. unfold GetNonEmptyLines. by rewrite SplitLines_Join.
Qed.

(** ** Uncommenting what was commented *)

(** A line the scanner returns as it is. *)
Definition plain (s : string) : Prop :=
  s ≠ "" ∧ (size s < MaxScanTokenSize)%N ∧ HasSuffix s (String carriage_return "") = false.

Lemma plain_trim s : plain s → TrimSuffix s (String carriage_return "") = s.
Proof. intros (_ & _ & Hs). unfold HasSuffix, TrimSuffix in *. by destruct (GoStrings.strip_suffix _ s). Qed.

Lemma scanned_plain l : Forall plain l → scanned l = l.
Proof.
  induction 1 as [|x l Hx Hl IH]; [done|]. pose proof (plain_trim x Hx) as Ht. destruct Hx as (Hne & Hsz & _).
  simpl. apply N.leb_gt in Hsz. rewrite Hsz, Ht, (proj2 (String.eqb_neq x "") Hne). simpl.
  destruct l; [done|]. by rewrite IH.
Qed.

Lemma TrimPrefix_app p s : TrimPrefix (p +:+ s) p = s.
Proof.
  unfold TrimPrefix. assert (GoStrings.strip_prefix p (p +:+ s) = Some s) as ->; [|done].
  induction p as [|c p IH]; simpl; [done|]. by rewrite Ascii.eqb_refl.
Qed.

Lemma uncommentLoop_commented prefix x l :
  uncommentLoop prefix (prefix +:+ x) ((λ y, prefix +:+ y) <$> l) = GoStrings.Join (x :: l) nl.
Proof.
  revert x. induction l as [|y l IH]; intros x; cbn [fmap list_fmap uncommentLoop GoStrings.Join]; rewrite TrimPrefix_app.
  - by rewrite append_nil_r.
  - by rewrite IH.
Qed.

(** A block whose lines were commented out with the prefix is found at its first
    occurrence and put back as it was; the rest of the file stays. *)
Theorem uncomment_commented {M} (h : TestHost M) filename prefix x l before after content m :
  let commented := (λ y, prefix +:+ y) <$> (x :: l) in
  let target := GoStrings.Join commented nl in
  Forall one_line commented → Forall plain commented →
  h_ReadFile h filename m = Ok content → Cut content target = Some (before, after) →
  UncommentCode h filename target prefix m =
  match h_WriteFile h filename (before +:+ GoStrings.Join (x :: l) nl +:+ after) 420 m with
  | (Err e, m') => (Some (WrapError ("failed to write file " +:+ quote filename) e), m')
  | (Ok _, m') => (None, m')
  end.
Proof.
  intros commented target Hone Hplain Hread Hcut. unfold UncommentCode. rewrite Hread, Hcut.
  unfold Scan, target. rewrite SplitLines_Join, scanned_plain by done. unfold commented.
  cbn [fmap list_fmap]. by rewrite uncommentLoop_commented.
Qed.

(** A block given with its final newline loses it: the next line of the file is
    glued to the last one. *)
Example final_newline_lost :
  uncommentLoop "#" "#a" (tail (Scan ("#a" +:+ nl))) +:+ "b" = "ab".
Proof. reflexivity. Qed.
