(* ===== verification/FakeMachine.v ===== *)
(** * A machine and a provider that keep their promises

    [machine] runs the programs of the agent and of the client beside the
    cluster of Fake.v: it has files, and its HTTP requests are served by a
    program on that cluster. [fakeOIDC] is an OpenID provider whose tokens are
    the names they vouch for. Both show the promises of Files.v and Oidc.v
    satisfiable and run the examples. *)

From S2P Require Import Prelude GoStrings Utf8 Json Os KubeTypes ApiTypes Client Files Fake Oidc.
From Stdlib Require Import String.
From stdpp Require Import base gmap strings list.
From Stdlib Require Import ZArith Lia.
Local Open Scope Z_scope.

Record Machine := {
  m_cluster : Cluster;
  m_files : gmap string File;
}.

#[export] Instance machine_world : World Machine := {|
  view := λ T K m, view K (m_cluster m);
  clock := λ m, clock (m_cluster m);
  environ := λ m, environ (m_cluster m);
  view_key := λ T K m, view_key T K (m_cluster m);
|}.

#[export] Instance machine_files : FileWorld Machine := {|
  files := m_files;
  executable := "/usr/local/bin/kubepark";
|}.

Abbreviation Files := (gmap string File).

Definition no_file {A} : res A := Err (TextError "no such file or directory").

Definition if_there {A} (p : string) (fs : Files) (f : File → A) : res A :=
  match fs !! p with Some x => Ok (f x) | None => no_file end.

(** A call that changes the file at [p], if it is there. *)
Definition changes (p : string) (fs : Files) (f : File → Files) : res unit * Files :=
  match fs !! p with Some x => (Ok tt, f x) | None => (no_file, fs) end.

Definition do_temp (dir pattern : string) (fs : Files) : res string * Files :=
  match Cut pattern "*" with
  | Some (prefix, "") =>
    let p := (dir +:+ "/" +:+ prefix) +:+ "1" in
    match fs !! p with
    | Some _ => (Err (TextError "file exists"), fs)
    | None => (Ok p, <[p := {| f_Data := ""; f_Mode := 384 |}]> fs)
    end
  | _ => (Err (TextError "pattern"), fs)
  end.

Section machine.
Context (serve : string → string → string → prog HTTPReply).

Definition machine_os {X} (o : os X) (c : Cluster) (fs : Files) : X * Files :=
  match o in os X return X * Files with
  | OUserHomeDir => (Ok "/home/alice"%string, fs)
  | OExecutable => (Ok (executable (W := Machine)), fs)
  | OStat p => (if_there p fs (λ _, tt), fs)
  | OReadFile p => (if_there p fs f_Data, fs)
  | OWriteFile p d perm =>
      (Ok tt, <[p := {| f_Data := d; f_Mode := match fs !! p with Some f => f_Mode f | None => perm end |}]> fs)
  | OMkdirAll _ _ => (Ok tt, fs)
  | OOpen p => (if_there p fs (λ _, tt), fs)
  | OCreateTemp dir pattern => do_temp dir pattern fs
  | OCopy src dst =>
      changes src fs (λ f, <[dst := {| f_Data := f_Data f;
                                       f_Mode := match fs !! dst with Some g => f_Mode g | None => 384 end |}]> fs)
  | OChmod p perm => changes p fs (λ f, <[p := {| f_Data := f_Data f; f_Mode := perm |}]> fs)
  | OCloseFile _ => (Ok tt, fs)
  | ORename old new => changes old fs (λ f, <[new := f]> (base.delete old fs))
  | ORemove p => (tt, base.delete p fs)
  | OStdinPipe => (Ok tt, fs)
  | OStart _ => (Ok tt, fs)
  | OWaitChild => (WaitNil, fs)
  | OLookPath name => (Ok ("/usr/bin/" +:+ name), fs)
  | OExec _ _ => (TextError "exec", fs)
  | OGetConfig => (Ok tt, fs)
  | ONewClient => (Ok tt, fs)
  | OManager _ => (Ok tt, fs)
  | OHTTPDo method url body => (Ok (run fake (serve method url body) c).1, fs)
  | OListen _ => (Ok "127.0.0.1:4000"%string, fs)
  | OAwaitCallback _ => (TimedOut, fs)
  | OAwaitResult => (TimedOut, fs)
  end.

Definition machine : Env Machine := λ X e m,
  match e in event X return X * Machine with
  | EOS o => let '(x, fs) := machine_os o (m_cluster m) (m_files m) in
             (x, {| m_cluster := m_cluster m; m_files := fs |})
  | e => let '(x, c) := fake _ e (m_cluster m) in (x, {| m_cluster := c; m_files := m_files m |})
  end.

#[export] Instance machine_conforms : Conforms machine.
Proof.
  intros X e m. destruct e; cbn [machine].
  all: try (match goal with |- context [fake _ ?e ?c] =>
    pose proof (fake_conforms _ e c) as He; destruct (fake _ e c) as [x c'] end; exact He).
  destruct (machine_os o (m_cluster m) (m_files m)) as [x fs]. split; [cbn; lia|]. done.
Qed.

Lemma files_but_insert (c c' : Cluster) p f fs :
  files_but p {| m_cluster := c; m_files := fs |} {| m_cluster := c'; m_files := <[p := f]> fs |}.
Proof. intros q Hq. cbn. by rewrite lookup_insert_ne. Qed.

Lemma files_but_same (c c' : Cluster) p fs :
  files_but p {| m_cluster := c; m_files := fs |} {| m_cluster := c'; m_files := fs |}.
Proof. by intros q Hq. Qed.

Lemma machine_os_spec {X} (o : os X) c fs :
  os_spec o {| m_cluster := c; m_files := fs |} (machine_os o c fs).1
    {| m_cluster := c; m_files := (machine_os o c fs).2 |}.
Proof.
  destruct o; cbn; unfold if_there, changes; try done.
  - split; [done|]. by intros p [= <-].
  - split; [done|]. by destruct (fs !! path).
  - split; [done|]. destruct (fs !! path); [by eexists|done].
  - split; [apply files_but_insert|]. eexists. rewrite lookup_insert_eq. split; [done|]. split; [done|].
    destruct (fs !! path); [done|]. unfold created_mode. cbn. by rewrite Z.land_diag.
  - split; [done|]. by destruct (fs !! path).
  - unfold do_temp. destruct (Cut pattern "*") as [[prefix [|? ?]]|]; cbn; [|done..].
    destruct (fs !! _) eqn:E; cbn; [done|]. split; [done|]. split; [apply files_but_insert|].
    by exists (dir +:+ "/" +:+ prefix), "1"%string.
  - destruct (fs !! src) as [f|]; cbn; [|by split; [apply files_but_same|]]. split; [apply files_but_insert|].
    eexists f, _. rewrite lookup_insert_eq. done.
  - destruct (fs !! path) as [f|]; cbn; [|by split; [apply files_but_same|]]. split; [apply files_but_insert|].
    eexists f, _. rewrite lookup_insert_eq. done.
  - destruct (fs !! old) as [f|]; cbn; [|done]. by exists f.
  - intros q Hq. cbn. by rewrite lookup_delete_ne.
Qed.

#[export] Instance machine_file_conforms : FileConforms machine.
Proof.
  intros X e [c fs]. destruct e; cbn [machine m_cluster m_files].
  all: try (match goal with |- context [fake _ ?e ?c] => destruct (fake _ e c) as [x c'] end; done).
  pose proof (machine_os_spec o c fs) as Ho. destruct (machine_os o c fs) as [x fs']. exact Ho.
Qed.

End machine.

(** ** The provider *)

#[export] Instance fakeOIDCTypes : OIDCTypes := {|
  Provider := string;
  Endpoint := string;
  IDTokenVerifier := string;
  OAuthToken := string;
  IDToken := string;
|}.

Definition fakeOIDC : OIDCLib := {|
  oidc_types := fakeOIDCTypes;
  oidc_NewProvider := λ issuer, Ret (Ok issuer);
  provider_Endpoint := λ p, p +:+ "/auth";
  provider_Verifier := λ _ clientID, clientID;
  AuthCodeURL := λ c state _, oc_Endpoint c +:+ "?state=" +:+ state;
  Exchange := λ _ code _, Ret (if String.eqb code "" then Err (TextError "invalid_grant") else Ok code);
  token_Extra := λ t name, if String.eqb name "id_token" then Some t else None;
  GenerateVerifier := Ret "verifier"%string;
  Verify := λ _ raw, Ret (if String.eqb raw "" then Err (TextError "malformed jwt") else Ok raw);
  idToken_Claims := λ t, Ok (list_to_map [("email", JString (to_valid t)); ("groups", JArray [JString "dev"])]);
|}.

#[export] Instance fakeOIDC_laws : OIDCLaws fakeOIDC.
Proof.
  split; [done..|]. cbn. intros t claims name s [= <-] Hs. apply String.eqb_eq.
  apply lookup_insert_Some in Hs as [[_ [= <-]]|[_ Hs]]; [apply to_valid_idem|].
  by apply lookup_insert_Some in Hs as [[_ [=]]|[_ Hs]].
Qed.
