(* ===== verification/Examples.v ===== *)
(** * The handlers at work

    A small cluster (a template, an access profile, a sandbox of each kind of
    interest, a session, a pod) on the stand-in server of Fake.v, and every
    theorem with hypotheses applied to it: the hypotheses hold there, by
    evaluation. *)

From S2P Require Import Prelude GoStrings Sha256 KubeTypes ApiTypes Client Fake Libs PodSpec PodPolicy.
From S2P Require Import SSHCA FakeSSH StatusMonad SandboxRBAC Bootstrap SandboxHome SandboxNet SandboxRun.
From S2P Require Import SandboxReconcile PodStart Settled Lifecycle Defects StatusShape SandboxFinalize SandboxController.
From S2P Require Import Steady SessionController AccessProfileController Watches Routing Store SSHJump Http HTTPProxy.
From Stdlib Require Import String.
From stdpp Require Import base gmap strings list pretty.
From Stdlib Require Import ZArith Lia.
Local Open Scope Z_scope.

#[local] Existing Instance simpleMachinery.
#[local] Existing Instance fakeSSH.
#[local] Remove Hints fakeTypes : typeclass_instances.

(** ** The cluster *)

Definition serverMeta (ns n uid : string) (created : Time) (fins : list string) : ObjectMeta :=
  {| Name := n; Namespace := ns; UID := uid; Generation := 1; ResourceVersion := 7;
     CreationTimestamp := created; DeletionTimestamp := None; mLabels := ∅; mAnnotations := ∅;
     Finalizers := fins; OwnerReferences := [] |}.

Definition exTemplate : SandboxTemplate :=
  {| tpl_ObjectMeta := serverMeta "" "dev" "uid-tpl" 0 [];
     tpl_Spec := {| ts_Image := "img"; ts_Command := []; ts_Env := [];
       ts_Resources := {| rr_Limits := ∅; rr_Requests := ∅ |};
       ts_IsolationLevel := IsolationStandard; ts_RuntimeClassName := None; ts_HomeSize := 10;
       ts_StorageClassName := None; ts_Egress := []; ts_DefaultIdleTimeout := Some (30 * Minute);
       ts_RunAsUser := None |} |}.

Definition exProfile : AccessProfile :=
  {| ap_ObjectMeta := serverMeta "" "reader" "uid-ap" 0 [];
     ap_Spec := {| aps_Grants := [{| gr_Namespaces := ["data"]; gr_Rules := [] |}];
                   aps_AllowedNamespaces := ["team"] |};
     ap_Status := {| apst_Conditions := []; apst_ObservedGeneration := 0 |} |}.

Definition exHome (claim : string) : HomeSpec :=
  {| h_Size := None; h_StorageClassName := None; h_ExistingClaim := claim; h_RetainPolicy := RetainPolicyDelete |}.

Definition exSandboxIn (ns n : string) (profile : string) (state : DesiredState) (claim : string)
    (created : Time) (status : SandboxStatus) : Sandbox :=
  {| sb_ObjectMeta := serverMeta ns n ("uid-" +:+ n) created [SandboxFinalizer];
     sb_Spec := {| sp_Template := "dev"; sp_AccessProfile := profile;
       sp_Owner := {| ow_Name := "alice"; ow_Groups := [] |}; sp_DesiredState := state;
       sp_IdleTimeout := None;
       sp_ExposedPorts := [{| ep_Name := "web"; ep_Port := 8080; ep_Auth := AuthModeOIDC;
                              ep_AllowedUsers := []; ep_AllowedGroups := ["dev"] |}];
       sp_Home := Some (exHome claim) |};
     sb_Status := status |}.

Definition exStatus : SandboxStatus := set_LastActivityTime (Some 0) emptyStatus.

Definition box : Sandbox := exSandboxIn "team" "box" "" DesiredStateRunning "" 0 exStatus.
Definition profiled : Sandbox := exSandboxIn "team" "box" "reader" DesiredStateRunning "" 0 exStatus.
Definition outsider : Sandbox := exSandboxIn "guests" "box" "reader" DesiredStateRunning "" 0 exStatus.
Definition stopped : Sandbox := exSandboxIn "team" "box" "" DesiredStateStopped "" 0 exStatus.

Definition reconciler : SandboxReconciler :=
  {| r_AgentImage := "agent"; r_PriorityClassName := ""; r_GatewayNamespace := ""; r_Now := None |}.

(** The template and the profile, at a given time, and a sandbox. *)
Definition baseAt (t : Time) : Cluster :=
  set_clock t (put KTemplate exTemplate (put KAccessProfile exProfile emptyCluster)).

Definition base : Cluster := baseAt (10 * Minute).

Definition with_box (t : Time) (sb : Sandbox) : Cluster := put KSandbox sb (baseAt t).

Definition exSession : SandboxSession :=
  {| ses_ObjectMeta := serverMeta "team" "box-1" "uid-s" 0 [];
     ses_Spec := {| ss_SandboxName := "box"; ss_User := "alice"; ss_ClientAddr := ""; ss_Kind := SessionKindSSH;
                    ss_CertSerial := "1"; ss_HeartbeatInterval := Some (60 * Second) |};
     ses_Status := {| sst_State := SessionStateActive; sst_StartTime := Some 0;
                      sst_LastActivityTime := Some (9 * Minute); sst_EndTime := None; sst_ExitReason := "" |} |}.

Definition runningPod (sb : Sandbox) : Pod :=
  let p := BuildPod sb exTemplate (podOptions reconciler "") in
  {| pod_ObjectMeta := set_server "uid-pod" 1 3 0 None (pod_ObjectMeta p); pod_Spec := pod_Spec p;
     pod_Status := {| pst_Phase := PodRunning; pst_PodIP := "10.0.0.7";
                      pst_Conditions := [{| pc_Type := PodReady; pc_Status := ConditionTrue; pc_Message := "" |}] |} |}.

(** ** Evaluating a run *)

Lemma run_to {A} (env : Env Cluster) (p : prog A) (w : Cluster) (r : A) (w' : Cluster) :
  (run env p w).1 = r → (run env p w).2 = w' → run env p w = (r, w').
Proof. intros <- <-. by destruct (run env p w). Qed.

Ltac evaluate := vm_compute; reflexivity.
Ltac ran := apply run_to; [evaluate|reflexivity].
Ltac absent := let Ho := fresh in intros ? Ho; vm_compute in Ho; discriminate Ho.
Ltac by_decision := apply (bool_decide_unpack _); vm_compute; exact I.

Lemma named_put {T} (K : Kind T) (o : T) (w : Cluster) :
  Name (meta K o) ≠ "" → named w → named (put K o w).
Proof.
  intros Hn Hw ns x Hx. rewrite (same_but_view K (okey K o) KSandbox (nn ns "") w) in Hx;
    [by apply Hw in Hx|apply same_but_put|].
  intros Hk. apply Hn. by injection Hk.
Qed.

Lemma named_base t : named (baseAt t).
Proof. intros ns. absent. Qed.

Lemma timeouts_dev (sb : Sandbox) (w : Cluster) :
  view KTemplate w (nn "" (sp_Template (sb_Spec sb))) = Some exTemplate →
  sp_IdleTimeout (sb_Spec sb) = None → timeouts_bounded sb w.
Proof.
  intros Hv Hi tpl Ht. rewrite Hv in Ht. injection Ht as <-. unfold effectiveIdleTimeout. by rewrite Hi.
Qed.

(** ** Access *)

Lemma rbac_default_deny_witness :
  let out := run fake (reconcileRBAC outsider exStatus) base in
  st_ServiceAccountName out.1.1 = "" ∧ no_bindings outsider out.2.
Proof.
  destruct (rbac_default_deny fake outsider exStatus base
    (run fake (reconcileRBAC outsider exStatus) base).1.1
    {| rr_ServiceAccount := ""; rr_Ready := false |}
    (run fake (reconcileRBAC outsider exStatus) base).2) as (_ & _ & Hs & Hb & _); [..|exact (conj Hs Hb)].
  - intros ns. absent.
  - done.
  - intros p Hp. vm_compute in Hp. injection Hp as <-. by_decision.
  - ran.
Defined.

Lemma rbac_grants_exactly_witness :
  let out := run fake (reconcileRBAC profiled exStatus) base in
  st_ServiceAccountName out.1.1 = "kubepark-sb-box" ∧
  ∃ rb, view KRoleBinding out.2 (nn "data" (roleBindingName (Name profiled))) = Some rb ∧
        rb_Subjects rb = [sandboxSubject profiled].
Proof.
  destruct (rbac_grants_exactly fake profiled exStatus base
    (run fake (reconcileRBAC profiled exStatus) base).1.1
    {| rr_ServiceAccount := "kubepark-sb-box"; rr_Ready := true |}
    (run fake (reconcileRBAC profiled exStatus) base).2 exProfile) as (_ & Hs & _ & Hg & _).
  - intros ns. absent.
  - done.
  - evaluate.
  - by_decision.
  - ran.
  - split; [exact Hs|]. destruct (Hg {| gr_Namespaces := ["data"]; gr_Rules := [] |} "data") as (rb & Hv & _ & Hsub & _).
    + apply list_elem_of_In. by left.
    + apply list_elem_of_In. by left.
    + exists rb. exact (conj Hv Hsub).
Defined.

(** ** A sandbox's life *)

Lemma quiet_box (sb : Sandbox) (w : Cluster) :
  named w → view KNetPol w (netPolKey sb) = None → objs KRoleBinding w = ∅ → quiet sb w.
Proof.
  intros Hn Hp Hr. split; [done|]. split; [intros ns o|intros o Ho; congruence].
  unfold view, cluster_world, lookup_obj. by rewrite Hr, lookup_empty.
Qed.

(** At ten minutes nothing is due yet; at forty the sandbox has been idle for
    longer than its template allows. *)
Definition inUse : Cluster :=
  put KPod (runningPod box) (put KSession exSession (with_box (40 * Minute) box)).
Definition working : Cluster := put KPod (runningPod box) (with_box (10 * Minute) box).
Definition resting : Cluster := put KPod (runningPod box) (with_box (40 * Minute) box).

Ltac name_all :=
  unfold inUse, working, resting, with_box;
  repeat (lazymatch goal with |- named (put _ _ _) => apply named_put; [discriminate|] end);
  apply named_base.
Ltac settle := apply quiet_box; [name_all|evaluate..].
Ltac bounded := apply timeouts_dev; evaluate.

Lemma active_session_witness :
  view KPod (run fake (reconcileSandbox reconciler box exStatus) inUse).2 (podKey box) = Some (runningPod box).
Proof.
  apply (active_session_keeps_pod fake reconciler box exStatus inUse
    (run fake (reconcileSandbox reconciler box exStatus) inUse).1).
  - settle.
  - reflexivity.
  - bounded.
  - discriminate.
  - exists exSession. repeat split; evaluate.
  - evaluate.
  - evaluate.
  - ran.
Defined.

Definition startedRun := run fake (reconcileSandbox reconciler box exStatus) (with_box (10 * Minute) box).

(** The one moment of that pass at which a pod is created. *)
Definition startedMoments := moments fake (reconcileSandbox reconciler box exStatus) (with_box (10 * Minute) box).

Definition creations (l : list (some_event * Cluster)) : list (Pod * Cluster) :=
  omap (λ '(e, v), o ← created_pod e; Some (o, v)) l.

Lemma pod_starts_prepared_witness :
  length (creations startedMoments) = 1%nat ∧
  (∀ e v o, (e, v) ∈ startedMoments → created_pod e = Some o →
     view KPod v (podKey box) = None ∧
     ∃ tpl sa, prepared reconciler box tpl sa (with_box (10 * Minute) box) v) ∧
  ∃ pod tpl sa, view KPod startedRun.2 (podKey box) = Some pod ∧
    prepared reconciler box tpl sa (with_box (10 * Minute) box) startedRun.2.
Proof.
  destruct (pod_starts_prepared fake reconciler box exStatus (with_box (10 * Minute) box)) as [Hat Hafter];
    [settle|reflexivity|bounded|].
  split; [evaluate|]. split.
  - intros e v o Hin Ho. destruct (Hat e v o Hin Ho) as (Hn & tpl & sa & Hp & _).
    exact (conj Hn (ex_intro _ tpl (ex_intro _ sa Hp))).
  - destruct (view KPod startedRun.2 (podKey box)) as [pod|] eqn:Hpod; [|vm_compute in Hpod; discriminate Hpod].
    destruct (Hafter startedRun.1.1 noResult startedRun.2 pod) as (tpl & sa & Hp & _);
      [ran|evaluate|exact Hpod|exists pod, tpl, sa; exact (conj eq_refl Hp)].
Defined.

(** The pass after the one that created everything. *)
Definition secondPass := run fake (reconcileSandbox reconciler box startedRun.1.1) startedRun.2.

Lemma no_slices (w : Cluster) : objs KEndpointSlice w = ∅ → one_slice w.
Proof.
  intros He [|x l] [Hl _]; [simpl; lia|]. exfalso.
  pose proof (proj1 (Hl x) (list_elem_of_here _ _)) as [Hv _].
  unfold view, cluster_world, lookup_obj in Hv. by rewrite He, lookup_empty in Hv.
Qed.

Lemma no_bindings_stored (w : Cluster) k : objs KRoleBinding w = ∅ → view KRoleBinding w k = None.
Proof. intros He. unfold view, cluster_world, lookup_obj. by rewrite He, lookup_empty. Qed.

(** A cluster without role bindings is quiet again after a pass over the sandbox. *)
Lemma quiet_after (w : Cluster) (s : SandboxStatus) sr (w' : Cluster) :
  quiet box w → timeouts_bounded box w → run fake (reconcileSandbox reconciler box s) w = (sr, w') →
  objs KRoleBinding w' = ∅ → settled KNetPol w' (netPolKey box) → quiet box w'.
Proof.
  intros Hq Hto Hrun Hrb Hnp. split; [|split; [|done]].
  - eapply sandbox_writes_named; [|exact (proj1 Hq)].
    exact (reconcileSandbox_writes fake reconciler box s _ _ _ Hq eq_refl Hto Hrun).
  - intros ns o. by rewrite no_bindings_stored.
Qed.


(** *** A status write that is lost *)

Lemma fake_status_atomic : status_atomic fake.
Proof.
  intros o w cur e w' He Hv. exists cur. split; [|by left].
  cbn in He. unfold do_status_update in He. unfold view, cluster_world in Hv. rewrite Hv in He.
  destruct (_ =? _)%Z in He; [unfold replace in He; destruct (decide _) in He; [discriminate He|]|]; by injection He as _ <-.
Qed.

(** An API server that answers every status write with an error. *)
Definition lossy : Env Cluster := λ X e,
  match e in event X return Cluster → X * Cluster with
  | EStatusUpdate K o => λ c, (Err (TextError "etcdserver: request timed out"), c)
  | e => fake _ e
  end.

#[local] Instance lossy_conforms : Conforms lossy.
Proof.
  intros X e w. destruct e; try exact (fake_conforms _ _ w). cbn. split; [simpl; lia|].
  split; [apply unchanged_same_but, unchanged_refl|]. split; [apply status_only_refl|done].
Qed.

Lemma lossy_status_atomic : status_atomic lossy.
Proof. intros o w cur e w' [= _ <-] Hv. exists cur. auto. Qed.

(** A suspended sandbox is started: the pod is created, the phase is not
    written. When the pod is ready the next pass finds a suspended sandbox with
    a running pod. *)
Definition asleep : Sandbox := with_sb_status (set_Phase SandboxPhaseSuspended exStatus) box.
Definition asleepAt : Cluster := with_box (10 * Minute) asleep.
Definition lostPass := run lossy (reconcileLive reconciler asleep) asleepAt.
Definition podUp : Cluster := put KPod (runningPod asleep) (with_box (10 * Minute) asleep).
Definition nextPass := run fake (reconcileLive reconciler asleep) podUp.

Lemma suspended_to_running :
  st_Phase <$> (sb_Status <$> view KSandbox lostPass.2 (okey KSandbox asleep)) = Some SandboxPhaseSuspended ∧
  viewPod asleep lostPass.2 = APod PodNotReady false ∧
  viewPod asleep podUp = APod PodIsReady false ∧
  st_Phase <$> (sb_Status <$> view KSandbox nextPass.2 (okey KSandbox asleep)) = Some SandboxPhaseRunning.
Proof. repeat split; evaluate. Qed.


Lemma phase_changes_exact_witness :
  ∃ v v', rtc system_step newborn (SandboxPhaseSuspended, v) ∧
          pass_step (SandboxPhaseSuspended, v) (SandboxPhaseRunning, v').
Proof.
  assert (SandboxPhaseSuspended ≠ SandboxPhaseRunning) as Hne by discriminate.
  exact (proj1 (phase_changes_exact SandboxPhaseSuspended SandboxPhaseRunning eq_refl Hne) eq_refl).
Defined.

(** A sandbox that runs, looked at twice. *)
Definition lookedAt : SandboxStatus := set_ObservedGeneration 1 exStatus.
Definition firstLook := run fake (reconcileSandbox reconciler box lookedAt) working.
Definition seen : Sandbox := with_sb_status firstLook.1.1 box.
Definition secondLook :=
  run fake (reconcileSandbox reconciler seen (set_ObservedGeneration (Generation seen) (sb_Status seen))) firstLook.2.


Lemma status_conditions_keyed_witness : conditions_keyed startedRun.1.1.
Proof.
  apply (status_conditions_keyed fake reconciler box exStatus (with_box (10 * Minute) box)).
  split; [constructor|intros ty Hty; by apply not_elem_of_nil in Hty].
Defined.

Definition waiting : Sandbox := exSandboxIn "team" "box" "" DesiredStateRunning "shared" 0 exStatus.
Definition waited := run fake (reconcileSandbox reconciler waiting exStatus) base.

Lemma missing_claim_unnoticed_witness : st_Phase waited.1.1 = SandboxPhasePending.
Proof.
  apply (missing_claim_unnoticed fake reconciler waiting exStatus base waited.1.1 noResult waited.2).
  - discriminate.
  - intros o [Hv _]. vm_compute in Hv. discriminate Hv.
  - by eexists.
  - evaluate.
  - ran.
Defined.

Definition suspended := run fake (reconcileSandbox reconciler box exStatus) resting.

Lemma suspension_exact_witness :
  st_Phase suspended.1.1 = SandboxPhaseSuspending ∧ not_live KPod suspended.2 (podKey box).
Proof.
  assert (st_Phase suspended.1.1 = SandboxPhaseSuspending) as Hph by evaluate.
  split; [exact Hph|].
  destruct (suspension_exact fake reconciler box exStatus resting suspended.1.1 noResult suspended.2)
    as (tpl & t & _ & _ & Hd & Hs); [settle|reflexivity|bounded|ran|rewrite Hph; discriminate|].
  apply Hs, Hd. right. exact Hph.
Defined.

Definition settledDown := run fake (reconcileSandbox reconciler box exStatus) working.

Lemma running_has_ready_pod_witness :
  ∃ pod, view KPod settledDown.2 (podKey box) = Some pod ∧
         st_PodIP settledDown.1.1 = pst_PodIP (pod_Status pod).
Proof.
  destruct (running_has_ready_pod fake reconciler box exStatus working settledDown.1.1
    {| RequeueAfter := 20 * Minute |} settledDown.2) as (pod & Hv & _ & Hip);
    [settle|reflexivity|bounded|ran|evaluate|exists pod; exact (conj Hv Hip)].
Defined.

Lemma idle_deadline_scheduled_witness :
  ∃ t, clock working <= t <= clock settledDown.2 ∧
       20 * Minute = Z.max (effectiveIdleTimeout box exTemplate - (t - 0)) Second.
Proof.
  destruct (idle_deadline_scheduled fake reconciler box exStatus working settledDown.1.1
    {| RequeueAfter := 20 * Minute |} settledDown.2 exTemplate 0) as (t & Ht & Hr).
  - settle.
  - reflexivity.
  - bounded.
  - ran.
  - evaluate.
  - evaluate.
  - intros (s & Hv & _). vm_compute in Hv. discriminate Hv.
  - evaluate.
  - evaluate.
  - vm_compute. discriminate.
  - evaluate.
  - exists t. exact (conj Ht Hr).
Defined.

Lemma reconcileSandbox_writes_witness :
  frame (sandbox_writes box resting) resting suspended.2.
Proof.
  apply (reconcileSandbox_writes fake reconciler box exStatus resting suspended.1);
    [settle|reflexivity|bounded|ran].
Defined.

Definition reconciled := run fake (Reconcile reconciler (okey KSandbox box)) (with_box (10 * Minute) box).

Lemma Reconcile_live_witness :
  ∃ o : Sandbox, view KSandbox reconciled.2 (okey KSandbox box) = Some o ∧ SandboxFinalizer ∈ Finalizers o.
Proof.
  destruct (Reconcile_live fake reconciler (okey KSandbox box) (with_box (10 * Minute) box) noResult
    reconciled.2 box) as (sb1 & w1 & s' & w2 & o & _ & _ & _ & _ & _ & _ & _ & Ho & _ & Hf);
    [settle|reflexivity|bounded|evaluate|reflexivity|ran|exists o; exact (conj Ho Hf)].
Defined.

Lemma watched_change_witness :
  (run fake (sandboxesForTemplate exTemplate) (with_box 0 box)).1 = [okey KSandbox box] ∧
  ∀ k, k ∈ (run fake (sandboxesForTemplate exTemplate) (with_box 0 box)).1 ↔
    ∃ sb, view KSandbox (with_box 0 box) k = Some sb ∧ sp_Template (sb_Spec sb) = Name exTemplate.
Proof.
  split; [evaluate|].
  destruct (watched_change_requeues_users fake exTemplate (with_box 0 box)) as [Ht _]; [discriminate|].
  exact Ht.
Defined.

(** ** Deletion *)

Definition leaving : Cluster :=
  put KSession exSession (put KPod (runningPod box) (with_box (10 * Minute) (mark KSandbox (9 * Minute) box))).
Definition leaver : Sandbox := mark KSandbox (9 * Minute) box.
Definition departed := run fake (finalize leaver) leaving.

Lemma finalize_complete_witness :
  cleaned leaver leaving departed.2 ∧
  ∀ o : Sandbox, view KSandbox departed.2 (sandboxKey leaver) = Some o → SandboxFinalizer ∉ Finalizers o.
Proof.
  apply (finalize_complete fake leaver leaving noResult departed.2); [evaluate|by_decision|ran].
Defined.

(** A server that refuses to delete anything. *)
Definition stubborn : Env Cluster := λ X e,
  match e in event X return Cluster → X * Cluster with
  | EDelete K k => λ c, (refused, c)
  | e => fake _ e
  end.

#[local] Instance stubborn_conforms : Conforms stubborn.
Proof.
  intros X e c. destruct e; try apply (fake_conforms _ _ c).
  split; [simpl; lia|]. split; [apply same_but_id|done].
Qed.

Definition stuck := run stubborn (finalize leaver) leaving.

Lemma finalizer_guards_cleanup_witness :
  is_ok stuck.1 = false ∧
  (cleaned leaver leaving stuck.2 ∨
   ∃ o : Sandbox, view KSandbox stuck.2 (sandboxKey leaver) = Some o ∧ SandboxFinalizer ∈ Finalizers o).
Proof.
  split; [evaluate|].
  apply (finalizer_guards_cleanup stubborn leaver leaving stuck.1 stuck.2); [evaluate|by_decision|].
  unfold stuck. by destruct (run stubborn (finalize leaver) leaving).
Defined.

Lemma finalize_writes_only_own_witness : frame (finalize_writes leaver leaving) leaving departed.2.
Proof.
  apply (finalize_writes_only_own fake leaver leaving departed.1 departed.2); [evaluate|by_decision|].
  unfold departed. by destruct (run fake (finalize leaver) leaving).
Defined.

(** ** Home volumes *)

Definition first : Sandbox := exSandboxIn "team" "a" "" DesiredStateRunning "shared" 0 exStatus.
Definition second : Sandbox := exSandboxIn "team" "b" "" DesiredStateRunning "shared" 1 exStatus.
Definition sharedClaim : PersistentVolumeClaim :=
  {| pvc_ObjectMeta := serverMeta "team" "shared" "uid-c" 0 [];
     pvc_Spec := pvc_Spec (BuildPVC first exTemplate) |}.
Definition contended : Cluster := put KSandbox first (put KSandbox second (put KPVC sharedClaim (baseAt 0))).

Lemma claimConflict_exact_witness :
  unchanged contended (run fake (claimConflict second "shared") contended).2 ∧
  (run fake (claimConflict second "shared") contended).1 = Ok "a".
Proof.
  split; [|evaluate].
  apply (claimConflict_exact fake second "shared" contended "a"
    (run fake (claimConflict second "shared") contended).2); [discriminate|ran].
Defined.

Definition firstRun := run fake (reconcileHome first exStatus) contended.
Definition secondRun := run fake (reconcileHome second exStatus) firstRun.2.

Lemma existing_claim_exclusive_witness :
  wins first second = true ∧ firstRun.1.2 = Ok None ∧ secondRun.1.2 = Ok (Some {| RequeueAfter := 30 * Second |}) ∧
  ¬ ((∀ o, ¬ conflicting second (existingClaim second) contended o) ∧
     is_Some (view KPVC contended (nn (Namespace second) (existingClaim second)))).
Proof.
  split; [evaluate|]. split; [evaluate|]. split; [evaluate|].
  destruct (existing_claim_exclusive fake first second exStatus exStatus firstRun.1.1 secondRun.1.1
    contended firstRun.2 None (Some {| RequeueAfter := 30 * Second |}) secondRun.2) as (_ & _ & _ & _ & Hexact).
  - unfold contended. repeat (apply named_put; [discriminate|]). apply named_base.
  - split; [evaluate|]. split; [evaluate|]. intros [H _]. discriminate H.
  - split; [evaluate|]. split; [evaluate|]. intros [H _]. discriminate H.
  - discriminate.
  - evaluate.
  - evaluate.
  - discriminate.
  - ran.
  - ran.
  - intros Hno. discriminate (proj2 Hexact Hno).
Defined.

(** The older sandbox was stopped and is started again while the newer one runs
    on the claim: after a reconciliation of each both pods are there, neither is
    being deleted, and both mount the claim. *)
Definition resumed : Sandbox :=
  exSandboxIn "team" "a" "" DesiredStateRunning "shared" 0 (set_Phase SandboxPhaseSuspended exStatus).
Definition holder : Sandbox :=
  exSandboxIn "team" "b" "" DesiredStateRunning "shared" 1 (set_Phase SandboxPhaseRunning exStatus).
Definition handover : Cluster :=
  put KPod (runningPod holder)
    (put KSandbox resumed (put KSandbox holder (put KPVC sharedClaim (baseAt (10 * Minute))))).
Definition resumedRun := run fake (reconcileSandbox reconciler resumed (sb_Status resumed)) handover.
Definition holderRun := run fake (reconcileSandbox reconciler holder (sb_Status holder)) resumedRun.2.

Definition mounts (claim : string) (pod : Pod) : bool :=
  existsb (λ v, match vol_Source v with VolumePVC c => String.eqb c claim | _ => false end)
    (ps_Volumes (pod_Spec pod)) && ptr_IsZero (DeletionTimestamp pod).

Example two_pods_one_claim :
  is_ok resumedRun.1.2 = true ∧ is_ok holderRun.1.2 = true ∧
  mounts "shared" <$> view KPod holderRun.2 (podKey resumed) = Some true ∧
  mounts "shared" <$> view KPod holderRun.2 (podKey holder) = Some true.
Proof. vm_compute. auto. Qed.

Lemma loser_keeps_pod_witness :
  unchanged resumedRun.2 holderRun.2 ∧ st_Phase holderRun.1.1 = SandboxPhasePending.
Proof.
  apply (loser_keeps_pod fake reconciler holder resumed (sb_Status holder) resumedRun.2
    holderRun.1.1 {| RequeueAfter := 30 * Second |}).
  - apply (sandbox_writes_named resumed handover).
    + apply (reconcileSandbox_writes fake reconciler resumed (sb_Status resumed) handover resumedRun.1);
        [|reflexivity|bounded|ran].
      apply quiet_box; [unfold handover; do 4 (apply named_put; [discriminate|]); apply named_base|evaluate..].
    + unfold handover. do 4 (apply named_put; [discriminate|]). apply named_base.
  - discriminate.
  - split; [evaluate|]. split; [left; reflexivity|evaluate].
  - eexists. evaluate.
  - ran.
Defined.

(** The pod of a sandbox in use is on its way out and still ready. *)
Definition leavingPod : Pod := mark KPod (39 * Minute) (runningPod box).
Definition goingAway : Cluster :=
  put KPod leavingPod (put KSession exSession (with_box (40 * Minute) box)).
Definition goingAwayRun := run fake (reconcileSandbox reconciler box exStatus) goingAway.

Lemma terminating_pod_published_witness :
  st_Phase goingAwayRun.1.1 = SandboxPhaseRunning ∧ st_PodIP goingAwayRun.1.1 = "10.0.0.7".
Proof.
  destruct (terminating_pod_published fake reconciler box exStatus goingAway goingAwayRun.1.1 noResult
    goingAwayRun.2 leavingPod) as (Hp & Hip & _); [..|exact (conj Hp Hip)].
  - apply quiet_box; [unfold goingAway; name_all|evaluate..].
  - reflexivity.
  - bounded.
  - discriminate.
  - exists exSession. repeat split; evaluate.
  - evaluate.
  - evaluate.
  - evaluate.
  - eexists. reflexivity.
  - ran.
  - vm_compute. discriminate.
Defined.

(** The profile admits a second namespace, and a sandbox of the same name there
    is given it. *)
Definition openProfile : AccessProfile :=
  {| ap_ObjectMeta := ap_ObjectMeta exProfile;
     ap_Spec := {| aps_Grants := aps_Grants (ap_Spec exProfile); aps_AllowedNamespaces := ["team"; "guests"] |};
     ap_Status := ap_Status exProfile |}.
Definition shared : Cluster := put KAccessProfile openProfile base.
Definition namesakeRun := run fake (reconcileRBAC outsider exStatus) shared.

Lemma same_name_binding_taken_witness :
  ∃ rb, view KRoleBinding namesakeRun.2 (bindingKey profiled "data") = Some rb ∧
        sandboxSubject profiled ∉ rb_Subjects rb.
Proof.
  destruct (same_name_binding_taken fake profiled outsider exStatus shared namesakeRun.1.1
    {| rr_ServiceAccount := "kubepark-sb-box"; rr_Ready := true |} namesakeRun.2 openProfile "data")
    as (rb & Hv & _ & Hsub); [..|exists rb; exact (conj Hv Hsub)].
  - reflexivity.
  - discriminate.
  - intros ns. absent.
  - discriminate.
  - evaluate.
  - by_decision.
  - by_decision.
  - ran.
Defined.

(** ** Keys, certificates and policy *)

Definition prepared0 := run fake (reconcileHostKey box) (baseAt 0).
Definition prepared1 := run fake (reconcileHostKey box) prepared0.2.

Lemma reconcileHostKey_stable_witness : unchanged prepared0.2 prepared1.2.
Proof.
  apply (reconcileHostKey_stable fake box prepared0.2 prepared1.1 prepared1.2).
  - unfold prepared1. by destruct (run fake (reconcileHostKey box) prepared0.2).
  - destruct (view KSecret prepared0.2 (hostKeyKey box)) as [s|] eqn:Hs; [by exists s|].
    vm_compute in Hs. discriminate Hs.
Defined.

Lemma reconcileHostKey_contents_witness :
  ∃ sec, view KSecret prepared0.2 (hostKeyKey box) = Some sec ∧
    dom (sec_Data sec) = list_to_set ["ssh_host_ed25519_key"; "ssh_host_ed25519_key.pub";
      "ssh_host_ed25519_key-cert.pub"; "user-ca.pub"]%string.
Proof.
  destruct (reconcileHostKey_contents fake box (baseAt 0) prepared0.2)
    as (sec & _ & _ & _ & _ & _ & _ & Hv & _ & _ & Hd & _); [ran|evaluate|exists sec; exact (conj Hv Hd)].
Defined.

Lemma reconcileNetworkPolicy_witness :
  policy_in_place reconciler box exTemplate (baseAt 0)
    (run fake (reconcileNetworkPolicy reconciler box exTemplate) (baseAt 0)).2.
Proof.
  apply (reconcileNetworkPolicy_in_sync fake reconciler box exTemplate (baseAt 0)); [absent|ran].
Defined.

Definition authority0 := run fake (EnsureCASecret "kubepark") emptyCluster.
Definition authority1 := run fake (EnsureCASecret "kubepark") authority0.2.

Lemma EnsureCASecret_stable_witness : unchanged authority0.2 authority1.2 ∧ authority1.1 = authority0.1.
Proof.
  assert (∃ s, authority0.1 = Ok s) as [s Hs].
  { destruct authority0.1 as [s|e] eqn:E; [by exists s|]. vm_compute in E. discriminate E. }
  destruct (EnsureCASecret_stable fake "kubepark" emptyCluster s authority0.2 authority1.1 authority1.2) as [Hu Hr].
  - rewrite <- Hs. unfold authority0. by destruct (run fake (EnsureCASecret "kubepark") emptyCluster).
  - unfold authority1. by destruct (run fake (EnsureCASecret "kubepark") authority0.2).
  - split; [exact Hu|]. evaluate.
Defined.

Definition exPolicyDst : PeerPod :=
  {| pp_Labels := {["k8s-app" := "kube-dns"]}; pp_Namespace := "kube-system"; pp_NamespaceLabels := {[LabelMetadataName := "kube-system"]} |}.

Lemma egress_default_dns_only_witness :
  admits_egress (BuildNetworkPolicy box exTemplate {| no_GatewayNamespace := ""; no_APIServerEndpoints := [] |})
    exPolicyDst "UDP" 53 = true ∧
  admits_egress (BuildNetworkPolicy box exTemplate {| no_GatewayNamespace := ""; no_APIServerEndpoints := [] |})
    exPolicyDst "TCP" 443 = false.
Proof.
  split.
  - apply (egress_default_dns_only box exTemplate _ exPolicyDst "UDP" 53); [reflexivity|].
    repeat split; try evaluate. left. reflexivity.
  - evaluate.
Defined.

Definition caKeyName : Signer := inl "ca"%string.
Definition aliceKey : PublicKey := inl "alice-key".
Definition noon : Time := 12 * Hour.
Definition signed := run fake (SignUserCert caKeyName aliceKey "alice" Hour noon) emptyCluster.
Definition blankCert : Certificate :=
  {| cert_Key := aliceKey; cert_Serial := 0; cert_CertType := 0; cert_KeyId := "";
     cert_ValidPrincipals := []; cert_ValidAfter := 0; cert_ValidBefore := 0;
     cert_CriticalOptions := ∅; cert_Extensions := ∅; cert_SignatureKey := None; cert_Signature := None |}.
Definition cert_of (r : res Certificate) : Certificate := match r with Ok c => c | Err _ => blankCert end.
Definition aliceCert : Certificate := cert_of signed.1.

Ltac in_range := unfold representable; vm_compute; split; [discriminate|reflexivity].

Lemma CheckUserCert_accepts_witness :
  ∃ c, Some aliceCert = Some c ∧ cert_CertType c = UserCert ∧ "alice" ∈ cert_ValidPrincipals c.
Proof.
  destruct (proj1 (CheckUserCert_accepts (SSH := fakeSSH) (Some aliceCert) (Some (signer_PublicKey caKeyName)) "alice" noon))
    as (c & Hc & Ht & Hp & _); [evaluate|]. exists c. exact (conj Hc (conj Ht Hp)).
Defined.

Lemma SignUserCert_accepted_witness :
  CheckUserCert (Some aliceCert) (Some (signer_PublicKey caKeyName)) "alice" (noon + 59 * Minute) = None ∧
  CheckUserCert (Some aliceCert) (Some (signer_PublicKey caKeyName)) "bob" noon ≠ None.
Proof.
  pose proof (SignUserCert_accepted (SSH := fakeSSH) fake caKeyName aliceKey "alice" Hour noon emptyCluster aliceCert signed.2)
    as Hs. split.
  - apply Hs; [ran|in_range|in_range|]. split; [reflexivity|]. vm_compute.
    split; [discriminate|]. right. reflexivity.
  - intros Hn. apply Hs in Hn as [Hn _]; [discriminate Hn|ran|in_range|in_range].
Defined.

Definition hostSigned := run fake (SignHostCert caKeyName aliceKey ["box.team"] Hour noon) emptyCluster.

Lemma SignHostCert_not_user_witness :
  is_Some (CheckUserCert (Some (cert_of hostSigned.1)) (Some (signer_PublicKey caKeyName)) "box.team" noon).
Proof.
  apply (SignHostCert_not_user (SSH := fakeSSH) fake caKeyName aliceKey ["box.team"] Hour noon emptyCluster
    (cert_of hostSigned.1) hostSigned.2). ran.
Defined.

Definition gatewaySigner : GatewaySigner := {| sg_ca := caKeyName; sg_ttl := 8 * Hour |}.
Definition signedAt := set_clock noon emptyCluster.
Definition signedKey := run fake (Sign gatewaySigner (MarshalAuthorizedKey aliceKey) "alice") signedAt.

Lemma Sign_bounded_witness :
  ∃ out c k, signedKey.1 = Ok out ∧ ParseAuthorizedKey out = Ok (cert_as_key c) ∧
    ParsePublicKey (MarshalAuthorizedKey aliceKey) = Ok k ∧ cert_Key c = k.
Proof.
  destruct signedKey.1 as [out|e] eqn:Hout; [|vm_compute in Hout; discriminate Hout].
  destruct (Sign_bounded (SSH := fakeSSH) fake "ca" 0 gatewaySigner (MarshalAuthorizedKey aliceKey) "alice" signedAt out
    signedKey.2) as (c & k & Hp & Hk & Hck & _).
  - reflexivity.
  - rewrite <- Hout. unfold signedKey. by destruct (run fake (Sign _ _ _) signedAt).
  - in_range.
  - in_range.
  - exists out, c, k. exact (conj eq_refl (conj Hp (conj Hk Hck))).
Defined.

(** ** The gateway *)

Definition gateway : SSHConfig :=
  {| cfg_DefaultNamespace := "team"; cfg_WakeTimeout := 10 * Second; cfg_Now := None |}.

Definition caPublic : string := MarshalAuthorizedKey (signer_PublicKey caKeyName).
Definition server : SSHServer :=
  {| srv_HostSigner := inl "host-key"%string; srv_Config := withDefaults gateway;
     srv_PublicKeyHandler := PublicKeyHandler (withDefaults gateway) (signer_PublicKey caKeyName) |}.

Lemma login_witness :
  ∃ userCA cert rest, ParsePublicKey caPublic = Ok userCA ∧
    as_certificate (cert_as_key aliceCert) = Some cert ∧ cert_ValidPrincipals cert = "alice" :: rest.
Proof.
  destruct (login_needs_valid_certificate (SSH := fakeSSH) fake gateway "host-key" caPublic server
    (cert_as_key aliceCert) signedAt "alice" "0" signedAt) as (userCA & cert & rest & Hu & Hc & Hp & _);
    [reflexivity| |evaluate|exists userCA, cert, rest; exact (conj Hu (conj Hc Hp))].
  unfold NewSSHServer. assert (ParsePublicKey caPublic = Ok (signer_PublicKey caKeyName)) as -> by evaluate.
  reflexivity.
Defined.

Definition loggedIn :=
  run fake (PublicKeyHandler gateway (signer_PublicKey caKeyName) (cert_as_key aliceCert)) signedAt.

Lemma issued_certificate_logs_in_witness : loggedIn.1 = Some ("alice", "0")%string ∧ loggedIn.1 ≠ None.
Proof.
  split; [evaluate|].
  apply (issued_certificate_logs_in (SSH := fakeSSH) fake caKeyName aliceKey "alice" Hour noon emptyCluster
    aliceCert signed.2 gateway signedAt loggedIn.1 loggedIn.2).
  - ran.
  - in_range.
  - in_range.
  - reflexivity.
  - unfold loggedIn. by destruct (run fake (PublicKeyHandler _ _ _) signedAt).
  - vm_compute. split; [discriminate|]. right. reflexivity.
Defined.

Definition toBox : localForwardChannelData := {| lf_DestAddr := "box" |}.
Definition boxTarget : SSHTarget := {| t_Sandbox := "box"; t_Namespace := "team" |}.

Lemma stranger_is_refused_witness :
  trace fake (handleDirectTCPIP gateway (Ok toBox) "mallory" "0" "") (with_box 0 box) =
  trace fake (GetSandbox "team" "box") (with_box 0 box)
    ++ [SomeEvent (EReject Prohibited "not authorized for this sandbox")].
Proof.
  apply (stranger_is_refused fake gateway toBox boxTarget "mallory" "0" "" (with_box 0 box)).
  - reflexivity.
  - intros sb Hsb. vm_compute in Hsb. injection Hsb as <-. discriminate.
Defined.

Lemma wake_terminates_witness :
  ∃ x, (run fake (wakeLoop gateway stopped (time_Add 0 (cfg_WakeTimeout gateway)) (wakeFuel gateway))
          (with_box 0 stopped)).1 = Some x.
Proof.
  destruct (wake_terminates fake gateway stopped 0 (with_box 0 stopped)) as (x & Hx & _);
    [reflexivity|vm_compute; discriminate|exists x; exact Hx].
Defined.

Definition boxUp : Sandbox := with_sb_status (set_PodIP "10.0.0.7" exStatus) box.
Definition boxSession : NamespacedName := nn "team" "box-0000000000".

Lemma session_is_ended_witness :
  ends_session fake (handleDirectTCPIP gateway (Ok toBox) "alice" "0" "") (with_box 0 boxUp)
    (60 * Second) boxSession.
Proof.
  apply (session_is_ended fake); [reflexivity|]. apply list_elem_of_In. vm_compute.
  do 5 right. left. reflexivity.
Defined.

(** ** Sessions *)

Definition sessionReconciler : SandboxSessionReconciler := {| ssr_Now := None |}.
Definition lively : Cluster := put KSession exSession (baseAt (10 * Minute)).
Definition silent : Cluster := put KSession exSession (baseAt (20 * Minute)).
Definition reapedRun := run fake (reconcileActive sessionReconciler exSession) silent.

Lemma stale_session_reaped_witness :
  ∃ s', view KSession reapedRun.2 (okey KSession exSession) = Some s' ∧ reaped exSession s'.
Proof.
  destruct (stale_session_reaped fake sessionReconciler exSession silent noResult reapedRun.2) as (t & Ht & Ho);
    [reflexivity|evaluate|evaluate|evaluate|ran|].
  assert (t = 20 * Minute) as -> by (apply Z.le_antisymm; apply Ht). exact Ho.
Defined.

Definition endedSession : SandboxSession := ended (9 * Minute) ExitReasonDisconnected exSession.
Definition after : Cluster := put KSession endedSession (with_box (10 * Minute) box).
Definition closedRun := run fake (reconcileClosed sessionReconciler endedSession) after.

Lemma idle_clock_advances_witness :
  ∃ sb' : Sandbox, view KSandbox closedRun.2 (sessionSandbox endedSession) = Some sb' ∧
    sb_Status sb' = set_LastActivityTime (later (st_LastActivityTime (sb_Status box)) (9 * Minute)) (sb_Status box).
Proof.
  destruct (idle_clock_advances fake sessionReconciler endedSession after
    {| RequeueAfter := 168 * Hour - Minute |} closedRun.2 (9 * Minute) box) as (sb' & Hv & _ & Hs);
    [reflexivity|reflexivity|evaluate|ran|exists sb'; exact (conj Hv Hs)].
Defined.

Definition reviewed := run fake (session_Reconcile sessionReconciler (okey KSession exSession)) silent.

Lemma session_state_monotone_witness :
  match view KSession reviewed.2 (okey KSession exSession) with
  | Some s' => (state_rank (sst_State (ses_Status exSession)) <= state_rank (sst_State (ses_Status s')))%nat
  | None => sst_State (ses_Status exSession) = SessionStateClosed ∧ aged_out exSession (clock reviewed.2)
  end.
Proof.
  apply (session_state_monotone fake sessionReconciler (okey KSession exSession) exSession silent noResult reviewed.2);
    [reflexivity|evaluate|evaluate|ran].
Defined.

Definition gatewaySession : SandboxSession :=
  started (9 * Minute) (newSession box "0" "alice" "" "1").
Definition beating : Cluster := put KSession gatewaySession (baseAt (11 * Minute)).
Definition visited := run fake (reconcileActive sessionReconciler gatewaySession) beating.

Lemma beating_session_survives_witness : unchanged beating visited.2.
Proof.
  apply (beating_session_survives fake sessionReconciler box "0" "alice" "" "1" gatewaySession beating
    {| RequeueAfter := Minute |} visited.2);
    [reflexivity|vm_compute; split; discriminate|reflexivity|evaluate|vm_compute; discriminate|ran].
Defined.

(** ** Access profiles *)

Definition dataNamespace : KNamespaceObj := {| ns_ObjectMeta := serverMeta "" "data" "uid-ns" 0 [] |}.
Definition withNamespace : Cluster := put KNamespace dataNamespace (baseAt 0).
Definition syncedRun := run fake (syncRoles id exProfile) withNamespace.

Lemma syncRoles_exact_witness : synced exProfile withNamespace [] syncedRun.2.
Proof.
  apply (syncRoles_exact fake id exProfile withNamespace [] syncedRun.2);
    [reflexivity|intros ns; absent|ran].
Defined.

Definition retiring : AccessProfile :=
  {| ap_ObjectMeta := serverMeta "" "reader" "uid-ap" 0 [AccessProfileFinalizer];
     ap_Spec := ap_Spec exProfile; ap_Status := ap_Status exProfile |}.
Definition retired := run fake (finalizeProfile retiring) (put KAccessProfile retiring syncedRun.2).

Lemma profile_finalizer_witness : no_roles retiring retired.2.
Proof.
  apply (profile_finalizer_guards_roles fake retiring (put KAccessProfile retiring syncedRun.2) retired.1 retired.2);
    [evaluate|by_decision| |evaluate].
  unfold retired. by destruct (run fake (finalizeProfile retiring) _).
Defined.

(** ** Names and HTTP *)

Definition webTarget : HTTPTarget := {| ht_Port := "web"; ht_Sandbox := "box"; ht_Namespace := "team" |}.

Lemma ParseHTTPHost_round_trip_witness :
  ParseHTTPHost (formatLabel webTarget +:+ "." +:+ TrimPrefix "park.example" ".") "park.example" = Ok webTarget.
Proof.
  refine (proj1 (ParseHTTPHost_round_trip webTarget "park.example" _ _ _ _ _ _ _) _);
    [evaluate|evaluate|discriminate|discriminate|discriminate|discriminate|evaluate|].
  vm_compute. lia.
Defined.

Lemma ParseHTTPHost_sound_witness :
  normalizeHost "Web--box--team.park.example:443" = formatLabel webTarget +:+ "." +:+ TrimPrefix "park.example" ".".
Proof.
  apply (ParseHTTPHost_sound "Web--box--team.park.example:443" "park.example" webTarget); [discriminate|evaluate].
Defined.

Definition alwaysAlice : Authenticator :=
  {| au_Identify := λ _, Ret (Some ("alice", [])%string); au_StartLogin := λ _, Ret (AuthRedirect [] "/login");
     au_Callback := None |}.
Definition proxyConfig : HTTPProxyConfig :=
  {| hp_BaseDomain := "park.example"; hp_Auth := Some alwaysAlice; hp_DialAddr := None |}.
Definition webRequest : Request :=
  {| req_Method := "GET"; req_Host := "web--box--team.park.example"; req_Path := "/"; req_URL := "/";
     req_Query := []; req_Cookies := []; req_Body := "" |}.

Lemma request_proxied_exactly_witness :
  (run fake (ServeHTTP Ok proxyConfig webRequest) (with_box 0 boxUp)).1 = Proxied "http://10.0.0.7:8080".
Proof.
  apply (proj2 (request_proxied_exactly Ok fake proxyConfig webRequest (with_box 0 boxUp) "http://10.0.0.7:8080")).
  split; [reflexivity|]. exists webTarget, boxUp, (with_box 0 boxUp). eexists.
  split; [evaluate|]. split; [evaluate|]. split; [evaluate|]. split; [evaluate|].
  split; [|split; [discriminate|evaluate]].
  intros _. exists alwaysAlice, "alice"%string, []. split; [reflexivity|]. split; [reflexivity|]. left. reflexivity.
Defined.

Lemma unknown_route_refused_witness :
  ∃ target, ParseHTTPHost (req_Host webRequest) (hp_BaseDomain proxyConfig) = Ok target.
Proof.
  destruct (unknown_route_refused Ok fake proxyConfig webRequest (with_box 0 boxUp) "http://10.0.0.7:8080")
    as (target & sb & Hp & _); [evaluate|exists target; exact Hp].
Defined.
