(* ===== verification/GatewayExamples.v ===== *)
(** * The gateway's HTTP side, the agent and the client at work

    The theorems of CookieAuth.v, SignHTTP.v, Agent.v, Shell.v, Cli.v and
    Commands.v that have hypotheses, applied on the stand-ins of Fake.v,
    FakeSSH.v and FakeMachine.v. *)

From S2P Require Import Prelude GoStrings Utf8 Json Encoding Paths Os KubeTypes ApiTypes Client Files Fake Libs PodSpec.
From S2P Require Import SSHCA FakeSSH SandboxRBAC Bootstrap SandboxNet Agent Shell Http Oidc HTTPProxy CookieAuth SignHTTP Cli.
From S2P Require Import Routing Store SSHJump System Authority Commands FakeMachine Examples.
From Stdlib Require Import String Ascii.
From stdpp Require Import base gmap strings list pretty relations.
From Stdlib Require Import ZArith Lia.
Local Open Scope Z_scope.

#[local] Existing Instance simpleMachinery.
#[local] Existing Instance fakeSSH.
#[local] Existing Instance fakeOIDC.
#[local] Remove Hints fakeTypes : typeclass_instances.
#[local] Remove Hints fakeOIDCTypes : typeclass_instances.

(** ** Cookies and logins *)

Definition gatewayAuth : CookieAuthenticator :=
  {| ca_oauth := {| oc_ClientID := "kubepark"; oc_ClientSecret := "secret"; oc_Endpoint := "https://idp/auth"%string;
                    oc_RedirectURL := "https://park.example/oidc/callback"; oc_Scopes := [ScopeOpenID] |};
     ca_verifier := "kubepark"%string; ca_claim := "email"; ca_hmacKey := "key"; ca_ttl := Hour; ca_secure := true |}.

Definition aliceClaims : sessionClaims := {| Principal := "alice"; Groups := ["dev"]; Expiry := 3600 |}.

Lemma cookie_round_trip_witness : verifyCookie gatewayAuth (signCookie gatewayAuth aliceClaims) = Some aliceClaims.
Proof. apply (cookie_round_trip gatewayAuth aliceClaims); [vm_compute; split; discriminate|evaluate|by repeat constructor]. Defined.

Definition visit (url : string) (cookies query : list (string * string)) : Request :=
  {| req_Method := "GET"; req_Host := "web--box--team.park.example"; req_Path := "/"; req_URL := url;
     req_Query := query; req_Cookies := cookies; req_Body := "" |}.

Definition aliceVisit : Request := visit "/" [(sessionCookie, signCookie gatewayAuth aliceClaims)] [].

(** The payload of Alice's cookie, and what it says. *)
Definition alicePayload : string := claims_Marshal aliceClaims.
Definition aliceObject : list (string * json) :=
  [("p", JString "alice"); ("g", JArray [JString "dev"]); ("e", JNumber "3600")]%string.

Lemma cookie_accepted_exactly_witness :
  (run fake (Identify gatewayAuth aliceVisit) emptyCluster).1 = Some ("alice", ["dev"])%string ∧
  verifyCookie gatewayAuth (signCookie gatewayAuth aliceClaims) = Some aliceClaims.
Proof.
  destruct (cookie_accepted_exactly (W := Cluster) gatewayAuth) as [Hid Hround]. split.
  - apply (Hid fake _ aliceVisit emptyCluster (run fake (Identify gatewayAuth aliceVisit) emptyCluster).1
      emptyCluster); [ran|].
    exists (EncodeToString alicePayload), alicePayload, (JObject aliceObject), 3600.
    split; [evaluate|]. split; [evaluate|]. split; [evaluate|]. split; [evaluate|]. split; [|discriminate].
    apply (claims_object aliceObject {| sl_cells := ["dev"]%string; sl_len := 1 |}).
    + apply Forall_singleton. right. by eexists.
    + apply Forall_singleton. right. by eexists.
    + reflexivity.
  - apply Hround; [vm_compute; split; discriminate|evaluate|by repeat constructor].
Defined.

Definition loginStarted := run fake (StartLogin gatewayAuth (visit "/files" [] [])) emptyCluster.
Definition startCookies : list Cookie := match loginStarted.1 with AuthRedirect cs _ => cs | _ => [] end.
Definition startLocation : string := match loginStarted.1 with AuthRedirect _ l => l | _ => "" end.
Definition startState : string := (run fake randomString emptyCluster).1.

(** The provider's redirect back, to the host the login started on. *)
Definition callbackVisit : Request :=
  visit "/oidc/callback" (jar_send "park" (5 * Minute) (jar_store "park" 0 startCookies []))
    [("state", startState); ("code", "alice")]%string.

Definition calledBack := run fake (Callback gatewayAuth callbackVisit) emptyCluster.

Lemma callback_only_verified_witness :
  ∃ stateRaw, request_Cookie callbackVisit stateCookie = Some stateRaw ∧ (cutState stateRaw).1 = startState.
Proof.
  destruct calledBack.1 as [code msg|cookies location] eqn:Hc; [vm_compute in Hc; discriminate Hc|].
  destruct (callback_only_verified fake gatewayAuth callbackVisit emptyCluster cookies location emptyCluster)
    as (stateRaw & returnTo & token & rawID & idToken & Hs & Hcut & _).
  - apply run_to; [exact Hc|reflexivity].
  - exists stateRaw. split; [exact Hs|]. rewrite Hcut. reflexivity.
Defined.

Lemma identify_leaves r :
  run fake (Identify gatewayAuth r) emptyCluster = ((run fake (Identify gatewayAuth r) emptyCluster).1, emptyCluster).
Proof.
  unfold Identify. destruct (request_Cookie r sessionCookie) as [value|]; [|done].
  destruct (verifyCookie gatewayAuth value) as [c|]; [|done].
  simpl. by destruct (_ <? _).
Qed.

Lemma login_completes_witness :
  startLocation = AuthCodeURL (ca_oauth gatewayAuth) startState None ∧
  ∃ session w, run fake (Callback gatewayAuth callbackVisit) emptyCluster = (AuthRedirect session "/files", w) ∧
    ∀ r, returns_with "park" (6 * Minute) session [] (7 * Minute) r →
      (run fake (Identify gatewayAuth r) emptyCluster).1 = Some ("alice", ["dev"])%string.
Proof.
  destruct (login_completes fake gatewayAuth "park" [] (visit "/files" [] []) emptyCluster startCookies startLocation
    emptyCluster) as (Hloc & Habs & Hl).
  - ran.
  - evaluate.
  - discriminate.
  - split; [apply Habs; evaluate|].
    destruct (Hl 0 (5 * Minute) callbackVisit emptyCluster "alice"%string "alice"%string ["dev"%string] emptyCluster)
      as (session & w & Hcb & Hclean & Hafter).
    + reflexivity.
    + discriminate.
    + reflexivity.
    + exists "alice"%string, "alice"%string, emptyCluster. split; [reflexivity|]. split; reflexivity.
    + evaluate.
    + discriminate.
    + evaluate.
    + by repeat constructor.
    + exists session, w. split.
      { pose proof (Hclean ltac:(evaluate)) as Hc. rewrite Hc in Hcb. exact Hcb. }
      intros r Hr.
      assert (w = emptyCluster) as -> by (apply (f_equal snd) in Hcb; symmetry; exact Hcb).
      apply (Hafter ltac:(vm_compute; split; discriminate) (6 * Minute) [] (7 * Minute) r emptyCluster
        (run fake (Identify gatewayAuth r) emptyCluster).1 emptyCluster Hr). apply identify_leaves.
Defined.

(** ** Signing *)

Definition signServer : SignServer :=
  {| ss_signer := gatewaySigner;
     ss_oidc := {| od_Issuer := "https://idp"; od_ClientID := "kubepark"; od_PrincipalClaim := "email";
                   od_BaseDomain := "park.example"; od_GatewaySSHAddr := ":2222" |};
     ss_verifier := Some "kubepark"%string |}.

Definition signVisit (method body : string) : Request :=
  {| req_Method := method; req_Host := "park.example"; req_Path := "/v1/sign"; req_URL := "/v1/sign"; req_Query := [];
     req_Cookies := []; req_Body := body |}.

Definition badToken : Request := signVisit MethodPost (signBody (MarshalAuthorizedKey aliceKey) "").

Lemma sign_status_exact_witness :
  ∃ verifier req e, ss_verifier signServer = Some verifier ∧ decode_signRequest (req_Body badToken) = Some req ∧
    (run fake (Verify verifier (sr_IDToken req)) signedAt).1 = Err e.
Proof.
  destruct (sign_status_exact (SSH := fakeSSH) fake signServer badToken signedAt
    (run fake (handleSign signServer badToken) signedAt).1 (run fake (handleSign signServer badToken) signedAt).2)
    as (_ & _ & _ & [Hu _] & _).
  - ran.
  - destruct Hu as (_ & Hex); [evaluate|exact Hex].
Defined.

(** ** The client's request, served by the gateway *)

Definition replyOf (a : SignAnswer) : HTTPReply :=
  {| rp_StatusCode := answer_status a; rp_Status := "";
     rp_Body := match a with SignError _ msg => msg +:+ newline | SignJSON _ body => body end |}.

Definition served (method url body : string) : prog HTTPReply :=
  a ← handleSign signServer (signVisit method body); Ret (replyOf a).

Definition onMachine (c : Cluster) (fs : gmap string File) : Machine := {| m_cluster := c; m_files := fs |}.
Definition laptop : Machine := onMachine signedAt ∅.

Lemma runs_to {A} (p : prog A) (w : Machine) (r : A) (w' : Machine) :
  (run (machine served) p w).1 = r → (run (machine served) p w).2 = w' → run (machine served) p w = (r, w').
Proof. intros <- <-. by destruct (run (machine served) p w). Qed.

(** Compares by evaluation, without writing the values out: an encoded
    certificate is thousands of characters long. *)
Ltac compare := lazymatch goal with |- _ = ?b => vm_cast_no_check (eq_refl b) end.
Ltac runs := apply runs_to; compare.

Lemma surjective {A B} (p : A * B) a b : p.1 = a → p.2 = b → p = (a, b).
Proof. intros <- <-. by destruct p. Qed.

Definition alicePub : string := MarshalAuthorizedKey aliceKey.
Definition certRequested := run (machine served) (requestCert Ok "https://gw" alicePub "alice") laptop.
Definition signAnswered :=
  run (machine served) (handleSign signServer (sign_post "park.example" (signBody alicePub "alice"))) laptop.

Lemma login_obtains_certificate_witness :
  is_ok certRequested.1 = true ↔ answer_status signAnswered.1 = StatusOK.
Proof.
  apply (login_obtains_certificate (SSH := fakeSSH) (machine served) Ok signServer "https://gw" "park.example" alicePub "alice"
    laptop signAnswered.1 laptop (replyOf signAnswered.1) certRequested.1 laptop).
  - reflexivity.
  - evaluate.
  - evaluate.
  - runs.
  - apply surjective; compare.
  - split; compare.
  - runs.
Defined.

(** ** The agent *)

Definition agentHostKey : KeyPair := {| PrivatePEM := "host"; PublicAuthorized := MarshalAuthorizedKey (inl "host"%string) |}.
Definition hostCertRun := run fake (SignHostCert caKeyName (inl "host"%string) ["box.team"%string] 0 noon) emptyCluster.
Definition agentHostCert : Certificate := cert_of hostCertRun.1.

Definition agentConfig (owner : string) : AgentConfig :=
  {| ac_Addr := ":2222"; ac_Owner := owner; ac_HostKeyPEM := PrivatePEM agentHostKey;
     ac_HostCertAuthorized := marshalCert agentHostCert; ac_UserCAAuthorized := caPublic; ac_Command := [];
     ac_HomeDir := "/home/sandbox"; ac_Now := None |}.

Definition agentServer (owner : string) : AgentServer :=
  {| as_Addr := ":2222"; as_HostSigner := cert_as_key agentHostCert;
     as_PublicKeyHandler := agentPublicKeyHandler (call ENow) (signer_PublicKey caKeyName) owner;
     as_ChannelHandlers := ["session"; "direct-tcpip"]; as_RequestHandlers := ["tcpip-forward"; "cancel-tcpip-forward"];
     as_SubsystemHandlers := ["sftp"] |}.

(** The server's handler is a function, so the run is computed up to it. *)
Lemma agent_serves owner w :
  owner ≠ ""%string → run fake (NewAgentServer (agentConfig owner)) w = (Ok (agentServer owner), w).
Proof.
  intros Ho%String.eqb_neq. unfold NewAgentServer. cbn [ac_Owner agentConfig]. rewrite Ho.
  assert (signerWithCert (ac_HostKeyPEM (agentConfig owner)) (ac_HostCertAuthorized (agentConfig owner)) =
            Ok (cert_as_key agentHostCert)) as -> by compare.
  assert (ParsePublicKey (ac_UserCAAuthorized (agentConfig owner)) = Ok (signer_PublicKey caKeyName)) as -> by compare.
  reflexivity.
Qed.

Definition admitted := run fake (as_PublicKeyHandler (agentServer "alice") (cert_as_key aliceCert)) signedAt.

Lemma agent_admits_owner_only_witness :
  ∃ userCA cert, ParsePublicKey caPublic = Ok userCA ∧ as_certificate (cert_as_key aliceCert) = Some cert ∧
    ("alice" : string) ∈ cert_ValidPrincipals cert.
Proof.
  destruct (proj1 (agent_admits_owner_only (SSH := fakeSSH) fake (agentConfig "alice") signedAt (agentServer "alice") signedAt
    (cert_as_key aliceCert) signedAt true admitted.2
    eq_refl ltac:(apply agent_serves; discriminate) ltac:(apply run_to; [compare|reflexivity]))) as (userCA & cert & Hu & Hc & _ & Ho & _).
  - reflexivity.
  - exists userCA, cert. exact (conj Hu (conj Hc Ho)).
Defined.

Lemma gateway_agent_agree_witness :
  (run fake (agentPublicKeyHandler (call ENow) (signer_PublicKey caKeyName) "alice" (cert_as_key aliceCert)) signedAt).1 = true.
Proof.
  apply (gateway_agent_agree (SSH := fakeSSH) fake gateway (agentConfig "alice") (signer_PublicKey caKeyName) "alice"
    (cert_as_key aliceCert) signedAt); [reflexivity|reflexivity|]. exists "0"%string. compare.
Defined.

Lemma issued_certificate_opens_own_sandbox_witness :
  (run fake (as_PublicKeyHandler (agentServer "bob") (cert_as_key aliceCert)) signedAt).1 ≠ true.
Proof.
  intros Hb. apply (issued_certificate_opens_own_sandbox (SSH := fakeSSH) fake caKeyName aliceKey "alice" Hour noon emptyCluster
    aliceCert signed.2 (agentConfig "bob") signedAt (agentServer "bob") signedAt signedAt
    (run fake (as_PublicKeyHandler (agentServer "bob") (cert_as_key aliceCert)) signedAt).1 signedAt) in Hb as [Ho _].
  - discriminate Ho.
  - ran.
  - in_range.
  - in_range.
  - reflexivity.
  - apply agent_serves. discriminate.
  - compare.
  - ran.
Defined.

Definition sandboxFiles : gmap string File :=
  list_to_map ((λ p, ("/etc/kubepark/host/" +:+ p.1, {| f_Data := p.2; f_Mode := 256 |}))
    <$> map_to_list (hostKeyData agentHostKey agentHostCert caPublic)).
Definition withOwner : Cluster :=
  {| cl_Sandbox := ∅; cl_Template := ∅; cl_AccessProfile := ∅; cl_Session := ∅;
     cl_Pod := ∅; cl_PVC := ∅; cl_Secret := ∅; cl_NetPol := ∅; cl_ServiceAccount := ∅;
     cl_RoleBinding := ∅; cl_Role := ∅; cl_Namespace := ∅; cl_EndpointSlice := ∅;
     cl_clock := noon; cl_environ := [("KUBEPARK_OWNER", "alice")]%string |}.
Definition podMachine : Machine := onMachine withOwner sandboxFiles.
Definition configured := run (machine served) (ConfigFromEnv []) podMachine.
Definition configRead : AgentConfig := match configured.1 with Ok c => c | Err _ => agentConfig "" end.

Lemma files_mounted : mounted "/etc/kubepark/host" (hostKeyData agentHostKey agentHostCert caPublic) sandboxFiles.
Proof.
  intros k v Hk. unfold hostKeyData in Hk.
  cbn [list_to_map foldr uncurry] in Hk. repeat (apply lookup_insert_Some in Hk as [[<- <-]|[_ Hk]];
    [lazymatch goal with |- ∃ _, _ ∧ _ = ?v => exists {| f_Data := v; f_Mode := 256 |} end; split; compare|]).
  by apply lookup_empty_Some in Hk.
Qed.

Lemma agent_starts_from_host_key_witness :
  ac_Owner configRead = "alice"%string ∧
  ∃ srv, (run (machine served) (NewAgentServer configRead) podMachine).1 = Ok srv.
Proof.
  destruct (agent_starts_from_host_key (SSH := fakeSSH) (machine served) [] podMachine configRead podMachine
    (run (machine served) (NewAgentServer configRead) podMachine).1
    (run (machine served) (NewAgentServer configRead) podMachine).2
    agentHostKey agentHostCert caPublic (inl "host"%string) (inl "host"%string) ["box.team"%string] 0 caKeyName noon)
    as (Ho & srv & Hs & _).
  - exact files_mounted.
  - discriminate.
  - compare.
  - repeat split; compare.
  - reflexivity.
  - reflexivity.
  - compare.
  - runs.
  - by destruct (run (machine served) (NewAgentServer configRead) podMachine).
  - split; [exact Ho|]. exists srv. exact Hs.
Defined.

(** ** Two replicas start *)

(** Both find no authority; the first one's keys are stored, the creation of the
    second is refused and it reads them. *)
Definition emptySite : Site := {| site_vault := {| va_secrets := ∅; va_past := [] |}; site_threads := [] |}.
Definition notFound : error := StatusError StatusReasonNotFound "not found".
Definition alreadyExists : error := StatusError StatusReasonAlreadyExists "already exists".

Definition keysOf (n : string) : KeyPair :=
  {| PrivatePEM := pemEncode ("key" +:+ n); PublicAuthorized := MarshalAuthorizedKey (inl ("pub" +:+ n)) |}.
Definition firstKeys : Secret :=
  let o := caSecret "kubepark-system" (keysOf "1") (keysOf "2") "random" in
  with_meta KSecret (set_server "uid-ca" 1 1 0 None (meta KSecret o)) o.
Definition knowsFirst : prog learned := Ret (AuthorityKeys "kubepark-system" (sec_Data firstKeys)).
Definition raced : Site :=
  {| site_vault := keep firstKeys (site_vault emptySite); site_threads := [knowsFirst; knowsFirst] |}.

Tactic Notation "thread" uconstr(before) "gets" uconstr(x) :=
  eapply rtc_l; [refine (site_call _ before _ _ _ _ x _ _)|].

Lemma raced_reachable : site_reachable raced.
Proof.
  exists emptySite. split; [split; [done|]; split; [cbn; by rewrite map_to_list_empty|done]|].
  do 2 (eapply rtc_l; [exact (site_spawn _ _ _ (p_authority "kubepark-system"))|]).
  thread [] gets (Err notFound); [by split|].
  thread [_] gets (Err notFound); [by split|].
  thread [] gets (Ok ("pub1", "key1")%string); [reflexivity|].
  thread [] gets (Ok ("pub2", "key2")%string); [reflexivity|].
  thread [] gets (Ok "random"%string); [reflexivity|].
  thread [] gets (Ok firstKeys).
  { right. exists firstKeys. split; [reflexivity|]. split; [by eexists _, _, _, _|].
    split; [reflexivity|]. by intros s [= <-]. }
  thread [_] gets (Ok ("pub3", "key3")%string); [reflexivity|].
  thread [_] gets (Ok ("pub4", "key4")%string); [reflexivity|].
  thread [_] gets (Ok "chance"%string); [reflexivity|].
  thread [_] gets (Err alreadyExists); [by left|].
  thread [_] gets (Ok firstKeys).
  { split; [reflexivity|]. intros s [= <-]. split; [left|reflexivity]. }
  apply rtc_refl.
Qed.

Lemma authority_is_one_witness :
  knowsFirst ∈ site_threads raced ∧
  ∃ s, va_secrets (site_vault raced) !! nn "kubepark-system" CASecretName = Some s ∧ sec_Data s = sec_Data firstKeys.
Proof.
  destruct (authority_is_one raced raced raced_reachable (rtc_refl _ _)) as (Hs & _).
  split; [left|]. apply (Hs _ firstKeys); [apply authority_lasting|reflexivity].
Defined.

(** ** The shell *)

(** One session is attached and its shell runs. *)
Definition oneSession : sessionManager :=
  set_sessions 1 [] [0%nat] (ensureShell (Some 0%nat) newSessionManager).2.

Lemma oneSession_reachable : reachable oneSession.
Proof.
  eapply rtc_l; [apply (step_ensure newSessionManager (Some 0%nat)); [done|reflexivity]|].
  eapply rtc_l; [apply (step_attach _ 0%nat []); reflexivity|]. apply rtc_refl.
Qed.

Lemma shell_invariant_witness : sm_attached oneSession = Z.of_nat (length (sm_clients oneSession)).
Proof. apply (shell_invariant oneSession oneSession_reachable). Defined.

Lemma shell_survives_witness : ensureShell (Some 1%nat) oneSession = (Some 0%nat, oneSession).
Proof. apply (shell_survives oneSession 0 oneSession_reachable). reflexivity. Defined.

(** ** The client's keys *)

Definition keysMade := run (machine served) ensureKeyPair laptop.
Definition keyPaths : string * string := match keysMade.1 with Ok p => p | Err _ => ("", "")%string end.

Lemma key_pair_kept_or_made_witness : key_pair_at laptop keysMade.2 keyPaths.1 keyPaths.2.
Proof.
  apply (key_pair_kept_or_made (SSH := fakeSSH) (machine served) laptop keyPaths.1 keyPaths.2 keysMade.2). runs.
Defined.

(** ** The commands *)

Definition pflag (args : list string) : list string * Z :=
  match args with
  | [] => ([], -1)
  | a :: rest => if String.eqb a "--" then (rest, 0) else (args, -1)
  end.

Lemma template_command_reaches_agent_witness :
  ∃ argv0 args, mainArgs (ct_Command (sandboxContainer box exTemplate) ++ ct_Args (sandboxContainer box exTemplate)) =
    argv0 :: agentBinaryName :: args.
Proof.
  destruct (template_command_reaches_agent pflag (λ _, eq_refl) eq_refl box exTemplate) as (argv0 & args & H & _).
  exists argv0, args. exact H.
Defined.

Definition initMachine : Machine :=
  onMachine emptyCluster {["/usr/local/bin/kubepark"%string := {| f_Data := "ELF"; f_Mode := 493 |}]}.
Definition installRun := run (machine served) (installSelf "/kubepark/bin") initMachine.

Lemma install_atomic_witness :
  installRun.1 = Ok tt ∧ installed_whole "/kubepark/bin/agent" initMachine installRun.2.
Proof.
  assert (installRun.1 = Ok tt) as Hok by evaluate. split; [exact Hok|].
  apply (install_atomic (machine served) "/kubepark/bin" initMachine installRun.1 installRun.2); [runs|exact Hok].
Defined.

Definition gatewayFlags : gatewayOptions :=
  {| go_sshAddr := ":2222"; go_httpAddr := ":8080"; go_defaultNamespace := "team"; go_oidcIssuer := "https://idp";
     go_oidcClientID := "kubepark"; go_oidcClientSecret := "secret"; go_principalClaim := "email";
     go_baseDomain := "park.example"; go_certTTL := 8 * Hour |}.

Definition caSecret : Secret :=
  {| sec_ObjectMeta := serverMeta "kubepark" "kubepark-ca" "uid-ca" 0 [];
     sec_Data := list_to_map [(KeyUserCAPrivate, "ca"%string); (KeyCookieHMAC, "key"%string)] |}.

Definition httpSide : httpHandler :=
  {| hh_sign := Some signServer;
     hh_proxy := Some {| hp_BaseDomain := "park.example"; hp_DialAddr := None;
       hp_Auth := Some (cookieAuthenticator
         {| ca_oauth := {| oc_ClientID := "kubepark"; oc_ClientSecret := "secret"; oc_Endpoint := "https://idp/auth"%string;
                           oc_RedirectURL := "https://park.example" +:+ oidcCallbackPath;
                           oc_Scopes := [ScopeOpenID; "email"; "profile"; "groups"] |};
            ca_verifier := "kubepark"%string; ca_claim := "email"; ca_hmacKey := "key"; ca_ttl := 8 * Hour;
            ca_secure := true |}) |} |}.

Lemma httpSide_built w : run fake (buildHTTPHandler gatewayFlags caSecret) w = (Ok (Some httpSide), w).
Proof. reflexivity. Qed.

Lemma gateway_http_only_reads_witness : calls (@is_read) (serveGateway Ok httpSide aliceVisit).
Proof.
  apply (gateway_http_only_reads (SSH := fakeSSH) Ok fake gatewayFlags caSecret emptyCluster httpSide emptyCluster aliceVisit).
  apply httpSide_built.
Defined.

(** A browser without cookies visits a port of a sandbox and is sent to the
    provider, which sends it to the base domain. *)
Definition boxVisit : Request := visit "/" [] [].
Definition sentToProvider := run fake (serveGateway Ok httpSide boxVisit) (with_box 0 boxUp).
Definition providerCookies : list Cookie :=
  match sentToProvider.1 with FromProxy (FromAuth (AuthRedirect cs _)) => cs | _ => [] end.
Definition providerLocation : string :=
  match sentToProvider.1 with FromProxy (FromAuth (AuthRedirect _ l)) => l | _ => "" end.
Definition baseVisit : Request :=
  {| req_Method := "GET"; req_Host := "park.example"; req_Path := oidcCallbackPath; req_URL := oidcCallbackPath;
     req_Query := [("state", startState); ("code", "alice")]%string;
     req_Cookies := jar_send "park.example" Minute (jar_store (normalizeHost (req_Host boxVisit)) 0 providerCookies []);
     req_Body := "" |}.

Lemma browser_login_never_completes_witness :
  providerCookies ≠ [] ∧
  run fake (serveGateway Ok httpSide baseVisit) emptyCluster =
    (FromProxy (FromAuth (AuthError StatusBadRequest "missing state")), emptyCluster).
Proof.
  split; [vm_compute; discriminate|].
  apply (browser_login_never_completes (SSH := fakeSSH) Ok fake gatewayFlags caSecret emptyCluster httpSide emptyCluster boxVisit
    (with_box 0 boxUp) providerCookies providerLocation sentToProvider.2 0 [] Minute baseVisit emptyCluster).
  - apply httpSide_built.
  - discriminate.
  - discriminate.
  - discriminate.
  - apply run_to; [evaluate|reflexivity].
  - reflexivity.
  - reflexivity.
  - reflexivity.
Defined.

(** ** Components side by side *)

(** A connection records its session; a second call starts it. *)
Definition sv0 : Server := sys_server initialSystem.
Definition recorded : SandboxSession :=
  with_meta KSession (set_server "uid-1" 1 1 0 None (newMeta "team" "box-0000000000")) (newSession box "0000000000" "alice" "" "0").
Definition activated : SandboxSession :=
  with_meta KSession (set_server "uid-1" 1 2 0 None (newMeta "team" "box-0000000000")) (started 0 recorded).

Lemma session_records_forward_witness : later_version recorded activated.
Proof.
  eapply (session_records_forward _ _ (nn "team" "box-0000000000") recorded activated).
  - eapply rtc_l; [apply sys_spawn, (c_connection gateway (Ok toBox) "alice" "0" ""); reflexivity|].
    eapply rtc_l; [eapply (sys_call _ [] _ _ _ _ (Ok box)); split; [reflexivity|exact I]|].
    eapply rtc_l; [eapply (sys_call _ [] _ _ _ _ (Ok (zeros 5))); reflexivity|].
    eapply rtc_l; [eapply (sys_call _ [] _ _ _ _ (Ok recorded) (store recorded sv0))|apply rtc_refl].
    right. exists recorded. split; [|split; [reflexivity|]; split; [reflexivity|]; by intros ? [= <-]].
    split; [reflexivity|]. split; [by eexists _, _, _, _|]. apply not_elem_of_nil.
  - eapply rtc_l; [eapply (sys_call _ [] _ _ _ _ 0); reflexivity|].
    eapply rtc_l; [eapply (sys_call _ [] _ _ _ _ (Ok activated) (store activated (store recorded sv0)))|apply rtc_refl].
    right. exists activated. split; [|split; [reflexivity|]; split; [reflexivity|]; by intros ? [= <-]].
    exists recorded. split; [reflexivity|]. split; [reflexivity|]. by eexists _, _.
  - reflexivity.
  - reflexivity.
  - reflexivity.
Defined.
